(** * Circuit construction core of CAR-tor-0.2.4.20: src/or/circuitbuild.c

    A shallow embedding of [circuitbuild.c], module by module:

    - [RouteLen]  : [count_acceptable_nodes], [new_route_len];
    - [CircId]    : [get_unique_circ_id_by_chan];
    - [Extend]    : [circuit_extend] (relay side);
    - [PathBias]  : the path-bias accountant ([pathbias_should_count],
                    [pathbias_count_build_attempt], [pathbias_check_close],
                    the end-of-life probe, scaling and rate measurement);
                    [Binary64] follows the rounding of the scale ratio;
    - [CpathRing] : the cpath ring in memory ([onion_append_to_cpath],
                    [onion_append_hop], [onion_next_hop_in_cpath]);
    - [ExitChoice]: [choose_good_exit_server_general];
    - [PathBuild] : [onion_pick_cpath_exit], [onion_extend_cpath],
                    [onion_populate_cpath], [circuit_append_new_exit];
    - [Handshake] : [circuit_init_cpath_crypto],
                    [circuit_finish_handshake];
    - [RepHist]   : [circuit_rep_hist_note_result];
    - [BuildStep] : [circuit_send_next_onion_skin], the choice of the
                    handshake and [circuit_deliver_create_cell] on an
                    origin circuit.

    Conventions.  C integers are [Z]; where a machine width matters the
    wrap-around is written out ([wrap32]).  Pointers into the global circuit
    list are list positions, guard pointers are identity digests into the
    guard store.  [log_*] calls are left out everywhere; in the accountant
    so are [control_event_*] and [entry_guards_changed], which only feed
    the controller and persistence. *)

From Stdlib Require Import ZArith Lia Bool List String Ascii.
From Stdlib Require Import DecimalString PrimFloat Uint63.
From Stdlib Require Floats.
From stdpp Require Import base option list gmap.
Import ListNotations.

Local Open Scope Z_scope.

(** ** Constants of or.h and channel.h *)

Module OrH.

(** Modelled from the spec: or.h is not under src/.  The spec names the
    circuit purposes (sections 4.2 and 4.6); the numbering is the one of
    Tor 0.2.4's or.h.  The code relies only on their being distinct and on
    the client-side introduction purposes being contiguous. *)
Definition CIRCUIT_PURPOSE_C_GENERAL : Z := 5.
Definition CIRCUIT_PURPOSE_C_INTRODUCING : Z := 6.
Definition CIRCUIT_PURPOSE_C_INTRODUCE_ACK_WAIT : Z := 7.
Definition CIRCUIT_PURPOSE_C_INTRODUCE_ACKED : Z := 8.
Definition CIRCUIT_PURPOSE_C_MEASURE_TIMEOUT : Z := 13.
Definition CIRCUIT_PURPOSE_S_ESTABLISH_INTRO : Z := 14.
Definition CIRCUIT_PURPOSE_S_CONNECT_REND : Z := 16.
Definition CIRCUIT_PURPOSE_S_REND_JOINED : Z := 17.
Definition CIRCUIT_PURPOSE_TESTING : Z := 18.
Definition CIRCUIT_PURPOSE_CONTROLLER : Z := 19.
Definition CIRCUIT_PURPOSE_PATH_BIAS_TESTING : Z := 20.

(** Modelled from the spec: the close reasons of or.h (section 7 names
    them; numbering of Tor 0.2.4).  [END_CIRC_REASON_FLAG_REMOTE] is a
    single bit above every reason code. *)
Definition END_CIRC_REASON_TORPROTOCOL : Z := 1.
Definition END_CIRC_REASON_CONNECTFAILED : Z := 6.
Definition END_CIRC_REASON_CHANNEL_CLOSED : Z := 8.
Definition END_CIRC_REASON_FINISHED : Z := 9.
Definition END_CIRC_REASON_TIMEOUT : Z := 10.
Definition END_CIRC_REASON_FLAG_REMOTE : Z := 512.

(** Modelled from the spec: relay commands and stream end reasons of or.h
    (section 4.6, end-of-life probe; numbering of Tor 0.2.4). *)
Definition RELAY_COMMAND_BEGIN : Z := 1.
Definition RELAY_COMMAND_END : Z := 3.
Definition END_STREAM_REASON_MISC : Z := 1.
Definition END_STREAM_REASON_EXITPOLICY : Z := 4.

(** Modelled from the spec: [DEFAULT_ROUTE_LEN] of or.h (section 4.2:
    base length is 3). *)
Definition DEFAULT_ROUTE_LEN : Z := 3.

(** [uint32_t] arithmetic wraps modulo 2^32. *)
Definition wrap32 (z : Z) : Z := z mod 2 ^ 32.

(** A pointer used as a condition: true when it is not NULL. *)
Definition non_null {A : Type} (p : option A) : bool :=
  match p with Some _ => true | None => false end.

End OrH.

(** ** Route length *)

Module RouteLen.
Import OrH.

(** The fields of [node_t] that [count_acceptable_nodes] reads;
    [has_descriptor] stands for the result of [node_has_descriptor(node)]. *)
Record node_t := mk_node {
  is_running : bool;
  is_valid : bool;
  has_descriptor : bool
}.

(** One turn of the SMARTLIST_FOREACH body of [count_acceptable_nodes]:
    three [continue]s, then [++num]. *)
Definition count_step (num : Z) (node : node_t) : Z :=
  if negb (is_running node) then num
  else if negb (is_valid node) then num
  else if negb (has_descriptor node) then num
  else num + 1.

Definition count_acceptable_nodes (nodes : list node_t) : Z :=
  fold_left count_step nodes 0.

(** [new_route_len(purpose, exit, nodes)]; [exit] is the possibly-NULL
    [extend_info_t *], of which only the presence is read. *)
Definition new_route_len {extend_info_t : Type}
    (purpose : Z) (exit : option extend_info_t) (nodes : list node_t) : Z :=
  let routelen := DEFAULT_ROUTE_LEN in
  let routelen :=
    if non_null exit
       && negb (purpose =? CIRCUIT_PURPOSE_TESTING)
       && negb (purpose =? CIRCUIT_PURPOSE_S_ESTABLISH_INTRO)
    then routelen + 1 else routelen in
  let num_acceptable_routers := count_acceptable_nodes nodes in
  if num_acceptable_routers <? 2 then -1
  else if num_acceptable_routers <? routelen then num_acceptable_routers
  else routelen.

(** The specification's notion of an acceptable node. *)
Definition acceptable (node : node_t) : bool :=
  is_running node && is_valid node && has_descriptor node.

End RouteLen.

(** ** Circuit-ID allocator *)

Module CircId.
Import OrH.

Inductive circ_id_type_t :=
| CIRC_ID_TYPE_LOWER
| CIRC_ID_TYPE_HIGHER
| CIRC_ID_TYPE_NEITHER.

Definition circ_id_type_eqb (a b : circ_id_type_t) : bool :=
  match a, b with
  | CIRC_ID_TYPE_LOWER, CIRC_ID_TYPE_LOWER
  | CIRC_ID_TYPE_HIGHER, CIRC_ID_TYPE_HIGHER
  | CIRC_ID_TYPE_NEITHER, CIRC_ID_TYPE_NEITHER => true
  | _, _ => false
  end.

(** The fields of [channel_t] the allocator touches.  [circid_t] is
    [uint32_t]; [id_in_use] stands for [circuit_id_in_use_on_channel(id, chan)],
    a lookup in the circuit registry's (channel, id) table. *)
Record channel_t := mk_channel {
  circ_id_type : circ_id_type_t;
  wide_circ_ids : bool;
  next_circ_id : Z;
  id_in_use : Z -> bool
}.

Definition set_next_circ_id (chan : channel_t) (n : Z) : channel_t :=
  {| circ_id_type := circ_id_type chan;
     wide_circ_ids := wide_circ_ids chan;
     next_circ_id := n;
     id_in_use := id_in_use chan |}.

(** Modelled from the spec: the channel side of
    [circuit_set_n_circid_chan] (circuitlist.c is not under src/).
    Section 4.1: on success the (channel, id) pair is bound to the
    circuit; from then on [circuit_id_in_use_on_channel(id, chan)] holds,
    and the other identifiers read as before. *)
Definition bind_circ_id (chan : channel_t) (id : Z) : channel_t :=
  {| circ_id_type := circ_id_type chan;
     wide_circ_ids := wide_circ_ids chan;
     next_circ_id := next_circ_id chan;
     id_in_use := fun x => (x =? id) || id_in_use chan x |}.

(** Width of the identifier below the side bit. *)
Definition id_width (chan : channel_t) : Z :=
  if wide_circ_ids chan then 31 else 15.

(** [max_range = (chan->wide_circ_ids) ? (1u<<31) : (1u<<15)]. *)
Definition max_range (chan : channel_t) : Z :=
  if wide_circ_ids chan then Z.shiftl 1 31 else Z.shiftl 1 15.

(** [high_bit = (chan->circ_id_type == CIRC_ID_TYPE_HIGHER) ? max_range : 0]. *)
Definition high_bit (chan : channel_t) : Z :=
  if circ_id_type_eqb (circ_id_type chan) CIRC_ID_TYPE_HIGHER
  then max_range chan else 0.

(** What one call leaves behind: the returned identifier, the cursor
    [chan->next_circ_id], and the number of calls made to
    [circuit_id_in_use_on_channel]. *)
Record alloc_result := mk_alloc {
  alloc_id : Z;
  alloc_next : Z;
  alloc_probes : Z
}.

(** The do-while loop.  [fuel] bounds the number of turns; [None] would
    mean the bound was too small ([circ_id_loop_total] shows it never is). *)
Fixpoint circ_id_loop (fuel : nat) (in_use : Z -> bool) (max_r high : Z)
    (next attempts probes : Z) : option alloc_result :=
  match fuel with
  | O => None
  | S fuel' =>
      (* test_circ_id = chan->next_circ_id++; *)
      let test_circ_id := next in
      let next := wrap32 (next + 1) in
      let '(test_circ_id, next) :=
        if (test_circ_id =? 0) || (test_circ_id >=? max_r)
        then (1, 2) else (test_circ_id, next) in
      (* if (++attempts > max_range) return 0; *)
      let attempts := wrap32 (attempts + 1) in
      if attempts >? max_r then Some (mk_alloc 0 next probes)
      else
        let test_circ_id := Z.lor test_circ_id high in
        if in_use test_circ_id
        then circ_id_loop fuel' in_use max_r high next attempts (probes + 1)
        else Some (mk_alloc test_circ_id next (probes + 1))
  end.

Definition get_unique_circ_id_by_chan (chan : channel_t)
  : option (Z * channel_t * Z) :=
  if circ_id_type_eqb (circ_id_type chan) CIRC_ID_TYPE_NEITHER
  then Some (0, chan, 0)
  else
    match circ_id_loop (S (Z.to_nat (max_range chan))) (id_in_use chan)
            (max_range chan) (high_bit chan) (next_circ_id chan) 0 0 with
    | Some r => Some (alloc_id r, set_next_circ_id chan (alloc_next r),
                      alloc_probes r)
    | None => None
    end.

End CircId.

(** ** Extend responder (relay side) *)

Module Extend.
Import OrH.

(** [tor_digest_is_zero]: every byte of the digest is zero. *)
Definition tor_digest_is_zero (d : list Z) : bool := forallb (Z.eqb 0) d.

(** [tor_memeq(a, b, DIGEST_LEN)] on two digests. *)
Definition tor_memeq (a b : list Z) : bool := bool_decide (a = b).

(** [ec.orport_ipv4] as [circuit_extend] reads it: the port, and what
    [tor_addr_is_null] and [tor_addr_is_internal(addr, 0)] answer for the
    address. *)
Record tor_addr_port_t := mk_addr_port {
  addr : Z;
  port : Z;
  addr_is_null : bool;
  addr_is_internal : bool
}.

(** The parsed [extend_cell_t]; [create_cell] is the carried onion skin. *)
Record extend_cell_t := mk_extend_cell {
  orport_ipv4 : tor_addr_port_t;
  node_id : list Z;
  create_cell : list Z
}.

Record extend_info_t := mk_extend_info {
  ei_identity_digest : list Z;
  ei_addr : Z;
  ei_port : Z
}.

Inductive circuit_state_t :=
| CIRCUIT_STATE_BUILDING
| CIRCUIT_STATE_CHAN_WAIT
| CIRCUIT_STATE_OPEN.

(** The fields of the inbound [or_circuit_t] that [circuit_extend] and
    [circuit_deliver_create_cell] touch. *)
Record circuit_t := mk_circuit {
  n_chan : option CircId.channel_t;
  n_hop : option extend_info_t;
  n_chan_create_cell : option (list Z);
  n_circ_id : Z;
  state : circuit_state_t;
  marked_for_close : option Z;
  p_chan_identity_digest : list Z
}.

(** Calls that reach the channel layer, in the order they are made. *)
Inductive chan_call :=
| Call_channel_get_for_extend (id : list Z) (a : Z)
| Call_channel_connect (a p : Z) (id : list Z)
| Call_append_cell_to_circuit_queue (circ_id : Z) (cell : list Z).

(** What the collaborators answer during one call of [circuit_extend]:
    [server_mode(get_options())], the option [ExtendAllowPrivateAddresses],
    the result of [relay_header_unpack] followed by [extend_cell_parse]
    ([None] when the parse returns a negative value), the answers of
    [channel_get_for_extend] and [channel_connect], and the return value of
    [create_cell_format_relayed]. *)
Record extend_env := mk_extend_env {
  server_mode : bool;
  ExtendAllowPrivateAddresses : bool;
  parsed : option extend_cell_t;
  get_for_extend_chan : option CircId.channel_t;
  get_for_extend_should_launch : bool;
  connect_chan : option CircId.channel_t;
  create_cell_format_result : Z
}.

Record extend_result := mk_extend_result {
  ret : Z;
  circ_after : circuit_t;
  chan_calls : list chan_call
}.

(** Modelled from the spec: [circuit_set_n_circid_chan(circ, id, chan)]
    (circuitlist.c is not under src/).  Section 4.1: the (channel, id)
    pair is bound to the circuit.  The circuit's [n_circ_id] becomes [id],
    its [n_chan] the channel, on which [id] is in use from now on. *)
Definition circuit_set_n_circid_chan (circ : circuit_t) (id : Z)
    (chan : CircId.channel_t) : circuit_t :=
  mk_circuit (Some (CircId.bind_circ_id chan id)) (n_hop circ)
    (n_chan_create_cell circ) id (state circ) (marked_for_close circ)
    (p_chan_identity_digest circ).

(** [circuit_deliver_create_cell(circ, create_cell, relayed = 1)] on a
    circuit that is not an origin circuit; [chan] is [circ->n_chan]
    (asserted non-NULL by the caller's assignment).  The channel is read
    back from [n_chan] of the resulting circuit: its cursor has moved, and
    the identifier chosen is bound on it before the cell is formatted. *)
Definition circuit_deliver_create_cell (env : extend_env) (circ : circuit_t)
    (chan : CircId.channel_t) (cell : list Z) : option extend_result :=
  match CircId.get_unique_circ_id_by_chan chan with
  | None => None
  | Some (id, chan', _) =>
      let circ := mk_circuit (Some chan') (n_hop circ) (n_chan_create_cell circ)
                    (n_circ_id circ) (state circ) (marked_for_close circ)
                    (p_chan_identity_digest circ) in
      if id =? 0 then Some (mk_extend_result (-1) circ [])
      else
        let circ := circuit_set_n_circid_chan circ id chan' in
        if create_cell_format_result env <? 0
        then Some (mk_extend_result (-1) circ [])
        else Some (mk_extend_result 0 circ
                     [Call_append_cell_to_circuit_queue (n_circ_id circ) cell])
  end.

Definition circuit_extend (env : extend_env) (circ : circuit_t)
  : option extend_result :=
  if non_null (n_chan circ) then Some (mk_extend_result (-1) circ [])
  else if non_null (n_hop circ) then Some (mk_extend_result (-1) circ [])
  else if negb (server_mode env) then Some (mk_extend_result (-1) circ [])
  else
    match parsed env with
    | None => Some (mk_extend_result (-1) circ [])
    | Some ec =>
        if (port (orport_ipv4 ec) =? 0) || addr_is_null (orport_ipv4 ec)
        then Some (mk_extend_result (-1) circ [])
        else if addr_is_internal (orport_ipv4 ec)
                && negb (ExtendAllowPrivateAddresses env)
        then Some (mk_extend_result (-1) circ [])
        else if tor_digest_is_zero (node_id ec)
        then Some (mk_extend_result (-1) circ [])
        else if tor_memeq (node_id ec) (p_chan_identity_digest circ)
        then Some (mk_extend_result (-1) circ [])
        else
          let call1 := Call_channel_get_for_extend (node_id ec)
                         (addr (orport_ipv4 ec)) in
          match get_for_extend_chan env with
          | None =>
              let circ := mk_circuit (n_chan circ)
                  (Some (mk_extend_info (node_id ec) (addr (orport_ipv4 ec))
                           (port (orport_ipv4 ec))))
                  (Some (create_cell ec)) (n_circ_id circ)
                  CIRCUIT_STATE_CHAN_WAIT (marked_for_close circ)
                  (p_chan_identity_digest circ) in
              if get_for_extend_should_launch env then
                let call2 := Call_channel_connect (addr (orport_ipv4 ec))
                               (port (orport_ipv4 ec)) (node_id ec) in
                match connect_chan env with
                | None =>
                    (* circuit_mark_for_close(circ, CONNECTFAILED) *)
                    let circ := mk_circuit (n_chan circ) (n_hop circ)
                        (n_chan_create_cell circ) (n_circ_id circ) (state circ)
                        (Some END_CIRC_REASON_CONNECTFAILED)
                        (p_chan_identity_digest circ) in
                    Some (mk_extend_result 0 circ [call1; call2])
                | Some _ => Some (mk_extend_result 0 circ [call1; call2])
                end
              else Some (mk_extend_result 0 circ [call1])
          | Some chan =>
              match circuit_deliver_create_cell env circ chan (create_cell ec) with
              | None => None
              | Some r =>
                  Some (mk_extend_result (ret r) (circ_after r)
                          (call1 :: chan_calls r))
              end
          end
    end.

End Extend.

(** ** Arithmetic of C doubles *)

(** The guard counters are C [double]s.  The accountant uses only the
    operations below; the embedding is generic in them, and
    [binary64_ops] is the instance for IEEE binary64, the arithmetic of
    the code. *)
Class DoubleOps (D : Type) := {
  d_of_int : Z -> D;          (* (double) n *)
  d_add : D -> D -> D;
  d_sub : D -> D -> D;
  d_mul : D -> D -> D;
  d_div : D -> D -> D;
  d_ltb : D -> D -> bool;     (* a < b *)
  d_leb : D -> D -> bool      (* a <= b *)
}.

(** Conversion of a C [int] to binary64. *)
Definition float_of_int (z : Z) : PrimFloat.float :=
  if z <? 0
  then PrimFloat.opp (PrimFloat.of_uint63 (Uint63.of_Z (- z)))
  else PrimFloat.of_uint63 (Uint63.of_Z z).

#[global] Instance binary64_ops : DoubleOps PrimFloat.float := {|
  d_of_int := float_of_int;
  d_add := PrimFloat.add;
  d_sub := PrimFloat.sub;
  d_mul := PrimFloat.mul;
  d_div := PrimFloat.div;
  d_ltb := PrimFloat.ltb;
  d_leb := PrimFloat.leb
|}.

(** ** Path-bias accountant: data *)

Module PathBiasData.
Import OrH.

(** [path_state_t], in the order of the enum. *)
Inductive path_state_t :=
| PATH_STATE_NEW_CIRC
| PATH_STATE_BUILD_ATTEMPTED
| PATH_STATE_BUILD_SUCCEEDED
| PATH_STATE_USE_ATTEMPTED
| PATH_STATE_USE_SUCCEEDED
| PATH_STATE_USE_FAILED
| PATH_STATE_ALREADY_COUNTED.

(** Modelled from the spec: the integer value of each [path_state_t]
    (or.h is not under src/); the order is the lifecycle order of
    section 3, which is also the order of [pathbias_state_to_string]. *)
Definition path_state_rank (s : path_state_t) : Z :=
  match s with
  | PATH_STATE_NEW_CIRC => 0
  | PATH_STATE_BUILD_ATTEMPTED => 1
  | PATH_STATE_BUILD_SUCCEEDED => 2
  | PATH_STATE_USE_ATTEMPTED => 3
  | PATH_STATE_USE_SUCCEEDED => 4
  | PATH_STATE_USE_FAILED => 5
  | PATH_STATE_ALREADY_COUNTED => 6
  end.

Definition path_state_eqb (a b : path_state_t) : bool :=
  path_state_rank a =? path_state_rank b.

Inductive pathbias_shouldcount_t :=
| PATHBIAS_SHOULDCOUNT_UNDECIDED
| PATHBIAS_SHOULDCOUNT_IGNORED
| PATHBIAS_SHOULDCOUNT_COUNTED.

Inductive cpath_state_t :=
| CPATH_STATE_CLOSED
| CPATH_STATE_AWAITING_KEYS
| CPATH_STATE_OPEN.

Definition cpath_state_eqb (a b : cpath_state_t) : bool :=
  match a, b with
  | CPATH_STATE_CLOSED, CPATH_STATE_CLOSED
  | CPATH_STATE_AWAITING_KEYS, CPATH_STATE_AWAITING_KEYS
  | CPATH_STATE_OPEN, CPATH_STATE_OPEN => true
  | _, _ => false
  end.

Record extend_info_t := mk_extend_info {
  identity_digest : list Z
}.

(** One hop of the cpath ring.  The ring is kept as the list of its hops
    starting at the head: [cpath] is its first element, [cpath->next] the
    second (the head again in a ring of one), [cpath->prev] the last. *)
Record crypt_path_t := mk_hop {
  hop_state : cpath_state_t;
  extend_info : option extend_info_t
}.

Inductive channel_state_t :=
| CHANNEL_STATE_CLOSED
| CHANNEL_STATE_CLOSING
| CHANNEL_STATE_ERROR
| CHANNEL_STATE_MAINT
| CHANNEL_STATE_OPENING
| CHANNEL_STATE_OPEN.

Inductive channel_close_reason_t :=
| CHANNEL_NOT_CLOSING
| CHANNEL_CLOSE_REQUESTED
| CHANNEL_CLOSE_FROM_BELOW
| CHANNEL_CLOSE_FOR_ERROR.

Record channel_t := mk_channel {
  chan_state : channel_state_t;
  reason_for_closing : channel_close_reason_t;
  chan_identity_digest : list Z
}.

Definition channel_usable_for_probe (c : channel_t) : bool :=
  match chan_state c with
  | CHANNEL_STATE_OPEN | CHANNEL_STATE_MAINT => true
  | _ => false
  end.

Definition close_requested (c : channel_t) : bool :=
  match reason_for_closing c with
  | CHANNEL_CLOSE_REQUESTED => true
  | _ => false
  end.

Record cpath_build_state_t := mk_build_state {
  onehop_tunnel : bool;
  desired_path_len : Z
}.

(** [origin_circuit_t], with the fields of its [base_] inlined
    ([purpose], [marked_for_close], [n_chan], the two timestamps). *)
Record origin_circuit_t := mk_origin {
  purpose : Z;
  marked_for_close : Z;
  n_chan : option channel_t;
  timestamp_began : Z;
  timestamp_dirty : Z;
  cpath : list crypt_path_t;
  build_state : cpath_build_state_t;
  has_opened : bool;
  path_state : path_state_t;
  pathbias_shouldcount : pathbias_shouldcount_t;
  pathbias_probe_id : Z;
  pathbias_probe_nonce : Z;
  global_identifier : Z
}.

Definition set_purpose (c : origin_circuit_t) (v : Z) :=
  mk_origin v (marked_for_close c) (n_chan c) (timestamp_began c)
    (timestamp_dirty c) (cpath c) (build_state c) (has_opened c)
    (path_state c) (pathbias_shouldcount c) (pathbias_probe_id c)
    (pathbias_probe_nonce c) (global_identifier c).

Definition set_timestamp_began (c : origin_circuit_t) (v : Z) :=
  mk_origin (purpose c) (marked_for_close c) (n_chan c) v
    (timestamp_dirty c) (cpath c) (build_state c) (has_opened c)
    (path_state c) (pathbias_shouldcount c) (pathbias_probe_id c)
    (pathbias_probe_nonce c) (global_identifier c).

Definition set_timestamp_dirty (c : origin_circuit_t) (v : Z) :=
  mk_origin (purpose c) (marked_for_close c) (n_chan c) (timestamp_began c)
    v (cpath c) (build_state c) (has_opened c)
    (path_state c) (pathbias_shouldcount c) (pathbias_probe_id c)
    (pathbias_probe_nonce c) (global_identifier c).

Definition set_path_state (c : origin_circuit_t) (v : path_state_t) :=
  mk_origin (purpose c) (marked_for_close c) (n_chan c) (timestamp_began c)
    (timestamp_dirty c) (cpath c) (build_state c) (has_opened c)
    v (pathbias_shouldcount c) (pathbias_probe_id c)
    (pathbias_probe_nonce c) (global_identifier c).

Definition set_pathbias_shouldcount (c : origin_circuit_t)
    (v : pathbias_shouldcount_t) :=
  mk_origin (purpose c) (marked_for_close c) (n_chan c) (timestamp_began c)
    (timestamp_dirty c) (cpath c) (build_state c) (has_opened c)
    (path_state c) v (pathbias_probe_id c)
    (pathbias_probe_nonce c) (global_identifier c).

Definition set_pathbias_probe_id (c : origin_circuit_t) (v : Z) :=
  mk_origin (purpose c) (marked_for_close c) (n_chan c) (timestamp_began c)
    (timestamp_dirty c) (cpath c) (build_state c) (has_opened c)
    (path_state c) (pathbias_shouldcount c) v
    (pathbias_probe_nonce c) (global_identifier c).

Definition set_pathbias_probe_nonce (c : origin_circuit_t) (v : Z) :=
  mk_origin (purpose c) (marked_for_close c) (n_chan c) (timestamp_began c)
    (timestamp_dirty c) (cpath c) (build_state c) (has_opened c)
    (path_state c) (pathbias_shouldcount c) (pathbias_probe_id c)
    v (global_identifier c).

(** An entry of [global_circuitlist]: an origin circuit, or a circuit for
    which [CIRCUIT_IS_ORIGIN] is false. *)
Inductive circuit_entry :=
| OriginCircuit (c : origin_circuit_t)
| OrCircuit.

End PathBiasData.

(** ** Path-bias accountant: guards, options and the shared state *)

Module PathBias.
Import OrH.
Export PathBiasData.

Section Accountant.
Context {D : Type} {DO : DoubleOps D}.

(** The accounting fields of [entry_guard_t].  A guard pointer is modelled
    by the guard's identity digest, the key under which the guard store
    holds it; [guard->identity] is that key. *)
Record entry_guard_t := mk_guard {
  circ_attempts : D;
  circ_successes : D;
  successful_circuits_closed : D;
  collapsed_circuits : D;
  unusable_circuits : D;
  timeouts : D;
  use_attempts : D;
  use_successes : D;
  path_bias_noticed : bool;
  path_bias_warned : bool;
  path_bias_extreme : bool;
  path_bias_use_noticed : bool;
  path_bias_use_extreme : bool;
  path_bias_disabled : bool;
  bad_since : Z
}.

(** The guard with its eight counters replaced; the flags and [bad_since]
    are kept. *)
Definition with_counters (g : entry_guard_t)
    (ca cs scc cc uc t ua us : D) : entry_guard_t :=
  mk_guard ca cs scc cc uc t ua us
    (path_bias_noticed g) (path_bias_warned g) (path_bias_extreme g)
    (path_bias_use_noticed g) (path_bias_use_extreme g)
    (path_bias_disabled g) (bad_since g).

Definition set_circ_attempts (g : entry_guard_t) (v : D) :=
  with_counters g v (circ_successes g) (successful_circuits_closed g)
    (collapsed_circuits g) (unusable_circuits g) (timeouts g)
    (use_attempts g) (use_successes g).

Definition set_circ_successes (g : entry_guard_t) (v : D) :=
  with_counters g (circ_attempts g) v (successful_circuits_closed g)
    (collapsed_circuits g) (unusable_circuits g) (timeouts g)
    (use_attempts g) (use_successes g).

Definition set_successful_circuits_closed (g : entry_guard_t) (v : D) :=
  with_counters g (circ_attempts g) (circ_successes g) v
    (collapsed_circuits g) (unusable_circuits g) (timeouts g)
    (use_attempts g) (use_successes g).

Definition set_collapsed_circuits (g : entry_guard_t) (v : D) :=
  with_counters g (circ_attempts g) (circ_successes g)
    (successful_circuits_closed g) v (unusable_circuits g) (timeouts g)
    (use_attempts g) (use_successes g).

Definition set_unusable_circuits (g : entry_guard_t) (v : D) :=
  with_counters g (circ_attempts g) (circ_successes g)
    (successful_circuits_closed g) (collapsed_circuits g) v (timeouts g)
    (use_attempts g) (use_successes g).

Definition set_timeouts (g : entry_guard_t) (v : D) :=
  with_counters g (circ_attempts g) (circ_successes g)
    (successful_circuits_closed g) (collapsed_circuits g)
    (unusable_circuits g) v (use_attempts g) (use_successes g).

Definition set_use_attempts (g : entry_guard_t) (v : D) :=
  with_counters g (circ_attempts g) (circ_successes g)
    (successful_circuits_closed g) (collapsed_circuits g)
    (unusable_circuits g) (timeouts g) v (use_successes g).

Definition set_use_successes (g : entry_guard_t) (v : D) :=
  with_counters g (circ_attempts g) (circ_successes g)
    (successful_circuits_closed g) (collapsed_circuits g)
    (unusable_circuits g) (timeouts g) (use_attempts g) v.

Definition with_flags (g : entry_guard_t)
    (noticed warned extreme use_noticed use_extreme disabled : bool)
    (since : Z) : entry_guard_t :=
  mk_guard (circ_attempts g) (circ_successes g)
    (successful_circuits_closed g) (collapsed_circuits g)
    (unusable_circuits g) (timeouts g) (use_attempts g) (use_successes g)
    noticed warned extreme use_noticed use_extreme disabled since.

Definition set_path_bias_noticed (g : entry_guard_t) :=
  with_flags g true (path_bias_warned g) (path_bias_extreme g)
    (path_bias_use_noticed g) (path_bias_use_extreme g)
    (path_bias_disabled g) (bad_since g).

Definition set_path_bias_warned (g : entry_guard_t) :=
  with_flags g (path_bias_noticed g) true (path_bias_extreme g)
    (path_bias_use_noticed g) (path_bias_use_extreme g)
    (path_bias_disabled g) (bad_since g).

Definition set_path_bias_extreme (g : entry_guard_t) :=
  with_flags g (path_bias_noticed g) (path_bias_warned g) true
    (path_bias_use_noticed g) (path_bias_use_extreme g)
    (path_bias_disabled g) (bad_since g).

Definition set_path_bias_use_noticed (g : entry_guard_t) :=
  with_flags g (path_bias_noticed g) (path_bias_warned g)
    (path_bias_extreme g) true (path_bias_use_extreme g)
    (path_bias_disabled g) (bad_since g).

Definition set_path_bias_use_extreme (g : entry_guard_t) :=
  with_flags g (path_bias_noticed g) (path_bias_warned g)
    (path_bias_extreme g) (path_bias_use_noticed g) true
    (path_bias_disabled g) (bad_since g).

(** [guard->path_bias_disabled = 1; guard->bad_since = approx_time();] *)
Definition set_path_bias_disabled (g : entry_guard_t) (now : Z) :=
  with_flags g (path_bias_noticed g) (path_bias_warned g)
    (path_bias_extreme g) (path_bias_use_noticed g)
    (path_bias_use_extreme g) true now.

(** The options of [or_options_t] the accountant reads. *)
Record or_options_t := mk_options {
  UseEntryGuards : Z;
  PathBiasCircThreshold : Z;
  PathBiasNoticeRate : D;
  PathBiasWarnRate : D;
  PathBiasExtremeRate : D;
  PathBiasDropGuards : Z;
  PathBiasScaleThreshold : Z;
  PathBiasUseThreshold : Z;
  PathBiasNoticeUseRate : D;
  PathBiasExtremeUseRate : D;
  PathBiasScaleUseThreshold : Z
}.

(** What the collaborators answer during one call into the accountant:
    the clocks, the four random bytes [crypto_rand] writes over the nonce
    (as the [uint32_t] they form), the stream id
    [get_unique_stream_id_by_circ] hands out (0 when none is left) and the
    return value of [relay_send_command_from_edge]. *)
Record extern_t := mk_extern {
  approx_time : Z;
  tor_gettimeofday : Z;
  time_now : Z;
  crypto_rand_u32 : Z;
  unique_stream_id : Z;
  relay_send_result : Z
}.

(** The calls out of the accountant that are recorded: the relay cells
    handed to [relay_send_command_from_edge] and the circuits handed to
    [circuit_mark_for_close].  [entry_guards_changed], [control_event_*]
    and [log_*] are not recorded, so [ext_calls] speaks of these two kinds
    of call only. *)
Inductive ext_call :=
| Call_relay_send_command_from_edge
    (stream_id : Z) (circ : nat) (relay_command : Z)
    (payload : string) (payload_len : Z)
| Call_circuit_mark_for_close (circ : nat) (reason : Z).

(** The state shared by all circuits: [global_circuitlist] (a circuit
    pointer is a position in it), the guard store behind
    [entry_guard_get_by_id_digest], and the calls made so far. *)
Record world := mk_world {
  global_circuitlist : list circuit_entry;
  entry_guards : gmap (list Z) entry_guard_t;
  ext_calls : list ext_call
}.

(** State and failure: [None] is a crash (a NULL pointer dereferenced,
    a failed [tor_assert]). *)
Definition M (A : Type) : Type := world -> option (A * world).

Definition ret {A : Type} (a : A) : M A := fun w => Some (a, w).

Definition bind {A B : Type} (m : M A) (k : A -> M B) : M B :=
  fun w => match m w with
           | Some (a, w') => k a w'
           | None => None
           end.

Definition crash {A : Type} : M A := fun _ => None.

Definition get_origin (i : nat) : M origin_circuit_t :=
  fun w => match global_circuitlist w !! i with
           | Some (OriginCircuit c) => Some (c, w)
           | _ => None
           end.

Definition put_origin (i : nat) (c : origin_circuit_t) : M unit :=
  fun w => Some (tt, mk_world (<[i := OriginCircuit c]> (global_circuitlist w))
                       (entry_guards w) (ext_calls w)).

(** [entry_guard_get_by_id_digest(digest)]; [None] is NULL. *)
Definition entry_guard_get_by_id_digest (digest : list Z)
  : M (option entry_guard_t) :=
  fun w => Some (entry_guards w !! digest, w).

Definition put_guard (digest : list Z) (g : entry_guard_t) : M unit :=
  fun w => Some (tt, mk_world (global_circuitlist w)
                       (<[digest := g]> (entry_guards w)) (ext_calls w)).

Definition emit (c : ext_call) : M unit :=
  fun w => Some (tt, mk_world (global_circuitlist w) (entry_guards w)
                       (ext_calls w ++ [c])).

End Accountant.

Arguments entry_guard_t D : clear implicits.
Arguments or_options_t D : clear implicits.
Arguments world D : clear implicits.
Arguments M D A : clear implicits.

Notation "'let*' x ':=' m 'in' k" := (bind m (fun x => k))
  (at level 10, x name, m at level 100, k at level 200, only parsing).

(** ** Path-bias accountant: tunables *)

(** Modelled from the spec: [networkstatus_get_param] (networkstatus.c is
    not under src/) over the parameters of the current consensus
    ([None]: no consensus, or the parameter is not in it).  Section 4.6: a
    tunable is the consensus parameter with a default; a value read from
    the consensus is brought into [min_val, max_val]. *)
Definition consensus_param (net_params : string -> option Z)
    (param_name : string) (default_val min_val max_val : Z) : Z :=
  match net_params param_name with
  | None => default_val
  | Some v => if v <? min_val then min_val
              else if v >? max_val then max_val else v
  end.

Definition INT32_MAX : Z := 2147483647.

Section Tunables.
Context {D : Type} {DO : DoubleOps D}.
Variable options : or_options_t D.

(** [networkstatus_get_param(NULL, param_name, default_val, min_val,
    max_val)], which the accountant calls for every tunable; the function
    itself is a collaborator and stays a parameter here. *)
Variable networkstatus_get_param : string -> Z -> Z -> Z -> Z.

Definition pathbias_get_min_circs : Z :=
  if PathBiasCircThreshold options >=? 5 then PathBiasCircThreshold options
  else networkstatus_get_param "pb_mincircs" 150 5 INT32_MAX.

Definition pathbias_get_notice_rate : D :=
  if d_leb (d_of_int 0) (PathBiasNoticeRate options)
  then PathBiasNoticeRate options
  else d_div (d_of_int (networkstatus_get_param "pb_noticepct" 70 0 100))
             (d_of_int 100).

Definition pathbias_get_warn_rate : D :=
  if d_leb (d_of_int 0) (PathBiasWarnRate options)
  then PathBiasWarnRate options
  else d_div (d_of_int (networkstatus_get_param "pb_warnpct" 50 0 100))
             (d_of_int 100).

Definition pathbias_get_extreme_rate : D :=
  if d_leb (d_of_int 0) (PathBiasExtremeRate options)
  then PathBiasExtremeRate options
  else d_div (d_of_int (networkstatus_get_param "pb_extremepct" 30 0 100))
             (d_of_int 100).

Definition pathbias_get_dropguards : Z :=
  if PathBiasDropGuards options >=? 0 then PathBiasDropGuards options
  else networkstatus_get_param "pb_dropguards" 0 0 1.

Definition pathbias_get_scale_threshold : Z :=
  if PathBiasScaleThreshold options >=? 10 then PathBiasScaleThreshold options
  else networkstatus_get_param "pb_scalecircs" 300 10 INT32_MAX.

(** The two consensus parameters behind the scale ratio. *)
Definition pb_scalefactor : Z :=
  networkstatus_get_param "pb_scalefactor" 2 2 INT32_MAX.

Definition pb_multfactor : Z :=
  networkstatus_get_param "pb_multfactor" 1 1 pb_scalefactor.

Definition pathbias_get_scale_ratio : D :=
  let denominator := pb_scalefactor in
  d_div (d_of_int pb_multfactor) (d_of_int denominator).

Definition pathbias_get_min_use : Z :=
  if PathBiasUseThreshold options >=? 3 then PathBiasUseThreshold options
  else networkstatus_get_param "pb_minuse" 20 3 INT32_MAX.

Definition pathbias_get_notice_use_rate : D :=
  if d_leb (d_of_int 0) (PathBiasNoticeUseRate options)
  then PathBiasNoticeUseRate options
  else d_div (d_of_int (networkstatus_get_param "pb_noticeusepct" 80 0 100))
             (d_of_int 100).

Definition pathbias_get_extreme_use_rate : D :=
  if d_leb (d_of_int 0) (PathBiasExtremeUseRate options)
  then PathBiasExtremeUseRate options
  else d_div (d_of_int (networkstatus_get_param "pb_extremeusepct" 60 0 100))
             (d_of_int 100).

Definition pathbias_get_scale_use_threshold : Z :=
  if PathBiasScaleUseThreshold options >=? 10
  then PathBiasScaleUseThreshold options
  else networkstatus_get_param "pb_scaleuse" 100 10 INT32_MAX.

(** ** Path-bias accountant: which circuits count *)

Definition pathbias_is_new_circ_attempt (circ : origin_circuit_t) : bool :=
  match cpath circ with
  | _ :: second :: _ =>
      cpath_state_eqb (hop_state second) CPATH_STATE_AWAITING_KEYS
  | _ => false
  end.

(** The purposes [pathbias_should_count] refuses, together with
    [UseEntryGuards == 0]. *)
Definition uncounted_purpose (circ : origin_circuit_t) : bool :=
  (UseEntryGuards options =? 0)
  || (purpose circ =? CIRCUIT_PURPOSE_TESTING)
  || (purpose circ =? CIRCUIT_PURPOSE_CONTROLLER)
  || (purpose circ =? CIRCUIT_PURPOSE_S_CONNECT_REND)
  || (purpose circ =? CIRCUIT_PURPOSE_S_REND_JOINED)
  || ((purpose circ >=? CIRCUIT_PURPOSE_C_INTRODUCING)
      && (purpose circ <=? CIRCUIT_PURPOSE_C_INTRODUCE_ACKED)).

(** [pathbias_should_count(circ)]: the answer, and the circuit with the
    answer cached in [pathbias_shouldcount]. *)
Definition pathbias_should_count (circ : origin_circuit_t)
  : bool * origin_circuit_t :=
  if uncounted_purpose circ
  then (false, set_pathbias_shouldcount circ PATHBIAS_SHOULDCOUNT_IGNORED)
  else if onehop_tunnel (build_state circ)
          || (desired_path_len (build_state circ) =? 1)
  then (false, set_pathbias_shouldcount circ PATHBIAS_SHOULDCOUNT_IGNORED)
  else (true, set_pathbias_shouldcount circ PATHBIAS_SHOULDCOUNT_COUNTED).

(** [circ->cpath->extend_info->identity_digest] when both pointers on the
    way are set. *)
Definition first_hop_digest (circ : origin_circuit_t) : option (list Z) :=
  match cpath circ with
  | hop :: _ =>
      match extend_info hop with
      | Some ei => Some (identity_digest ei)
      | None => None
      end
  | [] => None
  end.

(** One turn of the loop of [pathbias_count_circs_in_states]: whether the
    circuit is counted, and the circuit as the turn leaves it. *)
Definition count_circ_turn (guard : list Z) (from to : path_state_t)
    (circ : circuit_entry) : bool * circuit_entry :=
  match circ with
  | OrCircuit => (false, circ)
  | OriginCircuit ocirc =>
      if negb (marked_for_close ocirc =? 0) then (false, circ)
      else
        match first_hop_digest ocirc with
        | None => (false, circ)
        | Some digest =>
            if (path_state_rank from <=? path_state_rank (path_state ocirc))
               && (path_state_rank (path_state ocirc) <=? path_state_rank to)
            then
              let '(counted, ocirc) := pathbias_should_count ocirc in
              (counted && bool_decide (guard = digest), OriginCircuit ocirc)
            else (false, circ)
        end
  end.

Fixpoint count_circs_loop (guard : list Z) (from to : path_state_t)
    (circs : list circuit_entry) (open_circuits : Z)
  : Z * list circuit_entry :=
  match circs with
  | [] => (open_circuits, [])
  | circ :: rest =>
      let '(hit, circ) := count_circ_turn guard from to circ in
      let open_circuits := if hit then open_circuits + 1 else open_circuits in
      let '(n, rest) := count_circs_loop guard from to rest open_circuits in
      (n, circ :: rest)
  end.

Definition pathbias_count_circs_in_states (guard : list Z)
    (from to : path_state_t) (circs : list circuit_entry)
  : Z * list circuit_entry :=
  count_circs_loop guard from to circs 0.

(** ** Path-bias accountant: rates and scaling of one guard

    The functions below work on one guard ([guard] is its identity, [g]
    its record) and on the global circuit list, which the counting loop
    rewrites (it caches [pathbias_should_count] in the circuits it
    looks at). *)

Variable ext : extern_t.

Definition pathbias_get_close_success_count (guard : list Z)
    (g : entry_guard_t D) (circs : list circuit_entry)
  : D * list circuit_entry :=
  let '(n, circs) :=
    pathbias_count_circs_in_states guard PATH_STATE_BUILD_SUCCEEDED
      PATH_STATE_USE_SUCCEEDED circs in
  (d_add (successful_circuits_closed g) (d_of_int n), circs).

Definition pathbias_get_use_success_count (guard : list Z)
    (g : entry_guard_t D) (circs : list circuit_entry)
  : D * list circuit_entry :=
  let '(n, circs) :=
    pathbias_count_circs_in_states guard PATH_STATE_USE_ATTEMPTED
      PATH_STATE_USE_SUCCEEDED circs in
  (d_add (use_successes g) (d_of_int n), circs).

(** The arguments of the rate warnings call both success counts again;
    only what this does to the circuit list is kept. *)
Definition log_rate_counts (guard : list Z) (g : entry_guard_t D)
    (circs : list circuit_entry) : list circuit_entry :=
  let circs := snd (pathbias_get_use_success_count guard g circs) in
  snd (pathbias_get_close_success_count guard g circs).

Definition pathbias_measure_use_rate (guard : list Z) (g : entry_guard_t D)
    (circs : list circuit_entry) : entry_guard_t D * list circuit_entry :=
  if d_ltb (d_of_int pathbias_get_min_use) (use_attempts g) then
    let '(cnt, circs) := pathbias_get_use_success_count guard g circs in
    if d_ltb (d_div cnt (use_attempts g)) pathbias_get_extreme_use_rate then
      if negb (pathbias_get_dropguards =? 0) then
        if negb (path_bias_disabled g)
        then (set_path_bias_disabled g (approx_time ext),
              log_rate_counts guard g circs)
        else (g, circs)
      else if negb (path_bias_use_extreme g)
      then (set_path_bias_use_extreme g, log_rate_counts guard g circs)
      else (g, circs)
    else
      let '(cnt, circs) := pathbias_get_use_success_count guard g circs in
      if d_ltb (d_div cnt (use_attempts g)) pathbias_get_notice_use_rate then
        if negb (path_bias_use_noticed g)
        then (set_path_bias_use_noticed g, log_rate_counts guard g circs)
        else (g, circs)
      else (g, circs)
  else (g, circs).

Definition pathbias_measure_close_rate (guard : list Z) (g : entry_guard_t D)
    (circs : list circuit_entry) : entry_guard_t D * list circuit_entry :=
  if d_ltb (d_of_int pathbias_get_min_circs) (circ_attempts g) then
    let '(cnt, circs) := pathbias_get_close_success_count guard g circs in
    if d_ltb (d_div cnt (circ_attempts g)) pathbias_get_extreme_rate then
      if negb (pathbias_get_dropguards =? 0) then
        if negb (path_bias_disabled g)
        then (set_path_bias_disabled g (approx_time ext),
              log_rate_counts guard g circs)
        else (g, circs)
      else if negb (path_bias_extreme g)
      then (set_path_bias_extreme g, log_rate_counts guard g circs)
      else (g, circs)
    else
      let '(cnt, circs) := pathbias_get_close_success_count guard g circs in
      if d_ltb (d_div cnt (circ_attempts g)) pathbias_get_warn_rate then
        if negb (path_bias_warned g)
        then (set_path_bias_warned g, log_rate_counts guard g circs)
        else (g, circs)
      else
        let '(cnt, circs) := pathbias_get_close_success_count guard g circs in
        if d_ltb (d_div cnt (circ_attempts g)) pathbias_get_notice_rate then
          if negb (path_bias_noticed g)
          then (set_path_bias_noticed g, log_rate_counts guard g circs)
          else (g, circs)
        else (g, circs)
  else (g, circs).

Definition pathbias_scale_close_rates (guard : list Z) (g : entry_guard_t D)
    (circs : list circuit_entry) : entry_guard_t D * list circuit_entry :=
  if d_ltb (d_of_int pathbias_get_scale_threshold) (circ_attempts g) then
    let scale_ratio := pathbias_get_scale_ratio in
    let '(opened_attempts, circs) :=
      pathbias_count_circs_in_states guard PATH_STATE_BUILD_ATTEMPTED
        PATH_STATE_BUILD_ATTEMPTED circs in
    let '(opened_built, circs) :=
      pathbias_count_circs_in_states guard PATH_STATE_BUILD_SUCCEEDED
        PATH_STATE_USE_FAILED circs in
    let g := set_circ_attempts g
      (d_sub (circ_attempts g) (d_of_int (opened_attempts + opened_built))) in
    let g := set_circ_successes g
      (d_sub (circ_successes g) (d_of_int opened_built)) in
    let g := set_circ_attempts g (d_mul (circ_attempts g) scale_ratio) in
    let g := set_circ_successes g (d_mul (circ_successes g) scale_ratio) in
    let g := set_timeouts g (d_mul (timeouts g) scale_ratio) in
    let g := set_successful_circuits_closed g
      (d_mul (successful_circuits_closed g) scale_ratio) in
    let g := set_collapsed_circuits g
      (d_mul (collapsed_circuits g) scale_ratio) in
    let g := set_unusable_circuits g
      (d_mul (unusable_circuits g) scale_ratio) in
    let g := set_circ_attempts g
      (d_add (circ_attempts g) (d_of_int (opened_attempts + opened_built))) in
    let g := set_circ_successes g
      (d_add (circ_successes g) (d_of_int opened_built)) in
    (g, circs)
  else (g, circs).

Definition pathbias_scale_use_rates (guard : list Z) (g : entry_guard_t D)
    (circs : list circuit_entry) : entry_guard_t D * list circuit_entry :=
  if d_ltb (d_of_int pathbias_get_scale_use_threshold) (use_attempts g) then
    let scale_ratio := pathbias_get_scale_ratio in
    let '(opened_attempts, circs) :=
      pathbias_count_circs_in_states guard PATH_STATE_USE_ATTEMPTED
        PATH_STATE_USE_SUCCEEDED circs in
    let g := set_use_attempts g
      (d_sub (use_attempts g) (d_of_int opened_attempts)) in
    let g := set_use_attempts g (d_mul (use_attempts g) scale_ratio) in
    let g := set_use_successes g (d_mul (use_successes g) scale_ratio) in
    let g := set_use_attempts g
      (d_add (use_attempts g) (d_of_int opened_attempts)) in
    (g, circs)
  else (g, circs).

(** [entry_guard_inc_circ_attempt_count(guard)]: the return value, the
    guard and the circuit list. *)
Definition entry_guard_inc_circ_attempt_count (guard : list Z)
    (g : entry_guard_t D) (circs : list circuit_entry)
  : Z * entry_guard_t D * list circuit_entry :=
  let '(g, circs) := pathbias_measure_close_rate guard g circs in
  if path_bias_disabled g then (-1, g, circs)
  else
    let '(g, circs) := pathbias_scale_close_rates guard g circs in
    let g := set_circ_attempts g (d_add (circ_attempts g) (d_of_int 1)) in
    (0, g, circs).

(** Run a function of one guard and the circuit list on the guard stored
    under [guard] (the caller holds a non-NULL pointer to it). *)
Definition on_guard {A : Type} (guard : list Z)
    (f : entry_guard_t D -> list circuit_entry
         -> A * entry_guard_t D * list circuit_entry) : M D A :=
  fun w =>
    match entry_guards w !! guard with
    | None => None
    | Some g =>
        let '(a, g, circs) := f g (global_circuitlist w) in
        Some (a, mk_world circs (<[guard := g]> (entry_guards w)) (ext_calls w))
    end.

(** ** Path-bias accountant: counting on a circuit

    [circ] is a circuit pointer: a position in [global_circuitlist]. *)

(** [pathbias_should_count(circ)] through the pointer. *)
Definition call_pathbias_should_count (circ : nat) : M D bool :=
  let* c := get_origin circ in
  let '(r, c) := pathbias_should_count c in
  let* _ := put_origin circ c in ret r.

(** The guard lookup shared by the counting functions:
    [if (circ->cpath && circ->cpath->extend_info)
       guard = entry_guard_get_by_id_digest(...identity_digest);]
    The result is the guard pointer, [None] for NULL. *)
Definition guard_of_first_hop (circ : nat) : M D (option (list Z)) :=
  let* c := get_origin circ in
  match first_hop_digest c with
  | Some digest =>
      let* g := entry_guard_get_by_id_digest digest in
      ret (match g with Some _ => Some digest | None => None end)
  | None => ret None
  end.

(** [guard = entry_guard_get_by_id_digest(
               circ->cpath->extend_info->identity_digest);]
    with no check of the two pointers on the way. *)
Definition guard_of_first_hop_unchecked (circ : nat)
  : M D (option (list Z)) :=
  let* c := get_origin circ in
  match first_hop_digest c with
  | Some digest =>
      let* g := entry_guard_get_by_id_digest digest in
      ret (match g with Some _ => Some digest | None => None end)
  | None => crash
  end.

Definition set_path_state_at (circ : nat) (s : path_state_t) : M D unit :=
  let* c := get_origin circ in
  put_origin circ (set_path_state c s).

Definition pathbias_count_build_attempt (circ : nat) : M D Z :=
  let* counted := call_pathbias_should_count circ in
  if negb counted then ret 0
  else
    let* c := get_origin circ in
    if pathbias_is_new_circ_attempt c then
      if negb (has_opened c) then
        let* guard :=
          match first_hop_digest c with
          | Some digest =>
              let* g := entry_guard_get_by_id_digest digest in
              ret (match g with Some _ => Some digest | None => None end)
          | None =>
              match n_chan c with
              | Some chan =>
                  let* g := entry_guard_get_by_id_digest (chan_identity_digest chan) in
                  ret (match g with
                       | Some _ => Some (chan_identity_digest chan)
                       | None => None
                       end)
              | None => ret None
              end
          end in
        match guard with
        | Some guard =>
            if path_state_eqb (path_state c) PATH_STATE_NEW_CIRC then
              let* _ := set_path_state_at circ PATH_STATE_BUILD_ATTEMPTED in
              let* r := on_guard guard (entry_guard_inc_circ_attempt_count guard) in
              if r <? 0 then ret (- END_CIRC_REASON_TORPROTOCOL)
              else ret 0
            else ret 0
        | None => ret 0
        end
      else ret 0
    else ret 0.

Definition pathbias_count_build_success (circ : nat) : M D unit :=
  let* counted := call_pathbias_should_count circ in
  if negb counted then ret tt
  else
    let* c := get_origin circ in
    if negb (has_opened c) then
      let* guard := guard_of_first_hop circ in
      match guard with
      | Some guard =>
          if path_state_eqb (path_state c) PATH_STATE_BUILD_ATTEMPTED then
            let* _ := set_path_state_at circ PATH_STATE_BUILD_SUCCEEDED in
            on_guard guard (fun g circs =>
              (tt, set_circ_successes g (d_add (circ_successes g) (d_of_int 1)),
               circs))
          else ret tt
      | None => ret tt
      end
    else ret tt.

Definition pathbias_count_use_attempt (circ : nat) : M D unit :=
  let* counted := call_pathbias_should_count circ in
  if negb counted then ret tt
  else
    let* c := get_origin circ in
    if path_state_rank (path_state c)
       <? path_state_rank PATH_STATE_BUILD_SUCCEEDED
    then ret tt
    else if path_state_rank (path_state c)
            <? path_state_rank PATH_STATE_USE_ATTEMPTED
    then
      let* guard := guard_of_first_hop_unchecked circ in
      let* _ :=
        match guard with
        | Some guard =>
            on_guard guard (fun g circs =>
              let '(g, circs) := pathbias_measure_use_rate guard g circs in
              let '(g, circs) := pathbias_scale_use_rates guard g circs in
              (tt, set_use_attempts g (d_add (use_attempts g) (d_of_int 1)),
               circs))
        | None => ret tt
        end in
      set_path_state_at circ PATH_STATE_USE_ATTEMPTED
    else ret tt.

Definition pathbias_mark_use_success (circ : nat) : M D unit :=
  let* counted := call_pathbias_should_count circ in
  if negb counted then ret tt
  else
    let* c := get_origin circ in
    let* _ :=
      if path_state_rank (path_state c)
         <? path_state_rank PATH_STATE_USE_ATTEMPTED
      then pathbias_count_use_attempt circ
      else ret tt in
    set_path_state_at circ PATH_STATE_USE_SUCCEEDED.

Definition pathbias_mark_use_rollback (circ : nat) : M D unit :=
  let* c := get_origin circ in
  if path_state_eqb (path_state c) PATH_STATE_USE_SUCCEEDED
  then put_origin circ (set_path_state c PATH_STATE_USE_ATTEMPTED)
  else ret tt.

Definition pathbias_count_use_success (circ : nat) : M D unit :=
  let* counted := call_pathbias_should_count circ in
  if negb counted then ret tt
  else
    let* c := get_origin circ in
    if negb (path_state_eqb (path_state c) PATH_STATE_USE_SUCCEEDED)
    then ret tt
    else
      let* guard := guard_of_first_hop_unchecked circ in
      match guard with
      | Some guard =>
          on_guard guard (fun g circs =>
            (tt, set_use_successes g (d_add (use_successes g) (d_of_int 1)),
             circs))
      | None => ret tt
      end.

Definition pathbias_count_successful_close (circ : nat) : M D unit :=
  let* counted := call_pathbias_should_count circ in
  if negb counted then ret tt
  else
    let* guard := guard_of_first_hop circ in
    match guard with
    | Some guard =>
        on_guard guard (fun g circs =>
          (tt, set_successful_circuits_closed g
                 (d_add (successful_circuits_closed g) (d_of_int 1)), circs))
    | None => ret tt
    end.

Definition pathbias_count_collapse (circ : nat) : M D unit :=
  let* counted := call_pathbias_should_count circ in
  if negb counted then ret tt
  else
    let* guard := guard_of_first_hop circ in
    match guard with
    | Some guard =>
        on_guard guard (fun g circs =>
          (tt, set_collapsed_circuits g
                 (d_add (collapsed_circuits g) (d_of_int 1)), circs))
    | None => ret tt
    end.

Definition pathbias_count_use_failed (circ : nat) : M D unit :=
  let* counted := call_pathbias_should_count circ in
  if negb counted then ret tt
  else
    let* guard := guard_of_first_hop circ in
    match guard with
    | Some guard =>
        on_guard guard (fun g circs =>
          (tt, set_unusable_circuits g
                 (d_add (unusable_circuits g) (d_of_int 1)), circs))
    | None => ret tt
    end.

Definition pathbias_count_timeout (circ : nat) : M D unit :=
  let* counted := call_pathbias_should_count circ in
  if negb counted then ret tt
  else
    let* c := get_origin circ in
    if path_state_eqb (path_state c) PATH_STATE_USE_SUCCEEDED then ret tt
    else
      let* guard := guard_of_first_hop circ in
      match guard with
      | Some guard =>
          on_guard guard (fun g circs =>
            (tt, set_timeouts g (d_add (timeouts g) (d_of_int 1)), circs))
      | None => ret tt
      end.

(** ** Path-bias accountant: the end-of-life probe *)

(** Decimal rendering of an octet, as [%d] prints it. *)
Definition dec_octet (z : Z) : string :=
  NilZero.string_of_uint (N.to_uint (Z.to_N z)).

(** Modelled from the spec: [tor_dup_ip] (util.c is not under src/), the
    dotted quad of an IPv4 address given in host order; section 4.6 writes
    the probe address as 0.a.b.c. *)
Definition tor_dup_ip (addr : Z) : string :=
  String.append (dec_octet (Z.land (Z.shiftr addr 24) 255))
    (String.append "."
      (String.append (dec_octet (Z.land (Z.shiftr addr 16) 255))
        (String.append "."
          (String.append (dec_octet (Z.land (Z.shiftr addr 8) 255))
            (String.append "." (dec_octet (Z.land addr 255))))))).

(** Modelled from the spec: [circuit_change_purpose] (circuituse.c is not
    under src/); section 4.6, probe step 1: the purpose becomes the new
    one. *)
Definition circuit_change_purpose (circ : nat) (new_purpose : Z)
  : M D unit :=
  let* c := get_origin circ in
  put_origin circ (set_purpose c new_purpose).

Definition pathbias_send_usable_probe (circ : nat) : M D Z :=
  let* ocirc := get_origin circ in
  (* cpath_layer = ocirc->cpath->prev; *)
  match last (cpath ocirc) with
  | None => crash
  | Some cpath_layer =>
      if negb (cpath_state_eqb (hop_state cpath_layer) CPATH_STATE_OPEN)
      then ret (-1)
      else if (purpose ocirc =? CIRCUIT_PURPOSE_PATH_BIAS_TESTING)
              && negb (pathbias_probe_id ocirc =? 0)
      then ret (-1)
      else if match n_chan ocirc with
              | None => true
              | Some chan => negb (channel_usable_for_probe chan)
              end
      then ret (-1)
      else
        let* _ := circuit_change_purpose circ
                    CIRCUIT_PURPOSE_PATH_BIAS_TESTING in
        let* ocirc := get_origin circ in
        let ocirc := set_timestamp_began ocirc (tor_gettimeofday ext) in
        (* crypto_rand over the nonce, then nonce &= 0x00ffffff *)
        let ocirc := set_pathbias_probe_nonce ocirc (crypto_rand_u32 ext) in
        let ocirc := set_pathbias_probe_nonce ocirc
                       (Z.land (pathbias_probe_nonce ocirc) 16777215) in
        let probe_nonce := tor_dup_ip (pathbias_probe_nonce ocirc) in
        let payload := String.append probe_nonce ":25" in
        let payload_len := Z.of_nat (String.length payload) + 1 in
        let ocirc := set_pathbias_probe_id ocirc (unique_stream_id ext) in
        let* _ := put_origin circ ocirc in
        if pathbias_probe_id ocirc =? 0 then ret (-1)
        else
          let* _ := emit (Call_relay_send_command_from_edge
                            (pathbias_probe_id ocirc) circ
                            RELAY_COMMAND_BEGIN payload payload_len) in
          if relay_send_result ext <? 0 then ret (-1)
          else
            let* ocirc := get_origin circ in
            let* _ := put_origin circ
                        (set_timestamp_dirty ocirc (time_now ext)) in
            ret 0
  end.

(** A cell as [pathbias_check_probe_response] reads it: the relay header
    that [relay_header_unpack] yields, and the bytes of the payload after
    the header ([cell->payload + RELAY_HEADER_SIZE]). *)
Record relay_cell := mk_relay_cell {
  rh_command : Z;
  rh_stream_id : Z;
  rh_length : Z;
  relay_body : list Byte.byte
}.

Definition byte_at (body : list Byte.byte) (n : nat) : Z :=
  Z.of_N (Byte.to_N (nth n body Byte.x00)).

Definition get_uint8 (body : list Byte.byte) : Z := byte_at body 0.

(** [ntohl(get_uint32(p))]: the four bytes at [p], most significant
    first. *)
Definition ntohl_get_uint32 (body : list Byte.byte) (off : nat) : Z :=
  byte_at body off * 16777216 + byte_at body (off + 1) * 65536
  + byte_at body (off + 2) * 256 + byte_at body (off + 3).

(** [circuit_mark_for_close(circ, reason)] belongs to the circuit
    registry; the call is recorded. *)
Definition circuit_mark_for_close (circ : nat) (reason : Z) : M D unit :=
  emit (Call_circuit_mark_for_close circ reason).

Definition pathbias_check_probe_response (circ : nat) (cell : relay_cell)
  : M D Z :=
  let* ocirc := get_origin circ in
  (* tor_assert(circ->purpose == CIRCUIT_PURPOSE_PATH_BIAS_TESTING); *)
  if negb (purpose ocirc =? CIRCUIT_PURPOSE_PATH_BIAS_TESTING) then crash
  else
    let reason :=
      if rh_length cell >? 0 then get_uint8 (relay_body cell)
      else END_STREAM_REASON_MISC in
    if (rh_command cell =? RELAY_COMMAND_END)
       && (reason =? END_STREAM_REASON_EXITPOLICY)
       && (pathbias_probe_id ocirc =? rh_stream_id cell)
    then
      if rh_length cell <? 9 then ret (- END_CIRC_REASON_TORPROTOCOL)
      else
        let ipv4_host := ntohl_get_uint32 (relay_body cell) 1 in
        if ipv4_host =? pathbias_probe_nonce ocirc then
          let* _ := pathbias_mark_use_success circ in
          let* _ := circuit_mark_for_close circ END_CIRC_REASON_FINISHED in
          ret 0
        else ret (-1)
    else ret (-1).

(** ** Path-bias accountant: close accounting *)

Definition pathbias_check_close (circ : nat) (reason : Z) : M D Z :=
  let* counted := call_pathbias_should_count circ in
  if negb counted then ret 0
  else
    let* ocirc := get_origin circ in
    let done :=
      let* _ := set_path_state_at circ PATH_STATE_ALREADY_COUNTED in
      ret 0 in
    match path_state ocirc with
    | PATH_STATE_BUILD_SUCCEEDED =>
        let* _ :=
          if negb (Z.land reason END_CIRC_REASON_FLAG_REMOTE =? 0)
          then pathbias_count_collapse circ
          else if (Z.land reason (Z.lnot END_CIRC_REASON_FLAG_REMOTE)
                   =? END_CIRC_REASON_CHANNEL_CLOSED)
                  && match n_chan ocirc with
                     | Some chan => negb (close_requested chan)
                     | None => false
                     end
          then pathbias_count_collapse circ
          else pathbias_count_successful_close circ in
        done
    | PATH_STATE_USE_ATTEMPTED =>
        let* r := pathbias_send_usable_probe circ in
        if r =? 0 then ret (-1)
        else
          let* _ := pathbias_count_use_failed circ in
          done
    | PATH_STATE_USE_SUCCEEDED =>
        let* _ := pathbias_count_successful_close circ in
        let* _ := pathbias_count_use_success circ in
        done
    | PATH_STATE_USE_FAILED =>
        let* _ := pathbias_count_use_failed circ in
        done
    | PATH_STATE_NEW_CIRC
    | PATH_STATE_BUILD_ATTEMPTED
    | PATH_STATE_ALREADY_COUNTED => done
    end.

End Tunables.
End PathBias.

(** ** The cpath ring in memory *)

Module CpathRing.
Import PathBiasData.

(** A [crypt_path_t] in memory: an address is a key of the heap, a pointer
    is an address or NULL.  Of the payload the fields are kept that the
    list view of the ring ([PathBiasData.crypt_path_t]) has. *)
Record crypt_path_cell := mk_cell {
  next : option nat;
  prev : option nat;
  cell_state : cpath_state_t;
  cell_extend_info : option extend_info_t
}.

Abbreviation heap := (gmap nat crypt_path_cell).

Definition set_next (c : crypt_path_cell) (v : option nat) :=
  mk_cell v (prev c) (cell_state c) (cell_extend_info c).
Definition set_prev (c : crypt_path_cell) (v : option nat) :=
  mk_cell (next c) v (cell_state c) (cell_extend_info c).
Definition set_cell_state (c : crypt_path_cell) (v : cpath_state_t) :=
  mk_cell (next c) (prev c) v (cell_extend_info c).
Definition set_cell_extend_info (c : crypt_path_cell)
    (v : option extend_info_t) :=
  mk_cell (next c) (prev c) (cell_state c) v.

(** [p->field = v]: a store through a pointer; [None] when the pointer is
    NULL or dangling. *)
Definition store (p : option nat)
    (f : crypt_path_cell -> crypt_path_cell) (h : heap) : option heap :=
  match p with
  | Some a =>
      match h !! a with
      | Some c => Some (<[a := f c]> h)
      | None => None
      end
  | None => None
  end.

(** [p->field]: a load through a pointer. *)
Definition load {A : Type} (p : option nat) (f : crypt_path_cell -> A)
    (h : heap) : option A :=
  match p with
  | Some a => f <$> h !! a
  | None => None
  end.

(** [onion_append_to_cpath(head_ptr, new_hop)]; [head] is the pointer
    [head_ptr] points to.  The result is the heap and that pointer after
    the call. *)
Definition onion_append_to_cpath (head : option nat) (new_hop : nat)
    (h : heap) : option (heap * option nat) :=
  match head with
  | Some _ =>
      (* new_hop->next = head; *)
      h ← store (Some new_hop) (fun c => set_next c head) h;
      (* new_hop->prev = head->prev; *)
      head_prev ← load head prev h;
      h ← store (Some new_hop) (fun c => set_prev c head_prev) h;
      (* head->prev->next = new_hop; *)
      head_prev ← load head prev h;
      h ← store head_prev (fun c => set_next c (Some new_hop)) h;
      (* head->prev = new_hop; *)
      h ← store head (fun c => set_prev c (Some new_hop)) h;
      Some (h, head)
  | None =>
      (* head = new_hop; new_hop->prev = new_hop->next = new_hop; *)
      h ← store (Some new_hop) (fun c => set_next c (Some new_hop)) h;
      h ← store (Some new_hop) (fun c => set_prev c (Some new_hop)) h;
      Some (h, Some new_hop)
  end.

(** The do-while loop of [onion_next_hop_in_cpath]; [fuel] bounds the
    number of turns.  The answer is the hop found or NULL; [None] is a
    NULL or dangling pointer met on the way, or too little fuel. *)
Fixpoint next_hop_loop (fuel : nat) (cpath hop : option nat) (h : heap)
  : option (option nat) :=
  match fuel with
  | O => None
  | S fuel' =>
      st ← load hop cell_state h;
      if negb (cpath_state_eqb st CPATH_STATE_OPEN) then Some hop
      else
        nxt ← load hop next h;
        if bool_decide (nxt = cpath) then Some None
        else next_hop_loop fuel' cpath nxt h
  end.

Definition onion_next_hop_in_cpath (fuel : nat) (cpath : option nat)
    (h : heap) : option (option nat) :=
  next_hop_loop fuel cpath cpath h.

(** [onion_append_hop(head_ptr, choice)]; [hop] is the address
    [tor_malloc_zero] returns, a cell of zero bytes: both links and the
    [extend_info] NULL; the state is written before it is read.
    [extend_info_dup] copies the value. *)
Definition onion_append_hop (head : option nat) (choice : extend_info_t)
    (hop : nat) (h : heap) : option (heap * option nat) :=
  let h := <[hop := mk_cell None None CPATH_STATE_CLOSED None]> h in
  '(h, head) ← onion_append_to_cpath head hop h;
  h ← store (Some hop) (fun c => set_cell_state c CPATH_STATE_CLOSED) h;
  h ← store (Some hop) (fun c => set_cell_extend_info c (Some choice)) h;
  Some (h, head).

End CpathRing.

(** ** Choice of the exit *)

Module ExitChoice.
Import OrH.

Inductive addr_policy_result_t :=
| ADDR_POLICY_ACCEPTED
| ADDR_POLICY_REJECTED
| ADDR_POLICY_PROBABLY_ACCEPTED
| ADDR_POLICY_PROBABLY_REJECTED.

(** What [ap_stream_wants_exit_attention] reads of a connection and of
    its [entry_connection_t]; a field named after a function stands for
    the result of that call on the connection. *)
Record connection_t := mk_connection {
  type_is_ap : bool;
  state_is_circuit_wait : bool;
  conn_marked_for_close : Z;
  want_onehop : bool;
  use_begindir : bool;
  chosen_exit_name : option string;
  connection_edge_is_rendezvous_stream : bool;
  circuit_stream_is_being_handled : bool
}.

Definition ap_stream_wants_exit_attention (conn : connection_t) : bool :=
  if negb (type_is_ap conn) then false
  else
    state_is_circuit_wait conn
    && (conn_marked_for_close conn =? 0)
    && negb (want_onehop conn)
    && negb (use_begindir conn)
    && negb (non_null (chosen_exit_name conn))
    && negb (connection_edge_is_rendezvous_stream conn)
    && negb (circuit_stream_is_being_handled conn).

(** What the exit chooser reads of a node.  A field named after a
    function stands for the result of that call on the node;
    [purpose_is_general] for [node_get_purpose(node) ==
    ROUTER_PURPOSE_GENERAL], [in_ExcludeExitNodesUnion] and [in_ExitNodes]
    for [routerset_contains_node] with that set of the options,
    [exit_policy] for [compare_tor_addr_to_node_policy(NULL, port, node)],
    [can_exit] for [connection_ap_can_use_exit(conn, node)]. *)
Record node_t := mk_node {
  router_digest_is_me : bool;
  node_has_descriptor : bool;
  is_running : bool;
  is_bad_exit : bool;
  purpose_is_general : bool;
  in_ExcludeExitNodesUnion : bool;
  in_ExitNodes : bool;
  node_is_unreliable : bool -> bool -> bool;
  is_valid : bool;
  node_allows_single_hop_exits : bool;
  node_exit_policy_rejects_all : bool;
  exit_policy : Z -> addr_policy_result_t;
  can_exit : connection_t -> bool
}.

(** The options the exit chooser reads: whether [ExitNodes] is set,
    [AllowInvalid_ & ALLOW_INVALID_EXIT], [ExcludeSingleHopRelays]. *)
Record exit_options_t := mk_exit_options {
  ExitNodes_set : bool;
  allow_invalid_exit : bool;
  ExcludeSingleHopRelays : bool
}.

(** [node_handles_some_port(node, needed_ports)]; [None] is the failed
    [tor_assert(port)]. *)
Fixpoint node_handles_some_port (node : option node_t)
    (needed_ports : list Z) : option bool :=
  match needed_ports with
  | [] => Some false
  | port :: rest =>
      if port =? 0 then None
      else
        match node with
        | Some n =>
            match exit_policy n port with
            | ADDR_POLICY_REJECTED | ADDR_POLICY_PROBABLY_REJECTED =>
                node_handles_some_port node rest
            | _ => Some true
            end
        | None => node_handles_some_port node rest
        end
  end.

Section Chooser.
Variable options : exit_options_t.
(** [get_connection_array()], [nodelist_get_list()] and the ports
    [circuit_get_unhandled_ports(time(NULL))] returns. *)
Variable connections : list connection_t.
Variable the_nodes : list node_t.
Variable needed_ports : list Z.
(** [node_sl_choose_by_bandwidth(sl, WEIGHT_FOR_EXIT)]; [None] is NULL. *)
Variable node_sl_choose_by_bandwidth : list node_t -> option node_t.

Definition n_pending_connections : Z :=
  fold_left
    (fun n conn => if ap_stream_wants_exit_attention conn then n + 1 else n)
    connections 0.

(** The [continue]s of the loop over the nodes that leave
    [n_supported[i] = -1]. *)
Definition skipped (need_uptime need_capacity : bool) (node : node_t)
  : bool :=
  if router_digest_is_me node then true
  else if negb (node_has_descriptor node) then true
  else if negb (is_running node) || is_bad_exit node then true
  else if negb (purpose_is_general node) then true
  else if in_ExcludeExitNodesUnion node then true
  else if ExitNodes_set options && negb (in_ExitNodes node) then true
  else if node_is_unreliable node need_uptime need_capacity then true
  else if negb (is_valid node || allow_invalid_exit options) then true
  else if ExcludeSingleHopRelays options && node_allows_single_hop_exits node
  then true
  else if node_exit_policy_rejects_all node then true
  else false.

(** The loop over the connections for one node, from
    [n_supported[i] = 0]. *)
Definition count_supported (node : node_t) : Z :=
  fold_left
    (fun n conn =>
       if negb (ap_stream_wants_exit_attention conn) then n
       else if can_exit node conn then n + 1 else n)
    connections 0.

(** One turn of the loop over the nodes; the state is [n_supported] (as
    far as it is filled), [best_support] and [n_best_support]. *)
Definition node_turn (need_uptime need_capacity : bool)
    (st : list Z * Z * Z) (node : node_t) : list Z * Z * Z :=
  let '(n_supported, best_support, n_best_support) := st in
  if skipped need_uptime need_capacity node
  then (n_supported ++ [-1], best_support, n_best_support)
  else
    let n := count_supported node in
    if (0 <? n_pending_connections) && (n =? 0)
    then (n_supported ++ [n], best_support, n_best_support)
    else if best_support <? n then (n_supported ++ [n], n, 1)
    else if n =? best_support
    then (n_supported ++ [n], best_support, n_best_support + 1)
    else (n_supported ++ [n], best_support, n_best_support).

(** The nodes whose entry of [n_supported] passes [keep], in the order of
    the node list; [None] when [keep] fails an assertion. *)
Fixpoint collect (keep : node_t -> Z -> option bool)
    (nodes : list node_t) (n_supported : list Z) : option (list node_t) :=
  match nodes, n_supported with
  | node :: nodes, n :: n_supported =>
      k ← keep node n;
      rest ← collect keep nodes n_supported;
      Some (if k : bool then node :: rest else rest)
  | _, _ => Some []
  end.

(** The two attempts of the fall-back.  The result is the node and the
    number of calls of [rep_hist_remove_predicted_ports]. *)
Definition fall_back (n_supported : list Z) : option (option node_t * Z) :=
  supporting ←
    collect (fun node n =>
               if negb (n =? -1) then node_handles_some_port (Some node)
                                        needed_ports
               else Some false)
      the_nodes n_supported;
  match node_sl_choose_by_bandwidth supporting with
  | Some node => Some (Some node, 0)
  | None =>
      let removed := if 0 <? Z.of_nat (length needed_ports) then 1 else 0 in
      supporting ←
        collect (fun node n => Some (negb (n =? -1))) the_nodes n_supported;
      match node_sl_choose_by_bandwidth supporting with
      | Some node => Some (Some node, removed)
      | None =>
          Some (None,
                if 0 <? Z.of_nat (length needed_ports) then removed + 1
                else removed)
      end
  end.

(** [choose_good_exit_server_general(need_uptime, need_capacity)];
    [fuel] bounds the depth of the recursion.  [None] is a failed
    assertion or too little fuel. *)
Fixpoint choose_good_exit_server_general (fuel : nat)
    (need_uptime need_capacity : bool) : option (option node_t * Z) :=
  match fuel with
  | O => None
  | S fuel' =>
      let '(n_supported, best_support, n_best_support) :=
        fold_left (node_turn need_uptime need_capacity) the_nodes
          ([], -1, 0) in
      if 0 <? best_support then
        supporting ←
          collect (fun node n => Some (n =? best_support))
            the_nodes n_supported;
        Some (node_sl_choose_by_bandwidth supporting, 0)
      else if (best_support =? -1) && (need_uptime || need_capacity)
      then choose_good_exit_server_general fuel' false false
      else fall_back n_supported
  end.

End Chooser.

End ExitChoice.

(** ** Building the path of a circuit *)

Module PathBuild.
Import OrH.
Export PathBiasData.

Record routerstatus_t := mk_routerstatus {
  bandwidth_kb : Z
}.

(** What the path builder reads of a node: its identity, which of [ri],
    [rs] and [md] are there, and the string [node_get_address_string]
    gives for it. *)
Record node_t := mk_node {
  identity : list Z;
  has_ri : bool;
  rs : option routerstatus_t;
  has_md : bool;
  node_get_address_string : string
}.

(** [extend_info_from_node(node, for_direct_connect)]; of the new
    [extend_info_t] the identity digest is kept, which neither address
    depends on. *)
Definition extend_info_from_node (node : node_t) (for_direct_connect : bool)
  : option extend_info_t :=
  if negb (has_ri node) && (negb (non_null (rs node)) || negb (has_md node))
  then None
  else if has_ri node then Some (mk_extend_info (identity node))
  else if non_null (rs node) && has_md node
  then Some (mk_extend_info (identity node))
  else None.

(** The circuit as the path builder sees it: the origin circuit, the other
    fields of its [build_state] and the six fields of [base_] that record
    the address and bandwidth of the nodes chosen. *)
Record build_circuit_t := mk_build {
  circ : origin_circuit_t;
  need_uptime : bool;
  need_capacity : bool;
  is_internal : bool;
  chosen_exit : option extend_info_t;
  entry_ip : string;
  gbw : Z;
  middle_ip : string;
  mbw : Z;
  exit_ip : string;
  ebw : Z
}.

Definition set_circ (c : build_circuit_t) (v : origin_circuit_t) :=
  mk_build v (need_uptime c) (need_capacity c) (is_internal c)
    (chosen_exit c) (entry_ip c) (gbw c) (middle_ip c) (mbw c)
    (exit_ip c) (ebw c).

Definition set_chosen_exit (c : build_circuit_t)
    (v : option extend_info_t) :=
  mk_build (circ c) (need_uptime c) (need_capacity c) (is_internal c)
    v (entry_ip c) (gbw c) (middle_ip c) (mbw c) (exit_ip c) (ebw c).

Definition set_entry (c : build_circuit_t) (ip : string) (bw : Z) :=
  mk_build (circ c) (need_uptime c) (need_capacity c) (is_internal c)
    (chosen_exit c) ip bw (middle_ip c) (mbw c) (exit_ip c) (ebw c).

Definition set_middle (c : build_circuit_t) (ip : string) (bw : Z) :=
  mk_build (circ c) (need_uptime c) (need_capacity c) (is_internal c)
    (chosen_exit c) (entry_ip c) (gbw c) ip bw (exit_ip c) (ebw c).

Definition set_exit (c : build_circuit_t) (ip : string) (bw : Z) :=
  mk_build (circ c) (need_uptime c) (need_capacity c) (is_internal c)
    (chosen_exit c) (entry_ip c) (gbw c) (middle_ip c) (mbw c) ip bw.

Definition set_cpath (c : origin_circuit_t) (v : list crypt_path_t) :=
  mk_origin (purpose c) (marked_for_close c) (n_chan c) (timestamp_began c)
    (timestamp_dirty c) v (build_state c) (has_opened c)
    (path_state c) (pathbias_shouldcount c) (pathbias_probe_id c)
    (pathbias_probe_nonce c) (global_identifier c).

Definition set_build_state (c : origin_circuit_t)
    (v : cpath_build_state_t) :=
  mk_origin (purpose c) (marked_for_close c) (n_chan c) (timestamp_began c)
    (timestamp_dirty c) (cpath c) v (has_opened c)
    (path_state c) (pathbias_shouldcount c) (pathbias_probe_id c)
    (pathbias_probe_nonce c) (global_identifier c).

Definition set_desired_path_len (c : build_circuit_t) (v : Z) :=
  set_circ c
    (set_build_state (circ c)
       (mk_build_state (onehop_tunnel (build_state (circ c))) v)).

(** [onion_append_hop(&cpath, choice)] on the list of the hops: the new
    hop goes to the end of the ring, closed and with a copy of
    [choice]. *)
Definition onion_append_hop (cpath : list crypt_path_t)
    (choice : extend_info_t) : list crypt_path_t :=
  cpath ++ [mk_hop CPATH_STATE_CLOSED (Some choice)].

(** The loop of [onion_next_hop_in_cpath] on the list of the hops: the
    position of the first hop that is not open, [None] for NULL. *)
Fixpoint first_not_open (hops : list crypt_path_t) : option nat :=
  match hops with
  | [] => None
  | hop :: rest =>
      if negb (cpath_state_eqb (hop_state hop) CPATH_STATE_OPEN) then Some O
      else S <$> first_not_open rest
  end.

Section Builder.
(** [nodelist_get_list()], as [count_acceptable_nodes] reads it. *)
Variable nodelist : list RouteLen.node_t.
(** [server_mode(get_options())]. *)
Variable server_mode : bool.
(** The three choices, which draw from the node list at random; [None] is
    NULL.  [choose_good_exit_server(purpose, need_uptime, need_capacity,
    is_internal)]; [choose_good_entry_server(purpose, state)] and
    [choose_good_middle_server(purpose, state, head, cur_len)], which read
    [state] and [head] through the circuit. *)
Variable choose_good_exit_server : Z -> bool -> bool -> bool -> option node_t.
Variable choose_good_entry_server : Z -> build_circuit_t -> option node_t.
Variable choose_good_middle_server :
  Z -> build_circuit_t -> Z -> option node_t.

(** [onion_pick_cpath_exit(circ, exit)].  [None] is a crash: the failed
    [tor_assert(exit)], or [node->rs] dereferenced when it is NULL. *)
Definition onion_pick_cpath_exit (c : build_circuit_t)
    (exit : option extend_info_t) : option (Z * build_circuit_t) :=
  let len :=
    if onehop_tunnel (build_state (circ c)) then Some 1
    else
      let r := RouteLen.new_route_len (purpose (circ c)) exit nodelist in
      if r <? 1 then None else Some r in
  match len with
  | None => Some (-1, c)
  | Some len =>
      let c := set_desired_path_len c len in
      match exit with
      | Some e =>
          (* warn_if_last_router_excluded only logs *)
          Some (0, set_chosen_exit c (Some e))
      | None =>
          match choose_good_exit_server (purpose (circ c)) (need_uptime c)
                  (need_capacity c) (is_internal c) with
          | None => Some (-1, c)
          | Some node =>
              e ← extend_info_from_node node false;
              r ← rs node;
              let c :=
                set_exit c (node_get_address_string node) (bandwidth_kb r) in
              Some (0, set_chosen_exit c (Some e))
          end
      end
  end.

(** [onion_extend_cpath(circ)]; [circuit_get_cpath_len(circ)] is the
    number of hops of the ring.  [None] is a crash: [extend_info_dup] of a
    NULL [chosen_exit], the failed [tor_assert(info)], or [r->rs]
    dereferenced when it is NULL. *)
Definition onion_extend_cpath (c : build_circuit_t)
  : option (Z * build_circuit_t) :=
  let purpose := purpose (circ c) in
  let desired_path_len := desired_path_len (build_state (circ c)) in
  let cur_len := Z.of_nat (length (cpath (circ c))) in
  if desired_path_len <=? cur_len then Some (1, c)
  else
    '(info, c) ←
      (if cur_len =? desired_path_len - 1 then
         e ← chosen_exit c; Some (Some e, c)
       else if cur_len =? 0 then
         match choose_good_entry_server purpose c with
         | Some r =>
             info ← extend_info_from_node r (negb server_mode);
             s ← rs r;
             Some (Some info,
                   set_entry c (node_get_address_string r) (bandwidth_kb s))
         | None => Some (None, c)
         end
       else
         match choose_good_middle_server purpose c cur_len with
         | Some r =>
             info ← extend_info_from_node r false;
             s ← rs r;
             Some (Some info,
                   set_middle c (node_get_address_string r) (bandwidth_kb s))
         | None => Some (None, c)
         end);
    match info with
    | None => Some (-1, c)
    | Some info =>
        Some (0, set_circ c
                   (set_cpath (circ c)
                      (onion_append_hop (cpath (circ c)) info)))
    end.

(** [onion_populate_cpath(circ)]; [fuel] bounds the number of turns of
    its loop. *)
Fixpoint onion_populate_cpath (fuel : nat) (c : build_circuit_t)
  : option (Z * build_circuit_t) :=
  match fuel with
  | O => None
  | S fuel' =>
      '(r, c) ← onion_extend_cpath c;
      if r <? 0 then Some (-1, c)
      else if r =? 0 then onion_populate_cpath fuel' c
      else Some (0, c)
  end.

(** [circuit_append_new_exit(circ, exit)]; [None] is the failed
    [tor_assert(exit)]. *)
Definition circuit_append_new_exit (c : build_circuit_t)
    (exit : option extend_info_t) : option (Z * build_circuit_t) :=
  e ← exit;
  let c := set_chosen_exit c (Some e) in
  let c :=
    set_desired_path_len c (desired_path_len (build_state (circ c)) + 1) in
  Some (0, set_circ c
             (set_cpath (circ c) (onion_append_hop (cpath (circ c)) e))).

End Builder.

End PathBuild.

(** ** The keys of a hop and the end of its handshake *)

Module Handshake.
Import OrH.
Export PathBias.

Section Crypto.
(** [crypto_cipher_t] and [crypto_cipher_new(key)], which reads
    [CIPHER_KEY_LEN] bytes; [None] is NULL. *)
Variable cipher : Type.
Variable crypto_cipher_new : list Z -> option cipher.

(** The four key fields of a [crypt_path_t].  A digest is modelled by the
    bytes added to it since [crypto_digest_new]. *)
Record cpath_crypto := mk_crypto {
  f_crypto : option cipher;
  b_crypto : option cipher;
  f_digest : option (list Z);
  b_digest : option (list Z)
}.

(** [DIGEST_LEN] and [CIPHER_KEY_LEN] of crypto.h, with the values the
    comment of [circuit_init_cpath_crypto] gives: 20 bytes for a digest,
    16 for a cipher key. *)
Definition DIGEST_LEN : nat := 20.
Definition CIPHER_KEY_LEN : nat := 16.

(** The [len] bytes at [key_data + off]. *)
Definition bytes_at (key_data : list Z) (off len : nat) : list Z :=
  take len (drop off key_data).

(** [circuit_init_cpath_crypto(cpath, key_data, reverse)]; [None] is the
    failed [tor_assert] on the four fields. *)
Definition circuit_init_cpath_crypto (cpath : cpath_crypto)
    (key_data : list Z) (reverse : bool) : option (Z * cpath_crypto) :=
  if non_null (f_crypto cpath) || non_null (b_crypto cpath)
     || non_null (f_digest cpath) || non_null (b_digest cpath)
  then None
  else
    let f_digest := Some (bytes_at key_data 0 DIGEST_LEN) in
    let b_digest := Some (bytes_at key_data DIGEST_LEN DIGEST_LEN) in
    let f_crypto :=
      crypto_cipher_new (bytes_at key_data (2 * DIGEST_LEN) CIPHER_KEY_LEN) in
    if negb (non_null f_crypto)
    then Some (-1, mk_crypto f_crypto (b_crypto cpath) f_digest b_digest)
    else
      let b_crypto :=
        crypto_cipher_new
          (bytes_at key_data (2 * DIGEST_LEN + CIPHER_KEY_LEN)
             CIPHER_KEY_LEN) in
      if negb (non_null b_crypto)
      then Some (-1, mk_crypto f_crypto b_crypto f_digest b_digest)
      else if reverse
      then Some (0, mk_crypto b_crypto f_crypto b_digest f_digest)
      else Some (0, mk_crypto f_crypto b_crypto f_digest b_digest).

Context {D : Type} {DO : DoubleOps D}.
Variable options : or_options_t D.
Variable networkstatus_get_param : string -> Z -> Z -> Z -> Z.
Variable ext : extern_t.

Definition set_hop_state (hop : crypt_path_t) (v : cpath_state_t) :=
  mk_hop v (extend_info hop).

(** [circuit_finish_handshake(circ, reply)].  [handshake] is what
    [onion_skin_client_handshake] makes of the reply: the key material,
    or [None] for a negative return value.  [keys] holds the key fields of
    the hops, in the order of the path; the result is the return value
    and these fields after the call. *)
Definition circuit_finish_handshake (circ : nat)
    (handshake : option (list Z)) (keys : list cpath_crypto)
  : M D (Z * list cpath_crypto) :=
  let* rv :=
    pathbias_count_build_attempt options networkstatus_get_param ext circ in
  if rv <? 0 then ret (rv, keys)
  else
    let* c := get_origin circ in
    match cpath c with
    | [] => crash
    | first :: _ =>
        let hop :=
          if cpath_state_eqb (hop_state first) CPATH_STATE_AWAITING_KEYS
          then Some O
          else PathBuild.first_not_open (cpath c) in
        match hop with
        | None => ret (- END_CIRC_REASON_TORPROTOCOL, keys)
        | Some k =>
            match cpath c !! k, keys !! k with
            | Some h, Some hop_keys =>
                if negb (cpath_state_eqb (hop_state h)
                           CPATH_STATE_AWAITING_KEYS)
                then crash
                else
                  match handshake with
                  | None => ret (- END_CIRC_REASON_TORPROTOCOL, keys)
                  | Some key_data =>
                      match circuit_init_cpath_crypto hop_keys key_data
                              false with
                      | None => crash
                      | Some (r, hop_keys) =>
                          let keys := <[k := hop_keys]> keys in
                          if r <? 0
                          then ret (- END_CIRC_REASON_TORPROTOCOL, keys)
                          else
                            let* _ :=
                              put_origin circ
                                (PathBuild.set_cpath c
                                   (<[k := set_hop_state h CPATH_STATE_OPEN]>
                                      (cpath c))) in
                            ret (0, keys)
                      end
                  end
            | _, _ => crash
            end
        end
    end.

End Crypto.

End Handshake.

(** ** Reporting the links of a path to the reputation history *)

Module RepHist.
Import OrH PathBiasData.

(** The calls into rephist.c, in the order they are made. *)
Inductive rep_hist_call :=
| Call_rep_hist_note_extend_succeeded (from_id to_id : list Z)
| Call_rep_hist_note_extend_failed (from_id to_id : list Z).

Section Notes.
(** [server_mode(get_options())]; the identity digest of
    [router_get_my_routerinfo()], [None] when that is NULL; and
    [node_get_by_id(digest)], which gives [node->identity] or NULL. *)
Variable server_mode : bool.
Variable router_get_my_routerinfo : option (list Z).
Variable node_get_by_id : list Z -> option (list Z).

(** The do-while loop of [circuit_rep_hist_note_result] from [hop] on;
    [hops] are the hops from [hop] to the end of the ring, where the
    loop is back at the head.  [None] is the crash on a hop whose
    [extend_info] is NULL. *)
Fixpoint note_loop (hops : list crypt_path_t)
    (prev_digest : option (list Z)) : option (list rep_hist_call) :=
  match hops with
  | [] => Some []
  | hop :: rest =>
      ei ← extend_info hop;
      match node_get_by_id (identity_digest ei) with
      | Some node =>
          match prev_digest with
          | Some prev =>
              if cpath_state_eqb (hop_state hop) CPATH_STATE_OPEN then
                calls ← note_loop rest (Some node);
                Some (Call_rep_hist_note_extend_succeeded prev node :: calls)
              else Some [Call_rep_hist_note_extend_failed prev node]
          | None => note_loop rest (Some node)
          end
      | None => note_loop rest None
      end
  end.

Definition circuit_rep_hist_note_result (circ : origin_circuit_t)
  : option (list rep_hist_call) :=
  match cpath circ with
  | [] => Some []
  | _ =>
      if server_mode then
        match router_get_my_routerinfo with
        | None => Some []
        | Some me => note_loop (cpath circ) (Some me)
        end
      else note_loop (cpath circ) None
  end.

End Notes.

End RepHist.

(** ** The next onion skin *)

Module BuildStep.
Import OrH.
Export PathBias.

Inductive cell_type_t :=
| CELL_CREATE
| CELL_CREATE_FAST
| CELL_CREATE2.

Inductive handshake_type_t :=
| ONION_HANDSHAKE_TYPE_TAP
| ONION_HANDSHAKE_TYPE_FAST
| ONION_HANDSHAKE_TYPE_NTOR.

Inductive relay_command_t :=
| RELAY_COMMAND_EXTEND
| RELAY_COMMAND_EXTEND2.

Inductive bootstrap_status_t :=
| BOOTSTRAP_STATUS_ONEHOP_CREATE
| BOOTSTRAP_STATUS_CIRCUIT_CREATE
| BOOTSTRAP_STATUS_REQUESTING_STATUS
| BOOTSTRAP_STATUS_DONE.

(** The close reasons the step returns, negated, to have the circuit
    torn down. *)
Inductive end_circ_reason_t :=
| END_CIRC_REASON_INTERNAL
| END_CIRC_REASON_RESOURCELIMIT.

(** The return value: 0, or [- reason]. *)
Inductive step_result :=
| Step_ok
| Step_close (reason : end_circ_reason_t).

(** Calls that leave circuitbuild.c, in the order they are made; a hop is
    named by its position in the path. *)
Inductive step_call :=
| Call_control_event_bootstrap (status : bootstrap_status_t)
| Call_note_request (key : string)
| Call_onion_skin_create (handshake_type : handshake_type_t) (hop : nat)
| Call_append_cell_to_circuit_queue
    (circ_id : Z) (cell_type : cell_type_t) (handshake_type : handshake_type_t)
| Call_channel_timestamp_client
| Call_relay_send_command_from_edge
    (command : relay_command_t) (create_cell_type : cell_type_t)
    (handshake_type : handshake_type_t) (target : list Z) (via : nat)
| Call_circuit_build_times_add_time (timediff : Z)
| Call_circuit_build_times_set_timeout
| Call_circuit_build_times_network_circ_success
| Call_circuit_reset_failure_count
| Call_rep_hist (call : RepHist.rep_hist_call)
| Call_circuit_has_opened
| Call_control_event_client_status
| Call_clear_broken_connection_map
| Call_control_event_server_status
| Call_consider_testing_reachability.

(** What the step reads of a node found by [node_get_by_id]: its
    identity, [node_has_curve25519_onion_key(node)], and
    [node->rs && node->rs->version_supports_extend2_cells]. *)
Record node_t := mk_node {
  identity : list Z;
  node_has_curve25519_onion_key : bool;
  rs_supports_extend2_cells : bool
}.

(** What the collaborators answer during one call.  The three [hop_]
    fields stand for fields of the [extend_info] of the hop at a position
    of the path that [PathBiasData.extend_info_t] does not carry:
    [onion_key] non-NULL, [tor_mem_is_zero] of the curve25519 key, and
    [tor_addr_family(&addr) == AF_INET].  [create_cell_format] is the
    return value of that function.  [tor_fragile_assert_aborts] says
    whether the macro [tor_fragile_assert()] of util.h (not under src/)
    aborts in this build or expands to nothing.  [my_routerinfo] is
    [router_get_my_routerinfo()]: the identity digest, and whether
    [dir_port] is set. *)
Record step_env {D : Type} := mk_step_env {
  CURVE25519_ENABLED : bool;
  UseNTorHandshake : Z;
  FastFirstHopPK : bool;
  public_server_mode : bool;
  server_mode : bool;
  hop_has_onion_key : nat -> bool;
  hop_curve25519_key_is_zero : nat -> bool;
  hop_addr_is_ipv4 : nat -> bool;
  node_get_by_id : list Z -> option node_t;
  onion_skin_create : handshake_type_t -> nat -> Z;
  create_cell_format : Z;
  tor_fragile_assert_aborts : bool;
  extend_cell_format : Z;
  relay_send_command_from_edge : Z;
  tv_mdiff : Z;
  close_ms : D;
  circuit_build_times_disabled : bool;
  circuit_build_times_network_check_live : bool;
  my_routerinfo : option (list Z * bool);
  check_whether_orport_reachable : bool
}.
Arguments step_env D : clear implicits.
Arguments mk_step_env {D}.

(** What the step changes outside [origin_circuit_t] and the guards:
    [circ->base_.state], the global [can_complete_circuit], the calls
    made, [circ->base_.n_circ_id], the fields of [circ->base_.n_chan] the
    identifier allocator works on (which [PathBiasData.channel_t] does not
    carry; they are read only while [n_chan] is set), and
    [circ->base_.no_extended]. *)
Record step_state := mk_step_state {
  state : Extend.circuit_state_t;
  can_complete_circuit : bool;
  calls : list step_call;
  n_circ_id : Z;
  n_chan_ids : CircId.channel_t;
  no_extended : Z
}.

Definition set_state (st : step_state) (v : Extend.circuit_state_t) :=
  mk_step_state v (can_complete_circuit st) (calls st)
    (n_circ_id st) (n_chan_ids st) (no_extended st).

Definition call (st : step_state) (c : step_call) :=
  mk_step_state (state st) (can_complete_circuit st) (calls st ++ [c])
    (n_circ_id st) (n_chan_ids st) (no_extended st).

Definition set_can_complete_circuit (st : step_state) (v : bool) :=
  mk_step_state (state st) v (calls st)
    (n_circ_id st) (n_chan_ids st) (no_extended st).

Definition set_n_chan_ids (st : step_state) (v : CircId.channel_t) :=
  mk_step_state (state st) (can_complete_circuit st) (calls st)
    (n_circ_id st) v (no_extended st).

Definition set_no_extended (st : step_state) (v : Z) :=
  mk_step_state (state st) (can_complete_circuit st) (calls st)
    (n_circ_id st) (n_chan_ids st) v.

(** Modelled from the spec: [circuit_set_n_circid_chan(circ, id,
    circ->n_chan)] (circuitlist.c is not under src/).  Section 4.1: the
    (channel, id) pair is bound to the circuit.  [n_circ_id] becomes [id],
    which is in use on the channel from now on. *)
Definition circuit_set_n_circid_chan (st : step_state) (id : Z) :=
  mk_step_state (state st) (can_complete_circuit st) (calls st)
    id (CircId.bind_circ_id (n_chan_ids st) id) (no_extended st).

Definition set_hop_state (hop : crypt_path_t) (v : cpath_state_t) :=
  mk_hop v (extend_info hop).

(** [chan->state == CHANNEL_STATE_OPEN]. *)
Definition channel_is_open (chan : channel_t) : bool :=
  match chan_state chan with
  | CHANNEL_STATE_OPEN => true
  | _ => false
  end.

Definition set_has_opened (c : origin_circuit_t) (v : bool) :=
  mk_origin (purpose c) (marked_for_close c) (n_chan c) (timestamp_began c)
    (timestamp_dirty c) (cpath c) (build_state c) v
    (path_state c) (pathbias_shouldcount c) (pathbias_probe_id c)
    (pathbias_probe_nonce c) (global_identifier c).

Section Step.
Context {D : Type} {DO : DoubleOps D}.
Variable options : or_options_t D.
Variable networkstatus_get_param : string -> Z -> Z -> Z -> Z.
Variable ext : extern_t.
Variable env : step_env D.

(** [should_use_create_fast_for_circuit(circ)]; [None] is a failed
    [tor_assert]. *)
Definition should_use_create_fast_for_circuit (circ : origin_circuit_t)
  : option bool :=
  match cpath circ with
  | [] => None
  | first :: _ =>
      match extend_info first with
      | None => None
      | Some _ =>
          if negb (hop_has_onion_key env 0) then Some true
          else if negb (FastFirstHopPK env) then Some false
          else if public_server_mode env then Some false
          else Some true
      end
  end.

Definition circuit_timeout_want_to_count_circ (circ : origin_circuit_t)
  : bool :=
  negb (has_opened circ)
  && (desired_path_len (build_state circ) =? DEFAULT_ROUTE_LEN).

(** [circuits_can_use_ntor()], an [int]. *)
Definition circuits_can_use_ntor : Z :=
  if negb (UseNTorHandshake env =? -1) then UseNTorHandshake env
  else networkstatus_get_param "UseNTorHandshake" 0 0 1.

(** [circuit_pick_create_handshake(&cell_type, &handshake_type, ei)] for
    the [extend_info] of the hop at position [hop]. *)
Definition circuit_pick_create_handshake (hop : nat)
  : cell_type_t * handshake_type_t :=
  if CURVE25519_ENABLED env
     && negb (hop_curve25519_key_is_zero env hop)
     && negb (circuits_can_use_ntor =? 0)
  then (CELL_CREATE2, ONION_HANDSHAKE_TYPE_NTOR)
  else (CELL_CREATE, ONION_HANDSHAKE_TYPE_TAP).

(** [circuit_pick_extend_handshake]; the result is the relay command, the
    type of the create cell and the type of the handshake. *)
Definition circuit_pick_extend_handshake (node_prev : option node_t)
    (hop : nat) : relay_command_t * cell_type_t * handshake_type_t :=
  let '(_, handshake_type) := circuit_pick_create_handshake hop in
  if non_null node_prev
     && negb (match handshake_type with
              | ONION_HANDSHAKE_TYPE_TAP => true
              | _ => false
              end)
     && (match node_prev with
         | Some node =>
             node_has_curve25519_onion_key node
             || rs_supports_extend2_cells node
         | None => false
         end)
  then (RELAY_COMMAND_EXTEND2, CELL_CREATE2, handshake_type)
  else (RELAY_COMMAND_EXTEND, CELL_CREATE, handshake_type).

(** [inform_testing_reachability()]: the control events it sends. *)
Definition inform_testing_reachability (st : step_state)
  : Z * step_state :=
  match my_routerinfo env with
  | None => (0, st)
  | Some (_, dir_port) =>
      let st := call st Call_control_event_server_status in
      let st :=
        if dir_port then call st Call_control_event_server_status else st in
      (1, st)
  end.

Definition lift {A : Type} (o : option A) : M D A :=
  fun w => match o with Some a => Some (a, w) | None => None end.

(** [circuit_deliver_create_cell(TO_CIRCUIT(circ), create_cell,
    relayed = 0)] on an origin circuit: the return value and the step
    state.  A crash is the failed [tor_assert(circ->n_chan)], a NULL
    [cpath] followed, or [tor_fragile_assert()] on a first hop whose
    channel is not open, in a build where that macro aborts. *)
Definition circuit_deliver_create_cell (circ : nat) (st : step_state)
    (cell_type : cell_type_t) (handshake_type : handshake_type_t)
  : M D (Z * step_state) :=
  let* c := get_origin circ in
  let* n_chan := lift (n_chan c) in
  let* found := lift (CircId.get_unique_circ_id_by_chan (n_chan_ids st)) in
  let '(id, chan, _) := found in
  let st := set_n_chan_ids st chan in
  if id =? 0 then ret (-1, st)
  else
    let st := circuit_set_n_circid_chan st id in
    if create_cell_format env <? 0 then ret (-1, st)
    else
      let st :=
        call st (Call_append_cell_to_circuit_queue (n_circ_id st) cell_type
                   handshake_type) in
      (* if (CIRCUIT_IS_ORIGIN(circ)) *)
      match cpath c with
      | [] => crash
      | first :: _ =>
          let* st :=
            if cpath_state_eqb (hop_state first) CPATH_STATE_CLOSED then
              if negb (channel_is_open n_chan)
                 && tor_fragile_assert_aborts env
              then crash
              else
                let st := set_no_extended st 0 in
                let* _ :=
                  put_origin circ
                    (set_timestamp_began c (tor_gettimeofday ext)) in
                ret st
            else ret st in
          ret (0, call st Call_channel_timestamp_client)
      end.

(** Modelled from the spec: [circuit_has_opened] (circuituse.c is not
    under src/) marks [has_opened] (section 5, the row of the last
    created cell). *)
Definition circuit_has_opened (c : origin_circuit_t) : origin_circuit_t :=
  set_has_opened c true.

(** The block of the last branch of [circuit_send_next_onion_skin] that
    hands the build time to circuitstats.c. *)
Definition record_build_time (c : origin_circuit_t) (st : step_state)
  : step_state :=
  if circuit_timeout_want_to_count_circ c then
    let timediff := tv_mdiff env in
    if (timediff <? 0)
       || d_ltb (d_add (d_mul (d_of_int 2) (close_ms env)) (d_of_int 1000))
            (d_of_int timediff)
    then st
    else if negb (circuit_build_times_disabled env) then
      let st :=
        if circuit_build_times_network_check_live env
        then call (call st (Call_circuit_build_times_add_time timediff))
               Call_circuit_build_times_set_timeout
        else st in
      if negb (purpose c =? CIRCUIT_PURPOSE_C_MEASURE_TIMEOUT)
      then call st Call_circuit_build_times_network_circ_success
      else st
    else st
  else st.

(** The block that runs when the first circuit of this Tor is complete:
    [if (!can_complete_circuit && !circ->build_state->onehop_tunnel)]. *)
Definition note_can_complete (c : origin_circuit_t) (st : step_state)
  : step_state :=
  if negb (can_complete_circuit st) && negb (onehop_tunnel (build_state c))
  then
    let st := set_can_complete_circuit st true in
    let st := call st (Call_control_event_bootstrap BOOTSTRAP_STATUS_DONE) in
    let st := call st Call_control_event_client_status in
    let st := call st Call_clear_broken_connection_map in
    if server_mode env && negb (check_whether_orport_reachable env)
    then call (inform_testing_reachability st).2
           Call_consider_testing_reachability
    else st
  else st.

(** The branch of [circuit_send_next_onion_skin] that is taken when no
    hop is left to extend to. *)
Definition circuit_done (circ : nat) (st : step_state)
  : M D (step_result * step_state) :=
  let* c := get_origin circ in
  let st := set_state st Extend.CIRCUIT_STATE_OPEN in
  let st := record_build_time c st in
  let st := call st Call_circuit_reset_failure_count in
  let st :=
    if onehop_tunnel (build_state c) || has_opened c
    then call st (Call_control_event_bootstrap
                    BOOTSTRAP_STATUS_REQUESTING_STATUS)
    else st in
  let* _ := pathbias_count_build_success options circ in
  let* c := get_origin circ in
  let* notes :=
    lift (RepHist.circuit_rep_hist_note_result (server_mode env)
            (fst <$> my_routerinfo env)
            (fun id => identity <$> node_get_by_id env id) c) in
  let st :=
    fold_left (fun st note => call st (Call_rep_hist note)) notes st in
  let st := call st Call_circuit_has_opened in
  let* _ := put_origin circ (circuit_has_opened c) in
  let st := note_can_complete c st in
  let* _ :=
    if purpose c =? CIRCUIT_PURPOSE_C_MEASURE_TIMEOUT
    then emit (Call_circuit_mark_for_close circ END_CIRC_REASON_FINISHED)
    else ret tt in
  ret (Step_ok, st).

(** [circuit_send_next_onion_skin(circ)].  [None] is a crash: a NULL
    pointer followed or a failed [tor_assert]. *)
Definition circuit_send_next_onion_skin (circ : nat) (st : step_state)
  : M D (step_result * step_state) :=
  let* c := get_origin circ in
  match cpath c with
  | [] => crash
  | first :: _ =>
      if cpath_state_eqb (hop_state first) CPATH_STATE_CLOSED then
        let st :=
          call st (Call_control_event_bootstrap
                     (if onehop_tunnel (build_state c)
                      then BOOTSTRAP_STATUS_ONEHOP_CREATE
                      else BOOTSTRAP_STATUS_CIRCUIT_CREATE)) in
        let* _ := lift (n_chan c) in
        let* fast := lift (should_use_create_fast_for_circuit c) in
        let '(cell_type, handshake_type) :=
          if negb fast then circuit_pick_create_handshake 0
          else (CELL_CREATE_FAST, ONION_HANDSHAKE_TYPE_FAST) in
        let st :=
          call st (Call_note_request
                     (if negb fast then "cell: create"
                      else "cell: create fast")) in
        let st := call st (Call_onion_skin_create handshake_type 0) in
        if onion_skin_create env handshake_type 0 <? 0
        then ret (Step_close END_CIRC_REASON_INTERNAL, st)
        else
          let* delivered :=
            circuit_deliver_create_cell circ st cell_type handshake_type in
          let '(r, st) := delivered in
          if r <? 0
          then ret (Step_close END_CIRC_REASON_RESOURCELIMIT, st)
          else
            let* c := get_origin circ in
            let* _ :=
              put_origin circ
                (PathBuild.set_cpath c
                   (<[O := set_hop_state first CPATH_STATE_AWAITING_KEYS]>
                      (cpath c))) in
            ret (Step_ok, set_state st Extend.CIRCUIT_STATE_BUILDING)
      else
        if negb (cpath_state_eqb (hop_state first) CPATH_STATE_OPEN)
        then crash
        else
          match state st with
          | Extend.CIRCUIT_STATE_BUILDING =>
              match PathBuild.first_not_open (cpath c) with
              | None => circuit_done circ st
              | Some k =>
                  let* hop := lift (cpath c !! k) in
                  let* ei := lift (extend_info hop) in
                  if negb (hop_addr_is_ipv4 env k)
                  then ret (Step_close END_CIRC_REASON_INTERNAL, st)
                  else
                    let* prev := lift (cpath c !! (k - 1)%nat) in
                    let* prev_ei := lift (extend_info prev) in
                    let prev_node :=
                      node_get_by_id env (identity_digest prev_ei) in
                    let '(command, create_cell_type, handshake_type) :=
                      circuit_pick_extend_handshake prev_node k in
                    let st :=
                      call st (Call_onion_skin_create handshake_type k) in
                    if onion_skin_create env handshake_type k <? 0
                    then ret (Step_close END_CIRC_REASON_INTERNAL, st)
                    else
                      let st := call st (Call_note_request "cell: extend") in
                      if extend_cell_format env <? 0
                      then ret (Step_close END_CIRC_REASON_INTERNAL, st)
                      else
                        let st :=
                          call st (Call_relay_send_command_from_edge command
                                     create_cell_type handshake_type
                                     (identity_digest ei) (k - 1)) in
                        if relay_send_command_from_edge env <? 0
                        then ret (Step_ok, st)
                        else
                          let* _ :=
                            put_origin circ
                              (PathBuild.set_cpath c
                                 (<[k := set_hop_state hop
                                           CPATH_STATE_AWAITING_KEYS]>
                                    (cpath c))) in
                          ret (Step_ok, st)
              end
          | _ => crash
          end
  end.

End Step.

End BuildStep.

(** * Properties *)

(** ** Route length *)

Module RouteLenFacts.
Import OrH RouteLen.

Lemma count_step_acceptable num node :
  count_step num node = if acceptable node then num + 1 else num.
Proof.
  unfold count_step, acceptable.
  destruct (is_running node), (is_valid node), (has_descriptor node); reflexivity.
Qed.

Lemma fold_count_step nodes : forall num,
  fold_left count_step nodes num
  = num + Z.of_nat (length (List.filter acceptable nodes)).
Proof.
  induction nodes as [|node rest IH]; intros num; simpl.
  - lia.
  - rewrite IH, count_step_acceptable.
    destruct (acceptable node); simpl length; lia.
Qed.

Lemma count_acceptable_nodes_filter nodes :
  count_acceptable_nodes nodes
  = Z.of_nat (length (List.filter acceptable nodes)).
Proof. unfold count_acceptable_nodes. rewrite fold_count_step. lia. Qed.

(** C7.  [new_route_len] returns -1 when fewer than two nodes are
    acceptable (running, valid, with a descriptor); otherwise it returns
    the smaller of L and the number of acceptable nodes, where L is 3, plus
    one when an exit is given and the purpose is neither TESTING nor
    S_ESTABLISH_INTRO. *)
Theorem new_route_len_spec {E : Type} (purpose : Z) (exit : option E)
    (nodes : list node_t) :
  new_route_len purpose exit nodes =
    if Z.of_nat (length (List.filter acceptable nodes)) <? 2 then -1
    else Z.min
           (if non_null exit
               && negb (purpose =? CIRCUIT_PURPOSE_TESTING)
               && negb (purpose =? CIRCUIT_PURPOSE_S_ESTABLISH_INTRO)
            then 3 + 1 else 3)
           (Z.of_nat (length (List.filter acceptable nodes))).
Proof.
  unfold new_route_len. rewrite count_acceptable_nodes_filter.
  set (n := Z.of_nat (length (List.filter acceptable nodes))).
  unfold DEFAULT_ROUTE_LEN.
  destruct (n <? 2) eqn:Hn; [reflexivity|].
  destruct (non_null exit && negb (purpose =? CIRCUIT_PURPOSE_TESTING)
            && negb (purpose =? CIRCUIT_PURPOSE_S_ESTABLISH_INTRO));
    match goal with
    | |- context [n <? ?l] => destruct (n <? l) eqn:Hl
    end; lia.
Qed.

(** The boundary cases of section 8: ten acceptable nodes and no exit give
    3; three acceptable nodes and an exit clamp 4 to 3; one acceptable
    node gives -1. *)
Example new_route_len_boundaries :
  let ok := mk_node true true true in
  let down := mk_node false true true in
  new_route_len (extend_info_t:=unit) CIRCUIT_PURPOSE_C_GENERAL None (repeat ok 10) = 3
  /\ new_route_len CIRCUIT_PURPOSE_C_GENERAL (Some tt) [ok; down; ok; ok] = 3
  /\ new_route_len CIRCUIT_PURPOSE_C_GENERAL (Some tt) (repeat ok 10) = 4
  /\ new_route_len CIRCUIT_PURPOSE_TESTING (Some tt) (repeat ok 10) = 3
  /\ new_route_len (extend_info_t:=unit) CIRCUIT_PURPOSE_C_GENERAL None [ok; down] = -1.
Proof. repeat split; reflexivity. Qed.

End RouteLenFacts.

(** ** Extend responder *)

Module ExtendFacts.
Import OrH Extend.

(** The conditions under which the responder refuses an extend cell, in
    the order the code tests them. *)
Definition refused (env : extend_env) (circ : circuit_t) : Prop :=
  non_null (n_chan circ) = true
  \/ non_null (n_hop circ) = true
  \/ server_mode env = false
  \/ parsed env = None
  \/ exists ec, parsed env = Some ec
       /\ (port (orport_ipv4 ec) = 0
           \/ addr_is_null (orport_ipv4 ec) = true
           \/ (addr_is_internal (orport_ipv4 ec) = true
               /\ ExtendAllowPrivateAddresses env = false)
           \/ tor_digest_is_zero (node_id ec) = true
           \/ node_id ec = p_chan_identity_digest circ).

(** C9.  When the circuit already has an outbound channel or a pending
    next hop, or the process is not a relay, or the cell does not parse, or
    the port is zero or the address null, or the address is private and
    ExtendAllowPrivateAddresses is off, or the target digest is all zero or
    equals the previous hop's identity, [circuit_extend] returns -1, leaves
    the circuit as it was and makes no call to the channel layer. *)
Theorem circuit_extend_refuses (env : extend_env) (circ : circuit_t) :
  refused env circ ->
  circuit_extend env circ = Some (mk_extend_result (-1) circ []).
Proof.
  unfold refused, circuit_extend.
  intros [H | [H | [H | [H | (ec & Hp & H)]]]].
  - rewrite H. reflexivity.
  - rewrite H. destruct (non_null (n_chan circ)); reflexivity.
  - rewrite H.
    destruct (non_null (n_chan circ)), (non_null (n_hop circ)); reflexivity.
  - rewrite H.
    destruct (non_null (n_chan circ)), (non_null (n_hop circ)),
      (server_mode env); reflexivity.
  - rewrite Hp.
    destruct (non_null (n_chan circ)); [reflexivity|].
    destruct (non_null (n_hop circ)); [reflexivity|].
    destruct (server_mode env); [simpl|reflexivity].
    destruct H as [H | [H | [[H1 H2] | [H | H]]]].
    + rewrite H. reflexivity.
    + rewrite H, orb_true_r. reflexivity.
    + rewrite H1, H2.
      destruct (_ || _); reflexivity.
    + rewrite H.
      destruct (_ || _); [reflexivity|]. destruct (_ && _); reflexivity.
    + unfold tor_memeq. rewrite bool_decide_eq_true_2 by exact H.
      destruct (_ || _); [reflexivity|]. destruct (_ && _); [reflexivity|].
      destruct (tor_digest_is_zero _); reflexivity.
Qed.

(** Scenario S5: an extend cell for 10.0.0.1:9001 with
    ExtendAllowPrivateAddresses off. *)
Lemma circuit_extend_refuses_witness :
  let ec := mk_extend_cell (mk_addr_port 167772161 9001 false true)
              (repeat 7 20) [] in
  let env := mk_extend_env true false (Some ec) None true None 0 in
  let circ := mk_circuit None None None 0 CIRCUIT_STATE_OPEN None
                (repeat 9 20) in
  refused env circ
  /\ circuit_extend env circ = Some (mk_extend_result (-1) circ []).
Proof.
  intros ec env circ.
  assert (H : refused env circ).
  { right; right; right; right. exists ec.
    split; [reflexivity|]. right; right; left. split; reflexivity. }
  split; [exact H | exact (circuit_extend_refuses env circ H)].
Defined.

(** Scenario S6: the target is the previous hop. *)
Example circuit_extend_circular :
  let ec := mk_extend_cell (mk_addr_port 134744072 9001 false false)
              (repeat 9 20) [] in
  let env := mk_extend_env true false (Some ec) None true None 0 in
  let circ := mk_circuit None None None 0 CIRCUIT_STATE_OPEN None
                (repeat 9 20) in
  circuit_extend env circ = Some (mk_extend_result (-1) circ []).
Proof. reflexivity. Qed.

(** An extend cell that passes every test reaches the channel layer. *)
Example circuit_extend_accepts :
  let ec := mk_extend_cell (mk_addr_port 134744072 9001 false false)
              (repeat 7 20) [1; 2] in
  let env := mk_extend_env true false (Some ec) None true None 0 in
  let circ := mk_circuit None None None 0 CIRCUIT_STATE_OPEN None
                (repeat 9 20) in
  (ret <$> circuit_extend env circ) = Some 0
  /\ (chan_calls <$> circuit_extend env circ)
     = Some [Call_channel_get_for_extend (repeat 7 20) 134744072;
             Call_channel_connect 134744072 9001 (repeat 7 20)].
Proof. split; reflexivity. Qed.

End ExtendFacts.

(** ** Circuit-ID allocator *)

Module CircIdFacts.
Import OrH CircId.

Lemma max_range_pow2 chan : max_range chan = 2 ^ id_width chan.
Proof. unfold max_range, id_width. destruct (wide_circ_ids chan); reflexivity. Qed.

Lemma id_width_cases chan : id_width chan = 15 \/ id_width chan = 31.
Proof. unfold id_width. destruct (wide_circ_ids chan); auto. Qed.

Lemma high_bit_cases chan :
  (circ_id_type chan = CIRC_ID_TYPE_HIGHER /\ high_bit chan = max_range chan)
  \/ (circ_id_type chan <> CIRC_ID_TYPE_HIGHER /\ high_bit chan = 0).
Proof.
  unfold high_bit. destruct (circ_id_type chan); simpl; auto;
    right; split; congruence.
Qed.

Lemma wrap32_small z : 0 <= z < 2 ^ 32 -> wrap32 z = z.
Proof. intros H. unfold wrap32. apply Z.mod_small. exact H. Qed.

Lemma wrap32_nonneg z : 0 <= wrap32 z.
Proof. unfold wrap32. apply Z.mod_pos_bound. lia. Qed.

(** The candidate chosen in one turn lies in [1, max_range - 1], and the
    cursor stays a non-negative number. *)
Lemma candidate_range max_r next :
  1 < max_r -> 0 <= next ->
  let p := if (next =? 0) || (next >=? max_r)
           then (1, 2) else (next, wrap32 (next + 1)) in
  1 <= fst p < max_r /\ 0 <= snd p.
Proof.
  intros Hm Hn.
  destruct (next =? 0) eqn:E0; simpl; [lia|].
  destruct (next >=? max_r) eqn:E1; simpl; [lia|].
  split; [lia | apply wrap32_nonneg].
Qed.

Section Loop.
Variables (in_use : Z -> bool) (max_r high : Z).
Hypothesis max_r_gt : 1 < max_r.
Hypothesis max_r_lt : max_r + 1 < 2 ^ 32.

(** One turn of the loop. *)
Lemma circ_id_loop_turn (fuel : nat) next attempts probes :
  circ_id_loop (S fuel) in_use max_r high next attempts probes =
    let '(test_circ_id, next) :=
      if (next =? 0) || (next >=? max_r)
      then (1, 2) else (next, wrap32 (next + 1)) in
    if wrap32 (attempts + 1) >? max_r then Some (mk_alloc 0 next probes)
    else if in_use (Z.lor test_circ_id high)
         then circ_id_loop fuel in_use max_r high next
                (wrap32 (attempts + 1)) (probes + 1)
         else Some (mk_alloc (Z.lor test_circ_id high) next (probes + 1)).
Proof. reflexivity. Qed.

(** Enough fuel: the loop always returns. *)
Lemma circ_id_loop_total (n : nat) : forall next attempts probes,
  0 <= attempts <= max_r -> max_r - attempts <= Z.of_nat n ->
  is_Some (circ_id_loop (S n) in_use max_r high next attempts probes).
Proof.
  induction n as [|n IH]; intros next attempts probes Ha Hn;
    cbn [circ_id_loop]; rewrite (wrap32_small (attempts + 1)) by lia;
    destruct ((next =? 0) || (next >=? max_r));
    destruct (attempts + 1 >? max_r) eqn:Hgt; eauto;
    destruct (in_use _); eauto; try lia; apply IH; lia.
Qed.

(** A returned identifier other than 0 is free and is a candidate of
    [1, max_range - 1] with the side bit OR-ed in. *)
Lemma circ_id_loop_sound (fuel : nat) : forall next attempts probes r,
  0 <= next ->
  circ_id_loop fuel in_use max_r high next attempts probes = Some r ->
  alloc_id r <> 0 ->
  in_use (alloc_id r) = false
  /\ exists t, 1 <= t < max_r /\ alloc_id r = Z.lor t high.
Proof.
  induction fuel as [|fuel IH]; intros next attempts probes r Hn Hr Hid;
    [discriminate|].
  cbn [circ_id_loop] in Hr.
  pose proof (candidate_range max_r next max_r_gt Hn) as Hc. cbv zeta in Hc.
  destruct (if (next =? 0) || (next >=? max_r)
            then (1, 2) else (next, wrap32 (next + 1))) as [t nx] eqn:Ep.
  simpl in Hc. destruct Hc as [Ht Hnx].
  destruct (wrap32 (attempts + 1) >? max_r).
  - inversion Hr; subst r. simpl in Hid. congruence.
  - destruct (in_use (Z.lor t high)) eqn:Hu.
    + eapply IH; eauto.
    + inversion Hr; subst r. simpl. eauto.
Qed.

(** With every candidate in use the loop gives up after [max_range]
    look-ups. *)
Lemma circ_id_loop_exhausted (n : nat) : forall next attempts probes,
  (forall t, 1 <= t < max_r -> in_use (Z.lor t high) = true) ->
  0 <= next -> 0 <= attempts -> attempts + Z.of_nat n = max_r ->
  exists next',
    circ_id_loop (S n) in_use max_r high next attempts probes
    = Some (mk_alloc 0 next' (probes + Z.of_nat n)).
Proof.
  induction n as [|n IH]; intros next attempts probes Hall Hn Ha Hsum;
    rewrite circ_id_loop_turn;
    pose proof (candidate_range max_r next max_r_gt Hn) as Hc; cbv zeta in Hc;
    destruct (if (next =? 0) || (next >=? max_r)
              then (1, 2) else (next, wrap32 (next + 1))) as [t nx] eqn:Ep;
    simpl in Hc; destruct Hc as [Ht Hnx];
    rewrite (wrap32_small (attempts + 1)) by lia.
  - destruct (attempts + 1 >? max_r) eqn:Hgt; [|lia].
    exists nx. do 2 f_equal. simpl. lia.
  - destruct (attempts + 1 >? max_r) eqn:Hgt; [lia|].
    rewrite (Hall t Ht).
    destruct (IH nx (attempts + 1) (probes + 1) Hall Hnx) as [next' E];
      [lia | lia |].
    exists next'. rewrite E. do 2 f_equal. lia.
Qed.

End Loop.

Lemma low_bits_above (t w n : Z) :
  0 <= w -> 0 <= t < 2 ^ w -> w <= n -> Z.testbit t n = false.
Proof.
  intros Hw Ht Hn. rewrite <- (Z.mod_small t (2 ^ w)) by exact Ht.
  apply Z.mod_pow2_bits_high. lia.
Qed.

Lemma clearbit_lor_pow2 (t w : Z) :
  0 <= w -> 0 <= t < 2 ^ w -> Z.clearbit (Z.lor t (2 ^ w)) w = t.
Proof.
  intros Hw Ht. apply Z.bits_inj'. intros n Hn.
  rewrite Z.clearbit_eqb, Z.lor_spec, Z.pow2_bits_eqb by exact Hw.
  destruct (w =? n) eqn:E; simpl.
  - apply Z.eqb_eq in E. subst n.
    rewrite (low_bits_above t w w); auto; lia.
  - rewrite orb_false_r, andb_true_r. reflexivity.
Qed.

Lemma clearbit_low (t w : Z) :
  0 <= w -> 0 <= t < 2 ^ w -> Z.clearbit t w = t.
Proof.
  intros Hw Ht. apply Z.bits_inj'. intros n Hn.
  rewrite Z.clearbit_eqb.
  destruct (w =? n) eqn:E; simpl.
  - apply Z.eqb_eq in E. subst n.
    rewrite (low_bits_above t w w); auto; lia.
  - rewrite andb_true_r. reflexivity.
Qed.

(** C8.  On a channel whose cursor is a [uint32_t] value,
    [get_unique_circ_id_by_chan] always returns.  It returns 0 when the
    channel's circ_id_type is NEITHER.  When every identifier of the
    channel's side is in use it returns 0 after exactly 2^width look-ups
    (width 15, or 31 with wide identifiers).  A returned identifier other
    than 0 is not in use, its value without the high bit lies in
    [1, 2^width - 1], and its high bit is set exactly when circ_id_type is
    HIGHER. *)
Theorem get_unique_circ_id_by_chan_spec (chan : channel_t) :
  0 <= next_circ_id chan < 2 ^ 32 ->
  exists id chan' probes,
    get_unique_circ_id_by_chan chan = Some (id, chan', probes)
    /\ (circ_id_type chan = CIRC_ID_TYPE_NEITHER -> id = 0)
    /\ (circ_id_type chan <> CIRC_ID_TYPE_NEITHER ->
        (forall t, 1 <= t < 2 ^ id_width chan ->
                   id_in_use chan (Z.lor t (high_bit chan)) = true) ->
        id = 0 /\ probes = 2 ^ id_width chan)
    /\ (id <> 0 ->
        id_in_use chan id = false
        /\ 1 <= Z.clearbit id (id_width chan) <= 2 ^ id_width chan - 1
        /\ (Z.testbit id (id_width chan) = true
            <-> circ_id_type chan = CIRC_ID_TYPE_HIGHER)).
Proof.
  intros Hnext. unfold get_unique_circ_id_by_chan.
  destruct (circ_id_type_eqb (circ_id_type chan) CIRC_ID_TYPE_NEITHER) eqn:Hty.
  { assert (Hty' : circ_id_type chan = CIRC_ID_TYPE_NEITHER)
      by (destruct (circ_id_type chan); simpl in Hty; congruence).
    exists 0, chan, 0. repeat split; congruence. }
  assert (Hneither : circ_id_type chan <> CIRC_ID_TYPE_NEITHER)
    by (intros E; rewrite E in Hty; discriminate).
  pose proof (max_range_pow2 chan) as Hmax.
  assert (Hw : 0 <= id_width chan) by (destruct (id_width_cases chan); lia).
  assert (Hgt : 1 < max_range chan)
    by (rewrite Hmax; destruct (id_width_cases chan) as [E|E]; rewrite E; lia).
  assert (Hlt : max_range chan + 1 < 2 ^ 32)
    by (rewrite Hmax; destruct (id_width_cases chan) as [E|E]; rewrite E; lia).
  set (n := Z.to_nat (max_range chan)).
  assert (Hn : Z.of_nat n = max_range chan) by (unfold n; lia).
  destruct (circ_id_loop_total (id_in_use chan) (max_range chan)
              (high_bit chan) Hlt n (next_circ_id chan) 0 0) as [r Hr];
    [lia | lia |].
  rewrite Hr.
  exists (alloc_id r), (set_next_circ_id chan (alloc_next r)), (alloc_probes r).
  split; [reflexivity|]. split; [congruence|]. split.
  - intros _ Hall. rewrite <- Hmax in Hall.
    destruct (circ_id_loop_exhausted (id_in_use chan) (max_range chan)
                (high_bit chan) Hgt Hlt n (next_circ_id chan) 0 0 Hall)
      as [next' E]; [lia | lia | lia |].
    rewrite E in Hr. inversion Hr; subst r. simpl. split; [reflexivity|lia].
  - intros Hid.
    destruct (circ_id_loop_sound (id_in_use chan) (max_range chan)
                (high_bit chan) Hgt (S n) (next_circ_id chan) 0 0 r)
      as (Hfree & t & Ht & Eid); [lia | exact Hr | exact Hid |].
    split; [exact Hfree|]. rewrite Eid. rewrite Hmax in Ht.
    destruct (high_bit_cases chan) as [[Hh Eh] | [Hh Eh]]; rewrite Eh.
    + rewrite Hmax, clearbit_lor_pow2 by lia.
      split; [lia|]. rewrite Z.lor_spec, Z.pow2_bits_true by exact Hw.
      rewrite orb_true_r. tauto.
    + rewrite Z.lor_0_r, clearbit_low by lia.
      split; [lia|]. rewrite (low_bits_above t (id_width chan)) by lia.
      split; [discriminate | contradiction].
Qed.

(** A channel of the higher side with 15-bit identifiers, all of them in
    use. *)
Lemma get_unique_circ_id_by_chan_spec_witness :
  let chan := mk_channel CIRC_ID_TYPE_HIGHER false 5 (fun _ => true) in
  0 <= next_circ_id chan < 2 ^ 32
  /\ exists id chan' probes,
       get_unique_circ_id_by_chan chan = Some (id, chan', probes)
       /\ (circ_id_type chan = CIRC_ID_TYPE_NEITHER -> id = 0)
       /\ (circ_id_type chan <> CIRC_ID_TYPE_NEITHER ->
           (forall t, 1 <= t < 2 ^ id_width chan ->
                      id_in_use chan (Z.lor t (high_bit chan)) = true) ->
           id = 0 /\ probes = 2 ^ id_width chan)
       /\ (id <> 0 ->
           id_in_use chan id = false
           /\ 1 <= Z.clearbit id (id_width chan) <= 2 ^ id_width chan - 1
           /\ (Z.testbit id (id_width chan) = true
               <-> circ_id_type chan = CIRC_ID_TYPE_HIGHER)).
Proof.
  intros chan.
  assert (H : 0 <= next_circ_id chan < 2 ^ 32) by (simpl; lia).
  split; [exact H | exact (get_unique_circ_id_by_chan_spec chan H)].
Defined.

(** Identifiers 1 to 3 and 0x7fff are taken on a channel of the lower side
    whose cursor stands at 0x7fff: the cursor wraps, and 4 is handed out
    after five look-ups. *)
Example get_unique_circ_id_wraps :
  let chan := mk_channel CIRC_ID_TYPE_LOWER false 32767
                (fun id => (id <? 4) || (id =? 32767)) in
  (fun r => (r.1.1, next_circ_id r.1.2, r.2))
    <$> get_unique_circ_id_by_chan chan = Some (4, 5, 5).
Proof. vm_compute. reflexivity. Qed.

(** The same on the higher side: the side bit 0x8000 is set in the
    answer. *)
Example get_unique_circ_id_high_side :
  let chan := mk_channel CIRC_ID_TYPE_HIGHER false 1
                (fun id => id <? 32768 + 3) in
  (fun r => (r.1.1, next_circ_id r.1.2, r.2))
    <$> get_unique_circ_id_by_chan chan = Some (32768 + 3, 4, 3).
Proof. vm_compute. reflexivity. Qed.

(** All 15-bit identifiers in use: 0 after 32768 look-ups. *)
Example get_unique_circ_id_full :
  let chan := mk_channel CIRC_ID_TYPE_LOWER false 1 (fun _ => true) in
  (fun r => (r.1.1, r.2)) <$> get_unique_circ_id_by_chan chan
  = Some (0, 32768).
Proof. vm_compute. reflexivity. Qed.


(** *** The cursor, and when the search succeeds *)

Section Cursor.
Variables (in_use : Z -> bool) (max_r high : Z).
Hypothesis max_r_gt : 1 < max_r.
Hypothesis max_r_lt : max_r + 1 < 2 ^ 32.

(** The candidate a turn tests when the cursor stands at [next]. *)
Definition candidate (next : Z) : Z :=
  if (next =? 0) || (next >=? max_r) then 1 else next.

Lemma candidate_bounds next : 0 <= next -> 1 <= candidate next < max_r.
Proof.
  intros Hn. unfold candidate.
  destruct (next =? 0) eqn:E0; cbn [orb]; [lia|].
  destruct (next >=? max_r) eqn:E1; lia.
Qed.

(** One turn, written with [candidate]: the cursor moves just past the
    candidate. *)
Lemma circ_id_loop_step (fuel : nat) next attempts probes :
  0 <= next -> 0 <= attempts < max_r ->
  circ_id_loop (S fuel) in_use max_r high next attempts probes =
    if in_use (Z.lor (candidate next) high)
    then circ_id_loop fuel in_use max_r high (candidate next + 1)
           (attempts + 1) (probes + 1)
    else Some (mk_alloc (Z.lor (candidate next) high) (candidate next + 1)
                 (probes + 1)).
Proof.
  intros Hn Ha. rewrite circ_id_loop_turn. unfold candidate.
  rewrite (wrap32_small (attempts + 1)) by lia.
  assert (Hgt : (attempts + 1 >? max_r) = false) by lia. rewrite Hgt.
  destruct (next =? 0) eqn:E0; cbn [orb]; [reflexivity|].
  destruct (next >=? max_r) eqn:E1; [reflexivity|].
  rewrite (wrap32_small (next + 1)) by lia. reflexivity.
Qed.

Lemma circ_id_loop_cursor (fuel : nat) : forall next attempts probes r,
  0 <= next -> 0 <= attempts < max_r ->
  circ_id_loop fuel in_use max_r high next attempts probes = Some r ->
  2 <= alloc_next r <= max_r.
Proof.
  induction fuel as [|fuel IH]; intros next attempts probes r Hn Ha Hr;
    [discriminate|].
  rewrite circ_id_loop_step in Hr by assumption.
  pose proof (candidate_bounds next Hn) as Hc.
  destruct (in_use _).
  - destruct (Z.eq_dec (attempts + 1) max_r) as [E|E].
    + destruct fuel as [|fuel']; [discriminate|].
      rewrite circ_id_loop_turn in Hr.
      rewrite (wrap32_small (attempts + 1 + 1)) in Hr by lia.
      assert (Hgt : (attempts + 1 + 1 >? max_r) = true) by lia.
      rewrite Hgt in Hr.
      destruct ((candidate next + 1 =? 0) || (candidate next + 1 >=? max_r))
        eqn:E2; inversion Hr; subst r; cbn; [lia|].
      rewrite wrap32_small by lia.
      apply orb_false_iff in E2. lia.
    + apply (IH (candidate next + 1) (attempts + 1) (probes + 1) r);
        [lia | lia | exact Hr].
  - inversion Hr; subst r. cbn. lia.
Qed.


Lemma candidate_next c :
  1 <= c < max_r ->
  candidate (c + 1) = if c + 1 =? max_r then 1 else c + 1.
Proof.
  intros Hc. unfold candidate.
  destruct (c + 1 =? max_r) eqn:E.
  - assert (H : (c + 1 >=? max_r) = true) by lia.
    rewrite H, orb_true_r. reflexivity.
  - assert (H0 : (c + 1 =? 0) = false) by lia.
    assert (H1 : (c + 1 >=? max_r) = false) by lia.
    rewrite H0, H1. reflexivity.
Qed.

(** Steps from candidate [c] to candidate [t] in the cycle
    1, 2, ..., max_range - 1, 1, ... *)
Definition steps_to (c t : Z) : Z := (t - c) mod (max_r - 1).

Lemma steps_to_zero c t :
  1 <= c < max_r -> 1 <= t < max_r -> steps_to c t = 0 -> c = t.
Proof.
  unfold steps_to. intros Hc Ht H.
  apply Z.mod_divide in H; [|lia]. destruct H as [k Hk].
  assert (k = 0) by nia. lia.
Qed.

Lemma steps_to_next c t :
  1 <= c < max_r -> 1 <= t < max_r -> 0 < steps_to c t ->
  steps_to (candidate (c + 1)) t = steps_to c t - 1.
Proof.
  unfold steps_to. intros Hc Ht H. rewrite candidate_next by exact Hc.
  assert (Hm : 0 < max_r - 1) by lia.
  pose proof (Z.mod_pos_bound (t - c) (max_r - 1) Hm) as Hb.
  destruct (c + 1 =? max_r) eqn:E.
  - replace (t - 1) with ((t - c - 1) + 1 * (max_r - 1)) by lia.
    rewrite Z.mod_add by lia.
    replace (t - c - 1) with ((t - c) - 1) by lia.
    rewrite <- (Z.mod_small ((t - c) mod (max_r - 1) - 1) (max_r - 1)) by lia.
    rewrite Zminus_mod_idemp_l. reflexivity.
  - replace (t - (c + 1)) with ((t - c) - 1) by lia.
    rewrite <- (Z.mod_small ((t - c) mod (max_r - 1) - 1) (max_r - 1)) by lia.
    rewrite Zminus_mod_idemp_l. reflexivity.
Qed.

Lemma lor_nonzero c : 1 <= c -> Z.lor c high <> 0.
Proof.
  intros Hc E. apply Z.lor_eq_0_iff in E. lia.
Qed.

(** A free candidate [n] steps ahead is reached, or a free one before
    it. *)
Lemma circ_id_loop_finds (n : nat) : forall next attempts probes t,
  0 <= next -> 0 <= attempts ->
  1 <= t < max_r ->
  in_use (Z.lor t high) = false ->
  steps_to (candidate next) t = Z.of_nat n ->
  attempts + Z.of_nat n < max_r ->
  forall fuel, (n < fuel)%nat ->
  exists r,
    circ_id_loop fuel in_use max_r high next attempts probes = Some r
    /\ alloc_id r <> 0
    /\ probes < alloc_probes r <= probes + Z.of_nat n + 1.
Proof.
  induction n as [|n IH]; intros next attempts probes t Hn Ha Ht Hfree Hs Hb
    fuel Hfuel; (destruct fuel as [|fuel]; [lia|]);
    rewrite circ_id_loop_step by (try assumption; lia);
    pose proof (candidate_bounds next Hn) as Hc.
  - apply steps_to_zero in Hs; [|exact Hc|exact Ht]. rewrite Hs, Hfree.
    eexists. split; [reflexivity|]. cbn.
    split; [apply lor_nonzero; lia | lia].
  - destruct (in_use (Z.lor (candidate next) high)) eqn:Hu.
    + destruct (IH (candidate next + 1) (attempts + 1) (probes + 1) t)
        with (fuel := fuel) as (r & Hr & Hid & Hp);
        try assumption; try lia.
      * rewrite steps_to_next by (try assumption; lia). lia.
      * exists r. split; [exact Hr|]. split; [exact Hid|]. lia.
    + eexists. split; [reflexivity|]. cbn.
      split; [apply lor_nonzero; lia | lia].
Qed.

(** A returned identifier other than 0 is the candidate of the last turn
    with the side bit OR-ed in, and the cursor stands one past that
    candidate. *)
Lemma circ_id_loop_behind (fuel : nat) : forall next attempts probes r,
  0 <= next ->
  circ_id_loop fuel in_use max_r high next attempts probes = Some r ->
  alloc_id r <> 0 ->
  exists t,
    1 <= t < max_r /\ alloc_id r = Z.lor t high /\ alloc_next r = t + 1.
Proof.
  induction fuel as [|fuel IH]; intros next attempts probes r Hn Hr Hid;
    [discriminate|].
  rewrite circ_id_loop_turn in Hr.
  assert (Hturn : exists t nx,
             (if (next =? 0) || (next >=? max_r)
              then (1, 2) else (next, wrap32 (next + 1))) = (t, nx)
             /\ 1 <= t < max_r /\ nx = t + 1).
  { destruct (next =? 0) eqn:E0; cbn [orb].
    - exists 1, 2. split; [reflexivity|]. lia.
    - destruct (next >=? max_r) eqn:E1.
      + exists 1, 2. split; [reflexivity|]. lia.
      + exists next, (next + 1). rewrite wrap32_small by lia.
        split; [reflexivity|]. lia. }
  destruct Hturn as (t & nx & Ep & Ht & Hnx). rewrite Ep in Hr.
  destruct (wrap32 (attempts + 1) >? max_r).
  - inversion Hr; subst r. cbn in Hid. congruence.
  - destruct (in_use (Z.lor t high)).
    + apply (IH nx (wrap32 (attempts + 1)) (probes + 1) r); [lia | exact Hr | exact Hid].
    + inversion Hr; subst r. exists t. cbn. auto.
Qed.
End Cursor.

Lemma max_range_bounds chan :
  1 < max_range chan /\ max_range chan + 1 < 2 ^ 32.
Proof.
  rewrite max_range_pow2.
  destruct (id_width_cases chan) as [E|E]; rewrite E; lia.
Qed.

(** X10.  A call of [get_unique_circ_id_by_chan] changes nothing of the
    channel but the cursor [next_circ_id], which stays a [uint32_t] value.
    With circ_id_type NEITHER the cursor is not moved; otherwise it is
    left in [2, 2^width].  When an identifier is returned the cursor
    stands one past it, the side bit aside: the next search starts right
    behind the identifier just handed out. *)
Theorem get_unique_circ_id_by_chan_cursor chan id chan' probes :
  0 <= next_circ_id chan < 2 ^ 32 ->
  get_unique_circ_id_by_chan chan = Some (id, chan', probes) ->
  circ_id_type chan' = circ_id_type chan
  /\ wide_circ_ids chan' = wide_circ_ids chan
  /\ id_in_use chan' = id_in_use chan
  /\ 0 <= next_circ_id chan' < 2 ^ 32
  /\ (circ_id_type chan = CIRC_ID_TYPE_NEITHER ->
      next_circ_id chan' = next_circ_id chan)
  /\ (circ_id_type chan <> CIRC_ID_TYPE_NEITHER ->
      2 <= next_circ_id chan' <= 2 ^ id_width chan)
  /\ (id <> 0 ->
      next_circ_id chan' = Z.clearbit id (id_width chan) + 1).
Proof.
  intros Hnext. unfold get_unique_circ_id_by_chan.
  destruct (circ_id_type_eqb (circ_id_type chan) CIRC_ID_TYPE_NEITHER) eqn:Hty.
  { intros E. inversion E; subst.
    split; [reflexivity|]. split; [reflexivity|]. split; [reflexivity|].
    split; [lia|]. split; [reflexivity|].
    split; [|congruence].
    intros Hne. destruct (circ_id_type chan'); cbn in Hty; congruence. }
  destruct (circ_id_loop _ _ _ _ _ _ _) as [r|] eqn:Hr; [|discriminate].
  intros E. inversion E; subst. clear E.
  destruct (max_range_bounds chan) as [Hgt Hlt].
  pose proof (circ_id_loop_cursor (id_in_use chan) (max_range chan)
                (high_bit chan) Hgt Hlt (S (Z.to_nat (max_range chan)))
                (next_circ_id chan) 0 0 r ltac:(lia) ltac:(lia) Hr)
    as Hc.
  assert (Hw : 0 <= id_width chan) by (destruct (id_width_cases chan); lia).
  cbn.
  split; [reflexivity|]. split; [reflexivity|]. split; [reflexivity|].
  split; [lia|]. split.
  { intros Hn. rewrite Hn in Hty. discriminate. }
  split; [intros _; rewrite <- max_range_pow2; exact Hc|].
  intros Hid.
  destruct (circ_id_loop_behind (id_in_use chan) (max_range chan)
              (high_bit chan) Hgt Hlt (S (Z.to_nat (max_range chan)))
              (next_circ_id chan) 0 0 r ltac:(lia) Hr Hid)
    as (t & Ht & Eid & Enext).
  rewrite Enext, Eid. rewrite max_range_pow2 in Ht. f_equal. symmetry.
  destruct (high_bit_cases chan) as [[_ Eh] | [_ Eh]]; rewrite Eh.
  - rewrite max_range_pow2. apply clearbit_lor_pow2; lia.
  - rewrite Z.lor_0_r. apply clearbit_low; lia.
Qed.

(** X11.  [get_unique_circ_id_by_chan] fails only when the channel is
    full: as long as one identifier of the channel's side is free it
    returns an identifier other than 0, after at most 2^width - 1
    look-ups. *)
Theorem get_unique_circ_id_by_chan_finds_free chan t :
  0 <= next_circ_id chan < 2 ^ 32 ->
  circ_id_type chan <> CIRC_ID_TYPE_NEITHER ->
  1 <= t < 2 ^ id_width chan ->
  id_in_use chan (Z.lor t (high_bit chan)) = false ->
  exists id chan' probes,
    get_unique_circ_id_by_chan chan = Some (id, chan', probes)
    /\ id <> 0
    /\ 1 <= probes <= 2 ^ id_width chan - 1.
Proof.
  intros Hnext Hty Ht Hfree. unfold get_unique_circ_id_by_chan.
  assert (Hne : circ_id_type_eqb (circ_id_type chan) CIRC_ID_TYPE_NEITHER
                = false)
    by (destruct (circ_id_type chan); cbn; congruence).
  rewrite Hne. rewrite <- max_range_pow2 in *.
  destruct (max_range_bounds chan) as [Hgt Hlt].
  pose proof (Z.mod_pos_bound
                (t - candidate (max_range chan) (next_circ_id chan))
                (max_range chan - 1) ltac:(lia)) as Hb.
  destruct (circ_id_loop_finds (id_in_use chan) (max_range chan)
              (high_bit chan) Hgt Hlt
              (Z.to_nat (steps_to (max_range chan)
                           (candidate (max_range chan) (next_circ_id chan)) t))
              (next_circ_id chan) 0 0 t)
    with (fuel := S (Z.to_nat (max_range chan)))
    as (r & Hr & Hid & Hp); unfold steps_to in *; try lia; try assumption.
  rewrite Hr. eexists _, _, _. split; [reflexivity|].
  split; [exact Hid | lia].
Qed.

(** On a channel of the lower side with identifiers 1 to 3 in use, 4 is
    free and is found. *)
Lemma get_unique_circ_id_by_chan_finds_free_witness :
  let chan := mk_channel CIRC_ID_TYPE_LOWER false 32767
                (fun id => (id <? 4) || (id =? 32767)) in
  exists id chan' probes,
    get_unique_circ_id_by_chan chan = Some (id, chan', probes)
    /\ id <> 0
    /\ 1 <= probes <= 2 ^ id_width chan - 1.
Proof.
  intros chan.
  apply (get_unique_circ_id_by_chan_finds_free chan 4).
  - cbn. lia.
  - discriminate.
  - cbn. lia.
  - reflexivity.
Defined.

(** The cursor of that channel wraps from 0x7fff to 1 and is left at 5,
    one past the identifier 4. *)
Lemma get_unique_circ_id_by_chan_cursor_witness :
  let chan := mk_channel CIRC_ID_TYPE_LOWER false 32767
                (fun id => (id <? 4) || (id =? 32767)) in
  exists chan',
    get_unique_circ_id_by_chan chan = Some (4, chan', 5)
    /\ 2 <= next_circ_id chan' <= 2 ^ id_width chan
    /\ next_circ_id chan' = 5.
Proof.
  intros chan.
  assert (Hrun : { chan' | get_unique_circ_id_by_chan chan
                           = Some (4, chan', 5) })
    by (eexists; vm_compute; reflexivity).
  destruct Hrun as [chan' Hrun].
  destruct (get_unique_circ_id_by_chan_cursor chan 4 chan' 5
              ltac:(cbn; lia) Hrun) as (_ & _ & _ & _ & _ & Hc & Hb).
  exists chan'. split; [exact Hrun|].
  split; [apply Hc; discriminate|].
  rewrite Hb by discriminate. reflexivity.
Defined.

End CircIdFacts.

(** ** Extend responder: accepted cells *)

Module ExtendDelivery.
Import OrH Extend ExtendFacts.

(** The tests of [circuit_extend], in the order the code makes them. *)
Definition refuses (env : extend_env) (circ : circuit_t) : bool :=
  non_null (n_chan circ) || non_null (n_hop circ) || negb (server_mode env)
  || match parsed env with
     | None => true
     | Some ec =>
         (port (orport_ipv4 ec) =? 0) || addr_is_null (orport_ipv4 ec)
         || (addr_is_internal (orport_ipv4 ec)
             && negb (ExtendAllowPrivateAddresses env))
         || tor_digest_is_zero (node_id ec)
         || tor_memeq (node_id ec) (p_chan_identity_digest circ)
     end.

Lemma refuses_refused env circ : refuses env circ = true <-> refused env circ.
Proof.
  unfold refuses, refused. rewrite !orb_true_iff, negb_true_iff.
  destruct (parsed env) as [ec|].
  - rewrite !orb_true_iff, andb_true_iff, negb_true_iff, Z.eqb_eq.
    unfold tor_memeq. rewrite bool_decide_eq_true.
    split.
    + intros [[[H|H]|H]|H]; auto.
      do 4 right. exists ec. split; [reflexivity|]. tauto.
    + intros [H|[H|[H|[H|(ec' & E & H)]]]]; auto; [discriminate|].
      injection E as <-. tauto.
  - split; [intros _; auto|]. auto.
Qed.

Lemma circuit_extend_refuses_run env circ :
  refuses env circ = true ->
  circuit_extend env circ = Some (mk_extend_result (-1) circ []).
Proof.
  unfold refuses, circuit_extend.
  destruct (non_null (n_chan circ)); [reflexivity|].
  destruct (non_null (n_hop circ)); [reflexivity|].
  destruct (server_mode env); [|reflexivity]. cbn [negb orb].
  destruct (parsed env) as [ec|]; [|reflexivity].
  destruct (_ || addr_is_null _); [reflexivity|].
  destruct (_ && _); [reflexivity|].
  destruct (tor_digest_is_zero _); [reflexivity|].
  destruct (tor_memeq _ _); [reflexivity|]. discriminate.
Qed.

(** What [circuit_extend] does with a cell it does not refuse. *)
Lemma circuit_extend_accepts_run env circ :
  refuses env circ = false ->
  exists ec,
    parsed env = Some ec
    /\ circuit_extend env circ =
       let call1 := Call_channel_get_for_extend (node_id ec)
                      (addr (orport_ipv4 ec)) in
       match get_for_extend_chan env with
       | None =>
           let circ := mk_circuit (n_chan circ)
               (Some (mk_extend_info (node_id ec) (addr (orport_ipv4 ec))
                        (port (orport_ipv4 ec))))
               (Some (create_cell ec)) (n_circ_id circ)
               CIRCUIT_STATE_CHAN_WAIT (marked_for_close circ)
               (p_chan_identity_digest circ) in
           if get_for_extend_should_launch env then
             let call2 := Call_channel_connect (addr (orport_ipv4 ec))
                            (port (orport_ipv4 ec)) (node_id ec) in
             match connect_chan env with
             | None =>
                 Some (mk_extend_result 0
                         (mk_circuit (n_chan circ) (n_hop circ)
                            (n_chan_create_cell circ) (n_circ_id circ)
                            (state circ) (Some END_CIRC_REASON_CONNECTFAILED)
                            (p_chan_identity_digest circ))
                         [call1; call2])
             | Some _ => Some (mk_extend_result 0 circ [call1; call2])
             end
           else Some (mk_extend_result 0 circ [call1])
       | Some chan =>
           match circuit_deliver_create_cell env circ chan (create_cell ec) with
           | None => None
           | Some r =>
               Some (mk_extend_result (ret r) (circ_after r)
                       (call1 :: chan_calls r))
           end
       end.
Proof.
  unfold refuses, circuit_extend.
  destruct (non_null (n_chan circ)); [discriminate|].
  destruct (non_null (n_hop circ)); [discriminate|].
  destruct (server_mode env); [|discriminate]. cbn [negb orb].
  destruct (parsed env) as [ec|]; [|discriminate].
  destruct (_ || addr_is_null _); [discriminate|].
  destruct (_ && _); [discriminate|].
  destruct (tor_digest_is_zero _); [discriminate|].
  destruct (tor_memeq _ _); [discriminate|].
  intros _. exists ec. split; reflexivity.
Qed.

(** X12.  [circuit_extend] returns 0 or -1, and it stays away from the
    channel layer only when it refuses the cell: for every cell that
    passes the tests of the refusal list the first thing it does is to ask
    [channel_get_for_extend] for a channel to the named relay. *)
Theorem circuit_extend_silent_iff_refused env circ r :
  circuit_extend env circ = Some r ->
  (ret r = 0 \/ ret r = -1)
  /\ (chan_calls r = [] <-> refused env circ)
  /\ (~ refused env circ ->
      exists ec rest,
        parsed env = Some ec
        /\ chan_calls r =
           Call_channel_get_for_extend (node_id ec) (addr (orport_ipv4 ec))
           :: rest).
Proof.
  intros Hrun. rewrite <- refuses_refused.
  destruct (refuses env circ) eqn:Href.
  - rewrite (circuit_extend_refuses_run env circ Href) in Hrun.
    inversion Hrun; subst r. cbn.
    split; [auto|]. split; [tauto|]. intros H. exfalso. auto.
  - destruct (circuit_extend_accepts_run env circ Href) as (ec & Hp & Hacc).
    rewrite Hacc in Hrun. cbv zeta in Hrun.
    assert (Hcalls : exists rest,
               chan_calls r =
               Call_channel_get_for_extend (node_id ec)
                 (addr (orport_ipv4 ec)) :: rest
               /\ (ret r = 0 \/ ret r = -1)).
    { destruct (get_for_extend_chan env) as [chan|].
      - unfold circuit_deliver_create_cell in Hrun.
        destruct (CircId.get_unique_circ_id_by_chan chan)
          as [[[id chan'] probes]|]; [|discriminate].
        destruct (id =? 0);
          [inversion Hrun; subst r; cbn; eauto|].
        destruct (create_cell_format_result env <? 0);
          inversion Hrun; subst r; cbn; eauto.
      - destruct (get_for_extend_should_launch env);
          [destruct (connect_chan env)|];
          inversion Hrun; subst r; cbn; eauto. }
    destruct Hcalls as (rest & Hc & Hret).
    split; [exact Hret|]. split.
    + rewrite Hc. split; discriminate.
    + intros _. exists ec, rest. auto.
Qed.

(** The allocator on a channel with a [uint32_t] cursor: it returns, the
    cursor stays a [uint32_t] value, and an identifier other than 0 was
    free. *)
Lemma get_unique_circ_id_run chan :
  0 <= CircId.next_circ_id chan < 2 ^ 32 ->
  exists id chan' probes,
    CircId.get_unique_circ_id_by_chan chan = Some (id, chan', probes)
    /\ CircId.id_in_use chan' = CircId.id_in_use chan
    /\ 0 <= CircId.next_circ_id chan' < 2 ^ 32
    /\ (id <> 0 -> CircId.id_in_use chan id = false).
Proof.
  intros Hnext. unfold CircId.get_unique_circ_id_by_chan.
  destruct (CircId.circ_id_type_eqb _ _).
  { exists 0, chan, 0. split; [reflexivity|]. split; [reflexivity|].
    split; [exact Hnext|]. congruence. }
  destruct (CircIdFacts.max_range_bounds chan) as [Hgt Hlt].
  destruct (CircIdFacts.circ_id_loop_total (CircId.id_in_use chan)
              (CircId.max_range chan) (CircId.high_bit chan) Hlt
              (Z.to_nat (CircId.max_range chan))
              (CircId.next_circ_id chan) 0 0) as [r Hr]; [lia | lia |].
  rewrite Hr. eexists _, _, _. split; [reflexivity|].
  split; [reflexivity|]. split.
  - pose proof (CircIdFacts.circ_id_loop_cursor (CircId.id_in_use chan)
                  (CircId.max_range chan) (CircId.high_bit chan) Hgt Hlt _
                  (CircId.next_circ_id chan) 0 0 r ltac:(lia) ltac:(lia) Hr).
    cbn. lia.
  - intros Hid.
    destruct (CircIdFacts.circ_id_loop_sound (CircId.id_in_use chan)
                (CircId.max_range chan) (CircId.high_bit chan) Hgt _
                (CircId.next_circ_id chan) 0 0 r ltac:(lia) Hr Hid)
      as [Hfree _].
    exact Hfree.
Qed.

(** An identifier bound on a channel is not handed out again. *)
Lemma bound_id_not_reused chan id id2 chan2 probes2 :
  0 <= CircId.next_circ_id chan < 2 ^ 32 ->
  CircId.get_unique_circ_id_by_chan (CircId.bind_circ_id chan id)
  = Some (id2, chan2, probes2) ->
  id2 <> 0 -> id2 <> id.
Proof.
  intros Hnext Hrun Hid2.
  destruct (get_unique_circ_id_run (CircId.bind_circ_id chan id) Hnext)
    as (id' & chan' & probes' & Hrun' & _ & _ & Hfree).
  rewrite Hrun in Hrun'. injection Hrun' as <- _ _.
  specialize (Hfree Hid2). cbn in Hfree.
  apply orb_false_iff in Hfree as [Hne _]. lia.
Qed.

(** X13.  When [circuit_extend] accepts a cell and
    [channel_get_for_extend] has a channel to the next relay, the circuit
    is attached to that channel and [get_unique_circ_id_by_chan] is asked
    for an identifier.  If none is left, nothing is bound or queued and -1
    is returned.  Otherwise the identifier, which was free, becomes the
    circuit's [n_circ_id] and is bound on the channel: it is in use from
    then on, every other identifier reads as before, and a later
    allocation on the channel never hands it out again.  The relayed
    create cell is then queued under it and 0 returned, unless the cell
    cannot be formatted: then nothing is queued and -1 is returned with
    the identifier left bound. *)
Theorem circuit_extend_delivers env circ chan :
  ~ refused env circ ->
  get_for_extend_chan env = Some chan ->
  0 <= CircId.next_circ_id chan < 2 ^ 32 ->
  exists ec r chan' id chan1 probes,
    parsed env = Some ec
    /\ circuit_extend env circ = Some r
    /\ CircId.get_unique_circ_id_by_chan chan = Some (id, chan1, probes)
    /\ n_chan (circ_after r) = Some chan'
    /\ n_hop (circ_after r) = None
    /\ state (circ_after r) = state circ
    /\ if id =? 0
       then ret r = -1
            /\ chan' = chan1
            /\ n_circ_id (circ_after r) = n_circ_id circ
            /\ chan_calls r =
               [Call_channel_get_for_extend (node_id ec)
                  (addr (orport_ipv4 ec))]
       else n_circ_id (circ_after r) = id
            /\ CircId.id_in_use chan id = false
            /\ chan' = CircId.bind_circ_id chan1 id
            /\ CircId.id_in_use chan' id = true
            /\ (forall x, x <> id ->
                  CircId.id_in_use chan' x = CircId.id_in_use chan x)
            /\ (forall id2 chan2 probes2,
                  CircId.get_unique_circ_id_by_chan chan'
                  = Some (id2, chan2, probes2) ->
                  id2 <> 0 -> id2 <> id)
            /\ if create_cell_format_result env <? 0
               then ret r = -1
                    /\ chan_calls r =
                       [Call_channel_get_for_extend (node_id ec)
                          (addr (orport_ipv4 ec))]
               else ret r = 0
                    /\ chan_calls r =
                       [Call_channel_get_for_extend (node_id ec)
                          (addr (orport_ipv4 ec));
                        Call_append_cell_to_circuit_queue id
                          (create_cell ec)].
Proof.
  intros Href Hchan Hnext.
  assert (Hb : refuses env circ = false).
  { destruct (refuses env circ) eqn:E; [|reflexivity].
    exfalso. apply Href, refuses_refused, E. }
  destruct (circuit_extend_accepts_run env circ Hb) as (ec & Hp & Hacc).
  rewrite Hchan in Hacc. cbv zeta in Hacc.
  assert (Hnh : n_hop circ = None).
  { unfold refuses in Hb. destruct (n_hop circ); [|reflexivity].
    cbn in Hb. rewrite orb_true_r in Hb. discriminate. }
  destruct (get_unique_circ_id_run chan Hnext)
    as (id & chan1 & probes & Hid & Huse & Hnext1 & Hfree).
  unfold circuit_deliver_create_cell in Hacc. rewrite Hid in Hacc.
  exists ec. destruct (id =? 0) eqn:E0.
  - eexists _, chan1, id, chan1, probes.
    split; [exact Hp|]. split; [exact Hacc|]. split; [exact Hid|].
    cbn. split; [reflexivity|]. split; [exact Hnh|].
    split; [reflexivity|]. rewrite E0. repeat split; reflexivity.
  - assert (Hbound :
      CircId.id_in_use chan id = false
      /\ CircId.id_in_use (CircId.bind_circ_id chan1 id) id = true
      /\ (forall x, x <> id ->
            CircId.id_in_use (CircId.bind_circ_id chan1 id) x
            = CircId.id_in_use chan x)
      /\ (forall id2 chan2 probes2,
            CircId.get_unique_circ_id_by_chan (CircId.bind_circ_id chan1 id)
            = Some (id2, chan2, probes2) ->
            id2 <> 0 -> id2 <> id)).
    { split; [apply Hfree; lia|].
      split; [cbn; rewrite Z.eqb_refl; reflexivity|].
      split.
      - intros x Hx. cbn. rewrite Huse.
        destruct (Z.eqb_spec x id); [contradiction|reflexivity].
      - intros id2 chan2 probes2.
        apply (bound_id_not_reused chan1 id id2 chan2 probes2 Hnext1). }
    destruct Hbound as (Hb1 & Hb2 & Hb3 & Hb4).
    destruct (create_cell_format_result env <? 0) eqn:Ef.
    + eexists _, (CircId.bind_circ_id chan1 id), id, chan1, probes.
      split; [exact Hp|]. split; [exact Hacc|]. split; [exact Hid|].
      cbn [circ_after n_chan n_hop state circuit_set_n_circid_chan
           n_circ_id ret chan_calls].
      split; [reflexivity|]. split; [exact Hnh|].
      split; [reflexivity|]. rewrite E0.
      split; [reflexivity|]. split; [exact Hb1|]. split; [reflexivity|].
      split; [exact Hb2|]. split; [exact Hb3|]. split; [exact Hb4|].
      split; reflexivity.
    + eexists _, (CircId.bind_circ_id chan1 id), id, chan1, probes.
      split; [exact Hp|]. split; [exact Hacc|]. split; [exact Hid|].
      cbn [circ_after n_chan n_hop state circuit_set_n_circid_chan
           n_circ_id ret chan_calls].
      split; [reflexivity|]. split; [exact Hnh|].
      split; [reflexivity|]. rewrite E0.
      split; [reflexivity|]. split; [exact Hb1|]. split; [reflexivity|].
      split; [exact Hb2|]. split; [exact Hb3|]. split; [exact Hb4|].
      split; reflexivity.
Qed.

(** An extend cell for 8.8.8.8:9001 while a channel to the relay is open
    on which identifier 1 is taken: the create cell goes out under
    identifier 2, which is in use on the channel afterwards. *)
Lemma circuit_extend_delivers_witness :
  let ec := mk_extend_cell (mk_addr_port 134744072 9001 false false)
              (repeat 7 20) [1; 2] in
  let chan := CircId.mk_channel CircId.CIRC_ID_TYPE_LOWER false 1
                (fun id => id =? 1) in
  let env := mk_extend_env true false (Some ec) (Some chan) false None 0 in
  let circ := mk_circuit None None None 0 CIRCUIT_STATE_OPEN None
                (repeat 9 20) in
  exists r chan',
    circuit_extend env circ = Some r
    /\ ret r = 0
    /\ n_circ_id (circ_after r) = 2
    /\ n_chan (circ_after r) = Some chan'
    /\ CircId.id_in_use chan 2 = false
    /\ CircId.id_in_use chan' 2 = true
    /\ chan_calls r =
       [Call_channel_get_for_extend (repeat 7 20) 134744072;
        Call_append_cell_to_circuit_queue 2 [1; 2]].
Proof.
  intros ec chan env circ.
  assert (Href : ~ refused env circ).
  { intros H. apply refuses_refused in H. vm_compute in H. discriminate H. }
  destruct (circuit_extend_delivers env circ chan Href eq_refl
              ltac:(cbn; lia))
    as (ec' & r & chan' & id & chan1 & probes & Hp & Hrun & Hid & Hn & _ & _
        & Hpost).
  assert (Eec : ec' = ec) by (cbn in Hp; congruence). subst ec'.
  assert (Eid : id = 2) by (vm_compute in Hid; congruence).
  subst id. cbn [Z.eqb Pos.eqb] in Hpost.
  destruct Hpost as (Hcid & Hfree & _ & Huse & _ & _ & Hfmt).
  change (create_cell_format_result env <? 0) with false in Hfmt.
  destruct Hfmt as [Hret Hcalls].
  exists r, chan'. split; [exact Hrun|]. split; [exact Hret|].
  split; [exact Hcid|]. split; [exact Hn|]. split; [exact Hfree|].
  split; [exact Huse|]. exact Hcalls.
Defined.

(** The same cell with no channel open and none to be launched: the
    circuit waits, and [channel_get_for_extend] was asked. *)
Lemma circuit_extend_silent_iff_refused_witness :
  let ec := mk_extend_cell (mk_addr_port 134744072 9001 false false)
              (repeat 7 20) [1; 2] in
  let env := mk_extend_env true false (Some ec) None false None 0 in
  let circ := mk_circuit None None None 0 CIRCUIT_STATE_OPEN None
                (repeat 9 20) in
  exists r,
    circuit_extend env circ = Some r
    /\ (ret r = 0 \/ ret r = -1)
    /\ (chan_calls r = [] <-> refused env circ).
Proof.
  intros ec env circ.
  assert (Hrun : { r | circuit_extend env circ = Some r })
    by (eexists; reflexivity).
  destruct Hrun as [r Hrun].
  destruct (circuit_extend_silent_iff_refused env circ r Hrun)
    as (Hret & Hiff & _).
  exists r. auto.
Defined.

End ExtendDelivery.

(** ** Path-bias accountant *)

Module PathBiasFacts.
Import OrH PathBias.

Section Facts.
Context {D : Type} {DO : DoubleOps D}.
Variable options : or_options_t D.
Variable get_param : string -> Z -> Z -> Z -> Z.
Variable ext : extern_t.

(** The world with the circuit behind pointer [i] replaced. *)
Definition upd_circ (w : world D) (i : nat) (c : origin_circuit_t) : world D :=
  mk_world (<[i := OriginCircuit c]> (global_circuitlist w))
    (entry_guards w) (ext_calls w).

(** The world with the guard stored under [d] replaced. *)
Definition upd_guard (w : world D) (d : list Z) (g : entry_guard_t D)
  : world D :=
  mk_world (global_circuitlist w) (<[d := g]> (entry_guards w)) (ext_calls w).

(** [c] is the origin circuit behind pointer [i]. *)
Definition origin_at (w : world D) (i : nat) (c : origin_circuit_t) : Prop :=
  global_circuitlist w !! i = Some (OriginCircuit c).

Lemma bind_run {A B : Type} (m : M D A) (k : A -> M D B) w a w' :
  m w = Some (a, w') -> bind m k w = k a w'.
Proof. intros H. unfold bind. rewrite H. reflexivity. Qed.

Lemma run_get_origin w i c :
  origin_at w i c -> get_origin i w = Some (c, w).
Proof. unfold origin_at, get_origin. intros ->. reflexivity. Qed.

Lemma origin_at_upd_circ w i c c' :
  origin_at w i c -> origin_at (upd_circ w i c') i c'.
Proof.
  unfold origin_at, upd_circ. simpl. intros H.
  apply list_lookup_insert_eq. eapply lookup_lt_Some, H.
Qed.

Lemma origin_at_upd_guard w i c d g :
  origin_at w i c -> origin_at (upd_guard w d g) i c.
Proof. unfold origin_at, upd_guard. simpl. auto. Qed.

Lemma upd_circ_twice w i c c' :
  upd_circ (upd_circ w i c) i c' = upd_circ w i c'.
Proof. unfold upd_circ. simpl. rewrite list_insert_insert_eq. reflexivity. Qed.


Lemma entry_guards_upd_circ w i c :
  entry_guards (upd_circ w i c) = entry_guards w.
Proof. reflexivity. Qed.

(** *** What [pathbias_should_count] depends on and what it changes *)

Abbreviation psc := (pathbias_should_count options).

Lemma should_count_cache c :
  (psc c).2 = set_pathbias_shouldcount c
                (if (psc c).1 then PATHBIAS_SHOULDCOUNT_COUNTED
                 else PATHBIAS_SHOULDCOUNT_IGNORED).
Proof.
  unfold pathbias_should_count.
  destruct (uncounted_purpose options c); [reflexivity|].
  destruct (_ || _); reflexivity.
Qed.

Lemma should_count_depends c c' :
  purpose c' = purpose c -> build_state c' = build_state c ->
  (psc c').1 = (psc c).1.
Proof.
  intros Hp Hb. unfold pathbias_should_count, uncounted_purpose.
  rewrite Hp, Hb.
  repeat match goal with |- context [if ?b then _ else _] => destruct b end;
    reflexivity.
Qed.

Lemma should_count_true c :
  (psc c).1 = true
  <-> uncounted_purpose options c = false
      /\ onehop_tunnel (build_state c)
         || (desired_path_len (build_state c) =? 1) = false.
Proof.
  unfold pathbias_should_count.
  destruct (uncounted_purpose options c); [simpl; intuition congruence|].
  destruct (_ || _); simpl; intuition congruence.
Qed.

Lemma should_count_path_state c : path_state (psc c).2 = path_state c.
Proof. rewrite should_count_cache. reflexivity. Qed.

Lemma should_count_first_hop c :
  first_hop_digest (psc c).2 = first_hop_digest c.
Proof. rewrite should_count_cache. reflexivity. Qed.

Lemma should_count_again c : (psc (psc c).2).1 = (psc c).1.
Proof. apply should_count_depends; rewrite should_count_cache; reflexivity. Qed.

Lemma should_count_cache_again c : (psc (psc c).2).2 = (psc c).2.
Proof.
  rewrite (should_count_cache (psc c).2), should_count_again.
  rewrite (should_count_cache c). reflexivity.
Qed.

Lemma run_call_pathbias_should_count w i c :
  origin_at w i c ->
  call_pathbias_should_count options i w
  = Some ((psc c).1, upd_circ w i (psc c).2).
Proof.
  intros H. unfold call_pathbias_should_count.
  rewrite (bind_run _ _ _ _ _ (run_get_origin w i c H)).
  destruct (psc c) as [r c']. reflexivity.
Qed.

Lemma run_guard_of_first_hop w i c :
  origin_at w i c ->
  guard_of_first_hop i w
  = Some (match first_hop_digest c with
          | Some d => match entry_guards w !! d with
                      | Some _ => Some d
                      | None => None
                      end
          | None => None
          end, w).
Proof.
  intros H. unfold guard_of_first_hop.
  rewrite (bind_run _ _ _ _ _ (run_get_origin w i c H)).
  destruct (first_hop_digest c); reflexivity.
Qed.

Lemma run_on_guard {A : Type} w d g
    (f : entry_guard_t D -> list circuit_entry
         -> A * entry_guard_t D * list circuit_entry) :
  entry_guards w !! d = Some g ->
  on_guard d f w
  = Some ((f g (global_circuitlist w)).1.1,
          mk_world (f g (global_circuitlist w)).2
            (<[d := (f g (global_circuitlist w)).1.2]> (entry_guards w))
            (ext_calls w)).
Proof.
  intros H. unfold on_guard. rewrite H.
  destruct (f g _) as [[a g'] circs]. reflexivity.
Qed.

(** The guard pointer the counting functions obtain for a circuit. *)
Definition known_guard (w : world D) (c : origin_circuit_t)
  : option (list Z * entry_guard_t D) :=
  match first_hop_digest c with
  | Some d => match entry_guards w !! d with
              | Some g => Some (d, g)
              | None => None
              end
  | None => None
  end.

(** The effect shared by the counting functions that bump one counter. *)
Definition bumped (w : world D) (i : nat) (c : origin_circuit_t)
    (h : entry_guard_t D -> entry_guard_t D) : world D :=
  let w1 := upd_circ w i (psc c).2 in
  if (psc c).1 then
    match known_guard w c with
    | Some (d, g) => upd_guard w1 d (h g)
    | None => w1
    end
  else w1.

Ltac run_bump H :=
  rewrite (bind_run _ _ _ _ _ (run_call_pathbias_should_count _ _ _ H));
  unfold bumped, known_guard;
  destruct (psc _).1 eqn:?; [cbn [negb]|reflexivity];
  rewrite (bind_run _ _ _ _ _
             (run_guard_of_first_hop _ _ _ (origin_at_upd_circ _ _ _ _ H)));
  rewrite should_count_first_hop;
  destruct (first_hop_digest _) as [d|]; [|reflexivity];
  rewrite entry_guards_upd_circ;
  destruct (entry_guards _ !! d) as [g|] eqn:Hg; [|reflexivity];
  rewrite (run_on_guard _ d g) by (rewrite entry_guards_upd_circ; exact Hg);
  reflexivity.

Lemma run_pathbias_count_collapse w i c :
  origin_at w i c ->
  pathbias_count_collapse options i w
  = Some (tt, bumped w i c (fun g =>
       set_collapsed_circuits g (d_add (collapsed_circuits g) (d_of_int 1)))).
Proof. intros H. unfold pathbias_count_collapse. run_bump H. Qed.


Lemma run_pathbias_count_successful_close w i c :
  origin_at w i c ->
  pathbias_count_successful_close options i w
  = Some (tt, bumped w i c (fun g =>
       set_successful_circuits_closed g
         (d_add (successful_circuits_closed g) (d_of_int 1)))).
Proof. intros H. unfold pathbias_count_successful_close. run_bump H. Qed.

Lemma run_pathbias_count_use_failed w i c :
  origin_at w i c ->
  pathbias_count_use_failed options i w
  = Some (tt, bumped w i c (fun g =>
       set_unusable_circuits g (d_add (unusable_circuits g) (d_of_int 1)))).
Proof. intros H. unfold pathbias_count_use_failed. run_bump H. Qed.


Lemma run_put_origin (w : world D) i c :
  put_origin i c w = Some (tt, upd_circ w i c).
Proof. reflexivity. Qed.

Lemma run_emit (w : world D) call :
  emit call w = Some (tt, mk_world (global_circuitlist w) (entry_guards w)
                            (ext_calls w ++ [call])).
Proof. reflexivity. Qed.

Lemma run_set_path_state_at w i c s :
  origin_at w i c ->
  set_path_state_at i s w = Some (tt, upd_circ w i (set_path_state c s)).
Proof.
  intros H. unfold set_path_state_at.
  rewrite (bind_run _ _ _ _ _ (run_get_origin w i c H)). reflexivity.
Qed.

Lemma run_guard_of_first_hop_unchecked w i c d :
  origin_at w i c -> first_hop_digest c = Some d ->
  guard_of_first_hop_unchecked i w
  = Some (match entry_guards w !! d with
          | Some _ => Some d
          | None => None
          end, w).
Proof.
  intros H Hd. unfold guard_of_first_hop_unchecked.
  rewrite (bind_run _ _ _ _ _ (run_get_origin w i c H)), Hd. reflexivity.
Qed.

Lemma crash_guard_of_first_hop_unchecked w i c :
  origin_at w i c -> first_hop_digest c = None ->
  guard_of_first_hop_unchecked i w = None.
Proof.
  intros H Hd. unfold guard_of_first_hop_unchecked.
  rewrite (bind_run _ _ _ _ _ (run_get_origin w i c H)), Hd. reflexivity.
Qed.

Lemma run_pathbias_count_use_success w i c d :
  origin_at w i c -> first_hop_digest c = Some d ->
  path_state c = PATH_STATE_USE_SUCCEEDED ->
  pathbias_count_use_success options i w
  = Some (tt, bumped w i c (fun g =>
       set_use_successes g (d_add (use_successes g) (d_of_int 1)))).
Proof.
  intros H Hd Hs. unfold pathbias_count_use_success.
  rewrite (bind_run _ _ _ _ _ (run_call_pathbias_should_count _ _ _ H)).
  unfold bumped, known_guard.
  destruct (psc c).1 eqn:Hc; [cbn [negb]|reflexivity].
  pose proof (origin_at_upd_circ w i c (psc c).2 H) as H1.
  rewrite (bind_run _ _ _ _ _ (run_get_origin _ _ _ H1)).
  rewrite should_count_path_state, Hs. cbn [path_state_eqb path_state_rank negb Z.eqb Pos.eqb].
  rewrite (bind_run _ _ _ _ _
             (run_guard_of_first_hop_unchecked _ _ _ d H1
                ltac:(rewrite should_count_first_hop; exact Hd))).
  rewrite Hd, entry_guards_upd_circ.
  destruct (entry_guards w !! d) as [g|] eqn:Hg; [|reflexivity].
  rewrite (run_on_guard _ d g) by (rewrite entry_guards_upd_circ; exact Hg).
  reflexivity.
Qed.

Lemma crash_pathbias_count_use_success w i c :
  origin_at w i c -> (psc c).1 = true -> first_hop_digest c = None ->
  path_state c = PATH_STATE_USE_SUCCEEDED ->
  pathbias_count_use_success options i w = None.
Proof.
  intros H Hc Hd Hs. unfold pathbias_count_use_success.
  rewrite (bind_run _ _ _ _ _ (run_call_pathbias_should_count _ _ _ H)).
  rewrite Hc. cbn [negb].
  pose proof (origin_at_upd_circ w i c (psc c).2 H) as H1.
  rewrite (bind_run _ _ _ _ _ (run_get_origin _ _ _ H1)).
  rewrite should_count_path_state, Hs. cbn [path_state_eqb path_state_rank negb Z.eqb Pos.eqb].
  unfold bind.
  rewrite (crash_guard_of_first_hop_unchecked _ _ _ H1
             ltac:(rewrite should_count_first_hop; exact Hd)).
  reflexivity.
Qed.

(** C10.  [pathbias_count_timeout] always returns, and it changes the guard
    store in one case only: the circuit is counted, its path state is not
    use_succeeded, and its first hop's guard is known; the guard's
    [timeouts] then grows by exactly 1 and nothing else in the store
    changes.  In particular a counted circuit in state use_succeeded leaves
    every guard counter as it was. *)
Theorem pathbias_count_timeout_frame w i c :
  origin_at w i c ->
  exists w',
    pathbias_count_timeout options i w = Some (tt, w')
    /\ entry_guards w' =
       if (psc c).1
          && negb (path_state_eqb (path_state c) PATH_STATE_USE_SUCCEEDED)
       then match known_guard w c with
            | Some (d, g) =>
                <[d := set_timeouts g (d_add (timeouts g) (d_of_int 1))]>
                  (entry_guards w)
            | None => entry_guards w
            end
       else entry_guards w.
Proof.
  intros H. unfold pathbias_count_timeout.
  rewrite (bind_run _ _ _ _ _ (run_call_pathbias_should_count _ _ _ H)).
  destruct (psc c).1 eqn:Hc; cbn [negb andb]; [|eexists; split; reflexivity].
  pose proof (origin_at_upd_circ w i c (psc c).2 H) as H1.
  rewrite (bind_run _ _ _ _ _ (run_get_origin _ _ _ H1)).
  rewrite should_count_path_state.
  destruct (path_state_eqb (path_state c) PATH_STATE_USE_SUCCEEDED);
    cbn [negb]; [eexists; split; reflexivity|].
  rewrite (bind_run _ _ _ _ _ (run_guard_of_first_hop _ _ _ H1)).
  rewrite should_count_first_hop.
  unfold known_guard.
  destruct (first_hop_digest c) as [d|]; [|eexists; split; reflexivity].
  rewrite entry_guards_upd_circ.
  destruct (entry_guards w !! d) as [g|] eqn:Hg;
    [|eexists; split; reflexivity].
  rewrite (run_on_guard _ d g) by (rewrite entry_guards_upd_circ; exact Hg).
  eexists; split; reflexivity.
Qed.


(** *** The end-of-life probe *)

(** The three tests that make [pathbias_send_usable_probe] give up before
    it touches the circuit. *)
Definition probe_refused (c : origin_circuit_t) : bool :=
  negb (match last (cpath c) with
        | Some hop => cpath_state_eqb (hop_state hop) CPATH_STATE_OPEN
        | None => false
        end)
  || ((purpose c =? CIRCUIT_PURPOSE_PATH_BIAS_TESTING)
      && negb (pathbias_probe_id c =? 0))
  || negb (match n_chan c with
           | Some chan => channel_usable_for_probe chan
           | None => false
           end).

(** The circuit once the probe is prepared. *)
Definition probing (c : origin_circuit_t) : origin_circuit_t :=
  set_pathbias_probe_id
    (set_pathbias_probe_nonce
       (set_timestamp_began (set_purpose c CIRCUIT_PURPOSE_PATH_BIAS_TESTING)
          (tor_gettimeofday ext))
       (Z.land (crypto_rand_u32 ext) 16777215))
    (unique_stream_id ext).

(** The RELAY_BEGIN call of the probe on circuit [i]. *)
Definition probe_call (i : nat) : ext_call :=
  let payload :=
    String.append (tor_dup_ip (Z.land (crypto_rand_u32 ext) 16777215)) ":25" in
  Call_relay_send_command_from_edge (unique_stream_id ext) i
    RELAY_COMMAND_BEGIN payload (Z.of_nat (String.length payload) + 1).

Definition with_call (w : world D) (call : ext_call) : world D :=
  mk_world (global_circuitlist w) (entry_guards w) (ext_calls w ++ [call]).

(** Return value and final state of [pathbias_send_usable_probe]. *)
Definition probe_outcome (w : world D) (i : nat) (c : origin_circuit_t)
  : Z * world D :=
  if probe_refused c then (-1, w)
  else if unique_stream_id ext =? 0 then (-1, upd_circ w i (probing c))
  else if relay_send_result ext <? 0
  then (-1, with_call (upd_circ w i (probing c)) (probe_call i))
  else (0, upd_circ (with_call (upd_circ w i (probing c)) (probe_call i)) i
             (set_timestamp_dirty (probing c) (time_now ext))).

Lemma run_pathbias_send_usable_probe w i c :
  origin_at w i c -> cpath c <> [] ->
  pathbias_send_usable_probe ext i w
  = Some ((probe_outcome w i c).1, (probe_outcome w i c).2).
Proof.
  intros H Hne. rewrite <- surjective_pairing.
  unfold pathbias_send_usable_probe, probe_outcome, probe_refused.
  rewrite (bind_run _ _ _ _ _ (run_get_origin w i c H)).
  destruct (last (cpath c)) as [hop|] eqn:Hl.
  2:{ apply last_None in Hl. contradiction. }
  destruct (cpath_state_eqb (hop_state hop) CPATH_STATE_OPEN);
    cbn [negb orb]; [|reflexivity].
  destruct ((purpose c =? CIRCUIT_PURPOSE_PATH_BIAS_TESTING)
            && negb (pathbias_probe_id c =? 0)); cbn [orb]; [reflexivity|].
  destruct (n_chan c) as [chan|]; cbn [negb]; [|reflexivity].
  destruct (channel_usable_for_probe chan); cbn [negb]; [|reflexivity].
  unfold circuit_change_purpose.
  rewrite (bind_run _ _ _ _ _
             (bind_run _ _ _ _ _ (run_get_origin w i c H))).
  change (put_origin i (set_purpose c CIRCUIT_PURPOSE_PATH_BIAS_TESTING) w)
    with (Some (tt, upd_circ w i
                      (set_purpose c CIRCUIT_PURPOSE_PATH_BIAS_TESTING))).
  cbv beta.
  pose proof (origin_at_upd_circ w i c
                (set_purpose c CIRCUIT_PURPOSE_PATH_BIAS_TESTING) H) as H1.
  rewrite (bind_run _ _ _ _ _ (run_get_origin _ _ _ H1)).
  cbv zeta.
  rewrite (bind_run _ _ _ _ _ (run_put_origin _ _ _)).
  rewrite upd_circ_twice.
  change (pathbias_probe_id (set_pathbias_probe_id _ ?v)) with v.
  destruct (unique_stream_id ext =? 0); [reflexivity|].
  rewrite (bind_run _ _ _ _ _ (run_emit _ _)).
  destruct (relay_send_result ext <? 0); [reflexivity|].
  set (w2 := mk_world _ _ _).
  assert (H2 : origin_at w2 i (probing c)).
  { unfold w2, origin_at. cbn [global_circuitlist].
    apply (origin_at_upd_circ w i c _ H). }
  rewrite (bind_run _ _ _ _ _ (run_get_origin _ _ _ H2)).
  reflexivity.
Qed.


(** *** Close accounting *)

Lemma known_guard_upd_circ w i c' c :
  known_guard (upd_circ w i c') c = known_guard w c.
Proof. reflexivity. Qed.

Lemma known_guard_cache w c :
  known_guard w (psc c).2 = known_guard w c.
Proof. unfold known_guard. rewrite should_count_first_hop. reflexivity. Qed.

(** A second counting function run on the same circuit finds the answer
    of [pathbias_should_count] already cached. *)
Lemma bumped_counted w i c h :
  (psc c).1 = true ->
  bumped (upd_circ w i (psc c).2) i (psc c).2 h
  = match known_guard w c with
    | Some (d, g) => upd_guard (upd_circ w i (psc c).2) d (h g)
    | None => upd_circ w i (psc c).2
    end.
Proof.
  intros Hc. unfold bumped.
  rewrite should_count_again, Hc, should_count_cache_again, upd_circ_twice.
  rewrite known_guard_upd_circ, known_guard_cache. reflexivity.
Qed.

Lemma origin_at_bumped w i c h :
  origin_at w i c -> origin_at (bumped w i c h) i (psc c).2.
Proof.
  intros H. unfold bumped.
  pose proof (origin_at_upd_circ w i c (psc c).2 H) as H1.
  destruct (psc c).1; [|exact H1].
  destruct (known_guard w c) as [[d g]|]; [|exact H1].
  apply origin_at_upd_guard. exact H1.
Qed.

Lemma entry_guards_bumped w i c h :
  entry_guards (bumped w i c h)
  = if (psc c).1 then
      match known_guard w c with
      | Some (d, g) => <[d := h g]> (entry_guards w)
      | None => entry_guards w
      end
    else entry_guards w.
Proof.
  unfold bumped. destruct (psc c).1; [|reflexivity].
  destruct (known_guard w c) as [[d g]|]; reflexivity.
Qed.

(** The outcome of the probe keeps an origin circuit behind the pointer;
    that circuit is counted as before, has the same path state and first
    hop, and the guard store is untouched. *)
Lemma probe_outcome_circuit w i c :
  origin_at w i c -> (psc c).1 = true ->
  exists c',
    origin_at (probe_outcome w i c).2 i c'
    /\ (psc c').1 = true
    /\ path_state c' = path_state c
    /\ first_hop_digest c' = first_hop_digest c
    /\ entry_guards (probe_outcome w i c).2 = entry_guards w.
Proof.
  intros H Hc.
  assert (Hp : (psc (probing c)).1 = true).
  { apply should_count_true in Hc. destruct Hc as [Hu Hb].
    apply should_count_true. split; [|exact Hb].
    unfold uncounted_purpose in *.
    destruct (UseEntryGuards options =? 0); [discriminate|reflexivity]. }
  unfold probe_outcome.
  destruct (probe_refused c); [exists c; auto|].
  destruct (unique_stream_id ext =? 0).
  { exists (probing c). repeat split; auto.
    eapply origin_at_upd_circ, H. }
  destruct (relay_send_result ext <? 0).
  { exists (probing c). repeat split; auto.
    apply (origin_at_upd_circ w i c _ H). }
  exists (set_timestamp_dirty (probing c) (time_now ext)).
  split.
  { apply (origin_at_upd_circ _ i (probing c)).
    apply (origin_at_upd_circ w i c _ H). }
  split; [|repeat split; reflexivity].
  rewrite <- Hp. apply should_count_depends; reflexivity.
Qed.

Lemma probe_outcome_ret w i c :
  (probe_outcome w i c).1 = 0 \/ (probe_outcome w i c).1 = -1.
Proof.
  unfold probe_outcome.
  repeat match goal with
         | |- context [if ?b then _ else _] => destruct b
         end; auto.
Qed.


(** The increments of the close table. *)
Definition inc_collapsed_circuits (g : entry_guard_t D) :=
  set_collapsed_circuits g (d_add (collapsed_circuits g) (d_of_int 1)).
Definition inc_successful_circuits_closed (g : entry_guard_t D) :=
  set_successful_circuits_closed g
    (d_add (successful_circuits_closed g) (d_of_int 1)).
Definition inc_use_successes (g : entry_guard_t D) :=
  set_use_successes g (d_add (use_successes g) (d_of_int 1)).
Definition inc_unusable_circuits (g : entry_guard_t D) :=
  set_unusable_circuits g (d_add (unusable_circuits g) (d_of_int 1)).

(** The reason carries the REMOTE flag. *)
Definition remote_close (reason : Z) : bool :=
  negb (Z.land reason END_CIRC_REASON_FLAG_REMOTE =? 0).

(** The reason, flag stripped, is CHANNEL_CLOSED, and the circuit's
    channel was not closed on our request. *)
Definition channel_collapse (reason : Z) (c : origin_circuit_t) : bool :=
  (Z.land reason (Z.lnot END_CIRC_REASON_FLAG_REMOTE)
   =? END_CIRC_REASON_CHANNEL_CLOSED)
  && match n_chan c with
     | Some chan => negb (close_requested chan)
     | None => false
     end.

(** A probe can be sent: the last hop is open, no probe is outstanding,
    the channel is usable, a stream id is left and the cell goes out. *)
Definition probe_sent (c : origin_circuit_t) : bool :=
  negb (probe_refused c)
  && negb (unique_stream_id ext =? 0)
  && negb (relay_send_result ext <? 0).

Lemma probe_outcome_sent w i c :
  (probe_outcome w i c).1 = if probe_sent c then 0 else -1.
Proof.
  unfold probe_outcome, probe_sent.
  destruct (probe_refused c); [reflexivity|].
  destruct (unique_stream_id ext =? 0); [reflexivity|].
  destruct (relay_send_result ext <? 0); reflexivity.
Qed.

(** [probe_sent] is what it is named for: [pathbias_send_usable_probe]
    returns 0 when it holds and -1 when it does not. *)
Lemma pathbias_send_usable_probe_result w i c :
  origin_at w i c -> cpath c <> [] ->
  fst <$> pathbias_send_usable_probe ext i w
  = Some (if probe_sent c then 0 else -1).
Proof.
  intros H Hne. rewrite (run_pathbias_send_usable_probe w i c H Hne).
  cbn [fmap option_fmap option_map fst]. rewrite probe_outcome_sent.
  reflexivity.
Qed.

Lemma probe_refused_cache c : probe_refused (psc c).2 = probe_refused c.
Proof. rewrite should_count_cache. reflexivity. Qed.

Lemma probe_sent_cache c : probe_sent (psc c).2 = probe_sent c.
Proof. unfold probe_sent. rewrite probe_refused_cache. reflexivity. Qed.

Lemma first_hop_cpath c d : first_hop_digest c = Some d -> cpath c <> [].
Proof. unfold first_hop_digest. destruct (cpath c); congruence. Qed.

Lemma known_guard_found w c d g :
  first_hop_digest c = Some d -> entry_guards w !! d = Some g ->
  known_guard w c = Some (d, g).
Proof. intros Hd Hg. unfold known_guard. rewrite Hd, Hg. reflexivity. Qed.

(** The last step of [pathbias_check_close]. *)
Lemma run_already_counted w i c :
  origin_at w i c ->
  bind (set_path_state_at i PATH_STATE_ALREADY_COUNTED) (fun _ => ret 0) w
  = Some (0, upd_circ w i (set_path_state c PATH_STATE_ALREADY_COUNTED)).
Proof.
  intros H. rewrite (bind_run _ _ _ _ _ (run_set_path_state_at _ _ _ _ H)).
  reflexivity.
Qed.

(** C1.  For a counted origin circuit whose first hop's guard is known,
    [pathbias_check_close(circ, reason)] updates the guard by the close
    table.  build_succeeded: [collapsed_circuits] + 1 when the reason has
    the REMOTE flag, or when the reason (flag stripped) is CHANNEL_CLOSED
    and the circuit's channel was not closed on request, otherwise
    [successful_circuits_closed] + 1.  use_succeeded:
    [successful_circuits_closed] + 1 and [use_successes] + 1.  use_failed:
    [unusable_circuits] + 1.  use_attempted: -1 is returned and the guard
    store is untouched when a probe can be sent, otherwise
    [unusable_circuits] + 1.  new_circ, build_attempted, already_counted:
    no guard changes. *)
Theorem pathbias_check_close_table w i c reason d g :
  origin_at w i c ->
  (psc c).1 = true ->
  first_hop_digest c = Some d ->
  entry_guards w !! d = Some g ->
  exists r w',
    pathbias_check_close options ext i reason w = Some (r, w')
    /\ match path_state c with
       | PATH_STATE_BUILD_SUCCEEDED =>
           r = 0
           /\ entry_guards w' =
              <[d := if remote_close reason || channel_collapse reason c
                     then inc_collapsed_circuits g
                     else inc_successful_circuits_closed g]> (entry_guards w)
       | PATH_STATE_USE_SUCCEEDED =>
           r = 0
           /\ entry_guards w' =
              <[d := inc_use_successes (inc_successful_circuits_closed g)]>
                (entry_guards w)
       | PATH_STATE_USE_FAILED =>
           r = 0
           /\ entry_guards w' =
              <[d := inc_unusable_circuits g]> (entry_guards w)
       | PATH_STATE_USE_ATTEMPTED =>
           if probe_sent c
           then r = -1 /\ entry_guards w' = entry_guards w
           else r = 0
                /\ entry_guards w' =
                   <[d := inc_unusable_circuits g]> (entry_guards w)
       | PATH_STATE_NEW_CIRC
       | PATH_STATE_BUILD_ATTEMPTED
       | PATH_STATE_ALREADY_COUNTED =>
           r = 0 /\ entry_guards w' = entry_guards w
       end.
Proof.
  intros H Hc Hd Hg. unfold pathbias_check_close.
  rewrite (bind_run _ _ _ _ _ (run_call_pathbias_should_count _ _ _ H)).
  rewrite Hc. cbn [negb].
  pose proof (origin_at_upd_circ w i c (psc c).2 H) as H1.
  rewrite (bind_run _ _ _ _ _ (run_get_origin _ _ _ H1)).
  rewrite should_count_path_state.
  pose proof (known_guard_found w c d g Hd Hg) as Hk.
  assert (Hb : forall h, entry_guards (bumped (upd_circ w i (psc c).2) i
                                         (psc c).2 h)
                         = <[d := h g]> (entry_guards w)).
  { intros h. rewrite bumped_counted, Hk by exact Hc. reflexivity. }
  destruct (path_state c) eqn:Hps.
  - rewrite (run_already_counted _ _ _ H1). eauto.
  - rewrite (run_already_counted _ _ _ H1). eauto.
  - (* build succeeded *)
    unfold remote_close, channel_collapse.
    replace (n_chan (psc c).2) with (n_chan c)
      by (rewrite should_count_cache; reflexivity).
    destruct (negb (Z.land reason END_CIRC_REASON_FLAG_REMOTE =? 0));
      cbn [orb].
    + rewrite (bind_run _ _ _ _ _ (run_pathbias_count_collapse _ _ _ H1)).
      rewrite (run_already_counted _ _ _ (origin_at_bumped _ _ _ _ H1)).
      eexists _, _. split; [reflexivity|]. split; [reflexivity|]. apply Hb.
    + destruct (_ && _).
      * rewrite (bind_run _ _ _ _ _ (run_pathbias_count_collapse _ _ _ H1)).
        rewrite (run_already_counted _ _ _ (origin_at_bumped _ _ _ _ H1)).
        eexists _, _. split; [reflexivity|]. split; [reflexivity|]. apply Hb.
      * rewrite (bind_run _ _ _ _ _
                   (run_pathbias_count_successful_close _ _ _ H1)).
        rewrite (run_already_counted _ _ _ (origin_at_bumped _ _ _ _ H1)).
        eexists _, _. split; [reflexivity|]. split; [reflexivity|]. apply Hb.
  - (* use attempted *)
    assert (Hne : cpath (psc c).2 <> []).
    { apply (first_hop_cpath _ d). rewrite should_count_first_hop. exact Hd. }
    rewrite (bind_run _ _ _ _ _
               (run_pathbias_send_usable_probe _ _ _ H1 Hne)).
    rewrite probe_outcome_sent, probe_sent_cache.
    destruct (probe_outcome_circuit _ i (psc c).2 H1)
      as (c' & H2 & Hc' & _ & Hd' & Hgs);
      [rewrite should_count_again; exact Hc|].
    destruct (probe_sent c); cbn [Z.eqb].
    + eexists _, _. split; [reflexivity|]. split; [reflexivity|].
      rewrite Hgs. reflexivity.
    + rewrite (bind_run _ _ _ _ _ (run_pathbias_count_use_failed _ _ _ H2)).
      rewrite (run_already_counted _ _ _ (origin_at_bumped _ _ _ _ H2)).
      eexists _, _. split; [reflexivity|]. split; [reflexivity|].
      cbn [entry_guards upd_circ]. rewrite entry_guards_bumped, Hc'.
      unfold known_guard. rewrite Hd', should_count_first_hop, Hd, Hgs.
      cbn [entry_guards upd_circ]. rewrite Hg. reflexivity.
  - (* use succeeded *)
    rewrite (bind_run _ _ _ _ _
               (run_pathbias_count_successful_close _ _ _ H1)).
    set (w2 := bumped (upd_circ w i (psc c).2) i (psc c).2 _).
    assert (H2 : origin_at w2 i (psc c).2).
    { unfold w2. rewrite <- (should_count_cache_again c) at 3.
      apply origin_at_bumped. exact H1. }
    assert (Hg2 : entry_guards w2 = <[d := inc_successful_circuits_closed g]>
                                      (entry_guards w)) by apply Hb.
    rewrite (bind_run _ _ _ _ _
               (run_pathbias_count_use_success _ _ _ d H2
                  ltac:(rewrite should_count_first_hop; exact Hd)
                  ltac:(rewrite should_count_path_state; exact Hps))).
    rewrite (run_already_counted _ _ _ (origin_at_bumped _ _ _ _ H2)).
    eexists _, _. split; [reflexivity|]. split; [reflexivity|].
    cbn [entry_guards upd_circ].
    rewrite entry_guards_bumped, should_count_again, Hc.
    unfold known_guard. rewrite should_count_first_hop, Hd, Hg2.
    rewrite lookup_insert_eq, insert_insert_eq. reflexivity.
  - (* use failed *)
    rewrite (bind_run _ _ _ _ _ (run_pathbias_count_use_failed _ _ _ H1)).
    rewrite (run_already_counted _ _ _ (origin_at_bumped _ _ _ _ H1)).
    eexists _, _. split; [reflexivity|]. split; [reflexivity|]. apply Hb.
  - rewrite (run_already_counted _ _ _ H1). eauto.
Qed.


Lemma crash_pathbias_send_usable_probe w i c :
  origin_at w i c -> cpath c = [] ->
  pathbias_send_usable_probe ext i w = None.
Proof.
  intros H Hnil. unfold pathbias_send_usable_probe.
  rewrite (bind_run _ _ _ _ _ (run_get_origin w i c H)), Hnil. reflexivity.
Qed.

Lemma bind_crash {A B : Type} (m : M D A) (k : A -> M D B) w :
  m w = None -> bind m k w = None.
Proof. intros H. unfold bind. rewrite H. reflexivity. Qed.

(** C4, amended.  For every counted origin circuit and every close reason,
    whenever [pathbias_check_close] returns 0 the circuit's path state is
    already_counted after the call; for a circuit that
    [pathbias_should_count] refuses, the path state is what it was. *)
Theorem pathbias_check_close_already_counted w i c reason w' :
  origin_at w i c ->
  pathbias_check_close options ext i reason w = Some (0, w') ->
  exists c',
    origin_at w' i c'
    /\ path_state c' = if (psc c).1 then PATH_STATE_ALREADY_COUNTED
                       else path_state c.
Proof.
  intros H. unfold pathbias_check_close.
  rewrite (bind_run _ _ _ _ _ (run_call_pathbias_should_count _ _ _ H)).
  pose proof (origin_at_upd_circ w i c (psc c).2 H) as H1.
  destruct (psc c).1 eqn:Hc; cbn [negb].
  2:{ intros E. injection E as <-. exists (psc c).2.
      split; [exact H1 | apply should_count_path_state]. }
  rewrite (bind_run _ _ _ _ _ (run_get_origin _ _ _ H1)).
  rewrite should_count_path_state.
  assert (Hfin : forall (wx : world D) cx,
            origin_at wx i cx ->
            bind (set_path_state_at i PATH_STATE_ALREADY_COUNTED)
              (fun _ => ret 0) wx = Some (0, w') ->
            exists c', origin_at w' i c'
                       /\ path_state c' = PATH_STATE_ALREADY_COUNTED).
  { intros wx cx Hx. rewrite (run_already_counted _ _ _ Hx).
    intros E. inversion E; subst w'.
    eexists; split; [eapply origin_at_upd_circ, Hx | reflexivity]. }
  destruct (path_state c) eqn:Hps.
  - apply (Hfin _ _ H1).
  - apply (Hfin _ _ H1).
  - destruct (negb _).
    + rewrite (bind_run _ _ _ _ _ (run_pathbias_count_collapse _ _ _ H1)).
      apply (Hfin _ _ (origin_at_bumped _ _ _ _ H1)).
    + destruct (_ && _).
      * rewrite (bind_run _ _ _ _ _ (run_pathbias_count_collapse _ _ _ H1)).
        apply (Hfin _ _ (origin_at_bumped _ _ _ _ H1)).
      * rewrite (bind_run _ _ _ _ _
                   (run_pathbias_count_successful_close _ _ _ H1)).
        apply (Hfin _ _ (origin_at_bumped _ _ _ _ H1)).
  - destruct (cpath (psc c).2) eqn:Hcp.
    { rewrite (bind_crash _ _ _
                 (crash_pathbias_send_usable_probe _ _ _ H1 Hcp)).
      discriminate. }
    rewrite (bind_run _ _ _ _ _
               (run_pathbias_send_usable_probe _ _ _ H1
                  ltac:(rewrite Hcp; discriminate))).
    destruct (probe_outcome_circuit _ i (psc c).2 H1)
      as (c' & H2 & _); [rewrite should_count_again; exact Hc|].
    destruct (_ =? 0); [discriminate|].
    rewrite (bind_run _ _ _ _ _ (run_pathbias_count_use_failed _ _ _ H2)).
    apply (Hfin _ _ (origin_at_bumped _ _ _ _ H2)).
  - rewrite (bind_run _ _ _ _ _
               (run_pathbias_count_successful_close _ _ _ H1)).
    pose proof (origin_at_bumped _ _ _
                  (fun g => set_successful_circuits_closed g
                     (d_add (successful_circuits_closed g) (d_of_int 1)))
                  H1) as H2.
    assert (Hs2 : path_state (psc (psc c).2).2 = PATH_STATE_USE_SUCCEEDED)
      by (rewrite !should_count_path_state; exact Hps).
    destruct (first_hop_digest (psc (psc c).2).2) as [d|] eqn:Hd.
    + rewrite (bind_run _ _ _ _ _
                 (run_pathbias_count_use_success _ _ _ d H2 Hd Hs2)).
      apply (Hfin _ _ (origin_at_bumped _ _ _ _ H2)).
    + rewrite (bind_crash _ _ _
                 (crash_pathbias_count_use_success _ _ _ H2
                    ltac:(rewrite !should_count_again; exact Hc) Hd Hs2)).
      discriminate.
  - rewrite (bind_run _ _ _ _ _ (run_pathbias_count_use_failed _ _ _ H1)).
    apply (Hfin _ _ (origin_at_bumped _ _ _ _ H1)).
  - apply (Hfin _ _ H1).
Qed.


(** *** The counting loop over the global circuit list *)

(** A circuit entry with the cached answer of [pathbias_should_count]
    wiped: the counting loop changes nothing else. *)
Definition forget (e : circuit_entry) : circuit_entry :=
  match e with
  | OriginCircuit c =>
      OriginCircuit (set_pathbias_shouldcount c PATHBIAS_SHOULDCOUNT_UNDECIDED)
  | OrCircuit => OrCircuit
  end.

(** The circuits the loop counts for guard [d] and the state range
    [from]..[to]: origin circuits that are not marked for close, whose
    first hop is the guard, whose path state lies in the range and which
    [pathbias_should_count] accepts. *)
Definition counts_as_open (d : list Z) (from to : path_state_t)
    (e : circuit_entry) : bool :=
  match e with
  | OriginCircuit c =>
      (marked_for_close c =? 0)
      && (path_state_rank from <=? path_state_rank (path_state c))
      && (path_state_rank (path_state c) <=? path_state_rank to)
      && (psc c).1
      && bool_decide (first_hop_digest c = Some d)
  | OrCircuit => false
  end.

Definition open_circuits (d : list Z) (from to : path_state_t)
    (circs : list circuit_entry) : Z :=
  Z.of_nat (length (List.filter (counts_as_open d from to) circs)).

Lemma count_circ_turn_hit d from to e :
  (count_circ_turn options d from to e).1 = counts_as_open d from to e.
Proof.
  destruct e as [c|]; [|reflexivity].
  unfold count_circ_turn, counts_as_open.
  destruct (marked_for_close c =? 0); cbn [negb andb]; [|reflexivity].
  destruct (first_hop_digest c) as [digest|].
  - destruct ((path_state_rank from <=? path_state_rank (path_state c))
              && (path_state_rank (path_state c) <=? path_state_rank to));
      cbn [andb fst]; [|reflexivity].
    destruct (psc c) as [r c']. cbn [fst].
    destruct r; [|reflexivity]. cbn [andb].
    apply bool_decide_ext. split; congruence.
  - cbn [fst]. symmetry. rewrite bool_decide_eq_false_2 by discriminate.
    apply andb_false_r.
Qed.

Lemma count_circ_turn_forget d from to e :
  forget (count_circ_turn options d from to e).2 = forget e.
Proof.
  destruct e as [c|]; [|reflexivity].
  unfold count_circ_turn.
  destruct (negb _); [reflexivity|].
  destruct (first_hop_digest c); [|reflexivity].
  destruct (_ && _); [|reflexivity].
  pose proof (should_count_cache c) as E.
  destruct (psc c) as [r c']. cbn [fst snd] in *. subst c'. reflexivity.
Qed.

Lemma counts_as_open_forget d from to e e' :
  forget e = forget e' ->
  counts_as_open d from to e = counts_as_open d from to e'.
Proof.
  destruct e as [c|], e' as [c'|]; try discriminate; [|reflexivity].
  cbn [forget]. intros E. injection E; clear E; intros.
  unfold counts_as_open, first_hop_digest.
  rewrite (should_count_depends c c') by congruence.
  repeat match goal with
         | H : _ c = _ c' |- _ => rewrite H; clear H
         end.
  reflexivity.
Qed.

Lemma count_circs_loop_spec d from to circs : forall n,
  count_circs_loop options d from to circs n
  = (n + open_circuits d from to circs,
     (fun e => (count_circ_turn options d from to e).2) <$> circs).
Proof.
  unfold open_circuits.
  induction circs as [|e rest IH]; intros n; cbn [count_circs_loop].
  - cbn. f_equal. lia.
  - pose proof (count_circ_turn_hit d from to e) as Hhit.
    destruct (count_circ_turn options d from to e) as [hit e'] eqn:Et.
    cbn [fst] in Hhit. rewrite IH. cbn [List.filter fmap list_fmap].
    rewrite <- Hhit, Et. cbn [snd].
    destruct hit; cbn [length]; f_equal; lia.
Qed.

Lemma pathbias_count_circs_in_states_spec d from to circs :
  pathbias_count_circs_in_states options d from to circs
  = (open_circuits d from to circs,
     (fun e => (count_circ_turn options d from to e).2) <$> circs).
Proof.
  unfold pathbias_count_circs_in_states. rewrite count_circs_loop_spec.
  f_equal.
Qed.

(** Two circuit lists that differ in the cached answers only. *)
Definition same_circuits (l l' : list circuit_entry) : Prop :=
  forget <$> l = forget <$> l'.

Lemma same_circuits_refl l : same_circuits l l.
Proof. reflexivity. Qed.

Lemma same_circuits_trans l1 l2 l3 :
  same_circuits l1 l2 -> same_circuits l2 l3 -> same_circuits l1 l3.
Proof. unfold same_circuits. congruence. Qed.

Lemma count_same_circuits d from to circs :
  same_circuits circs
    (pathbias_count_circs_in_states options d from to circs).2.
Proof.
  rewrite pathbias_count_circs_in_states_spec. cbn [snd].
  unfold same_circuits. rewrite <- list_fmap_compose.
  apply list_fmap_ext. intros j e _. cbn.
  symmetry. apply count_circ_turn_forget.
Qed.

Lemma open_circuits_same d from to l l' :
  same_circuits l l' -> open_circuits d from to l = open_circuits d from to l'.
Proof.
  unfold same_circuits, open_circuits. revert l'.
  induction l as [|e l IH]; intros [|e' l'] E; try discriminate;
    [reflexivity|].
  cbn in E. injection E as Ee El.
  cbn [List.filter]. rewrite (counts_as_open_forget d from to e e' Ee).
  specialize (IH l' El).
  destruct (counts_as_open d from to e'); cbn [length]; lia.
Qed.

(** A narrower range of states counts fewer circuits. *)
Lemma counts_as_open_narrow d from to from' to' e :
  path_state_rank from <= path_state_rank from' ->
  path_state_rank to' <= path_state_rank to ->
  counts_as_open d from' to' e = true ->
  counts_as_open d from to e = true.
Proof.
  intros Hf Ht. destruct e as [c|]; [|discriminate].
  unfold counts_as_open. rewrite !andb_true_iff.
  intros [[[[H1 H2] H3] H4] H5]. repeat split; try assumption; lia.
Qed.

Lemma open_circuits_narrow d from to from' to' circs :
  path_state_rank from <= path_state_rank from' ->
  path_state_rank to' <= path_state_rank to ->
  0 <= open_circuits d from' to' circs <= open_circuits d from to circs.
Proof.
  intros Hf Ht. unfold open_circuits.
  induction circs as [|e rest IH]; cbn [List.filter]; [cbn; lia|].
  pose proof (counts_as_open_narrow d from to from' to' e Hf Ht) as Hn.
  destruct (counts_as_open d from' to' e).
  - rewrite (Hn eq_refl). cbn [length]. lia.
  - destruct (counts_as_open d from to e); cbn [length]; lia.
Qed.


(** *** Rates and scaling *)

Lemma close_success_count_spec d g circs :
  pathbias_get_close_success_count options d g circs
  = (d_add (successful_circuits_closed g)
       (d_of_int (open_circuits d PATH_STATE_BUILD_SUCCEEDED
                    PATH_STATE_USE_SUCCEEDED circs)),
     (pathbias_count_circs_in_states options d PATH_STATE_BUILD_SUCCEEDED
        PATH_STATE_USE_SUCCEEDED circs).2).
Proof.
  unfold pathbias_get_close_success_count.
  rewrite pathbias_count_circs_in_states_spec. reflexivity.
Qed.

Lemma use_success_count_spec d g circs :
  pathbias_get_use_success_count options d g circs
  = (d_add (use_successes g)
       (d_of_int (open_circuits d PATH_STATE_USE_ATTEMPTED
                    PATH_STATE_USE_SUCCEEDED circs)),
     (pathbias_count_circs_in_states options d PATH_STATE_USE_ATTEMPTED
        PATH_STATE_USE_SUCCEEDED circs).2).
Proof.
  unfold pathbias_get_use_success_count.
  rewrite pathbias_count_circs_in_states_spec. reflexivity.
Qed.

Lemma close_success_count_same d g circs :
  same_circuits circs (pathbias_get_close_success_count options d g circs).2.
Proof. rewrite close_success_count_spec. apply count_same_circuits. Qed.

Lemma use_success_count_same d g circs :
  same_circuits circs (pathbias_get_use_success_count options d g circs).2.
Proof. rewrite use_success_count_spec. apply count_same_circuits. Qed.

Lemma log_rate_counts_same d g circs :
  same_circuits circs (log_rate_counts options d g circs).
Proof.
  unfold log_rate_counts.
  eapply same_circuits_trans;
    [apply use_success_count_same | apply close_success_count_same].
Qed.

(** Splits the conditionals of a rate or scaling function and names the
    results of the counting calls. *)
Ltac split_rates :=
  repeat match goal with
         | |- context [if ?b then _ else _] => destruct b
         | |- context [let '(_, _) := ?p in _] =>
             let E := fresh "E" in
             destruct p as [? ?] eqn:E
         end.

Ltac chain_same :=
  repeat match goal with
         | E : pathbias_get_close_success_count _ ?d ?g ?l = (_, ?l') |- _ =>
             assert (same_circuits l l')
               by (replace l' with
                     (pathbias_get_close_success_count options d g l).2
                     by (rewrite E; reflexivity);
                   apply close_success_count_same);
             clear E
         | E : pathbias_get_use_success_count _ ?d ?g ?l = (_, ?l') |- _ =>
             assert (same_circuits l l')
               by (replace l' with
                     (pathbias_get_use_success_count options d g l).2
                     by (rewrite E; reflexivity);
                   apply use_success_count_same);
             clear E
         | E : pathbias_count_circs_in_states _ ?d ?a ?b ?l = (_, ?l') |- _ =>
             assert (same_circuits l l')
               by (replace l' with
                     (pathbias_count_circs_in_states options d a b l).2
                     by (rewrite E; reflexivity);
                   apply count_same_circuits);
             clear E
         end;
  cbn [snd];
  repeat first
    [ apply same_circuits_refl
    | assumption
    | match goal with
      | |- same_circuits _ (log_rate_counts _ _ _ _) =>
          eapply same_circuits_trans; [|apply log_rate_counts_same]
      | H : same_circuits ?l ?l' |- same_circuits _ ?l' =>
          eapply same_circuits_trans; [|exact H]
      end ].

Lemma measure_use_rate_same d g circs :
  same_circuits circs
    (pathbias_measure_use_rate options get_param ext d g circs).2.
Proof. unfold pathbias_measure_use_rate. split_rates; chain_same. Qed.

Lemma measure_close_rate_same d g circs :
  same_circuits circs
    (pathbias_measure_close_rate options get_param ext d g circs).2.
Proof. unfold pathbias_measure_close_rate. split_rates; chain_same. Qed.

Lemma scale_close_rates_same d g circs :
  same_circuits circs
    (pathbias_scale_close_rates options get_param d g circs).2.
Proof. unfold pathbias_scale_close_rates. split_rates; chain_same. Qed.

Lemma scale_use_rates_same d g circs :
  same_circuits circs
    (pathbias_scale_use_rates options get_param d g circs).2.
Proof. unfold pathbias_scale_use_rates. split_rates; chain_same. Qed.


(** The eight counters of a guard. *)
Definition counters (g : entry_guard_t D) : D * D * D * D * D * D * D * D :=
  (circ_attempts g, circ_successes g, successful_circuits_closed g,
   collapsed_circuits g, unusable_circuits g, timeouts g,
   use_attempts g, use_successes g).

(** Measuring a rate sets alert flags; it changes no counter. *)
Lemma measure_close_rate_counters d g circs :
  counters (pathbias_measure_close_rate options get_param ext d g circs).1
  = counters g.
Proof. unfold pathbias_measure_close_rate. split_rates; reflexivity. Qed.

Lemma measure_use_rate_counters d g circs :
  counters (pathbias_measure_use_rate options get_param ext d g circs).1
  = counters g.
Proof. unfold pathbias_measure_use_rate. split_rates; reflexivity. Qed.

(** The circuit list enters the measured close rate through one number:
    the guard's circuits from build_succeeded to use_succeeded. *)
Lemma measure_close_rate_guard d g circs circs' :
  open_circuits d PATH_STATE_BUILD_SUCCEEDED PATH_STATE_USE_SUCCEEDED circs
  = open_circuits d PATH_STATE_BUILD_SUCCEEDED PATH_STATE_USE_SUCCEEDED
      circs' ->
  (pathbias_measure_close_rate options get_param ext d g circs).1
  = (pathbias_measure_close_rate options get_param ext d g circs').1.
Proof.
  intros E. unfold pathbias_measure_close_rate.
  destruct (d_ltb _ _); [|reflexivity].
  rewrite !close_success_count_spec.
  rewrite <- !(open_circuits_same _ _ _ _ _ (count_same_circuits _ _ _ _)).
  rewrite E.
  repeat match goal with
         | |- context [if ?b then _ else _] => destruct b
         end; reflexivity.
Qed.

(** A disabled guard stays disabled. *)
Lemma measure_close_rate_disabled d g circs :
  path_bias_disabled g = true ->
  path_bias_disabled
    (pathbias_measure_close_rate options get_param ext d g circs).1 = true.
Proof.
  intros H. unfold pathbias_measure_close_rate.
  split_rates; cbn; try exact H; reflexivity.
Qed.

(** Scaling, with the two counts of open circuits written out. *)
Lemma scale_close_rates_spec d g circs :
  (pathbias_scale_close_rates options get_param d g circs).1 =
    if d_ltb (d_of_int (pathbias_get_scale_threshold options get_param))
         (circ_attempts g)
    then
      let ratio := pathbias_get_scale_ratio get_param in
      let opened_attempts :=
        open_circuits d PATH_STATE_BUILD_ATTEMPTED PATH_STATE_BUILD_ATTEMPTED
          circs in
      let opened_built :=
        open_circuits d PATH_STATE_BUILD_SUCCEEDED PATH_STATE_USE_FAILED
          circs in
      with_counters g
        (d_add (d_mul (d_sub (circ_attempts g)
                         (d_of_int (opened_attempts + opened_built))) ratio)
               (d_of_int (opened_attempts + opened_built)))
        (d_add (d_mul (d_sub (circ_successes g) (d_of_int opened_built)) ratio)
               (d_of_int opened_built))
        (d_mul (successful_circuits_closed g) ratio)
        (d_mul (collapsed_circuits g) ratio)
        (d_mul (unusable_circuits g) ratio)
        (d_mul (timeouts g) ratio)
        (use_attempts g) (use_successes g)
    else g.
Proof.
  unfold pathbias_scale_close_rates.
  destruct (d_ltb _ _); [|reflexivity].
  rewrite pathbias_count_circs_in_states_spec. cbv zeta.
  set (circs1 := _ <$> circs).
  rewrite pathbias_count_circs_in_states_spec.
  assert (Hs : same_circuits circs circs1).
  { pose proof (count_same_circuits d PATH_STATE_BUILD_ATTEMPTED
                  PATH_STATE_BUILD_ATTEMPTED circs) as Hs.
    rewrite pathbias_count_circs_in_states_spec in Hs. exact Hs. }
  rewrite <- (open_circuits_same d PATH_STATE_BUILD_SUCCEEDED
                PATH_STATE_USE_FAILED circs circs1 Hs).
  reflexivity.
Qed.

Lemma same_circuits_lookup l l' i c :
  same_circuits l l' -> l !! i = Some (OriginCircuit c) ->
  exists c',
    l' !! i = Some (OriginCircuit c')
    /\ set_pathbias_shouldcount c' PATHBIAS_SHOULDCOUNT_UNDECIDED
       = set_pathbias_shouldcount c PATHBIAS_SHOULDCOUNT_UNDECIDED.
Proof.
  unfold same_circuits. intros E H.
  apply (f_equal (fun l => l !! i)) in E.
  rewrite !list_lookup_fmap, H in E.
  destruct (l' !! i) as [[c'|]|]; cbn in E; try discriminate.
  exists c'. split; [reflexivity|]. congruence.
Qed.

Lemma same_circuits_path_state l l' i c :
  same_circuits l l' -> l !! i = Some (OriginCircuit c) ->
  exists c', l' !! i = Some (OriginCircuit c')
             /\ path_state c' = path_state c
             /\ purpose c' = purpose c
             /\ build_state c' = build_state c
             /\ first_hop_digest c' = first_hop_digest c.
Proof.
  intros E H. destruct (same_circuits_lookup l l' i c E H) as (c' & H' & Ec).
  exists c'. split; [exact H'|].
  pose proof (f_equal path_state Ec) as E1.
  pose proof (f_equal purpose Ec) as E2.
  pose proof (f_equal build_state Ec) as E3.
  pose proof (f_equal cpath Ec) as E4.
  cbn in E1, E2, E3, E4. unfold first_hop_digest. rewrite E4. auto.
Qed.


Definition inc_circ_attempts (g : entry_guard_t D) :=
  set_circ_attempts g (d_add (circ_attempts g) (d_of_int 1)).

Lemma run_entry_guard_get_by_id_digest (w : world D) d :
  entry_guard_get_by_id_digest d w = Some (entry_guards w !! d, w).
Proof. reflexivity. Qed.

Lemma entry_guard_inc_circ_attempt_count_spec d g circs :
  entry_guard_inc_circ_attempt_count options get_param ext d g circs =
    let measured :=
      pathbias_measure_close_rate options get_param ext d g circs in
    let scaled :=
      pathbias_scale_close_rates options get_param d measured.1 measured.2 in
    if path_bias_disabled measured.1 then (-1, measured.1, measured.2)
    else (0, inc_circ_attempts scaled.1, scaled.2).
Proof.
  unfold entry_guard_inc_circ_attempt_count.
  destruct (pathbias_measure_close_rate _ _ _ _ _ _) as [gm lm].
  cbn [fst snd]. destruct (path_bias_disabled gm); [reflexivity|].
  destruct (pathbias_scale_close_rates _ _ _ _ _) as [gs ls]. reflexivity.
Qed.

(** C2.  For a counted circuit with at least two hops, the second one
    awaiting keys, that has not opened, is in state new_circ and whose
    first hop's guard is known: [pathbias_count_build_attempt] sets the
    path state to build_attempted; it runs [pathbias_measure_close_rate]
    (which changes no counter) and, unless the guard is disabled, then
    [pathbias_scale_close_rates], and only then adds exactly 1 to
    [circ_attempts], returning 0.  When the guard is (or has just become)
    path_bias_disabled nothing is scaled or added and the negative value
    -END_CIRC_REASON_TORPROTOCOL is returned. *)
Theorem pathbias_count_build_attempt_spec w i c h1 h2 rest d g :
  origin_at w i c ->
  (psc c).1 = true ->
  cpath c = h1 :: h2 :: rest ->
  hop_state h2 = CPATH_STATE_AWAITING_KEYS ->
  has_opened c = false ->
  path_state c = PATH_STATE_NEW_CIRC ->
  first_hop_digest c = Some d ->
  entry_guards w !! d = Some g ->
  let w1 := upd_circ w i
              (set_path_state (psc c).2 PATH_STATE_BUILD_ATTEMPTED) in
  let measured :=
    pathbias_measure_close_rate options get_param ext d g
      (global_circuitlist w1) in
  let scaled :=
    pathbias_scale_close_rates options get_param d measured.1 measured.2 in
  exists r w',
    pathbias_count_build_attempt options get_param ext i w = Some (r, w')
    /\ (exists c', origin_at w' i c'
                   /\ path_state c' = PATH_STATE_BUILD_ATTEMPTED)
    /\ counters measured.1 = counters g
    /\ (path_bias_disabled g = true -> path_bias_disabled measured.1 = true)
    /\ if path_bias_disabled measured.1
       then r = - END_CIRC_REASON_TORPROTOCOL /\ r < 0
            /\ entry_guards w' = <[d := measured.1]> (entry_guards w)
       else r = 0
            /\ entry_guards w' =
               <[d := inc_circ_attempts scaled.1]> (entry_guards w).
Proof.
  intros H Hc Hcp Hh2 Hop Hps Hd Hg w1 measured scaled.
  unfold pathbias_count_build_attempt.
  rewrite (bind_run _ _ _ _ _ (run_call_pathbias_should_count _ _ _ H)).
  rewrite Hc. cbn [negb].
  pose proof (origin_at_upd_circ w i c (psc c).2 H) as H1.
  rewrite (bind_run _ _ _ _ _ (run_get_origin _ _ _ H1)).
  unfold pathbias_is_new_circ_attempt.
  rewrite should_count_first_hop, should_count_path_state, Hd, Hps.
  replace (cpath (psc c).2) with (cpath c)
    by (rewrite should_count_cache; reflexivity).
  replace (has_opened (psc c).2) with (has_opened c)
    by (rewrite should_count_cache; reflexivity).
  rewrite Hcp, Hh2, Hop. cbn [cpath_state_eqb negb].
  rewrite (bind_run _ _ _ _ _
             (bind_run _ _ _ _ _ (run_entry_guard_get_by_id_digest _ d))).
  rewrite entry_guards_upd_circ, Hg.
  change (ret (Some d) (upd_circ w i (psc c).2))
    with (Some (Some d, upd_circ w i (psc c).2)).
  cbv beta iota.
  change (path_state_eqb PATH_STATE_NEW_CIRC PATH_STATE_NEW_CIRC) with true.
  cbv iota.
  rewrite (bind_run _ _ _ _ _ (run_set_path_state_at _ _ _ _ H1)).
  rewrite upd_circ_twice. fold w1.
  rewrite (bind_run _ _ _ _ _
             (run_on_guard w1 d g _ ltac:(exact Hg))).
  rewrite entry_guard_inc_circ_attempt_count_spec. cbv zeta.
  fold measured. fold scaled.
  assert (Hw1 : global_circuitlist w1 !! i
                = Some (OriginCircuit
                          (set_path_state (psc c).2
                             PATH_STATE_BUILD_ATTEMPTED))).
  { apply (origin_at_upd_circ w i c _ H). }
  assert (Hm : same_circuits (global_circuitlist w1) measured.2)
    by apply measure_close_rate_same.
  destruct (path_bias_disabled measured.1) eqn:Hdis; cbn [fst snd].
  - eexists _, _. split; [reflexivity|].
    split.
    { destruct (same_circuits_path_state _ _ i _ Hm Hw1)
        as (c' & Hc' & Hps' & _).
      exists c'. split; [exact Hc' | exact Hps']. }
    split; [apply measure_close_rate_counters|].
    split; [intros _; reflexivity|].
    repeat split; reflexivity.
  - eexists _, _. split; [reflexivity|].
    split.
    { assert (Hs : same_circuits (global_circuitlist w1) scaled.2).
      { eapply same_circuits_trans; [exact Hm|].
        apply scale_close_rates_same. }
      destruct (same_circuits_path_state _ _ i _ Hs Hw1)
        as (c' & Hc' & Hps' & _).
      exists c'. split; [exact Hc' | exact Hps']. }
    split; [apply measure_close_rate_counters|].
    split; [intros Hgd;
            pose proof (measure_close_rate_disabled d g
                          (global_circuitlist w1) Hgd) as Hx;
            fold measured in Hx; congruence|].
    split; reflexivity.
Qed.


(** *** What an emitted probe leaves behind *)

(** The payload of the probe for the nonce 0.a.b.c. *)
Definition probe_payload (a b c : Z) : string :=
  String.append "0."
    (String.append (dec_octet a)
       (String.append "."
          (String.append (dec_octet b)
             (String.append "." (String.append (dec_octet c) ":25"))))).

Lemma nonce_range (r : Z) : 0 <= Z.land r 16777215 < 2 ^ 24.
Proof.
  change 16777215 with (Z.ones 24). rewrite Z.land_ones by lia.
  apply Z.mod_pos_bound. lia.
Qed.

Lemma string_append_assoc (a b c : string) :
  String.append (String.append a b) c = String.append a (String.append b c).
Proof.
  induction a as [|x a IH]; [reflexivity|].
  change (String x (String.append (String.append a b) c)
          = String x (String.append a (String.append b c))).
  f_equal. exact IH.
Qed.

Lemma tor_dup_ip_nonce (n : Z) :
  0 <= n < 2 ^ 24 ->
  String.append (tor_dup_ip n) ":25"
  = probe_payload (Z.land (Z.shiftr n 16) 255) (Z.land (Z.shiftr n 8) 255)
      (Z.land n 255).
Proof.
  intros Hn. unfold tor_dup_ip, probe_payload.
  rewrite (Z.shiftr_div_pow2 n 24), Z.div_small by lia.
  change (dec_octet (Z.land 0 255)) with "0"%string.
  rewrite !string_append_assoc. reflexivity.
Qed.

Lemma probe_refused_false c :
  probe_refused c = false ->
  (exists hop, last (cpath c) = Some hop /\ hop_state hop = CPATH_STATE_OPEN)
  /\ (exists chan, n_chan c = Some chan
                   /\ (chan_state chan = CHANNEL_STATE_OPEN
                       \/ chan_state chan = CHANNEL_STATE_MAINT))
  /\ ~ (purpose c = CIRCUIT_PURPOSE_PATH_BIAS_TESTING
        /\ pathbias_probe_id c <> 0).
Proof.
  unfold probe_refused. intros E.
  apply orb_false_iff in E. destruct E as [E E3].
  apply orb_false_iff in E. destruct E as [E1 E2].
  apply negb_false_iff in E1, E3.
  split; [|split].
  - destruct (last (cpath c)) as [hop|]; [|discriminate].
    exists hop. split; [reflexivity|].
    destruct (hop_state hop); cbn in E1; congruence.
  - destruct (n_chan c) as [chan|]; [|discriminate].
    exists chan. split; [reflexivity|].
    unfold channel_usable_for_probe in E3.
    destruct (chan_state chan); try discriminate; auto.
  - intros [Hp Hid]. rewrite Hp in E2.
    apply Z.eqb_neq in Hid. rewrite Hid in E2. discriminate.
Qed.

(** C5, amended.  Whenever [pathbias_send_usable_probe] returns 0, the
    last hop was open, the channel was open or in maintenance, and no probe
    was outstanding.  Afterwards the circuit's purpose is
    PATH_BIAS_TESTING, the stored nonce is the random value masked to its
    low 24 bits, the stored stream id is the fresh one and is not zero,
    [timestamp_began] and [timestamp_dirty] hold the current time, and one
    RELAY_BEGIN was sent on that stream whose payload is the string
    0.a.b.c:25 of the nonce (with its terminating NUL counted in the
    length).  An enclosing [pathbias_check_close] of a counted circuit in
    state use_attempted returns -1. *)
Theorem pathbias_send_usable_probe_emitted w i c reason wp :
  origin_at w i c ->
  pathbias_send_usable_probe ext i w = Some (0, wp) ->
  (exists hop, last (cpath c) = Some hop /\ hop_state hop = CPATH_STATE_OPEN)
  /\ (exists chan, n_chan c = Some chan
                   /\ (chan_state chan = CHANNEL_STATE_OPEN
                       \/ chan_state chan = CHANNEL_STATE_MAINT))
  /\ ~ (purpose c = CIRCUIT_PURPOSE_PATH_BIAS_TESTING
        /\ pathbias_probe_id c <> 0)
  /\ (exists c' nonce,
        origin_at wp i c'
        /\ purpose c' = CIRCUIT_PURPOSE_PATH_BIAS_TESTING
        /\ nonce = Z.land (crypto_rand_u32 ext) 16777215
        /\ 0 <= nonce < 2 ^ 24
        /\ pathbias_probe_nonce c' = nonce
        /\ pathbias_probe_id c' = unique_stream_id ext
        /\ pathbias_probe_id c' <> 0
        /\ timestamp_began c' = tor_gettimeofday ext
        /\ timestamp_dirty c' = time_now ext
        /\ exists payload,
             payload = probe_payload (Z.land (Z.shiftr nonce 16) 255)
                         (Z.land (Z.shiftr nonce 8) 255) (Z.land nonce 255)
             /\ ext_calls wp =
                ext_calls w ++
                [Call_relay_send_command_from_edge (pathbias_probe_id c') i
                   RELAY_COMMAND_BEGIN payload
                   (Z.of_nat (String.length payload) + 1)])
  /\ ((psc c).1 = true -> path_state c = PATH_STATE_USE_ATTEMPTED ->
      exists wq,
        pathbias_check_close options ext i reason w = Some (-1, wq)).
Proof.
  intros H Hrun.
  assert (Hne : cpath c <> []).
  { intros Hcp.
    rewrite (crash_pathbias_send_usable_probe _ _ _ H Hcp) in Hrun.
    discriminate. }
  rewrite (run_pathbias_send_usable_probe _ _ _ H Hne) in Hrun.
  injection Hrun as Hret Hwp.
  assert (Hsent : probe_sent c = true).
  { rewrite probe_outcome_sent in Hret.
    destruct (probe_sent c); [reflexivity | discriminate]. }
  unfold probe_sent in Hsent.
  apply andb_true_iff in Hsent. destruct Hsent as [Hsent Hsend].
  apply andb_true_iff in Hsent. destruct Hsent as [Href Hsid].
  apply negb_true_iff in Href, Hsid, Hsend.
  destruct (probe_refused_false c Href) as (Hhop & Hchan & Hout).
  split; [exact Hhop|]. split; [exact Hchan|]. split; [exact Hout|].
  split.
  - unfold probe_outcome in Hwp. rewrite Href, Hsid, Hsend in Hwp.
    subst wp.
    exists (set_timestamp_dirty (probing c) (time_now ext)),
      (Z.land (crypto_rand_u32 ext) 16777215).
    split.
    { apply (origin_at_upd_circ _ i (probing c)).
      apply (origin_at_upd_circ w i c _ H). }
    split; [reflexivity|]. split; [reflexivity|].
    split; [apply nonce_range|]. split; [reflexivity|].
    split; [reflexivity|].
    split; [apply Z.eqb_neq; exact Hsid|].
    split; [reflexivity|]. split; [reflexivity|].
    eexists. split; [reflexivity|].
    cbn [ext_calls upd_circ with_call]. unfold probe_call. cbv zeta.
    rewrite (tor_dup_ip_nonce _ (nonce_range (crypto_rand_u32 ext))).
    reflexivity.
  - intros Hc Hps. unfold pathbias_check_close.
    rewrite (bind_run _ _ _ _ _ (run_call_pathbias_should_count _ _ _ H)).
    rewrite Hc. cbn [negb].
    pose proof (origin_at_upd_circ w i c (psc c).2 H) as H1.
    rewrite (bind_run _ _ _ _ _ (run_get_origin _ _ _ H1)).
    rewrite should_count_path_state, Hps.
    assert (Hne1 : cpath (psc c).2 <> [])
      by (rewrite should_count_cache; exact Hne).
    rewrite (bind_run _ _ _ _ _
               (run_pathbias_send_usable_probe _ _ _ H1 Hne1)).
    rewrite probe_outcome_sent, probe_sent_cache.
    unfold probe_sent. rewrite Href, Hsid, Hsend. cbn.
    eexists. reflexivity.
Qed.


(** *** The answer to the probe *)

Lemma scale_use_after_measure_same d g circs :
  same_circuits circs
    (pathbias_scale_use_rates options get_param d
       (pathbias_measure_use_rate options get_param ext d g circs).1
       (pathbias_measure_use_rate options get_param ext d g circs).2).2.
Proof.
  eapply same_circuits_trans;
    [apply measure_use_rate_same | apply scale_use_rates_same].
Qed.

(** [pathbias_count_use_attempt] on a circuit with a first hop returns and
    leaves an origin circuit with the same purpose and build state behind
    the pointer; it sends no relay cell and marks no circuit for close. *)
Lemma pathbias_count_use_attempt_keeps w i c :
  origin_at w i c -> is_Some (first_hop_digest c) ->
  exists w' c',
    pathbias_count_use_attempt options get_param ext i w = Some (tt, w')
    /\ origin_at w' i c'
    /\ purpose c' = purpose c /\ build_state c' = build_state c
    /\ ext_calls w' = ext_calls w.
Proof.
  intros H [d Hd]. unfold pathbias_count_use_attempt.
  rewrite (bind_run _ _ _ _ _ (run_call_pathbias_should_count _ _ _ H)).
  pose proof (origin_at_upd_circ w i c (psc c).2 H) as H1.
  assert (Hpc : purpose (psc c).2 = purpose c
                /\ build_state (psc c).2 = build_state c)
    by (rewrite should_count_cache; split; reflexivity).
  destruct Hpc as [Hp Hb].
  destruct (psc c).1; cbn [negb]; [|eexists _, _; eauto 6].
  rewrite (bind_run _ _ _ _ _ (run_get_origin _ _ _ H1)).
  destruct (_ <? _); [eexists _, _; eauto 6|].
  destruct (_ <? _); [|eexists _, _; eauto 6].
  rewrite (bind_run _ _ _ _ _
             (run_guard_of_first_hop_unchecked _ _ _ d H1
                ltac:(rewrite should_count_first_hop; exact Hd))).
  rewrite entry_guards_upd_circ.
  destruct (entry_guards w !! d) as [g|] eqn:Hg.
  - rewrite (bind_run _ _ _ _ _
               (run_on_guard _ d g _
                  ltac:(rewrite entry_guards_upd_circ; exact Hg))).
    set (f := fun (g : entry_guard_t D) (circs : list circuit_entry) =>
                let '(g, circs) :=
                  pathbias_measure_use_rate options get_param ext d g circs in
                let '(g, circs) :=
                  pathbias_scale_use_rates options get_param d g circs in
                (tt, set_use_attempts g (d_add (use_attempts g) (d_of_int 1)),
                 circs)).
    set (w1 := upd_circ w i (psc c).2).
    assert (Hs : same_circuits (global_circuitlist w1)
                   (f g (global_circuitlist w1)).2).
    { unfold f.
      pose proof (scale_use_after_measure_same d g (global_circuitlist w1))
        as Hs.
      destruct (pathbias_measure_use_rate _ _ _ _ _ _) as [gm lm].
      cbn [fst snd] in Hs.
      destruct (pathbias_scale_use_rates _ _ _ _ _) as [gs ls].
      exact Hs. }
    destruct (same_circuits_path_state _ _ i _ Hs H1)
      as (c2 & Hc2 & _ & Hp2 & Hb2 & _).
    set (w2 := mk_world _ _ _).
    assert (H2 : origin_at w2 i c2) by exact Hc2.
    rewrite (run_set_path_state_at _ _ _ _ H2).
    eexists _, _. split; [reflexivity|].
    split; [eapply origin_at_upd_circ, H2|].
    cbn [purpose build_state set_path_state].
    repeat split; congruence.
  - change (ret tt (upd_circ w i (psc c).2))
      with (Some (tt, upd_circ w i (psc c).2)).
    cbv beta iota.
    change (bind (ret tt) ?k ?w0) with (k tt w0). cbv beta.
    rewrite (run_set_path_state_at _ _ _ _ H1).
    eexists _, _. split; [reflexivity|].
    split; [eapply origin_at_upd_circ, H1|].
    cbn [purpose build_state set_path_state]. auto.
Qed.

Lemma pathbias_mark_use_success_keeps w i c :
  origin_at w i c -> is_Some (first_hop_digest c) ->
  exists w' c',
    pathbias_mark_use_success options get_param ext i w = Some (tt, w')
    /\ origin_at w' i c'
    /\ path_state c' = (if (psc c).1 then PATH_STATE_USE_SUCCEEDED
                        else path_state c)
    /\ ext_calls w' = ext_calls w.
Proof.
  intros H Hfh. unfold pathbias_mark_use_success.
  rewrite (bind_run _ _ _ _ _ (run_call_pathbias_should_count _ _ _ H)).
  pose proof (origin_at_upd_circ w i c (psc c).2 H) as H1.
  destruct (psc c).1; cbn [negb].
  2:{ eexists _, _. split; [reflexivity|]. split; [exact H1|].
      split; [apply should_count_path_state | reflexivity]. }
  rewrite (bind_run _ _ _ _ _ (run_get_origin _ _ _ H1)).
  destruct (_ <? _).
  - destruct (pathbias_count_use_attempt_keeps _ i (psc c).2 H1)
      as (w2 & c2 & Hrun & H2 & _ & _ & Hcalls);
      [rewrite should_count_first_hop; exact Hfh|].
    rewrite (bind_run _ _ _ _ _ Hrun).
    rewrite (run_set_path_state_at _ _ _ _ H2).
    eexists _, _. split; [reflexivity|].
    split; [eapply origin_at_upd_circ, H2|].
    split; [reflexivity | exact Hcalls].
  - change (bind (ret tt) ?k ?w0) with (k tt w0). cbv beta.
    rewrite (run_set_path_state_at _ _ _ _ H1).
    eexists _, _. split; [reflexivity|].
    split; [eapply origin_at_upd_circ, H1|].
    split; reflexivity.
Qed.

(** The cell answers the probe: a RELAY_END on the probe's stream, long
    enough to carry reason, address and TTL, with reason EXITPOLICY and the
    nonce as address. *)
Definition probe_answer (c : origin_circuit_t) (cell : relay_cell) : bool :=
  (rh_command cell =? RELAY_COMMAND_END)
  && (rh_stream_id cell =? pathbias_probe_id c)
  && (9 <=? rh_length cell)
  && (get_uint8 (relay_body cell) =? END_STREAM_REASON_EXITPOLICY)
  && (ntohl_get_uint32 (relay_body cell) 1 =? pathbias_probe_nonce c).

(** C6, amended.  On a circuit in purpose PATH_BIAS_TESTING (with a first
    hop), [pathbias_check_probe_response] returns 0 and asks for the
    circuit to be closed with reason FINISHED exactly when the cell is a
    RELAY_END on the probe's stream id, of length at least 9, whose reason
    is EXITPOLICY and whose address equals the stored nonce; the path state
    is then use_succeeded if [pathbias_should_count] accepts the circuit,
    and what it was if not.  For any other cell it returns a negative value
    and changes nothing. *)
Theorem pathbias_check_probe_response_spec w i c cell :
  origin_at w i c ->
  purpose c = CIRCUIT_PURPOSE_PATH_BIAS_TESTING ->
  is_Some (first_hop_digest c) ->
  exists r w',
    pathbias_check_probe_response options get_param ext i cell w
    = Some (r, w')
    /\ if probe_answer c cell
       then r = 0
            /\ ext_calls w' =
               ext_calls w
               ++ [Call_circuit_mark_for_close i END_CIRC_REASON_FINISHED]
            /\ (exists c',
                  origin_at w' i c'
                  /\ path_state c' =
                     if (psc c).1 then PATH_STATE_USE_SUCCEEDED
                     else path_state c)
       else r < 0 /\ w' = w.
Proof.
  intros H Hp Hfh. unfold pathbias_check_probe_response, probe_answer.
  rewrite (bind_run _ _ _ _ _ (run_get_origin _ _ _ H)).
  rewrite Hp, Z.eqb_refl. cbn [negb].
  destruct (rh_command cell =? RELAY_COMMAND_END); cbn [andb];
    [|eexists _, _; split; [reflexivity|]; split; [reflexivity|reflexivity]].
  rewrite (Z.eqb_sym (pathbias_probe_id c)).
  destruct (rh_stream_id cell =? pathbias_probe_id c);
    [|rewrite andb_false_r; cbn [andb];
      eexists _, _; split; [reflexivity|]; split; reflexivity].
  rewrite andb_true_r. cbn [andb].
  destruct (9 <=? rh_length cell) eqn:Hlen; cbn [andb].
  - assert (Hgt : (rh_length cell >? 0) = true) by lia.
    assert (Hlt : (rh_length cell <? 9) = false) by lia.
    rewrite Hgt.
    destruct (get_uint8 (relay_body cell) =? END_STREAM_REASON_EXITPOLICY);
      cbn [andb];
      [|eexists _, _; split; [reflexivity|]; split; reflexivity].
    rewrite Hlt.
    destruct (ntohl_get_uint32 (relay_body cell) 1 =? pathbias_probe_nonce c);
      [|eexists _, _; split; [reflexivity|]; split; reflexivity].
    destruct (pathbias_mark_use_success_keeps w i c H Hfh)
      as (w2 & c2 & Hrun & H2 & Hps & Hcalls).
    rewrite (bind_run _ _ _ _ _ Hrun).
    unfold circuit_mark_for_close.
    rewrite (bind_run _ _ _ _ _ (run_emit _ _)).
    eexists _, _. split; [reflexivity|]. split; [reflexivity|].
    split; [cbn [ext_calls]; rewrite Hcalls; reflexivity|].
    exists c2. split; [exact H2 | exact Hps].
  - assert (Hlt : (rh_length cell <? 9) = true) by lia.
    destruct ((if rh_length cell >? 0 then get_uint8 (relay_body cell)
               else END_STREAM_REASON_MISC) =? END_STREAM_REASON_EXITPOLICY);
      [rewrite Hlt|];
      eexists _, _; split; try reflexivity; split; reflexivity.
Qed.


(** *** Further properties of the accountant *)

(** X1.  [pathbias_should_count] changes nothing but the cached answer,
    which it sets to the answer it returns, and asking again gives the same
    answer and the same circuit.  A circuit is counted exactly when entry
    guards are in use, its purpose is none of TESTING, CONTROLLER,
    S_CONNECT_REND, S_REND_JOINED and the client introduction purposes, and
    it is neither flagged one-hop nor of desired length 1. *)
Theorem pathbias_should_count_stable c :
  pathbias_should_count options (psc c).2 = psc c
  /\ (psc c).2
     = set_pathbias_shouldcount c
         (if (psc c).1 then PATHBIAS_SHOULDCOUNT_COUNTED
          else PATHBIAS_SHOULDCOUNT_IGNORED)
  /\ ((psc c).1 = true
      <-> UseEntryGuards options <> 0
          /\ purpose c <> CIRCUIT_PURPOSE_TESTING
          /\ purpose c <> CIRCUIT_PURPOSE_CONTROLLER
          /\ purpose c <> CIRCUIT_PURPOSE_S_CONNECT_REND
          /\ purpose c <> CIRCUIT_PURPOSE_S_REND_JOINED
          /\ ~ (CIRCUIT_PURPOSE_C_INTRODUCING <= purpose c
                <= CIRCUIT_PURPOSE_C_INTRODUCE_ACKED)
          /\ onehop_tunnel (build_state c) = false
          /\ desired_path_len (build_state c) <> 1).
Proof.
  split; [|split].
  - rewrite (surjective_pairing (pathbias_should_count options (psc c).2)).
    rewrite should_count_again, should_count_cache_again.
    symmetry. apply surjective_pairing.
  - apply should_count_cache.
  - rewrite should_count_true. unfold uncounted_purpose.
    rewrite !orb_false_iff, andb_false_iff.
    rewrite !Z.eqb_neq, Z.geb_leb, !Z.leb_gt.
    destruct (onehop_tunnel (build_state c)); intuition (try congruence; lia).
Qed.

(** X2.  [pathbias_count_circs_in_states] returns the number of entries of
    the circuit list that are origin circuits, not marked for close, with
    a first hop whose [extend_info] names the guard, in a path state of
    the inclusive range, and counted by [pathbias_should_count].  The
    number lies between 0 and the length of the list, and the list it
    leaves behind differs from the old one in cached answers only. *)
Theorem pathbias_count_circs_in_states_counts d from to circs :
  (pathbias_count_circs_in_states options d from to circs).1
  = Z.of_nat (length (List.filter (counts_as_open d from to) circs))
  /\ 0 <= (pathbias_count_circs_in_states options d from to circs).1
       <= Z.of_nat (length circs)
  /\ forget <$> (pathbias_count_circs_in_states options d from to circs).2
     = forget <$> circs.
Proof.
  rewrite pathbias_count_circs_in_states_spec. cbn [fst snd].
  unfold open_circuits. split; [reflexivity|]. split.
  - pose proof (List.filter_length_le (counts_as_open d from to) circs). lia.
  - symmetry.
    pose proof (count_same_circuits d from to circs) as Hs.
    rewrite pathbias_count_circs_in_states_spec in Hs. exact Hs.
Qed.

Definition inc_circ_successes (g : entry_guard_t D) :=
  set_circ_successes g (d_add (circ_successes g) (d_of_int 1)).

(** X3.  [pathbias_count_build_success] always returns; it sends no relay
    cell and marks no circuit for close.  It moves the circuit from
    build_attempted to build_succeeded and adds exactly 1 to the guard's
    [circ_successes] when the circuit is counted, has not opened before,
    is in state build_attempted and its first hop's guard is known; in
    every other case the path state and the guard store stay as they
    were. *)
Theorem pathbias_count_build_success_spec w i c :
  origin_at w i c ->
  exists w' c',
    pathbias_count_build_success options i w = Some (tt, w')
    /\ origin_at w' i c'
    /\ ext_calls w' = ext_calls w
    /\ match (if (psc c).1 && negb (has_opened c)
                 && path_state_eqb (path_state c) PATH_STATE_BUILD_ATTEMPTED
              then known_guard w c else None) with
       | Some (d, g) =>
           path_state c' = PATH_STATE_BUILD_SUCCEEDED
           /\ entry_guards w' = <[d := inc_circ_successes g]> (entry_guards w)
       | None =>
           path_state c' = path_state c /\ entry_guards w' = entry_guards w
       end.
Proof.
  intros H. unfold pathbias_count_build_success.
  rewrite (bind_run _ _ _ _ _ (run_call_pathbias_should_count _ _ _ H)).
  pose proof (origin_at_upd_circ w i c (psc c).2 H) as H1.
  pose proof (should_count_path_state c) as Hps.
  assert (Hidle : exists w' c',
             ret tt (upd_circ w i (psc c).2) = Some (tt, w')
             /\ origin_at w' i c' /\ ext_calls w' = ext_calls w
             /\ path_state c' = path_state c
             /\ entry_guards w' = entry_guards w)
    by (eexists _, _; split; [reflexivity|]; split; [exact H1|];
        split; [reflexivity|]; split; [exact Hps | reflexivity]).
  destruct (psc c).1 eqn:Hc; cbn [negb andb]; [|exact Hidle].
  rewrite (bind_run _ _ _ _ _ (run_get_origin _ _ _ H1)).
  replace (has_opened (psc c).2) with (has_opened c)
    by (rewrite should_count_cache; reflexivity).
  destruct (has_opened c); cbn [negb andb]; [exact Hidle|].
  rewrite (bind_run _ _ _ _ _ (run_guard_of_first_hop _ _ _ H1)).
  rewrite should_count_first_hop, Hps, entry_guards_upd_circ.
  unfold known_guard.
  destruct (path_state_eqb (path_state c) PATH_STATE_BUILD_ATTEMPTED).
  2:{ destruct (first_hop_digest c) as [d|]; [|exact Hidle].
      destruct (entry_guards w !! d); exact Hidle. }
  destruct (first_hop_digest c) as [d|]; [|exact Hidle].
  destruct (entry_guards w !! d) as [g|] eqn:Hg; [|exact Hidle].
  rewrite (bind_run _ _ _ _ _ (run_set_path_state_at _ _ _ _ H1)).
  rewrite upd_circ_twice.
  rewrite (run_on_guard _ d g) by exact Hg.
  eexists _, _. split; [reflexivity|].
  split; [apply (origin_at_upd_circ w i c _ H)|].
  repeat split.
Qed.

Definition inc_use_attempts (g : entry_guard_t D) :=
  set_use_attempts g (d_add (use_attempts g) (d_of_int 1)).

(** The guard after one counted use attempt: measured, then scaled, then
    [use_attempts] + 1. *)
Definition use_attempt_counted (d : list Z) (g : entry_guard_t D)
    (circs : list circuit_entry) : entry_guard_t D :=
  let measured := pathbias_measure_use_rate options get_param ext d g circs in
  let scaled :=
    pathbias_scale_use_rates options get_param d measured.1 measured.2 in
  inc_use_attempts scaled.1.

Lemma run_pathbias_count_use_attempt w i c :
  origin_at w i c -> is_Some (first_hop_digest c) ->
  exists w' c',
    pathbias_count_use_attempt options get_param ext i w = Some (tt, w')
    /\ origin_at w' i c'
    /\ purpose c' = purpose c /\ build_state c' = build_state c
    /\ first_hop_digest c' = first_hop_digest c
    /\ ext_calls w' = ext_calls w
    /\ if (psc c).1
          && path_state_eqb (path_state c) PATH_STATE_BUILD_SUCCEEDED
       then path_state c' = PATH_STATE_USE_ATTEMPTED
            /\ entry_guards w' =
               match known_guard w c with
               | Some (d, g) =>
                   <[d := use_attempt_counted d g
                            (global_circuitlist (upd_circ w i (psc c).2))]>
                     (entry_guards w)
               | None => entry_guards w
               end
       else path_state c' = path_state c /\ entry_guards w' = entry_guards w.
Proof.
  intros H [d Hd]. unfold pathbias_count_use_attempt.
  rewrite (bind_run _ _ _ _ _ (run_call_pathbias_should_count _ _ _ H)).
  pose proof (origin_at_upd_circ w i c (psc c).2 H) as H1.
  assert (Hidle : exists w' c',
             ret tt (upd_circ w i (psc c).2) = Some (tt, w')
             /\ origin_at w' i c'
             /\ purpose c' = purpose c /\ build_state c' = build_state c
             /\ first_hop_digest c' = first_hop_digest c
             /\ ext_calls w' = ext_calls w
             /\ path_state c' = path_state c
             /\ entry_guards w' = entry_guards w).
  { eexists _, _. split; [reflexivity|]. split; [exact H1|].
    rewrite should_count_cache. repeat split. }
  destruct (psc c).1 eqn:Hc; cbn [negb andb];
    [|destruct Hidle as (w' & c' & ? & ? & ? & ? & ? & ? & ? & ?);
      eexists _, _; eauto 10].
  rewrite (bind_run _ _ _ _ _ (run_get_origin _ _ _ H1)).
  rewrite should_count_path_state.
  assert (Hcase : path_state_eqb (path_state c) PATH_STATE_BUILD_SUCCEEDED
                  = negb (path_state_rank (path_state c)
                          <? path_state_rank PATH_STATE_BUILD_SUCCEEDED)
                    && (path_state_rank (path_state c)
                        <? path_state_rank PATH_STATE_USE_ATTEMPTED))
    by (destruct (path_state c); reflexivity).
  rewrite Hcase.
  destruct (_ <? path_state_rank PATH_STATE_BUILD_SUCCEEDED); cbn [negb andb];
    [destruct Hidle as (w' & c' & ? & ? & ? & ? & ? & ? & ? & ?);
     eexists _, _; eauto 10|].
  destruct (_ <? path_state_rank PATH_STATE_USE_ATTEMPTED);
    [|destruct Hidle as (w' & c' & ? & ? & ? & ? & ? & ? & ? & ?);
      eexists _, _; eauto 10].
  rewrite (bind_run _ _ _ _ _
             (run_guard_of_first_hop_unchecked _ _ _ d H1
                ltac:(rewrite should_count_first_hop; exact Hd))).
  rewrite entry_guards_upd_circ. unfold known_guard. rewrite Hd.
  destruct (entry_guards w !! d) as [g|] eqn:Hg.
  - rewrite (bind_run _ _ _ _ _
               (run_on_guard _ d g _
                  ltac:(rewrite entry_guards_upd_circ; exact Hg))).
    set (w1 := upd_circ w i (psc c).2).
    set (f := fun (g : entry_guard_t D) (circs : list circuit_entry) =>
                let '(g, circs) :=
                  pathbias_measure_use_rate options get_param ext d g circs in
                let '(g, circs) :=
                  pathbias_scale_use_rates options get_param d g circs in
                (tt, set_use_attempts g (d_add (use_attempts g) (d_of_int 1)),
                 circs)).
    assert (Hf : (f g (global_circuitlist w1)).1.2
                 = use_attempt_counted d g (global_circuitlist w1)
                 /\ same_circuits (global_circuitlist w1)
                      (f g (global_circuitlist w1)).2).
    { unfold f, use_attempt_counted. cbv zeta.
      pose proof (scale_use_after_measure_same d g (global_circuitlist w1))
        as Hs.
      destruct (pathbias_measure_use_rate _ _ _ _ _ _) as [gm lm].
      cbn [fst snd] in *.
      destruct (pathbias_scale_use_rates _ _ _ _ _) as [gs ls].
      split; [reflexivity | exact Hs]. }
    destruct Hf as [Hf Hs].
    destruct (same_circuits_path_state _ _ i _ Hs H1)
      as (c2 & Hc2 & _ & Hp2 & Hb2 & Hd2).
    set (w2 := mk_world _ _ _).
    assert (H2 : origin_at w2 i c2) by exact Hc2.
    rewrite (run_set_path_state_at _ _ _ _ H2).
    eexists _, _. split; [reflexivity|].
    split; [eapply origin_at_upd_circ, H2|].
    rewrite should_count_cache in Hp2, Hb2.
    rewrite should_count_first_hop in Hd2.
    split; [exact Hp2|]. split; [exact Hb2|].
    split; [exact (eq_trans Hd2 Hd)|].
    split; [reflexivity|]. split; [reflexivity|].
    unfold w2. cbn [entry_guards upd_circ].
    unfold f in Hf. cbv beta in Hf. rewrite Hf. reflexivity.
  - change (ret tt (upd_circ w i (psc c).2))
      with (Some (tt, upd_circ w i (psc c).2)).
    cbv beta iota.
    change (bind (ret tt) ?k ?w0) with (k tt w0). cbv beta.
    rewrite (run_set_path_state_at _ _ _ _ H1).
    eexists _, _. split; [reflexivity|].
    split; [eapply origin_at_upd_circ, H1|].
    rewrite should_count_cache.
    split; [reflexivity|]. split; [reflexivity|]. split; [exact Hd|].
    repeat split.
Qed.

(** X4.  On a circuit whose first hop carries an [extend_info],
    [pathbias_count_use_attempt] returns; it sends no relay cell and marks
    no circuit for close.  A
    counted circuit in state build_succeeded moves to use_attempted, and
    its guard, when known, is measured, scaled and then gets exactly 1
    added to [use_attempts]; in every other case the path state and the
    guard store stay as they were. *)
Theorem pathbias_count_use_attempt_spec w i c :
  origin_at w i c -> is_Some (first_hop_digest c) ->
  exists w' c',
    pathbias_count_use_attempt options get_param ext i w = Some (tt, w')
    /\ origin_at w' i c'
    /\ ext_calls w' = ext_calls w
    /\ if (psc c).1
          && path_state_eqb (path_state c) PATH_STATE_BUILD_SUCCEEDED
       then path_state c' = PATH_STATE_USE_ATTEMPTED
            /\ entry_guards w' =
               match known_guard w c with
               | Some (d, g) =>
                   <[d := use_attempt_counted d g
                            (global_circuitlist (upd_circ w i (psc c).2))]>
                     (entry_guards w)
               | None => entry_guards w
               end
       else path_state c' = path_state c /\ entry_guards w' = entry_guards w.
Proof.
  intros H Hd.
  destruct (run_pathbias_count_use_attempt w i c H Hd)
    as (w' & c' & Hrun & Hat & _ & _ & _ & Hcalls & Hres).
  exists w', c'. auto.
Qed.

(** [pathbias_check_close] on a counted circuit in state use_attempted
    whose guard is known: the probe decides. *)
Lemma run_check_close_use_attempted w i c reason d g :
  origin_at w i c -> (psc c).1 = true ->
  first_hop_digest c = Some d -> entry_guards w !! d = Some g ->
  path_state c = PATH_STATE_USE_ATTEMPTED ->
  exists r w',
    pathbias_check_close options ext i reason w = Some (r, w')
    /\ if probe_sent c
       then r = -1 /\ entry_guards w' = entry_guards w
       else r = 0
            /\ entry_guards w' =
               <[d := inc_unusable_circuits g]> (entry_guards w).
Proof.
  intros H Hc Hd Hg Hps. unfold pathbias_check_close.
  rewrite (bind_run _ _ _ _ _ (run_call_pathbias_should_count _ _ _ H)).
  rewrite Hc. cbn [negb].
  pose proof (origin_at_upd_circ w i c (psc c).2 H) as H1.
  rewrite (bind_run _ _ _ _ _ (run_get_origin _ _ _ H1)).
  rewrite should_count_path_state, Hps.
  assert (Hne : cpath (psc c).2 <> []).
  { apply (first_hop_cpath _ d). rewrite should_count_first_hop. exact Hd. }
  rewrite (bind_run _ _ _ _ _
             (run_pathbias_send_usable_probe _ _ _ H1 Hne)).
  rewrite probe_outcome_sent, probe_sent_cache.
  destruct (probe_outcome_circuit _ i (psc c).2 H1)
    as (c' & H2 & Hc' & _ & Hd' & Hgs);
    [rewrite should_count_again; exact Hc|].
  destruct (probe_sent c); cbn [Z.eqb].
  - eexists _, _. split; [reflexivity|]. split; [reflexivity|].
    rewrite Hgs. reflexivity.
  - rewrite (bind_run _ _ _ _ _ (run_pathbias_count_use_failed _ _ _ H2)).
    rewrite (run_already_counted _ _ _ (origin_at_bumped _ _ _ _ H2)).
    eexists _, _. split; [reflexivity|]. split; [reflexivity|].
    cbn [entry_guards upd_circ]. rewrite entry_guards_bumped, Hc'.
    unfold known_guard. rewrite Hd', should_count_first_hop, Hd, Hgs.
    cbn [entry_guards upd_circ]. rewrite Hg. reflexivity.
Qed.

(** The same in state use_succeeded: both success counters grow. *)
Lemma run_check_close_use_succeeded w i c reason d g :
  origin_at w i c -> (psc c).1 = true ->
  first_hop_digest c = Some d -> entry_guards w !! d = Some g ->
  path_state c = PATH_STATE_USE_SUCCEEDED ->
  exists w',
    pathbias_check_close options ext i reason w = Some (0, w')
    /\ entry_guards w' =
       <[d := inc_use_successes (inc_successful_circuits_closed g)]>
         (entry_guards w).
Proof.
  intros H Hc Hd Hg Hps. unfold pathbias_check_close.
  rewrite (bind_run _ _ _ _ _ (run_call_pathbias_should_count _ _ _ H)).
  rewrite Hc. cbn [negb].
  pose proof (origin_at_upd_circ w i c (psc c).2 H) as H1.
  rewrite (bind_run _ _ _ _ _ (run_get_origin _ _ _ H1)).
  rewrite should_count_path_state, Hps.
  pose proof (known_guard_found w c d g Hd Hg) as Hk.
  rewrite (bind_run _ _ _ _ _
             (run_pathbias_count_successful_close _ _ _ H1)).
  set (w2 := bumped (upd_circ w i (psc c).2) i (psc c).2 _).
  assert (H2 : origin_at w2 i (psc c).2).
  { unfold w2. rewrite <- (should_count_cache_again c) at 3.
    apply origin_at_bumped. exact H1. }
  assert (Hg2 : entry_guards w2 = <[d := inc_successful_circuits_closed g]>
                                    (entry_guards w)).
  { unfold w2. rewrite bumped_counted, Hk by exact Hc. reflexivity. }
  rewrite (bind_run _ _ _ _ _
             (run_pathbias_count_use_success _ _ _ d H2
                ltac:(rewrite should_count_first_hop; exact Hd)
                ltac:(rewrite should_count_path_state; exact Hps))).
  rewrite (run_already_counted _ _ _ (origin_at_bumped _ _ _ _ H2)).
  eexists. split; [reflexivity|].
  cbn [entry_guards upd_circ].
  rewrite entry_guards_bumped, should_count_again, Hc.
  unfold known_guard. rewrite should_count_first_hop, Hd, Hg2.
  rewrite lookup_insert_eq, insert_insert_eq. reflexivity.
Qed.

(** [pathbias_mark_use_success] on a counted circuit that is already past
    build_succeeded: only the path state changes. *)
Lemma run_mark_use_success_used w i c :
  origin_at w i c -> (psc c).1 = true ->
  path_state_rank PATH_STATE_USE_ATTEMPTED <= path_state_rank (path_state c) ->
  pathbias_mark_use_success options get_param ext i w
  = Some (tt, upd_circ w i
                (set_path_state (psc c).2 PATH_STATE_USE_SUCCEEDED)).
Proof.
  intros H Hc Hr. unfold pathbias_mark_use_success.
  rewrite (bind_run _ _ _ _ _ (run_call_pathbias_should_count _ _ _ H)).
  rewrite Hc. cbn [negb].
  pose proof (origin_at_upd_circ w i c (psc c).2 H) as H1.
  rewrite (bind_run _ _ _ _ _ (run_get_origin _ _ _ H1)).
  rewrite should_count_path_state.
  assert (Hlt : (path_state_rank (path_state c)
                 <? path_state_rank PATH_STATE_USE_ATTEMPTED) = false) by lia.
  rewrite Hlt.
  change (bind (ret tt) ?k ?w0) with (k tt w0). cbv beta.
  rewrite (run_set_path_state_at _ _ _ _ H1), upd_circ_twice. reflexivity.
Qed.

(** X5.  A stream succeeds on a counted circuit that is in use, so the
    circuit is marked use_succeeded.  If it is closed now, the close counts
    a success: [successful_circuits_closed] and [use_successes] both grow
    by 1.  If instead the stream detaches and [pathbias_mark_use_rollback]
    runs before the close, the circuit is back in use_attempted and the
    close sends the probe: it returns -1 and touches no guard counter when
    the probe can be sent, and counts the circuit as unusable when it
    cannot.  Neither marking step touches the guard store. *)
Theorem pathbias_use_rollback_forces_probe w i c d g reason :
  origin_at w i c -> (psc c).1 = true ->
  first_hop_digest c = Some d -> entry_guards w !! d = Some g ->
  path_state_rank PATH_STATE_USE_ATTEMPTED <= path_state_rank (path_state c) ->
  (exists w1 w2 r w3,
     pathbias_mark_use_success options get_param ext i w = Some (tt, w1)
     /\ pathbias_mark_use_rollback i w1 = Some (tt, w2)
     /\ pathbias_check_close options ext i reason w2 = Some (r, w3)
     /\ entry_guards w2 = entry_guards w
     /\ if probe_sent c
        then r = -1 /\ entry_guards w3 = entry_guards w
        else r = 0
             /\ entry_guards w3 =
                <[d := inc_unusable_circuits g]> (entry_guards w))
  /\ (exists w1 w3,
        pathbias_mark_use_success options get_param ext i w = Some (tt, w1)
        /\ pathbias_check_close options ext i reason w1 = Some (0, w3)
        /\ entry_guards w3 =
           <[d := inc_use_successes (inc_successful_circuits_closed g)]>
             (entry_guards w)).
Proof.
  intros H Hc Hd Hg Hr.
  pose proof (run_mark_use_success_used w i c H Hc Hr) as Hm.
  set (cs := set_path_state (psc c).2 PATH_STATE_USE_SUCCEEDED) in *.
  pose proof (origin_at_upd_circ w i c cs H) as Hs.
  assert (Hcs : (psc cs).1 = true).
  { rewrite <- Hc. apply should_count_depends; unfold cs;
      rewrite should_count_cache; reflexivity. }
  assert (Hds : first_hop_digest cs = Some d).
  { rewrite <- Hd. unfold cs. rewrite should_count_cache. reflexivity. }
  split.
  - set (ca := set_path_state (psc c).2 PATH_STATE_USE_ATTEMPTED).
    assert (Hroll : pathbias_mark_use_rollback i (upd_circ w i cs)
                    = Some (tt, upd_circ w i ca)).
    { unfold pathbias_mark_use_rollback.
      rewrite (bind_run _ _ _ _ _ (run_get_origin _ _ _ Hs)).
      change (path_state_eqb (path_state cs) PATH_STATE_USE_SUCCEEDED)
        with true.
      cbv iota. rewrite run_put_origin, upd_circ_twice. reflexivity. }
    pose proof (origin_at_upd_circ w i c ca H) as Ha.
    assert (Hca : (psc ca).1 = true).
    { rewrite <- Hc. apply should_count_depends; unfold ca;
        rewrite should_count_cache; reflexivity. }
    assert (Hda : first_hop_digest ca = Some d).
    { rewrite <- Hd. unfold ca. rewrite should_count_cache. reflexivity. }
    assert (Hpa : probe_sent ca = probe_sent c).
    { rewrite <- (probe_sent_cache c). reflexivity. }
    destruct (run_check_close_use_attempted (upd_circ w i ca) i ca reason d g
                Ha Hca Hda Hg eq_refl) as (r & w3 & Hrun & Hres).
    rewrite Hpa in Hres.
    exists (upd_circ w i cs), (upd_circ w i ca), r, w3.
    split; [exact Hm|]. split; [exact Hroll|]. split; [exact Hrun|].
    split; [reflexivity | exact Hres].
  - destruct (run_check_close_use_succeeded (upd_circ w i cs) i cs reason d g
                Hs Hcs Hds Hg eq_refl) as (w3 & Hrun & Hres).
    exists (upd_circ w i cs), w3. auto.
Qed.

(** After [pathbias_check_close] has returned 0 the circuit is counted or
    not as before, and a counted one is in state already_counted. *)
Lemma check_close_done w i c reason w' :
  origin_at w i c ->
  pathbias_check_close options ext i reason w = Some (0, w') ->
  exists c',
    origin_at w' i c'
    /\ (psc c').1 = (psc c).1
    /\ ((psc c).1 = true -> path_state c' = PATH_STATE_ALREADY_COUNTED).
Proof.
  intros H. unfold pathbias_check_close.
  rewrite (bind_run _ _ _ _ _ (run_call_pathbias_should_count _ _ _ H)).
  pose proof (origin_at_upd_circ w i c (psc c).2 H) as H1.
  destruct (psc c).1 eqn:Hc; cbn [negb].
  2:{ intros E. injection E as <-. exists (psc c).2.
      split; [exact H1|]. rewrite should_count_again. split; [exact Hc|].
      discriminate. }
  rewrite (bind_run _ _ _ _ _ (run_get_origin _ _ _ H1)).
  rewrite should_count_path_state.
  assert (Hfin : forall (wx : world D) cx,
            origin_at wx i cx -> (psc cx).1 = true ->
            bind (set_path_state_at i PATH_STATE_ALREADY_COUNTED)
              (fun _ => ret 0) wx = Some (0, w') ->
            exists c', origin_at w' i c'
                       /\ (psc c').1 = true
                       /\ (true = true ->
                           path_state c' = PATH_STATE_ALREADY_COUNTED)).
  { intros wx cx Hx Hcx. rewrite (run_already_counted _ _ _ Hx).
    intros E. inversion E; subst w'.
    eexists; split; [eapply origin_at_upd_circ, Hx|].
    split; [|reflexivity].
    rewrite <- Hcx. apply should_count_depends; reflexivity. }
  assert (Hc1 : (psc (psc c).2).1 = true)
    by (rewrite should_count_again; exact Hc).
  assert (Hc2 : (psc (psc (psc c).2).2).1 = true)
    by (rewrite !should_count_again; exact Hc).
  destruct (path_state c) eqn:Hps.
  - apply (Hfin _ _ H1 Hc1).
  - apply (Hfin _ _ H1 Hc1).
  - destruct (negb _).
    + rewrite (bind_run _ _ _ _ _ (run_pathbias_count_collapse _ _ _ H1)).
      apply (Hfin _ _ (origin_at_bumped _ _ _ _ H1) Hc2).
    + destruct (_ && _).
      * rewrite (bind_run _ _ _ _ _ (run_pathbias_count_collapse _ _ _ H1)).
        apply (Hfin _ _ (origin_at_bumped _ _ _ _ H1) Hc2).
      * rewrite (bind_run _ _ _ _ _
                   (run_pathbias_count_successful_close _ _ _ H1)).
        apply (Hfin _ _ (origin_at_bumped _ _ _ _ H1) Hc2).
  - destruct (cpath (psc c).2) eqn:Hcp.
    { rewrite (bind_crash _ _ _
                 (crash_pathbias_send_usable_probe _ _ _ H1 Hcp)).
      discriminate. }
    rewrite (bind_run _ _ _ _ _
               (run_pathbias_send_usable_probe _ _ _ H1
                  ltac:(rewrite Hcp; discriminate))).
    destruct (probe_outcome_circuit _ i (psc c).2 H1 Hc1)
      as (c' & H2 & Hc' & _).
    destruct (_ =? 0); [discriminate|].
    rewrite (bind_run _ _ _ _ _ (run_pathbias_count_use_failed _ _ _ H2)).
    apply (Hfin _ _ (origin_at_bumped _ _ _ _ H2)).
    rewrite should_count_again. exact Hc'.
  - rewrite (bind_run _ _ _ _ _
               (run_pathbias_count_successful_close _ _ _ H1)).
    pose proof (origin_at_bumped _ _ _
                  (fun g => set_successful_circuits_closed g
                     (d_add (successful_circuits_closed g) (d_of_int 1)))
                  H1) as H2.
    assert (Hs2 : path_state (psc (psc c).2).2 = PATH_STATE_USE_SUCCEEDED)
      by (rewrite !should_count_path_state; exact Hps).
    destruct (first_hop_digest (psc (psc c).2).2) as [d|] eqn:Hd.
    + rewrite (bind_run _ _ _ _ _
                 (run_pathbias_count_use_success _ _ _ d H2 Hd Hs2)).
      apply (Hfin _ _ (origin_at_bumped _ _ _ _ H2)).
      rewrite !should_count_again. exact Hc.
    + rewrite (bind_crash _ _ _
                 (crash_pathbias_count_use_success _ _ _ H2 Hc2 Hd Hs2)).
      discriminate.
  - rewrite (bind_run _ _ _ _ _ (run_pathbias_count_use_failed _ _ _ H1)).
    apply (Hfin _ _ (origin_at_bumped _ _ _ _ H1) Hc2).
  - apply (Hfin _ _ H1 Hc1).
Qed.

(** X6.  Close accounting is idempotent: once [pathbias_check_close] has
    returned 0 for a circuit, calling it again, for whatever reason,
    returns 0 again, changes no guard and makes no outside call. *)
Theorem pathbias_check_close_idempotent w i c reason w' reason' :
  origin_at w i c ->
  pathbias_check_close options ext i reason w = Some (0, w') ->
  exists w'',
    pathbias_check_close options ext i reason' w' = Some (0, w'')
    /\ entry_guards w'' = entry_guards w'
    /\ ext_calls w'' = ext_calls w'.
Proof.
  intros H Hrun.
  destruct (check_close_done w i c reason w' H Hrun) as (c' & H' & Hc' & Hps).
  unfold pathbias_check_close.
  rewrite (bind_run _ _ _ _ _ (run_call_pathbias_should_count _ _ _ H')).
  rewrite Hc'.
  destruct (psc c).1 eqn:Hc; cbn [negb];
    [|eexists; split; [reflexivity|]; split; reflexivity].
  pose proof (origin_at_upd_circ w' i c' (psc c').2 H') as H1.
  rewrite (bind_run _ _ _ _ _ (run_get_origin _ _ _ H1)).
  rewrite should_count_path_state, (Hps eq_refl).
  rewrite (run_already_counted _ _ _ H1).
  eexists; split; [reflexivity|]; split; reflexivity.
Qed.

(** X7.  [pathbias_scale_use_rates] leaves the guard alone unless
    [use_attempts] exceeds the use-scaling threshold.  Above it,
    [use_attempts] and [use_successes] are multiplied by the scale ratio,
    the guard's circuits in state use_attempted or use_succeeded being
    taken out of [use_attempts] before the multiplication and put back
    after it; no other counter and no flag changes. *)
Theorem pathbias_scale_use_rates_spec d g circs :
  (pathbias_scale_use_rates options get_param d g circs).1 =
    if d_ltb (d_of_int (pathbias_get_scale_use_threshold options get_param))
         (use_attempts g)
    then
      let ratio := pathbias_get_scale_ratio get_param in
      let opened :=
        open_circuits d PATH_STATE_USE_ATTEMPTED PATH_STATE_USE_SUCCEEDED
          circs in
      with_counters g
        (circ_attempts g) (circ_successes g) (successful_circuits_closed g)
        (collapsed_circuits g) (unusable_circuits g) (timeouts g)
        (d_add (d_mul (d_sub (use_attempts g) (d_of_int opened)) ratio)
           (d_of_int opened))
        (d_mul (use_successes g) ratio)
    else g.
Proof.
  unfold pathbias_scale_use_rates.
  destruct (d_ltb _ _); [|reflexivity].
  rewrite pathbias_count_circs_in_states_spec. reflexivity.
Qed.

(** X8.  [pathbias_measure_close_rate] changes no counter and never clears
    a flag; it never touches the two use flags.  It changes nothing at all
    while [circ_attempts] is not above the minimum number of circuits, and
    it disables the guard only when dropping guards is switched on. *)
Theorem pathbias_measure_close_rate_flags d g circs :
  counters (pathbias_measure_close_rate options get_param ext d g circs).1
  = counters g
  /\ (forall flag,
        In flag [path_bias_noticed; path_bias_warned; path_bias_extreme;
                 path_bias_use_noticed; path_bias_use_extreme;
                 path_bias_disabled] ->
        flag g = true ->
        flag (pathbias_measure_close_rate options get_param ext d g circs).1
        = true)
  /\ path_bias_use_noticed
       (pathbias_measure_close_rate options get_param ext d g circs).1
     = path_bias_use_noticed g
  /\ path_bias_use_extreme
       (pathbias_measure_close_rate options get_param ext d g circs).1
     = path_bias_use_extreme g
  /\ (d_ltb (d_of_int (pathbias_get_min_circs options get_param))
        (circ_attempts g) = false ->
      (pathbias_measure_close_rate options get_param ext d g circs).1 = g)
  /\ (pathbias_get_dropguards options get_param = 0 ->
      path_bias_disabled
        (pathbias_measure_close_rate options get_param ext d g circs).1
      = path_bias_disabled g
      /\ bad_since
           (pathbias_measure_close_rate options get_param ext d g circs).1
         = bad_since g).
Proof.
  split; [apply measure_close_rate_counters|].
  unfold pathbias_measure_close_rate.
  split; [|split; [|split; [|split]]].
  - intros flag Hin Hflag. cbn [In] in Hin.
    repeat match type of Hin with
           | _ \/ _ => destruct Hin as [<- | Hin]
           | False => destruct Hin
           end;
      split_rates; cbn; try exact Hflag; reflexivity.
  - split_rates; reflexivity.
  - split_rates; reflexivity.
  - intros ->. reflexivity.
  - intros ->. cbn [Z.eqb negb]. split; split_rates; reflexivity.
Qed.

(** X9.  [pathbias_measure_use_rate] changes no counter and never clears a
    flag; of the flags it can set only the two use flags and, when
    dropping guards is switched on, [path_bias_disabled].  It changes
    nothing at all while [use_attempts] is not above the minimum number of
    uses. *)
Theorem pathbias_measure_use_rate_flags d g circs :
  counters (pathbias_measure_use_rate options get_param ext d g circs).1
  = counters g
  /\ (forall flag,
        In flag [path_bias_noticed; path_bias_warned; path_bias_extreme;
                 path_bias_use_noticed; path_bias_use_extreme;
                 path_bias_disabled] ->
        flag g = true ->
        flag (pathbias_measure_use_rate options get_param ext d g circs).1
        = true)
  /\ (forall flag,
        In flag [path_bias_noticed; path_bias_warned; path_bias_extreme] ->
        flag (pathbias_measure_use_rate options get_param ext d g circs).1
        = flag g)
  /\ (d_ltb (d_of_int (pathbias_get_min_use options get_param))
        (use_attempts g) = false ->
      (pathbias_measure_use_rate options get_param ext d g circs).1 = g)
  /\ (pathbias_get_dropguards options get_param = 0 ->
      path_bias_disabled
        (pathbias_measure_use_rate options get_param ext d g circs).1
      = path_bias_disabled g
      /\ bad_since
           (pathbias_measure_use_rate options get_param ext d g circs).1
         = bad_since g).
Proof.
  split; [apply measure_use_rate_counters|].
  unfold pathbias_measure_use_rate.
  split; [|split; [|split]].
  - intros flag Hin Hflag. cbn [In] in Hin.
    repeat match type of Hin with
           | _ \/ _ => destruct Hin as [<- | Hin]
           | False => destruct Hin
           end;
      split_rates; cbn; try exact Hflag; reflexivity.
  - intros flag Hin. cbn [In] in Hin.
    repeat match type of Hin with
           | _ \/ _ => destruct Hin as [<- | Hin]
           | False => destruct Hin
           end;
      split_rates; reflexivity.
  - intros ->. reflexivity.
  - intros ->. cbn [Z.eqb negb]. split; split_rates; reflexivity.
Qed.

(** [entry_guard_inc_circ_attempt_count] returns 0 or -1 and changes
    nothing in the circuit list but cached answers. *)
Lemma entry_guard_inc_circ_attempt_count_same d g circs :
  let r := entry_guard_inc_circ_attempt_count options get_param ext d g circs in
  same_circuits circs r.2 /\ (r.1.1 = 0 \/ r.1.1 = -1).
Proof.
  cbv zeta. rewrite entry_guard_inc_circ_attempt_count_spec. cbv zeta.
  destruct (path_bias_disabled _); cbn [fst snd].
  - split; [apply measure_close_rate_same|right; reflexivity].
  - split; [|left; reflexivity].
    eapply same_circuits_trans;
      [apply measure_close_rate_same|apply scale_close_rates_same].
Qed.

(** [pathbias_count_build_attempt] always returns, 0 or
    -END_CIRC_REASON_TORPROTOCOL, and 0 unless the second hop awaits its
    keys; it leaves the path of the circuit alone, sends no relay cell and
    marks no circuit for close. *)
Lemma pathbias_count_build_attempt_keeps w i c :
  origin_at w i c ->
  exists r w' c',
    pathbias_count_build_attempt options get_param ext i w = Some (r, w')
    /\ origin_at w' i c'
    /\ cpath c' = cpath c
    /\ (r = 0 \/ r = - END_CIRC_REASON_TORPROTOCOL)
    /\ (pathbias_is_new_circ_attempt c = false -> r = 0)
    /\ ext_calls w' = ext_calls w.
Proof.
  intros H. unfold pathbias_count_build_attempt.
  rewrite (bind_run _ _ _ _ _ (run_call_pathbias_should_count _ _ _ H)).
  pose proof (origin_at_upd_circ w i c (psc c).2 H) as H1.
  assert (Hcp : cpath (psc c).2 = cpath c)
    by (rewrite should_count_cache; reflexivity).
  assert (Hnew : pathbias_is_new_circ_attempt (psc c).2
                 = pathbias_is_new_circ_attempt c)
    by (unfold pathbias_is_new_circ_attempt; rewrite Hcp; reflexivity).
  assert (Hdone : exists r w' c',
             ret 0 (upd_circ w i (psc c).2) = Some (r, w')
             /\ origin_at w' i c'
             /\ cpath c' = cpath c
             /\ (r = 0 \/ r = - END_CIRC_REASON_TORPROTOCOL)
             /\ (pathbias_is_new_circ_attempt c = false -> r = 0)
             /\ ext_calls w' = ext_calls w).
  { eexists 0, _, _. split; [reflexivity|]. split; [exact H1|].
    split; [exact Hcp|]. split; [left; reflexivity|].
    split; reflexivity. }
  destruct (psc c).1; cbn [negb]; [|exact Hdone].
  rewrite (bind_run _ _ _ _ _ (run_get_origin _ _ _ H1)).
  rewrite Hnew.
  destruct (pathbias_is_new_circ_attempt c); [|exact Hdone].
  destruct (negb (has_opened (psc c).2)); [|exact Hdone].
  set (w1 := upd_circ w i (psc c).2) in *.
  assert (Hguard : forall d,
             exists r w' c',
               match entry_guards w1 !! d with
               | Some _ =>
                   (if path_state_eqb (path_state (psc c).2)
                         PATH_STATE_NEW_CIRC
                    then
                      let* _ := set_path_state_at i
                                  PATH_STATE_BUILD_ATTEMPTED in
                      let* r := on_guard d
                                  (entry_guard_inc_circ_attempt_count options
                                     get_param ext d) in
                      if r <? 0 then ret (- END_CIRC_REASON_TORPROTOCOL)
                      else ret 0
                    else ret 0) w1
               | None => ret 0 w1
               end = Some (r, w')
               /\ origin_at w' i c'
               /\ cpath c' = cpath c
               /\ (r = 0 \/ r = - END_CIRC_REASON_TORPROTOCOL)
               /\ ext_calls w' = ext_calls w).
  { intros d. destruct (entry_guards w1 !! d) as [g|] eqn:Hg.
    2: { eexists 0, _, _. split; [reflexivity|]. split; [exact H1|].
         split; [exact Hcp|]. split; [left; reflexivity|reflexivity]. }
    destruct (path_state_eqb _ _).
    2: { eexists 0, _, _. split; [reflexivity|]. split; [exact H1|].
         split; [exact Hcp|]. split; [left; reflexivity|reflexivity]. }
    rewrite (bind_run _ _ _ _ _ (run_set_path_state_at _ _ _ _ H1)).
    set (c2 := set_path_state (psc c).2 PATH_STATE_BUILD_ATTEMPTED).
    set (w2 := upd_circ w1 i c2).
    assert (H2 : origin_at w2 i c2) by (eapply origin_at_upd_circ, H1).
    rewrite (bind_run _ _ _ _ _
               (run_on_guard w2 d g _ ltac:(exact Hg))).
    destruct (entry_guard_inc_circ_attempt_count_same d g
                (global_circuitlist w2)) as [Hs Hr].
    destruct (same_circuits_lookup _ _ i c2 Hs H2) as (c3 & Hc3 & Ec3).
    assert (Hcp3 : cpath c3 = cpath c).
    { pose proof (f_equal cpath Ec3) as E. cbn in E. rewrite E.
      exact Hcp. }
    destruct Hr as [-> | ->]; cbn [Z.ltb Z.compare].
    - eexists 0, _, c3. split; [reflexivity|]. split; [exact Hc3|].
      split; [exact Hcp3|]. split; [left; reflexivity|reflexivity].
    - eexists _, _, c3. split; [reflexivity|]. split; [exact Hc3|].
      split; [exact Hcp3|]. split; [right; reflexivity|reflexivity]. }
  assert (Hweak : forall (m : option (Z * world D)),
             (exists r w' c',
                 m = Some (r, w') /\ origin_at w' i c'
                 /\ cpath c' = cpath c
                 /\ (r = 0 \/ r = - END_CIRC_REASON_TORPROTOCOL)
                 /\ ext_calls w' = ext_calls w)
             -> exists r w' c',
                 m = Some (r, w') /\ origin_at w' i c'
                 /\ cpath c' = cpath c
                 /\ (r = 0 \/ r = - END_CIRC_REASON_TORPROTOCOL)
                 /\ (true = false -> r = 0)
                 /\ ext_calls w' = ext_calls w).
  { intros m (r & w' & c' & Hm & Ho & Hc & Hr & He).
    exists r, w', c'. repeat split; try assumption. discriminate. }
  apply Hweak.
  destruct (first_hop_digest (psc c).2) as [d|].
  - rewrite (bind_run _ _ _ _ _
               (bind_run _ _ _ _ _ (run_entry_guard_get_by_id_digest _ d))).
    specialize (Hguard d).
    destruct (entry_guards w1 !! d); exact Hguard.
  - destruct (n_chan (psc c).2) as [chan|].
    + rewrite (bind_run _ _ _ _ _
                 (bind_run _ _ _ _ _
                    (run_entry_guard_get_by_id_digest _
                       (chan_identity_digest chan)))).
      specialize (Hguard (chan_identity_digest chan)).
      destruct (entry_guards w1 !! chan_identity_digest chan); exact Hguard.
    + eexists 0, _, _. split; [reflexivity|]. split; [exact H1|].
      split; [exact Hcp|]. split; [left; reflexivity|reflexivity].
Qed.

(** [pathbias_count_build_success] always returns; of the circuit it
    changes nothing but the path state and the cached answer, and it
    sends no relay cell and marks no circuit for close. *)
Lemma pathbias_count_build_success_keeps w i c :
  origin_at w i c ->
  exists w' c',
    pathbias_count_build_success options i w = Some (tt, w')
    /\ origin_at w' i c'
    /\ cpath c' = cpath c
    /\ has_opened c' = has_opened c
    /\ purpose c' = purpose c
    /\ build_state c' = build_state c
    /\ ext_calls w' = ext_calls w.
Proof.
  intros H. unfold pathbias_count_build_success.
  rewrite (bind_run _ _ _ _ _ (run_call_pathbias_should_count _ _ _ H)).
  pose proof (origin_at_upd_circ w i c (psc c).2 H) as H1.
  assert (Hidle : exists w' c',
             ret tt (upd_circ w i (psc c).2) = Some (tt, w')
             /\ origin_at w' i c'
             /\ cpath c' = cpath c
             /\ has_opened c' = has_opened c
             /\ purpose c' = purpose c
             /\ build_state c' = build_state c
             /\ ext_calls w' = ext_calls w).
  { eexists _, _. split; [reflexivity|]. split; [exact H1|].
    rewrite should_count_cache. repeat split. }
  destruct (psc c).1; cbn [negb]; [|exact Hidle].
  rewrite (bind_run _ _ _ _ _ (run_get_origin _ _ _ H1)).
  destruct (negb (has_opened (psc c).2)); [|exact Hidle].
  rewrite (bind_run _ _ _ _ _ (run_guard_of_first_hop _ _ _ H1)).
  rewrite entry_guards_upd_circ.
  destruct (first_hop_digest (psc c).2) as [d|]; [|exact Hidle].
  destruct (entry_guards w !! d) as [g|] eqn:Hg; [|exact Hidle].
  destruct (path_state_eqb _ _); [|exact Hidle].
  rewrite (bind_run _ _ _ _ _ (run_set_path_state_at _ _ _ _ H1)).
  rewrite upd_circ_twice.
  rewrite (run_on_guard _ d g) by exact Hg.
  eexists _, _. split; [reflexivity|].
  split; [apply (origin_at_upd_circ w i c _ H)|].
  rewrite should_count_cache. repeat split.
Qed.

(** *** The circuit whose attempt is being counted *)

(** [pathbias_count_build_attempt] on a fresh attempt through a known
    guard: the circuit is put in state build_attempted first, and the
    guard is measured and scaled against the circuit list as it then
    is. *)
Lemma run_pathbias_count_build_attempt w i c h1 h2 rest d g :
  origin_at w i c ->
  (psc c).1 = true ->
  cpath c = h1 :: h2 :: rest ->
  hop_state h2 = CPATH_STATE_AWAITING_KEYS ->
  has_opened c = false ->
  path_state c = PATH_STATE_NEW_CIRC ->
  first_hop_digest c = Some d ->
  entry_guards w !! d = Some g ->
  let w1 := upd_circ w i
              (set_path_state (psc c).2 PATH_STATE_BUILD_ATTEMPTED) in
  let measured :=
    pathbias_measure_close_rate options get_param ext d g
      (global_circuitlist w1) in
  let scaled :=
    pathbias_scale_close_rates options get_param d measured.1 measured.2 in
  pathbias_count_build_attempt options get_param ext i w =
    if path_bias_disabled measured.1
    then Some (- END_CIRC_REASON_TORPROTOCOL,
               mk_world measured.2 (<[d := measured.1]> (entry_guards w))
                 (ext_calls w))
    else Some (0,
               mk_world scaled.2
                 (<[d := inc_circ_attempts scaled.1]> (entry_guards w))
                 (ext_calls w)).
Proof.
  intros H Hc Hcp Hh2 Hop Hps Hd Hg w1 measured scaled.
  unfold pathbias_count_build_attempt.
  rewrite (bind_run _ _ _ _ _ (run_call_pathbias_should_count _ _ _ H)).
  rewrite Hc. cbn [negb].
  pose proof (origin_at_upd_circ w i c (psc c).2 H) as H1.
  rewrite (bind_run _ _ _ _ _ (run_get_origin _ _ _ H1)).
  unfold pathbias_is_new_circ_attempt.
  rewrite should_count_first_hop, should_count_path_state, Hd, Hps.
  replace (cpath (psc c).2) with (cpath c)
    by (rewrite should_count_cache; reflexivity).
  replace (has_opened (psc c).2) with (has_opened c)
    by (rewrite should_count_cache; reflexivity).
  rewrite Hcp, Hh2, Hop. cbn [cpath_state_eqb negb].
  rewrite (bind_run _ _ _ _ _
             (bind_run _ _ _ _ _ (run_entry_guard_get_by_id_digest _ d))).
  rewrite entry_guards_upd_circ, Hg.
  change (ret (Some d) (upd_circ w i (psc c).2))
    with (Some (Some d, upd_circ w i (psc c).2)).
  cbv beta iota.
  change (path_state_eqb PATH_STATE_NEW_CIRC PATH_STATE_NEW_CIRC) with true.
  cbv iota.
  rewrite (bind_run _ _ _ _ _ (run_set_path_state_at _ _ _ _ H1)).
  rewrite upd_circ_twice. fold w1.
  rewrite (bind_run _ _ _ _ _
             (run_on_guard w1 d g _ ltac:(exact Hg))).
  rewrite entry_guard_inc_circ_attempt_count_spec. cbv zeta.
  fold measured. fold scaled.
  destruct (path_bias_disabled measured.1); reflexivity.
Qed.

(** The circuit just put in state build_attempted is one of the guard's
    circuits in that state, unless it is marked for close. *)
Lemma attempted_counts_as_open c d :
  (psc c).1 = true -> marked_for_close c = 0 ->
  first_hop_digest c = Some d ->
  counts_as_open d PATH_STATE_BUILD_ATTEMPTED PATH_STATE_BUILD_ATTEMPTED
    (OriginCircuit (set_path_state (psc c).2 PATH_STATE_BUILD_ATTEMPTED))
  = true.
Proof.
  intros Hc Hm Hd. unfold counts_as_open.
  rewrite (should_count_depends c)
    by (rewrite should_count_cache; reflexivity).
  rewrite Hc, should_count_cache.
  cbn [marked_for_close path_state set_path_state set_pathbias_shouldcount].
  rewrite Hm.
  replace (first_hop_digest _) with (first_hop_digest c) by reflexivity.
  rewrite Hd, bool_decide_eq_true_2 by reflexivity. reflexivity.
Qed.

Lemma open_circuits_lookup d from to circs i e :
  circs !! i = Some e -> counts_as_open d from to e = true ->
  1 <= open_circuits d from to circs.
Proof.
  unfold open_circuits. revert i.
  induction circs as [|e' circs IH]; intros [|i] Hi He; try discriminate.
  - injection Hi as ->. cbn [List.filter]. rewrite He. cbn [length]. lia.
  - specialize (IH i Hi He). cbn [List.filter].
    destruct (counts_as_open d from to e'); cbn [length]; lia.
Qed.

(** The guard's open circuits are those whose build is attempted and
    those from build_succeeded to use_failed. *)
Lemma open_circuits_split d circs :
  open_circuits d PATH_STATE_BUILD_ATTEMPTED PATH_STATE_USE_FAILED circs
  = open_circuits d PATH_STATE_BUILD_ATTEMPTED PATH_STATE_BUILD_ATTEMPTED
      circs
    + open_circuits d PATH_STATE_BUILD_SUCCEEDED PATH_STATE_USE_FAILED circs.
Proof.
  unfold open_circuits.
  induction circs as [|e circs IH]; [reflexivity|].
  cbn [List.filter].
  assert (He : counts_as_open d PATH_STATE_BUILD_ATTEMPTED
                 PATH_STATE_USE_FAILED e
               = counts_as_open d PATH_STATE_BUILD_ATTEMPTED
                   PATH_STATE_BUILD_ATTEMPTED e
                 || counts_as_open d PATH_STATE_BUILD_SUCCEEDED
                      PATH_STATE_USE_FAILED e
               /\ counts_as_open d PATH_STATE_BUILD_ATTEMPTED
                    PATH_STATE_BUILD_ATTEMPTED e
                  && counts_as_open d PATH_STATE_BUILD_SUCCEEDED
                       PATH_STATE_USE_FAILED e = false).
  { destruct e as [c|]; [|split; reflexivity]. unfold counts_as_open.
    destruct (marked_for_close c =? 0), (psc c).1,
      (bool_decide (first_hop_digest c = Some d)), (path_state c);
      split; reflexivity. }
  destruct He as [-> Hex].
  destruct (counts_as_open d PATH_STATE_BUILD_ATTEMPTED
              PATH_STATE_BUILD_ATTEMPTED e),
    (counts_as_open d PATH_STATE_BUILD_SUCCEEDED PATH_STATE_USE_FAILED e);
    try discriminate Hex; cbn [orb length]; lia.
Qed.

(** A counted attempt on a guard above the scale threshold: the guard is
    scaled with the circuit that triggers the attempt among its open
    circuits, and then gets the attempt added. *)
Lemma count_build_attempt_scales w i c h1 h2 rest d g :
  origin_at w i c ->
  (psc c).1 = true ->
  cpath c = h1 :: h2 :: rest ->
  hop_state h2 = CPATH_STATE_AWAITING_KEYS ->
  has_opened c = false ->
  path_state c = PATH_STATE_NEW_CIRC ->
  marked_for_close c = 0 ->
  first_hop_digest c = Some d ->
  entry_guards w !! d = Some g ->
  let circs :=
    global_circuitlist
      (upd_circ w i (set_path_state (psc c).2 PATH_STATE_BUILD_ATTEMPTED)) in
  let measured :=
    (pathbias_measure_close_rate options get_param ext d g circs).1 in
  path_bias_disabled measured = false ->
  d_ltb (d_of_int (pathbias_get_scale_threshold options get_param))
    (circ_attempts g) = true ->
  let ratio := pathbias_get_scale_ratio get_param in
  let opened_attempts :=
    open_circuits d PATH_STATE_BUILD_ATTEMPTED PATH_STATE_BUILD_ATTEMPTED
      circs in
  let opened_built :=
    open_circuits d PATH_STATE_BUILD_SUCCEEDED PATH_STATE_USE_FAILED circs in
  1 <= opened_attempts
  /\ exists w',
       pathbias_count_build_attempt options get_param ext i w = Some (0, w')
       /\ entry_guards w' =
          <[d := with_counters measured
                   (d_add
                      (d_add (d_mul (d_sub (circ_attempts g)
                                       (d_of_int
                                          (opened_attempts + opened_built)))
                                ratio)
                         (d_of_int (opened_attempts + opened_built)))
                      (d_of_int 1))
                   (d_add (d_mul (d_sub (circ_successes g)
                                    (d_of_int opened_built)) ratio)
                      (d_of_int opened_built))
                   (d_mul (successful_circuits_closed g) ratio)
                   (d_mul (collapsed_circuits g) ratio)
                   (d_mul (unusable_circuits g) ratio)
                   (d_mul (timeouts g) ratio)
                   (use_attempts g) (use_successes g)]> (entry_guards w).
Proof.
  intros H Hc Hcp Hh2 Hop Hps Hm Hd Hg circs measured Hdis Hgt ratio
    opened_attempts opened_built.
  split.
  { apply (open_circuits_lookup d _ _ circs i
             (OriginCircuit
                (set_path_state (psc c).2 PATH_STATE_BUILD_ATTEMPTED))).
    - apply (origin_at_upd_circ w i c _ H).
    - apply attempted_counts_as_open; assumption. }
  rewrite (run_pathbias_count_build_attempt w i c h1 h2 rest d g H Hc Hcp Hh2
             Hop Hps Hd Hg).
  cbv zeta. fold circs. fold measured. rewrite Hdis.
  eexists. split; [reflexivity|]. cbn [entry_guards]. f_equal.
  rewrite scale_close_rates_spec.
  pose proof (measure_close_rate_counters d g circs) as Hcnt.
  fold measured in Hcnt. unfold counters in Hcnt.
  injection Hcnt as E1 E2 E3 E4 E5 E6 E7 E8.
  rewrite E1, E2, E3, E4, E5, E6, E7, E8, Hgt. cbv zeta.
  rewrite <- !(open_circuits_same _ _ _ _ _
                 (measure_close_rate_same d g circs)).
  reflexivity.
Qed.

End Facts.
End PathBiasFacts.

(** ** Binary64: the quotient of two small integers *)

(** The consensus parameters behind the scale ratio are C [int]s that are
    converted to [double] and divided.  The facts below follow the
    rounding of that division through the specification of binary64 in
    [SpecFloat]. *)
Module Binary64.
Import Stdlib.Floats.Floats.

Lemma digits2_pos_spec p :
  2 ^ (Zpos (digits2_pos p) - 1) <= Zpos p < 2 ^ Zpos (digits2_pos p).
Proof.
  induction p as [p IH|p IH|]; cbn [digits2_pos].
  - rewrite Pos2Z.inj_succ.
    replace (Z.succ (Zpos (digits2_pos p)) - 1)
      with (Z.succ (Zpos (digits2_pos p) - 1)) by lia.
    rewrite !Z.pow_succ_r by lia. lia.
  - rewrite Pos2Z.inj_succ.
    replace (Z.succ (Zpos (digits2_pos p)) - 1)
      with (Z.succ (Zpos (digits2_pos p) - 1)) by lia.
    rewrite !Z.pow_succ_r by lia. lia.
  - cbn. lia.
Qed.

Lemma digits2_pos_unique p k :
  2 ^ (k - 1) <= Zpos p < 2 ^ k -> Zpos (digits2_pos p) = k.
Proof.
  intros [Hlo Hhi]. pose proof (digits2_pos_spec p) as [Hlo' Hhi'].
  assert (Hk : 0 < k).
  { destruct (Z.ltb_spec 0 k) as [|Hk0]; [assumption|].
    exfalso. 
    destruct (Z.eqb_spec k 0) as [->|Hne].
    - cbn in Hhi. lia.
    - rewrite (Z.pow_neg_r 2 k) in Hhi by lia. lia. }
  destruct (Z.lt_trichotomy (Zpos (digits2_pos p)) k) as [Hlt|[Heq|Hgt]];
    [|exact Heq|].
  - exfalso.
    assert (2 ^ Zpos (digits2_pos p) <= 2 ^ (k - 1))
      by (apply Z.pow_le_mono_r; lia).
    lia.
  - exfalso.
    assert (2 ^ k <= 2 ^ (Zpos (digits2_pos p) - 1))
      by (apply Z.pow_le_mono_r; lia).
    lia.
Qed.

Lemma iter_xO_val d : forall p, Zpos (Pos.iter xO p d) = Zpos p * 2 ^ Zpos d.
Proof.
  induction d as [|d IH] using Pos.peano_ind; intros p.
  - cbn. lia.
  - rewrite Pos.iter_succ, Pos2Z.inj_succ, Z.pow_succ_r by lia.
    specialize (IH p). lia.
Qed.

Lemma fexp_normal x : -1021 <= x -> fexp prec emax x = x - 53.
Proof. intros H. unfold fexp, emin, prec, emax. lia. Qed.

Lemma Zdigits2_53 m : 2 ^ 52 <= Zpos m < 2 ^ 53 -> Zdigits2 (Zpos m) = 53.
Proof. intros H. cbn [Zdigits2]. apply digits2_pos_unique. exact H. Qed.

Lemma Zdigits2_54 m : 2 ^ 53 <= Zpos m < 2 ^ 54 -> Zdigits2 (Zpos m) = 54.
Proof. intros H. cbn [Zdigits2]. apply digits2_pos_unique. exact H. Qed.

(** A mantissa of 53 bits needs no shift. *)
Lemma shr_fexp_53 m e l :
  2 ^ 52 <= Zpos m < 2 ^ 53 -> -1074 <= e ->
  shr_fexp prec emax (Zpos m) e l = (shr_record_of_loc (Zpos m) l, e).
Proof.
  intros Hm He. unfold shr_fexp. rewrite (Zdigits2_53 m Hm).
  rewrite fexp_normal by lia.
  replace (53 + e - 53 - e) with 0 by lia. reflexivity.
Qed.

(** A mantissa of 54 bits is shifted by one. *)
Lemma shr_fexp_54 m e l :
  2 ^ 53 <= Zpos m < 2 ^ 54 -> -1074 <= e ->
  shr_fexp prec emax (Zpos m) e l
  = (shr_1 (shr_record_of_loc (Zpos m) l), e + 1).
Proof.
  intros Hm He. unfold shr_fexp. rewrite (Zdigits2_54 m Hm).
  rewrite fexp_normal by lia.
  replace (54 + e - 53 - e) with 1 by lia. reflexivity.
Qed.

Lemma binary_round_aux_exact m e :
  2 ^ 52 <= Zpos m < 2 ^ 53 -> -1074 <= e <= 971 ->
  binary_round_aux prec emax false (Zpos m) e loc_Exact
  = S754_finite false m e.
Proof.
  intros Hm He. unfold binary_round_aux.
  rewrite (shr_fexp_53 m e loc_Exact Hm) by lia.
  cbn [shr_record_of_loc shr_m loc_of_shr_record round_nearest_even].
  rewrite (shr_fexp_53 m e loc_Exact Hm) by lia.
  cbn [shr_record_of_loc shr_m].
  replace (e <=? emax - prec) with true; [reflexivity|].
  symmetry. apply Z.leb_le. unfold emax, prec. lia.
Qed.

(** A positive integer below 2^53 as a binary64 number: the mantissa is
    the integer shifted to 53 bits. *)
Lemma normalize_small z :
  1 <= z < 2 ^ 53 ->
  exists m e,
    binary_normalize prec emax z 0 false = S754_finite false m e
    /\ 2 ^ 52 <= Zpos m < 2 ^ 53
    /\ -52 <= e <= 0
    /\ Zpos m = z * 2 ^ (- e).
Proof.
  intros Hz. destruct z as [|p|p]; try lia.
  cbn [binary_normalize]. unfold binary_round.
  pose proof (digits2_pos_spec p) as Hd.
  set (dg := Zpos (digits2_pos p)) in *.
  assert (Hdg : 1 <= dg <= 53).
  { split; [unfold dg; lia|].
    destruct (Z.leb_spec dg 53) as [|Hgt]; [assumption|]. exfalso.
    assert (2 ^ 53 <= 2 ^ (dg - 1)) by (apply Z.pow_le_mono_r; lia). lia. }
  rewrite fexp_normal by lia. unfold shl_align.
  replace (dg + 0 - 53 - 0) with (dg - 53) by lia.
  destruct (dg - 53) as [|q|q] eqn:Hq; try lia.
  - assert (Hp : 2 ^ 52 <= Zpos p < 2 ^ 53).
    { replace (dg - 1) with 52 in Hd by lia. lia. }
    rewrite (binary_round_aux_exact p 0 Hp) by lia.
    exists p, 0. split; [reflexivity|]. split; [exact Hp|].
    split; [lia|]. cbn. lia.
  - assert (Hp : 2 ^ 52 <= Zpos (Pos.iter xO p q) < 2 ^ 53).
    { rewrite iter_xO_val.
      assert (E52 : 2 ^ 52 = 2 ^ (dg - 1) * 2 ^ Zpos q)
        by (rewrite <- Z.pow_add_r by lia; f_equal; lia).
      assert (E53 : 2 ^ 53 = 2 ^ dg * 2 ^ Zpos q)
        by (rewrite <- Z.pow_add_r by lia; f_equal; lia).
      rewrite E52, E53.
      assert (0 < 2 ^ Zpos q) by (apply Z.pow_pos_nonneg; lia).
      nia. }
    pose proof (binary_round_aux_exact _ (dg + 0 - 53) Hp ltac:(lia)) as E.
    eexists _, _. split; [exact E|]. split; [exact Hp|].
    split; [lia|]. rewrite iter_xO_val. do 2 f_equal. lia.
Qed.

Lemma shr_m_of_loc m l : shr_m (shr_record_of_loc m l) = m.
Proof. destruct l as [|[]]; reflexivity. Qed.

Lemma loc_of_record_of_loc m l :
  loc_of_shr_record (shr_record_of_loc m l) = l.
Proof. destruct l as [|[]]; reflexivity. Qed.

Lemma round_nearest_even_cases m l :
  round_nearest_even m l = m \/ round_nearest_even m l = m + 1.
Proof.
  destruct l as [|[]]; cbn [round_nearest_even]; auto.
  destruct (Z.even m); auto.
Qed.

(** One shift to the right halves a mantissa of at least two. *)
Lemma shr_1_halves p l :
  2 <= Zpos p ->
  exists p',
    shr_m (shr_1 (shr_record_of_loc (Zpos p) l)) = Zpos p'
    /\ 2 * Zpos p' <= Zpos p <= 2 * Zpos p' + 1.
Proof.
  intros Hp. destruct p as [p|p|]; [| |lia].
  - exists p. destruct l as [|[]]; cbn; lia.
  - exists p. destruct l as [|[]]; cbn; lia.
Qed.

(** The end of [binary_round_aux]: a mantissa of 53 bits is rounded and
    shifted once more when the rounding carries into bit 54. *)
Lemma round_finish p0 e0 l0 :
  2 ^ 52 <= Zpos p0 < 2 ^ 53 -> -1074 <= e0 <= 0 ->
  exists mz ez,
    (let '(mrs, e) :=
       shr_fexp prec emax (round_nearest_even (Zpos p0) l0) e0 loc_Exact in
     match shr_m mrs with
     | Z0 => S754_zero false
     | Zpos m => if e <=? emax - prec then S754_finite false m e
                 else S754_infinity false
     | Zneg _ => S754_nan
     end) = S754_finite false mz ez
    /\ ((ez = e0 /\ Zpos mz = round_nearest_even (Zpos p0) l0)
        \/ (ez = e0 + 1 /\ Zpos mz = 2 ^ 52)).
Proof.
  intros Hp He.
  assert (Hle : forall e, e <= 1 -> (e <=? emax - prec) = true)
    by (intros e H; apply Z.leb_le; unfold emax, prec; lia).
  destruct (Z.eq_dec (round_nearest_even (Zpos p0) l0) (2 ^ 53)) as [E|E].
  - rewrite E. change (2 ^ 53) with (Zpos (2 ^ 53)%positive).
    rewrite shr_fexp_54 by (cbn; lia). cbn [shr_record_of_loc shr_1 shr_m].
    rewrite Hle by lia.
    eexists _, _. split; [reflexivity|]. right. split; reflexivity.
  - assert (Hr : exists p1, round_nearest_even (Zpos p0) l0 = Zpos p1
                            /\ 2 ^ 52 <= Zpos p1 < 2 ^ 53).
    { destruct (round_nearest_even_cases (Zpos p0) l0) as [Er|Er].
      - exists p0. split; [exact Er | exact Hp].
      - exists (p0 + 1)%positive. rewrite Er in *.
        split; [reflexivity|]. rewrite Pos2Z.inj_add. lia. }
    destruct Hr as (p1 & Er & Hp1). rewrite Er.
    rewrite shr_fexp_53 by (assumption || lia).
    cbn [shr_record_of_loc shr_m]. rewrite Hle by lia.
    exists p1, e0. split; [reflexivity|]. left. split; reflexivity.
Qed.

Lemma new_location_zero n : new_location n 0 = loc_Exact.
Proof.
  unfold new_location, new_location_even, new_location_odd.
  destruct (Z.even n); reflexivity.
Qed.

(** The quotient of two 53-bit mantissas, the first no greater than the
    second in value, is at most one. *)
Lemma SFdiv_le_one mx ex my ey :
  2 ^ 52 <= Zpos mx < 2 ^ 53 -> 2 ^ 52 <= Zpos my < 2 ^ 53 ->
  -52 <= ex <= 0 -> -52 <= ey <= 0 ->
  ex < ey \/ (ex = ey /\ Zpos mx <= Zpos my) ->
  exists mz ez,
    SFdiv prec emax (S754_finite false mx ex) (S754_finite false my ey)
    = S754_finite false mz ez
    /\ (ez < -52 \/ (ez = -52 /\ Zpos mz = 2 ^ 52)).
Proof.
  intros Hmx Hmy Hex Hey Hord.
  cbn [SFdiv xorb]. unfold SFdiv_core_binary.
  rewrite (Zdigits2_53 mx Hmx), (Zdigits2_53 my Hmy).
  rewrite fexp_normal by lia. rewrite Z.min_l by lia.
  replace (ex - ey - (53 + ex - (53 + ey) - 53)) with 53 by lia.
  cbv iota. rewrite Z.shiftl_mul_pow2 by lia.
  replace (53 + ex - (53 + ey) - 53) with (ex - ey - 53) by lia.
  pose proof (Z.div_eucl_eq (Zpos mx * 2 ^ 53) (Zpos my) ltac:(lia)) as Hdm.
  pose proof (Z.mod_pos_bound (Zpos mx * 2 ^ 53) (Zpos my) ltac:(lia)) as Hr.
  unfold Z.modulo in Hr.
  destruct (Z.div_eucl (Zpos mx * 2 ^ 53) (Zpos my)) as [q r].
  assert (Hq : 2 ^ 52 <= q < 2 ^ 54) by nia.
  destruct q as [|qp|qp]; try lia.
  unfold binary_round_aux.
  destruct (Z.ltb_spec (Zpos qp) (2 ^ 53)) as [Hlt|Hge].
  - (* 53 bits: no shift *)
    rewrite shr_fexp_53 by lia.
    rewrite shr_m_of_loc, loc_of_record_of_loc.
    destruct (round_finish qp (ex - ey - 53) (new_location (Zpos my) r)
                ltac:(lia) ltac:(lia))
      as (mz & ez & -> & Hz).
    exists mz, ez. split; [reflexivity|].
    destruct Hz as [[-> _]|[-> Hm]]; [left; lia|].
    destruct (Z.eq_dec ex ey); [right; split; [lia|exact Hm] | left; lia].
  - (* 54 bits: one shift *)
    rewrite shr_fexp_54 by lia.
    destruct Hord as [Hord|[-> Hle]].
    + destruct (shr_1_halves qp (new_location (Zpos my) r) ltac:(lia))
        as (p0 & Ep0 & Hp0).
      rewrite Ep0.
      destruct (round_finish p0 (ex - ey - 53 + 1)
                  (loc_of_shr_record
                     (shr_1 (shr_record_of_loc (Zpos qp)
                               (new_location (Zpos my) r))))
                  ltac:(lia) ltac:(lia))
        as (mz & ez & -> & Hz).
      exists mz, ez. split; [reflexivity|].
      destruct Hz as [[-> _]|[-> Hm]]; [left; lia|].
      destruct (Z.eq_dec (ex + 1) ey); [right; split; [lia|exact Hm] | left; lia].
    + (* equal exponents: the mantissas are equal and the quotient is one *)
      assert (Emx : Zpos mx = Zpos my) by nia.
      assert (Eq : Zpos qp = 2 ^ 53 /\ r = 0) by nia.
      destruct Eq as [Eq ->].
      assert (Eqp : qp = 9007199254740992%positive) by lia. subst qp.
      rewrite new_location_zero.
      cbn [shr_record_of_loc shr_1 loc_of_shr_record shr_m round_nearest_even
           orb].
      rewrite shr_fexp_53 by lia.
      cbn [shr_record_of_loc shr_m].
      replace (ey - ey - 53 + 1 <=? emax - prec) with true
        by (symmetry; apply Z.leb_le; unfold emax, prec; lia).
      eexists _, _. split; [reflexivity|]. right. split; [lia|reflexivity].
Qed.

Lemma float_of_nat_spec z :
  1 <= z < 2 ^ 53 ->
  Prim2SF (of_uint63 (Uint63.of_Z z)) = binary_normalize prec emax z 0 false.
Proof.
  intros Hz. rewrite of_uint63_spec. f_equal.
  rewrite Uint63.of_Z_spec. apply Z.mod_small.
  assert (Hw : 2 ^ 53 < wB) by (vm_compute; reflexivity). lia.
Qed.

(** The quotient of two integers [1 <= m <= d < 2^53], computed in
    binary64, lies in (0, 1]. *)
Theorem div_of_ints_range m d :
  1 <= m -> m <= d -> d < 2 ^ 53 ->
  let r := (of_uint63 (Uint63.of_Z m) / of_uint63 (Uint63.of_Z d))%float in
  (0 <? r)%float = true /\ (r <=? 1)%float = true.
Proof.
  intros Hm Hmd Hd r. subst r.
  rewrite ltb_spec, leb_spec, div_spec.
  rewrite !float_of_nat_spec by lia.
  destruct (normalize_small m ltac:(lia)) as (mm & em & -> & Hmm & Hem & Em).
  destruct (normalize_small d ltac:(lia)) as (md & ed & -> & Hmd' & Hed & Ed).
  assert (Hord : em < ed \/ (em = ed /\ Zpos mm <= Zpos md)).
  { destruct (Z.lt_trichotomy em ed) as [Hlt|[Heq|Hgt]]; [left; exact Hlt| |].
    - right. split; [exact Heq|]. subst ed. rewrite Em, Ed.
      apply Z.mul_le_mono_nonneg_r; [apply Z.pow_nonneg; lia|exact Hmd].
    - exfalso.
      (* m < 2^(53+em) <= 2^(52+ed') ... *)
      assert (Hm2 : m * 2 ^ (- em) < 2 ^ 53) by lia.
      assert (Hd2 : 2 ^ 52 <= d * 2 ^ (- ed)) by lia.
      assert (Hp : 2 ^ (- ed) = 2 ^ (- em) * 2 ^ (em - ed)).
      { rewrite <- Z.pow_add_r by lia. f_equal. lia. }
      assert (H2 : 2 <= 2 ^ (em - ed)).
      { change 2 with (2 ^ 1) at 1. apply Z.pow_le_mono_r; lia. }
      assert (H0 : 0 < 2 ^ (- em)) by (apply Z.pow_pos_nonneg; lia).
      rewrite Hp in Hd2. nia. }
  destruct (SFdiv_le_one mm em md ed Hmm Hmd' Hem Hed Hord)
    as (mz & ez & E & Hz).
  unfold SF64div. rewrite E.
  change (Prim2SF 0) with (S754_zero false).
  change (Prim2SF 1) with (S754_finite false (2 ^ 52)%positive (-52)).
  split; [reflexivity|].
  unfold SFleb, SFcompare.
  destruct Hz as [Hlt|[-> Hmz]].
  - destruct (Z.compare_spec ez (-52)); first [reflexivity | lia].
  - assert (mz = (2 ^ 52)%positive) by lia. subst mz. reflexivity.
Qed.

End Binary64.

(** ** Path-bias accountant: scenarios in binary64 *)

Module PathBiasScenarios.
Import OrH PathBias PathBiasFacts.

(** Tor's defaults: entry guards on, every path-bias option left to the
    consensus (-1). *)
Definition default_options : or_options_t PrimFloat.float :=
  mk_options 1 (-1) (-1)%float (-1)%float (-1)%float (-1) (-1) (-1)
    (-1)%float (-1)%float (-1).

(** No consensus parameter is set: every tunable takes its default. *)
Definition no_params : string -> Z -> Z -> Z -> Z :=
  consensus_param (fun _ => None).

Definition sample_extern : extern_t :=
  mk_extern 1000 2000 3000 2864434397 7 0.

Definition guard_id : list Z := repeat 171 20.
Definition middle_id : list Z := repeat 205 20.
Definition exit_id : list Z := repeat 239 20.

Definition open_hop (id : list Z) : crypt_path_t :=
  mk_hop CPATH_STATE_OPEN (Some (mk_extend_info id)).

Definition open_channel : channel_t :=
  mk_channel CHANNEL_STATE_OPEN CHANNEL_NOT_CLOSING guard_id.

(** A built three-hop general-purpose circuit through the guard, in the
    given path state. *)
Definition built_circuit (s : path_state_t) : origin_circuit_t :=
  mk_origin CIRCUIT_PURPOSE_C_GENERAL 0 (Some open_channel) 0 0
    [open_hop guard_id; open_hop middle_id; open_hop exit_id]
    (mk_build_state false 3) true s PATHBIAS_SHOULDCOUNT_COUNTED 0 0 1.

(** The same circuit while its second hop waits for keys. *)
Definition building_circuit : origin_circuit_t :=
  mk_origin CIRCUIT_PURPOSE_C_GENERAL 0 (Some open_channel) 0 0
    [open_hop guard_id;
     mk_hop CPATH_STATE_AWAITING_KEYS (Some (mk_extend_info middle_id));
     mk_hop CPATH_STATE_CLOSED (Some (mk_extend_info exit_id))]
    (mk_build_state false 3) false PATH_STATE_NEW_CIRC
    PATHBIAS_SHOULDCOUNT_UNDECIDED 0 0 1.

Definition guard_with (attempts successes closed : PrimFloat.float)
  : entry_guard_t PrimFloat.float :=
  mk_guard attempts successes closed 0%float 0%float 0%float 0%float 0%float
    false false false false false false 0.

Definition fresh_guard := guard_with 10%float 8%float 5%float.

(** Scenario S4: the guard as seeded. *)
Definition seeded_guard := guard_with 301%float 250%float 240%float.

Definition world_of (c : origin_circuit_t)
    (g : entry_guard_t PrimFloat.float) : world PrimFloat.float :=
  mk_world [OriginCircuit c] {[ guard_id := g ]} [].

(** A built circuit that times out before use: the guard's [timeouts]
    goes from 0 to 1. *)
Lemma pathbias_count_timeout_frame_witness :
  exists w',
    pathbias_count_timeout default_options 0%nat
      (world_of (built_circuit PATH_STATE_BUILD_SUCCEEDED) fresh_guard)
    = Some (tt, w')
    /\ (timeouts <$> entry_guards w' !! guard_id) = Some 1%float.
Proof.
  destruct (pathbias_count_timeout_frame default_options
              (world_of (built_circuit PATH_STATE_BUILD_SUCCEEDED) fresh_guard)
              0%nat (built_circuit PATH_STATE_BUILD_SUCCEEDED) eq_refl)
    as (w' & Hrun & Hg).
  exists w'. split; [exact Hrun|]. rewrite Hg. vm_compute. reflexivity.
Defined.


(** A remote close of a built, unused circuit is a collapse. *)
Lemma pathbias_check_close_table_witness :
  exists w',
    pathbias_check_close default_options sample_extern 0%nat
      (END_CIRC_REASON_FLAG_REMOTE + END_CIRC_REASON_TIMEOUT)
      (world_of (built_circuit PATH_STATE_BUILD_SUCCEEDED) fresh_guard)
    = Some (0, w')
    /\ (collapsed_circuits <$> entry_guards w' !! guard_id) = Some 1%float.
Proof.
  destruct (pathbias_check_close_table default_options sample_extern
              (world_of (built_circuit PATH_STATE_BUILD_SUCCEEDED) fresh_guard)
              0%nat (built_circuit PATH_STATE_BUILD_SUCCEEDED)
              (END_CIRC_REASON_FLAG_REMOTE + END_CIRC_REASON_TIMEOUT)
              guard_id fresh_guard eq_refl eq_refl eq_refl eq_refl)
    as (r & w' & Hrun & Htab).
  cbn [path_state built_circuit] in Htab. destruct Htab as [-> Hg].
  exists w'. split; [exact Hrun|]. rewrite Hg. vm_compute. reflexivity.
Defined.

(** The other rows of the close table on the same guard. *)
Example pathbias_check_close_rows :
  let run s reason :=
    match pathbias_check_close default_options sample_extern 0%nat reason
            (world_of (built_circuit s) fresh_guard) with
    | Some (r, w) =>
        Some (r, (fun g => (successful_circuits_closed g, use_successes g,
                            collapsed_circuits g, unusable_circuits g))
                 <$> entry_guards w !! guard_id)
    | None => None
    end in
  run PATH_STATE_BUILD_SUCCEEDED END_CIRC_REASON_FINISHED
    = Some (0, Some (6, 0, 0, 0)%float)
  /\ run PATH_STATE_BUILD_SUCCEEDED END_CIRC_REASON_CHANNEL_CLOSED
    = Some (0, Some (5, 0, 1, 0)%float)
  /\ run PATH_STATE_USE_SUCCEEDED END_CIRC_REASON_FINISHED
    = Some (0, Some (6, 1, 0, 0)%float)
  /\ run PATH_STATE_USE_FAILED END_CIRC_REASON_FINISHED
    = Some (0, Some (5, 0, 0, 1)%float)
  /\ run PATH_STATE_USE_ATTEMPTED END_CIRC_REASON_TIMEOUT
    = Some (-1, Some (5, 0, 0, 0)%float)
  /\ run PATH_STATE_BUILD_ATTEMPTED END_CIRC_REASON_TIMEOUT
    = Some (0, Some (5, 0, 0, 0)%float).
Proof. vm_compute. repeat split; reflexivity. Qed.

(** Scenario S1, first step: the attempt of a fresh circuit is counted. *)
Lemma pathbias_count_build_attempt_spec_witness :
  exists w',
    pathbias_count_build_attempt default_options no_params sample_extern 0%nat
      (world_of building_circuit fresh_guard) = Some (0, w')
    /\ (circ_attempts <$> entry_guards w' !! guard_id) = Some 11%float.
Proof.
  destruct (pathbias_count_build_attempt_spec default_options no_params
              sample_extern (world_of building_circuit fresh_guard) 0%nat
              building_circuit _ _ _ guard_id fresh_guard
              eq_refl eq_refl eq_refl eq_refl eq_refl eq_refl eq_refl eq_refl)
    as (r & w' & Hrun & _ & _ & _ & Hres).
  assert (Hdis : path_bias_disabled
            (pathbias_measure_close_rate default_options no_params
               sample_extern guard_id fresh_guard
               (global_circuitlist
                  (upd_circ (world_of building_circuit fresh_guard) 0%nat
                     (set_path_state
                        (pathbias_should_count default_options
                           building_circuit).2
                        PATH_STATE_BUILD_ATTEMPTED)))).1 = false)
    by (vm_compute; reflexivity).
  rewrite Hdis in Hres. destruct Hres as [-> Hg].
  exists w'. split; [exact Hrun|]. rewrite Hg. vm_compute. reflexivity.
Defined.

(** A locally closed, built and unused circuit ends already counted. *)
Lemma pathbias_check_close_already_counted_witness :
  exists w' c',
    pathbias_check_close default_options sample_extern 0%nat
      END_CIRC_REASON_FINISHED
      (world_of (built_circuit PATH_STATE_BUILD_SUCCEEDED) fresh_guard)
    = Some (0, w')
    /\ origin_at w' 0%nat c'
    /\ path_state c' = PATH_STATE_ALREADY_COUNTED.
Proof.
  assert (Hrun : { w' | pathbias_check_close default_options sample_extern
                          0%nat END_CIRC_REASON_FINISHED
                          (world_of (built_circuit PATH_STATE_BUILD_SUCCEEDED)
                             fresh_guard) = Some (0, w') })
    by (eexists; vm_compute; reflexivity).
  destruct Hrun as [w' Hrun].
  destruct (pathbias_check_close_already_counted default_options
              sample_extern
              (world_of (built_circuit PATH_STATE_BUILD_SUCCEEDED) fresh_guard)
              0%nat (built_circuit PATH_STATE_BUILD_SUCCEEDED)
              END_CIRC_REASON_FINISHED w'
              eq_refl Hrun) as (c' & Hat & Hps).
  exists w', c'. auto.
Defined.

(** A one-hop circuit is not counted. *)
Definition onehop_circuit : origin_circuit_t :=
  mk_origin CIRCUIT_PURPOSE_C_GENERAL 0 (Some open_channel) 0 0
    [open_hop guard_id] (mk_build_state true 1) true PATH_STATE_NEW_CIRC
    PATHBIAS_SHOULDCOUNT_UNDECIDED 0 0 2.

Definition path_state_at (w : world PrimFloat.float) (i : nat)
  : option path_state_t :=
  match global_circuitlist w !! i with
  | Some (OriginCircuit c) => Some (path_state c)
  | _ => None
  end.

(** C4, counterexample.  Closing a one-hop circuit: [pathbias_check_close]
    returns 0 and the path state is still new_circ. *)
Lemma pathbias_check_close_uncounted :
  (fun r => (r.1, path_state_at r.2 0%nat))
    <$> pathbias_check_close default_options sample_extern 0%nat
          END_CIRC_REASON_FINISHED (world_of onehop_circuit fresh_guard)
  = Some (0, Some PATH_STATE_NEW_CIRC).
Proof. vm_compute. reflexivity. Qed.


(** Scenario S3: the probe of a used circuit whose stream timed out.  The
    random value 0xAABBCCDD gives the nonce 0.187.204.221. *)
Lemma pathbias_send_usable_probe_emitted_witness :
  exists wp,
    pathbias_send_usable_probe sample_extern 0%nat
      (world_of (built_circuit PATH_STATE_USE_ATTEMPTED) fresh_guard)
    = Some (0, wp)
    /\ ext_calls wp =
       [Call_relay_send_command_from_edge 7 0%nat RELAY_COMMAND_BEGIN
          "0.187.204.221:25" 17]
    /\ exists wq,
         pathbias_check_close default_options sample_extern 0%nat
           END_CIRC_REASON_TIMEOUT
           (world_of (built_circuit PATH_STATE_USE_ATTEMPTED) fresh_guard)
         = Some (-1, wq).
Proof.
  assert (Hrun : { wp | pathbias_send_usable_probe sample_extern 0%nat
                          (world_of (built_circuit PATH_STATE_USE_ATTEMPTED)
                             fresh_guard) = Some (0, wp) })
    by (eexists; vm_compute; reflexivity).
  destruct Hrun as [wp Hrun].
  destruct (pathbias_send_usable_probe_emitted default_options sample_extern
              (world_of (built_circuit PATH_STATE_USE_ATTEMPTED) fresh_guard)
              0%nat (built_circuit PATH_STATE_USE_ATTEMPTED)
              END_CIRC_REASON_TIMEOUT wp eq_refl Hrun)
    as (_ & _ & _ & (c' & nonce & _ & _ & Hn & _ & _ & Hid & _ & _ & _
                     & payload & Hpay & Hcalls) & Hclose).
  exists wp. split; [exact Hrun|]. split.
  - rewrite Hcalls, Hpay, Hid, Hn. vm_compute. reflexivity.
  - exact (Hclose eq_refl eq_refl).
Defined.

(** The same circuit on a channel in maintenance. *)
Definition maint_circuit : origin_circuit_t :=
  mk_origin CIRCUIT_PURPOSE_C_GENERAL 0
    (Some (mk_channel CHANNEL_STATE_MAINT CHANNEL_NOT_CLOSING guard_id)) 0 0
    [open_hop guard_id; open_hop middle_id; open_hop exit_id]
    (mk_build_state false 3) true PATH_STATE_USE_ATTEMPTED
    PATHBIAS_SHOULDCOUNT_COUNTED 0 0 1.

(** C5, counterexample.  The channel is in state MAINT, not OPEN, and the
    probe is emitted all the same: [pathbias_send_usable_probe] returns 0
    and the close is deferred. *)
Lemma pathbias_probe_on_maint_channel :
  (chan_state <$> n_chan maint_circuit) = Some CHANNEL_STATE_MAINT
  /\ (fst <$> pathbias_send_usable_probe sample_extern 0%nat
               (world_of maint_circuit fresh_guard)) = Some 0
  /\ (fst <$> pathbias_check_close default_options sample_extern 0%nat
               END_CIRC_REASON_TIMEOUT (world_of maint_circuit fresh_guard))
     = Some (-1).
Proof. vm_compute. repeat split; reflexivity. Qed.

(** A circuit whose probe (stream 7, nonce 0.187.204.221) is in flight. *)
Definition probing_circuit : origin_circuit_t :=
  mk_origin CIRCUIT_PURPOSE_PATH_BIAS_TESTING 0 (Some open_channel) 2000 3000
    [open_hop guard_id; open_hop middle_id; open_hop exit_id]
    (mk_build_state false 3) true PATH_STATE_USE_ATTEMPTED
    PATHBIAS_SHOULDCOUNT_COUNTED 7 12307677 1.

(** The body of a RELAY_END cell: reason EXITPOLICY, the address
    0.187.204.221, a TTL. *)
Definition end_body : list Byte.byte :=
  [Byte.x04; Byte.x00; Byte.xbb; Byte.xcc; Byte.xdd;
   Byte.x00; Byte.x00; Byte.x00; Byte.x3c].

Lemma pathbias_check_probe_response_spec_witness :
  exists w',
    pathbias_check_probe_response default_options no_params sample_extern
      0%nat (mk_relay_cell RELAY_COMMAND_END 7 9 end_body)
      (world_of probing_circuit fresh_guard) = Some (0, w')
    /\ ext_calls w'
       = [Call_circuit_mark_for_close 0%nat END_CIRC_REASON_FINISHED]
    /\ path_state_at w' 0%nat = Some PATH_STATE_USE_SUCCEEDED.
Proof.
  destruct (pathbias_check_probe_response_spec default_options no_params
              sample_extern (world_of probing_circuit fresh_guard) 0%nat
              probing_circuit (mk_relay_cell RELAY_COMMAND_END 7 9 end_body)
              eq_refl eq_refl (ex_intro _ guard_id eq_refl))
    as (r & w' & Hrun & Hres).
  change (probe_answer probing_circuit
            (mk_relay_cell RELAY_COMMAND_END 7 9 end_body)) with true in Hres.
  destruct Hres as (-> & Hcalls & c' & Hat & Hs).
  exists w'. split; [exact Hrun|]. split; [exact Hcalls|].
  unfold path_state_at. unfold origin_at in Hat. rewrite Hat, Hs.
  reflexivity.
Defined.

(** Entry guards switched off: no circuit is counted. *)
Definition no_guards_options : or_options_t PrimFloat.float :=
  mk_options 0 (-1) (-1)%float (-1)%float (-1)%float (-1) (-1) (-1)
    (-1)%float (-1)%float (-1).

(** C6, counterexample.  A RELAY_END with reason EXITPOLICY that echoes
    the nonce, but on stream 8 instead of the probe's stream 7 (or on the
    right stream with a length field of 5): the function returns a
    negative value and the path state stays use_attempted.  And with entry
    guards switched off, the very answer the probe waits for is accepted
    with 0 while the path state stays use_attempted. *)
Lemma pathbias_probe_answer_on_other_stream :
  let run options cell :=
    (fun r => (r.1, path_state_at r.2 0%nat))
      <$> pathbias_check_probe_response options no_params
            sample_extern 0%nat cell (world_of probing_circuit fresh_guard) in
  let other_stream := mk_relay_cell RELAY_COMMAND_END 8 9 end_body in
  let short := mk_relay_cell RELAY_COMMAND_END 7 5 end_body in
  let expected := mk_relay_cell RELAY_COMMAND_END 7 9 end_body in
  rh_command other_stream = RELAY_COMMAND_END
  /\ get_uint8 (relay_body other_stream) = END_STREAM_REASON_EXITPOLICY
  /\ ntohl_get_uint32 (relay_body other_stream) 1
     = pathbias_probe_nonce probing_circuit
  /\ run default_options other_stream
     = Some (-1, Some PATH_STATE_USE_ATTEMPTED)
  /\ run default_options short = Some (-1, Some PATH_STATE_USE_ATTEMPTED)
  /\ run no_guards_options expected
     = Some (0, Some PATH_STATE_USE_ATTEMPTED).
Proof. vm_compute. repeat split; reflexivity. Qed.


(** *** Scaling *)

(** The modelled [networkstatus_get_param] keeps its answer between the
    bounds it is given. *)
Lemma consensus_param_range net_params name dflt lo hi :
  lo <= dflt <= hi ->
  lo <= consensus_param net_params name dflt lo hi <= hi.
Proof.
  intros H. unfold consensus_param.
  destruct (net_params name) as [v|]; [|exact H].
  destruct (v <? lo) eqn:E1; [lia|].
  destruct (v >? hi) eqn:E2; lia.
Qed.

(** A [networkstatus_get_param] that honours its bounds. *)
Definition honours_bounds (get_param : string -> Z -> Z -> Z -> Z) : Prop :=
  forall name dflt lo hi,
    lo <= dflt <= hi -> lo <= get_param name dflt lo hi <= hi.

Lemma scale_factors_range get_param :
  honours_bounds get_param ->
  2 <= pb_scalefactor get_param
  /\ 1 <= pb_multfactor get_param <= pb_scalefactor get_param.
Proof.
  intros Hb.
  assert (H : 2 <= pb_scalefactor get_param <= INT32_MAX)
    by (apply Hb; unfold INT32_MAX; lia).
  split; [lia|]. apply Hb. lia.
Qed.

(** The scale ratio as the code computes it, in binary64, lies in
    (0, 1]. *)
Lemma scale_ratio_range_binary64 get_param :
  honours_bounds get_param ->
  d_ltb (d_of_int 0) (pathbias_get_scale_ratio (D:=PrimFloat.float) get_param)
  = true
  /\ d_leb (pathbias_get_scale_ratio (D:=PrimFloat.float) get_param)
       (d_of_int 1) = true.
Proof.
  intros Hb.
  destruct (scale_factors_range get_param Hb) as [Hd [Hm1 Hm2]].
  assert (Hmax : pb_scalefactor get_param <= INT32_MAX)
    by (apply Hb; unfold INT32_MAX; lia).
  unfold pathbias_get_scale_ratio.
  cbn [d_div d_of_int d_ltb d_leb binary64_ops].
  change (float_of_int 0) with 0%float.
  change (float_of_int 1) with 1%float.
  unfold float_of_int.
  assert (E1 : (pb_multfactor get_param <? 0) = false) by lia.
  assert (E2 : (pb_scalefactor get_param <? 0) = false) by lia.
  rewrite E1, E2.
  apply Binary64.div_of_ints_range; unfold INT32_MAX in Hmax; lia.
Qed.

(** Scenario S4.  The guard is seeded with 301, 250 and 240 and a circuit
    through it, the guard's only open one, has its build attempt counted:
    the counters end at 152, 125 and 120.  The circuit is in state
    build_attempted when the guard is scaled, so it is taken out of the
    301 before the halving and put back after it:
    (301 - 1) * 0.5 + 1 + 1 = 152. *)
Lemma seeded_guard_attempt ext w i c h1 h2 rest :
  origin_at w i c ->
  (pathbias_should_count default_options c).1 = true ->
  cpath c = h1 :: h2 :: rest ->
  hop_state h2 = CPATH_STATE_AWAITING_KEYS ->
  has_opened c = false ->
  path_state c = PATH_STATE_NEW_CIRC ->
  marked_for_close c = 0 ->
  first_hop_digest c = Some guard_id ->
  entry_guards w !! guard_id = Some seeded_guard ->
  open_circuits default_options guard_id PATH_STATE_BUILD_ATTEMPTED
    PATH_STATE_USE_FAILED
    (global_circuitlist
       (upd_circ w i
          (set_path_state (pathbias_should_count default_options c).2
             PATH_STATE_BUILD_ATTEMPTED))) = 1 ->
  exists w',
    pathbias_count_build_attempt default_options no_params ext i w
    = Some (0, w')
    /\ (fun g => (circ_attempts g, circ_successes g,
                  successful_circuits_closed g))
         <$> entry_guards w' !! guard_id
       = Some (152%float, 125%float, 120%float).
Proof.
  intros H Hc Hcp Hh2 Hop Hps Hm Hd Hg Hone.
  set (circs := global_circuitlist _) in Hone.
  assert (Hcirc : circs !! i
                  = Some (OriginCircuit
                            (set_path_state
                               (pathbias_should_count default_options c).2
                               PATH_STATE_BUILD_ATTEMPTED)))
    by apply (origin_at_upd_circ w i c _ H).
  pose proof (open_circuits_lookup default_options guard_id _ _ circs i _
                Hcirc
                (attempted_counts_as_open default_options c guard_id Hc Hm
                   Hd)) as Hatt.
  pose proof (open_circuits_split default_options guard_id circs) as Hsplit.
  pose proof (open_circuits_narrow default_options guard_id
                PATH_STATE_BUILD_SUCCEEDED PATH_STATE_USE_FAILED
                PATH_STATE_BUILD_SUCCEEDED PATH_STATE_USE_FAILED circs
                ltac:(cbn; lia) ltac:(cbn; lia)) as Hbuilt.
  pose proof (open_circuits_narrow default_options guard_id
                PATH_STATE_BUILD_SUCCEEDED PATH_STATE_USE_FAILED
                PATH_STATE_BUILD_SUCCEEDED PATH_STATE_USE_SUCCEEDED circs
                ltac:(cbn; lia) ltac:(cbn; lia)) as Hused.
  assert (Ea : open_circuits default_options guard_id
                 PATH_STATE_BUILD_ATTEMPTED PATH_STATE_BUILD_ATTEMPTED circs
               = 1) by lia.
  assert (Eb : open_circuits default_options guard_id
                 PATH_STATE_BUILD_SUCCEEDED PATH_STATE_USE_FAILED circs = 0)
    by lia.
  assert (Eu : open_circuits default_options guard_id
                 PATH_STATE_BUILD_SUCCEEDED PATH_STATE_USE_SUCCEEDED circs
               = 0) by lia.
  assert (Emeasured :
            (pathbias_measure_close_rate default_options no_params ext
               guard_id seeded_guard circs).1 = seeded_guard).
  { rewrite (measure_close_rate_guard default_options no_params ext
               guard_id seeded_guard circs []) by (rewrite Eu; reflexivity).
    vm_compute. reflexivity. }
  destruct (count_build_attempt_scales default_options no_params ext w i c
              h1 h2 rest guard_id seeded_guard H Hc Hcp Hh2 Hop Hps Hm Hd Hg)
    as [_ (w' & Hrun & Hguards)].
  { fold circs. rewrite Emeasured. reflexivity. }
  { reflexivity. }
  exists w'. split; [exact Hrun|].
  rewrite Hguards, lookup_insert. fold circs.
  rewrite Emeasured, Ea, Eb. vm_compute. reflexivity.
Qed.

(** The same run on the world that holds nothing but the seeded guard and
    the building circuit. *)
Lemma seeded_guard_after_circuit_attempt :
  (fun r => (r.1, (fun g => (circ_attempts g, circ_successes g,
                             successful_circuits_closed g))
                  <$> entry_guards r.2 !! guard_id))
    <$> pathbias_count_build_attempt default_options no_params sample_extern
          0%nat (world_of building_circuit seeded_guard)
  = Some (0, Some (152%float, 125%float, 120%float)).
Proof. vm_compute. reflexivity. Qed.





(** *** Scenarios for the further properties *)

(** The circuit whose build attempt has been counted. *)
Definition attempted_circuit : origin_circuit_t :=
  set_path_state building_circuit PATH_STATE_BUILD_ATTEMPTED.

(** Scenario S1, second step: the circuit completes and the guard's
    [circ_successes] goes from 8 to 9. *)
Lemma pathbias_count_build_success_spec_witness :
  exists w' c',
    pathbias_count_build_success default_options 0%nat
      (world_of attempted_circuit fresh_guard) = Some (tt, w')
    /\ origin_at w' 0%nat c'
    /\ path_state c' = PATH_STATE_BUILD_SUCCEEDED
    /\ (circ_successes <$> entry_guards w' !! guard_id) = Some 9%float.
Proof.
  destruct (pathbias_count_build_success_spec default_options
              (world_of attempted_circuit fresh_guard) 0%nat
              attempted_circuit eq_refl)
    as (w' & c' & Hrun & Hat & _ & Hres).
  change (path_state c' = PATH_STATE_BUILD_SUCCEEDED
          /\ entry_guards w' =
             <[guard_id := inc_circ_successes fresh_guard]>
               (entry_guards (world_of attempted_circuit fresh_guard)))
    in Hres.
  destruct Hres as [Hps Hg].
  exists w', c'. split; [exact Hrun|]. split; [exact Hat|].
  split; [exact Hps|]. rewrite Hg. vm_compute. reflexivity.
Defined.

(** Scenario S1, third step: a stream is attached to the built circuit
    and [use_attempts] goes from 0 to 1. *)
Lemma pathbias_count_use_attempt_spec_witness :
  exists w' c',
    pathbias_count_use_attempt default_options no_params sample_extern 0%nat
      (world_of (built_circuit PATH_STATE_BUILD_SUCCEEDED) fresh_guard)
    = Some (tt, w')
    /\ origin_at w' 0%nat c'
    /\ path_state c' = PATH_STATE_USE_ATTEMPTED
    /\ (use_attempts <$> entry_guards w' !! guard_id) = Some 1%float.
Proof.
  destruct (pathbias_count_use_attempt_spec default_options no_params
              sample_extern
              (world_of (built_circuit PATH_STATE_BUILD_SUCCEEDED) fresh_guard)
              0%nat (built_circuit PATH_STATE_BUILD_SUCCEEDED) eq_refl
              (ex_intro _ guard_id eq_refl))
    as (w' & c' & Hrun & Hat & _ & Hres).
  cbv beta iota delta [andb fst] in Hres.
  change (path_state c' = PATH_STATE_USE_ATTEMPTED
          /\ entry_guards w' =
             <[guard_id := use_attempt_counted default_options no_params
                             sample_extern guard_id fresh_guard
                             (global_circuitlist
                                (upd_circ
                                   (world_of
                                      (built_circuit
                                         PATH_STATE_BUILD_SUCCEEDED)
                                      fresh_guard) 0%nat
                                   (pathbias_should_count default_options
                                      (built_circuit
                                         PATH_STATE_BUILD_SUCCEEDED)).2))]>
               (entry_guards
                  (world_of (built_circuit PATH_STATE_BUILD_SUCCEEDED)
                     fresh_guard)))
    in Hres.
  destruct Hres as [Hps Hg].
  exists w', c'. split; [exact Hrun|]. split; [exact Hat|].
  split; [exact Hps|]. rewrite Hg. vm_compute. reflexivity.
Defined.

(** Scenario S3 without the timeout: the stream succeeded, the circuit is
    closed and counted as a success. *)
Lemma pathbias_use_rollback_forces_probe_witness :
  exists w1 w3,
    pathbias_mark_use_success default_options no_params sample_extern 0%nat
      (world_of (built_circuit PATH_STATE_USE_ATTEMPTED) fresh_guard)
    = Some (tt, w1)
    /\ pathbias_check_close default_options sample_extern 0%nat
         END_CIRC_REASON_FINISHED w1 = Some (0, w3)
    /\ ((fun g => (successful_circuits_closed g, use_successes g))
          <$> entry_guards w3 !! guard_id) = Some (6%float, 1%float).
Proof.
  destruct (pathbias_use_rollback_forces_probe default_options no_params
              sample_extern
              (world_of (built_circuit PATH_STATE_USE_ATTEMPTED) fresh_guard)
              0%nat (built_circuit PATH_STATE_USE_ATTEMPTED) guard_id
              fresh_guard END_CIRC_REASON_FINISHED
              eq_refl eq_refl eq_refl eq_refl ltac:(cbn; lia))
    as [_ (w1 & w3 & Hm & Hc & Hg)].
  exists w1, w3. split; [exact Hm|]. split; [exact Hc|].
  rewrite Hg. vm_compute. reflexivity.
Defined.

(** A circuit closed twice: the second close changes no guard. *)
Lemma pathbias_check_close_idempotent_witness :
  exists w' w'',
    pathbias_check_close default_options sample_extern 0%nat
      END_CIRC_REASON_FINISHED
      (world_of (built_circuit PATH_STATE_BUILD_SUCCEEDED) fresh_guard)
    = Some (0, w')
    /\ pathbias_check_close default_options sample_extern 0%nat
         END_CIRC_REASON_TIMEOUT w' = Some (0, w'')
    /\ entry_guards w'' = entry_guards w'.
Proof.
  assert (Hrun : { w' | pathbias_check_close default_options sample_extern
                          0%nat END_CIRC_REASON_FINISHED
                          (world_of (built_circuit PATH_STATE_BUILD_SUCCEEDED)
                             fresh_guard) = Some (0, w') })
    by (eexists; vm_compute; reflexivity).
  destruct Hrun as [w' Hrun].
  destruct (pathbias_check_close_idempotent default_options sample_extern
              (world_of (built_circuit PATH_STATE_BUILD_SUCCEEDED) fresh_guard)
              0%nat (built_circuit PATH_STATE_BUILD_SUCCEEDED)
              END_CIRC_REASON_FINISHED w' END_CIRC_REASON_TIMEOUT
              eq_refl Hrun) as (w'' & Hrun2 & Hg & _).
  exists w', w''. auto.
Defined.

End PathBiasScenarios.

(** ** The cpath ring in memory: what the pointer code computes *)

Module CpathRingFacts.
Import PathBiasData CpathRing.

(** The list view of the two ring operations. *)
Abbreviation first_not_open := PathBuild.first_not_open.
Abbreviation append_hop := PathBuild.onion_append_hop.

(** A doubly linked segment: the cells at the addresses [l], each linked
    to its neighbours, the first one back to [p] and the last one on to
    [n]. *)
Fixpoint dlseg (h : heap) (l : list nat) (p n : nat) : Prop :=
  match l with
  | [] => True
  | a :: rest =>
      exists c,
        h !! a = Some c /\ prev c = Some p /\ next c = Some (hd n rest)
        /\ dlseg h rest a n
  end.

(** The ring of [head]: distinct cells at the addresses [l], closed from
    the last cell to the first and back. *)
Definition is_ring (h : heap) (head : option nat) (l : list nat) : Prop :=
  NoDup l
  /\ match l with
     | [] => head = None
     | a :: _ => head = Some a /\ dlseg h l (List.last l a) a
     end.

(** The hop a cell stands for in the list view of the ring. *)
Definition hop_of (c : crypt_path_cell) : crypt_path_t :=
  mk_hop (cell_state c) (cell_extend_info c).

(** The cells at [l] stand for the hops [hops], one by one. *)
Definition views (h : heap) (l : list nat) (hops : list crypt_path_t)
  : Prop :=
  Forall2 (fun a hop => hop_of <$> h !! a = Some hop) l hops.

Lemma dlseg_frame h h' l p n :
  (forall a, a ∈ l -> h' !! a = h !! a) -> dlseg h l p n -> dlseg h' l p n.
Proof.
  revert p. induction l as [|a rest IH]; intros p Hsame; [auto|].
  intros (c & Hc & Hp & Hn & Hrest).
  exists c. rewrite Hsame by left.
  repeat split; try assumption. apply IH; [|exact Hrest].
  intros b Hb. apply Hsame. right. exact Hb.
Qed.

Lemma views_frame h h' l hops :
  (forall a, a ∈ l -> hop_of <$> h' !! a = hop_of <$> h !! a) ->
  views h l hops -> views h' l hops.
Proof.
  unfold views. intros Hsame Hv. revert Hsame.
  induction Hv as [|a hop l hops Ha Hv IH]; intros Hsame; constructor.
  - rewrite Hsame by left. exact Ha.
  - apply IH. intros b Hb. apply Hsame. right. exact Hb.
Qed.

Lemma dlseg_lookup h l p n a :
  dlseg h l p n -> a ∈ l -> is_Some (h !! a).
Proof.
  revert p. induction l as [|b rest IH]; intros p Hseg Hin; [inversion Hin|].
  destruct Hseg as (c & Hc & _ & _ & Hrest).
  apply elem_of_cons in Hin as [->|Hin]; [eauto|]. eapply IH; eauto.
Qed.

Lemma last_cons (rest : list nat) a p :
  List.last (a :: rest) p = List.last rest a.
Proof.
  revert a p. induction rest as [|b r IH]; intros a p; [reflexivity|].
  change (List.last (a :: b :: r) p) with (List.last (b :: r) p).
  rewrite (IH b p), (IH b a). reflexivity.
Qed.

Lemma hd_snoc (rest : list nat) x n : hd n (rest ++ [x]) = hd x rest.
Proof. destruct rest; reflexivity. Qed.

(** The last cell of a segment gets a new successor. *)
Lemma dlseg_set_last_next h l z p n n' cz :
  NoDup (l ++ [z]) -> dlseg h (l ++ [z]) p n -> h !! z = Some cz ->
  dlseg (<[z := set_next cz (Some n')]> h) (l ++ [z]) p n'.
Proof.
  revert p. induction l as [|a rest IH]; intros p Hnd Hseg Hz.
  - cbn [app dlseg hd] in *. destruct Hseg as (c & Hc & Hp & _ & _).
    assert (c = cz) by congruence. subst c.
    exists (set_next cz (Some n')). rewrite lookup_insert_eq. auto.
  - cbn [app dlseg] in *.
    destruct Hseg as (c & Hc & Hp & Hn & Hrest).
    apply NoDup_cons in Hnd as [Ha Hnd].
    assert (Haz : a <> z)
      by (intros ->; apply Ha, elem_of_app; right; left).
    exists c. rewrite lookup_insert_ne by congruence.
    split; [exact Hc|]. split; [exact Hp|]. split.
    + rewrite Hn, !hd_snoc. reflexivity.
    + apply IH; assumption.
Qed.

(** The first cell of a segment gets a new predecessor. *)
Lemma dlseg_set_first_prev h a rest p p' n ca :
  NoDup (a :: rest) -> dlseg h (a :: rest) p n -> h !! a = Some ca ->
  dlseg (<[a := set_prev ca (Some p')]> h) (a :: rest) p' n.
Proof.
  intros Hnd (c & Hc & Hp & Hn & Hrest) Ha.
  assert (c = ca) by congruence. subst c.
  apply NoDup_cons in Hnd as [Hnotin _].
  exists (set_prev ca (Some p')). rewrite lookup_insert_eq.
  split; [reflexivity|]. split; [reflexivity|]. split; [exact Hn|].
  eapply dlseg_frame; [|exact Hrest].
  intros b Hb. apply lookup_insert_ne. intros ->. exact (Hnotin Hb).
Qed.

Lemma dlseg_snoc h l x p n :
  dlseg h (l ++ [x]) p n <->
  dlseg h l p x
  /\ exists c, h !! x = Some c /\ prev c = Some (List.last l p)
               /\ next c = Some n.
Proof.
  revert p. induction l as [|a rest IH]; intros p.
  - cbn [app dlseg List.last hd]. split.
    + intros (c & Hc & Hp & Hn & _). eauto.
    + intros [_ (c & Hc & Hp & Hn)]. eauto.
  - change ((a :: rest) ++ [x]) with (a :: (rest ++ [x])).
    cbn [dlseg]. rewrite last_cons, hd_snoc. split.
    + intros (c & Hc & Hp & Hn & Hrest).
      apply IH in Hrest as [Hrest Hx]. eauto 10.
    + intros [(c & Hc & Hp & Hn & Hrest) Hx].
      exists c. repeat split; try assumption. apply IH. auto.
Qed.

Lemma last_default (l : list nat) a d d' :
  List.last (a :: l) d = List.last (a :: l) d'.
Proof. rewrite !last_cons. reflexivity. Qed.

Lemma store_some (h : heap) a c f :
  h !! a = Some c -> store (Some a) f h = Some (<[a := f c]> h).
Proof. intros H. unfold store. rewrite H. reflexivity. Qed.

Lemma load_some {A : Type} (h : heap) a c (f : crypt_path_cell -> A) :
  h !! a = Some c -> load (Some a) f h = Some (f c).
Proof. intros H. unfold load. rewrite H. reflexivity. Qed.

(** A store into a link leaves every payload as it was. *)
Lemma hop_of_insert_link (h : heap) a c c' b :
  h !! a = Some c -> hop_of c' = hop_of c ->
  hop_of <$> <[a := c']> h !! b = hop_of <$> h !! b.
Proof.
  intros Ha Hc. destruct (decide (a = b)) as [<-|Hne].
  - rewrite lookup_insert_eq, Ha. cbn. congruence.
  - rewrite lookup_insert_ne by exact Hne. reflexivity.
Qed.

(** [onion_append_to_cpath] on a ring and a cell outside it: the ring
    closes over the old cells followed by the new one, and only links
    have been written. *)
Lemma onion_append_to_cpath_ring h head l new_hop cn :
  is_ring h head l -> new_hop ∉ l -> h !! new_hop = Some cn ->
  exists h',
    onion_append_to_cpath head new_hop h = Some (h', Some (hd new_hop l))
    /\ is_ring h' (Some (hd new_hop l)) (l ++ [new_hop])
    /\ (forall a, hop_of <$> h' !! a = hop_of <$> h !! a)
    /\ (forall a, a ∉ l -> a <> new_hop -> h' !! a = h !! a).
Proof.
  intros [Hnd Hring] Hnew Hcn. destruct l as [|a0 rest].
  - subst head. cbn [onion_append_to_cpath hd].
    rewrite (store_some h new_hop cn) by exact Hcn. cbn [mbind option_bind].
    rewrite (store_some _ new_hop (set_next cn (Some new_hop)))
      by apply lookup_insert_eq.
    cbn [mbind option_bind]. rewrite insert_insert_eq.
    eexists. split; [reflexivity|]. split; [|split].
    + split; [apply NoDup_singleton|]. split; [reflexivity|].
      cbn [app dlseg List.last hd].
      eexists. rewrite lookup_insert_eq. repeat split.
    + intros a. apply (hop_of_insert_link h new_hop cn); [exact Hcn|].
      reflexivity.
    + intros a _ Hne. apply lookup_insert_ne. congruence.
  - destruct Hring as [-> Hseg].
    assert (Ha0 : a0 <> new_hop) by (intros ->; apply Hnew; left).
    set (lst := List.last (a0 :: rest) a0) in *.
    assert (Hlst_in : lst ∈ a0 :: rest).
    { unfold lst. rewrite last_cons.
      destruct (exists_last (l := a0 :: rest) ltac:(discriminate))
        as (l0 & z & E).
      pose proof (f_equal (fun l => List.last l a0) E) as E'. cbn beta in E'.
      rewrite last_cons in E'. rewrite E', last_last, E.
      apply elem_of_app. right. left. }
    assert (Hlst : lst <> new_hop)
      by (intros E; apply Hnew; rewrite <- E; exact Hlst_in).
    pose proof Hseg as (c0 & Hc0 & Hp0 & Hn0 & Hrest).
    destruct (dlseg_lookup _ _ _ _ lst Hseg Hlst_in) as [cl Hcl].
    cbn [onion_append_to_cpath hd].
    (* new_hop->next = head *)
    rewrite (store_some h new_hop cn) by exact Hcn. cbn [mbind option_bind].
    set (h1 := <[new_hop := set_next cn (Some a0)]> h).
    assert (H1 : forall a, a <> new_hop -> h1 !! a = h !! a)
      by (intros a Ha; apply lookup_insert_ne; congruence).
    (* new_hop->prev = head->prev *)
    rewrite (load_some h1 a0 c0) by (rewrite H1; assumption).
    cbn [mbind option_bind]. rewrite Hp0.
    rewrite (store_some h1 new_hop (set_next cn (Some a0)))
      by apply lookup_insert_eq.
    cbn [mbind option_bind].
    set (cn' := set_prev (set_next cn (Some a0)) (Some lst)).
    set (h2 := <[new_hop := cn']> h1).
    assert (H2 : forall a, a <> new_hop -> h2 !! a = h !! a).
    { intros a Ha. unfold h2. rewrite lookup_insert_ne by congruence.
      apply H1, Ha. }
    (* head->prev->next = new_hop *)
    rewrite (load_some h2 a0 c0) by (rewrite H2; assumption).
    cbn [mbind option_bind]. rewrite Hp0.
    rewrite (store_some h2 lst cl) by (rewrite H2; assumption).
    cbn [mbind option_bind].
    set (h3 := <[lst := set_next cl (Some new_hop)]> h2).
    (* head->prev = new_hop *)
    assert (Hseg2 : dlseg h2 (a0 :: rest) lst a0).
    { eapply dlseg_frame; [|exact Hseg]. intros a Ha. apply H2.
      intros ->. exact (Hnew Ha). }
    destruct (exists_last (l := a0 :: rest) ltac:(discriminate))
      as (l0 & z & E).
    assert (Ez : z = lst).
    { unfold lst. rewrite E, last_last. reflexivity. }
    subst z.
    assert (Hseg3 : dlseg h3 (a0 :: rest) lst new_hop).
    { rewrite E in Hseg2, Hnd |- *.
      apply (dlseg_set_last_next h2 l0 lst lst a0 new_hop cl Hnd Hseg2).
      rewrite H2; assumption. }
    pose proof Hseg3 as (c3 & Hc3 & _).
    rewrite (store_some h3 a0 c3) by exact Hc3. cbn [mbind option_bind].
    eexists. split; [reflexivity|]. split; [|split].
    + split.
      * rewrite Permutation.Permutation_app_comm. cbn [app].
        apply NoDup_cons. split; [exact Hnew | exact Hnd].
      * change ((a0 :: rest) ++ [new_hop]) with (a0 :: (rest ++ [new_hop])).
        split; [reflexivity|].
        change (a0 :: (rest ++ [new_hop])) with ((a0 :: rest) ++ [new_hop]).
        rewrite last_last. apply dlseg_snoc. split.
        -- apply (dlseg_set_first_prev h3 a0 rest lst new_hop new_hop c3
                    Hnd Hseg3 Hc3).
        -- exists cn'. split; [|split; [|reflexivity]].
           ++ rewrite lookup_insert_ne by exact Ha0.
              unfold h3. rewrite lookup_insert_ne by exact Hlst.
              apply lookup_insert_eq.
           ++ unfold cn'. cbn [prev set_prev]. f_equal.
              unfold lst. apply last_default.
    + intros a.
      rewrite (hop_of_insert_link h3 a0 c3) by (assumption || reflexivity).
      unfold h3.
      rewrite (hop_of_insert_link h2 lst cl)
        by (try reflexivity; rewrite H2; assumption).
      unfold h2.
      rewrite (hop_of_insert_link h1 new_hop (set_next cn (Some a0)))
        by (try reflexivity; apply lookup_insert_eq).
      unfold h1.
      apply (hop_of_insert_link h new_hop cn); [exact Hcn | reflexivity].
    + intros a Hal Han.
      rewrite lookup_insert_ne by (intros ->; apply Hal; left).
      unfold h3.
      rewrite lookup_insert_ne
        by (intros E'; apply Hal; rewrite <- E'; exact Hlst_in).
      apply H2, Han.
Qed.

(** Writing a payload field leaves a segment linked as it was. *)
Lemma dlseg_payload h l p n a c c' :
  h !! a = Some c -> next c' = next c -> prev c' = prev c ->
  dlseg h l p n -> dlseg (<[a := c']> h) l p n.
Proof.
  intros Ha Hn Hp. revert p. induction l as [|b rest IH]; intros q; [auto|].
  intros (cb & Hcb & Hpb & Hnb & Hrest).
  destruct (decide (a = b)) as [<-|Hne].
  - exists c'. rewrite lookup_insert_eq.
    assert (cb = c) by congruence. subst cb.
    split; [reflexivity|]. split; [congruence|]. split; [congruence|].
    apply IH, Hrest.
  - exists cb. rewrite lookup_insert_ne by exact Hne.
    repeat split; try assumption. apply IH, Hrest.
Qed.

Lemma is_ring_payload h head l a c c' :
  h !! a = Some c -> next c' = next c -> prev c' = prev c ->
  is_ring h head l -> is_ring (<[a := c']> h) head l.
Proof.
  intros Ha Hn Hp [Hnd Hring]. split; [exact Hnd|].
  destruct l as [|a0 rest]; [exact Hring|].
  destruct Hring as [Hh Hseg]. split; [exact Hh|].
  eapply dlseg_payload; eassumption.
Qed.

Lemma is_ring_lookup h head l a :
  is_ring h head l -> a ∈ l -> is_Some (h !! a).
Proof.
  intros [_ Hring] Hin. destruct l as [|a0 rest]; [inversion Hin|].
  destruct Hring as [_ Hseg]. eapply dlseg_lookup; eassumption.
Qed.

(** What [onion_append_hop] does to a well-formed ring, given a fresh
    cell. *)
Lemma onion_append_hop_run h head l hops choice hop :
  is_ring h head l -> views h l hops -> h !! hop = None ->
  exists h',
    onion_append_hop head choice hop h = Some (h', Some (hd hop l))
    /\ is_ring h' (Some (hd hop l)) (l ++ [hop])
    /\ views h' (l ++ [hop])
         (hops ++ [mk_hop CPATH_STATE_CLOSED (Some choice)])
    /\ (forall a, a ∉ l -> a <> hop -> h' !! a = h !! a).
Proof.
  intros Hring Hviews Hfresh.
  assert (Hnew : hop ∉ l).
  { intros Hin. destruct (is_ring_lookup h head l hop Hring Hin) as [c Hc].
    congruence. }
  set (zero := mk_cell None None CPATH_STATE_CLOSED None).
  set (h0 := <[hop := zero]> h).
  assert (H0 : forall a, a <> hop -> h0 !! a = h !! a)
    by (intros a Ha; apply lookup_insert_ne; congruence).
  assert (Hring0 : is_ring h0 head l).
  { destruct Hring as [Hnd Hring]. split; [exact Hnd|].
    destruct l as [|a0 rest]; [exact Hring|].
    destruct Hring as [Hh Hseg]. split; [exact Hh|].
    eapply dlseg_frame; [|exact Hseg].
    intros a Ha. apply H0. intros ->. exact (Hnew Ha). }
  destruct (onion_append_to_cpath_ring h0 head l hop zero Hring0 Hnew
              ltac:(apply lookup_insert_eq))
    as (h1 & Hrun & Hring1 & Hpay1 & Hframe1).
  unfold onion_append_hop. fold zero. fold h0. rewrite Hrun.
  cbn [mbind option_bind].
  assert (Hin1 : hop ∈ l ++ [hop]) by (apply elem_of_app; right; left).
  destruct (is_ring_lookup h1 _ _ hop Hring1 Hin1) as [c1 Hc1].
  rewrite (store_some h1 hop c1) by exact Hc1. cbn [mbind option_bind].
  rewrite (store_some _ hop (set_cell_state c1 CPATH_STATE_CLOSED))
    by apply lookup_insert_eq.
  cbn [mbind option_bind]. rewrite insert_insert_eq.
  set (c2 := set_cell_extend_info _ _).
  eexists. split; [reflexivity|]. split; [|split].
  - apply (is_ring_payload h1 _ _ hop c1 c2 Hc1); [reflexivity..|exact Hring1].
  - apply Forall2_app.
    + eapply views_frame; [|exact Hviews].
      intros a Ha.
      assert (Hne : a <> hop) by (intros ->; exact (Hnew Ha)).
      rewrite lookup_insert_ne by congruence.
      rewrite Hpay1, H0 by exact Hne. reflexivity.
    + constructor; [|constructor]. rewrite lookup_insert_eq. reflexivity.
  - intros a Hal Hne. rewrite lookup_insert_ne by congruence.
    rewrite Hframe1 by assumption. apply H0, Hne.
Qed.

(** The loop, started inside the ring at the first cell of [s], a suffix
    of the ring of [a0]. *)
Lemma next_hop_loop_suffix h a0 : forall s hs p fuel,
  s <> [] -> a0 ∉ tl s ->
  dlseg h s p a0 -> views h s hs -> (length s <= fuel)%nat ->
  next_hop_loop fuel (Some a0) (head s) h
  = Some (i ← first_not_open hs; s !! i).
Proof.
  induction s as [|a s' IH]; intros hs p fuel Hne Ha0 Hseg Hv Hfuel;
    [congruence|].
  destruct fuel as [|fuel]; [cbn in Hfuel; lia|].
  destruct Hseg as (c & Hc & Hp & Hn & Hrest).
  apply Forall2_cons_inv_l in Hv as (hop & hs' & Hhop & Hv' & ->).
  rewrite Hc in Hhop. cbn in Hhop. injection Hhop as <-.
  cbn [next_hop_loop head].
  rewrite (load_some h a c cell_state Hc), (load_some h a c next Hc).
  cbn [mbind option_bind first_not_open hop_of hop_state].
  destruct (negb (cpath_state_eqb (cell_state c) CPATH_STATE_OPEN));
    [reflexivity|].
  rewrite Hn. destruct s' as [|b s''].
  - cbn [hd]. rewrite bool_decide_eq_true_2 by reflexivity.
    apply Forall2_nil_inv_l in Hv'. subst hs'. reflexivity.
  - cbn [hd tl] in *.
    assert (Hb : b <> a0) by (intros ->; apply Ha0; left).
    rewrite bool_decide_eq_false_2 by congruence.
    assert (Hrec : next_hop_loop fuel (Some a0) (head (b :: s'')) h
                   = Some (i ← first_not_open hs'; (b :: s'') !! i)).
    { apply (IH hs' a fuel); try assumption; try discriminate.
      - intros Hin. apply Ha0. right. exact Hin.
      - cbn [length] in Hfuel |- *. lia. }
    cbn [head] in Hrec. rewrite Hrec.
    destruct (first_not_open hs'); reflexivity.
Qed.

(** X17.  On a well-formed, non-empty cpath ring, [onion_next_hop_in_cpath]
    returns after at most as many turns as the ring has hops; it returns
    the first hop, counted from the head, that is not open, and NULL when
    every hop is open: the hop at the position [PathBuild.first_not_open]
    finds in the list of the hops. *)
Theorem onion_next_hop_in_cpath_first h head l hops fuel :
  is_ring h head l -> l <> [] -> views h l hops ->
  (length l <= fuel)%nat ->
  onion_next_hop_in_cpath fuel head h
  = Some (i ← first_not_open hops; l !! i).
Proof.
  intros [Hnd Hring] Hne Hv Hfuel.
  destruct l as [|a0 rest]; [congruence|].
  destruct Hring as [-> Hseg].
  unfold onion_next_hop_in_cpath.
  apply NoDup_cons in Hnd as [Hnotin _].
  apply (next_hop_loop_suffix h a0 (a0 :: rest) hops
           (List.last (a0 :: rest) a0) fuel); assumption.
Qed.

(** X16.  [onion_append_hop] on a well-formed cpath ring and a fresh cell
    leaves a well-formed ring with the same head (the new cell, if the
    ring was empty), whose hops are the old ones, unchanged and in the
    same order, followed by one new hop in state closed that carries the
    chosen [extend_info], which is [PathBuild.onion_append_hop] on the
    list of the hops; no cell outside the ring is written. *)
Theorem onion_append_hop_appends h head l hops choice hop :
  is_ring h head l -> views h l hops -> h !! hop = None ->
  exists h',
    onion_append_hop head choice hop h = Some (h', Some (hd hop l))
    /\ is_ring h' (Some (hd hop l)) (l ++ [hop])
    /\ views h' (l ++ [hop]) (append_hop hops choice)
    /\ (forall a, a ∉ l -> a <> hop -> h' !! a = h !! a).
Proof. apply onion_append_hop_run. Qed.

Lemma first_not_open_lt hops i :
  first_not_open hops = Some i -> (i < length hops)%nat.
Proof.
  revert i. induction hops as [|hop rest IH]; intros i; [discriminate|].
  cbn [first_not_open length].
  destruct (negb (cpath_state_eqb (hop_state hop) CPATH_STATE_OPEN)).
  - intros [= <-]. lia.
  - destruct (first_not_open rest) as [j|]; [|discriminate].
    intros [= <-]. specialize (IH j eq_refl). lia.
Qed.

Lemma first_not_open_snoc hops new :
  hop_state new <> CPATH_STATE_OPEN ->
  first_not_open (hops ++ [new])
  = Some (default (length hops) (first_not_open hops)).
Proof.
  intros Hnew. induction hops as [|hop rest IH]; cbn [app first_not_open].
  - destruct (hop_state new); [reflexivity..|congruence].
  - destruct (negb (cpath_state_eqb (hop_state hop) CPATH_STATE_OPEN));
      [reflexivity|].
    rewrite IH. destruct (first_not_open rest); reflexivity.
Qed.

(** X18.  After [onion_append_hop] on a well-formed ring, the hop that
    [onion_next_hop_in_cpath] returns is the first of the old hops that is
    not open and, when all of them are open, the hop just appended: the
    call never returns NULL then. *)
Theorem onion_append_hop_then_next h head_ptr l hops choice hop fuel :
  is_ring h head_ptr l -> views h l hops -> h !! hop = None ->
  (length l < fuel)%nat ->
  exists h' head',
    onion_append_hop head_ptr choice hop h = Some (h', head')
    /\ onion_next_hop_in_cpath fuel head' h'
       = Some (match first_not_open hops with
               | Some i => l !! i
               | None => Some hop
               end).
Proof.
  intros Hring Hviews Hfresh Hfuel.
  destruct (onion_append_hop_run h head_ptr l hops choice hop Hring Hviews Hfresh)
    as (h' & Hrun & [Hnd Hring'] & Hviews' & _).
  exists h', (Some (hd hop l)). split; [exact Hrun|].
  pose proof (Forall2_length _ _ _ Hviews) as Hlen.
  assert (Hl : exists a0 rest, l ++ [hop] = a0 :: rest /\ hd hop l = a0).
  { destruct l as [|a0 rest]; cbn; eauto. }
  destruct Hl as (a0 & rest & Hl & Hhd). rewrite Hhd in *.
  rewrite Hl in Hring', Hnd. destruct Hring' as [_ Hseg].
  apply NoDup_cons in Hnd as [Hnotin _].
  unfold onion_next_hop_in_cpath.
  assert (Hloop := next_hop_loop_suffix h' a0 (a0 :: rest) _ _ fuel
            ltac:(discriminate) Hnotin Hseg
            ltac:(rewrite <- Hl; exact Hviews')
            ltac:(rewrite <- Hl, length_app; cbn [length]; lia)).
  cbn [head] in Hloop. rewrite Hloop. f_equal.
  rewrite first_not_open_snoc by discriminate. rewrite <- Hl.
  destruct (first_not_open hops) as [i|] eqn:Hi; cbn [default mbind option_bind].
  - apply first_not_open_lt in Hi.
    apply lookup_app_l. lia.
  - rewrite <- Hlen. rewrite lookup_app_r by lia.
    rewrite Nat.sub_diag. reflexivity.
Qed.

(** *** A ring of two hops *)

Definition relay (n : Z) : extend_info_t := mk_extend_info (repeat n 20).

(** The head, at address 1, is open; the second hop, at address 2, waits
    for its keys. *)
Definition two_hops : heap :=
  <[1%nat := mk_cell (Some 2%nat) (Some 2%nat) CPATH_STATE_OPEN
               (Some (relay 1))]>
  (<[2%nat := mk_cell (Some 1%nat) (Some 1%nat) CPATH_STATE_AWAITING_KEYS
                (Some (relay 2))]> ∅).

Definition two_hops_view : list crypt_path_t :=
  [mk_hop CPATH_STATE_OPEN (Some (relay 1));
   mk_hop CPATH_STATE_AWAITING_KEYS (Some (relay 2))].

Lemma two_hops_ring : is_ring two_hops (Some 1%nat) [1%nat; 2%nat].
Proof.
  split.
  - apply (bool_decide_unpack _). vm_compute. exact I.
  - split; [reflexivity|]. cbn [dlseg hd List.last].
    eexists. split; [vm_compute; reflexivity|].
    split; [reflexivity|]. split; [reflexivity|].
    eexists. split; [vm_compute; reflexivity|].
    split; [reflexivity|]. split; [reflexivity|]. exact I.
Qed.

Lemma two_hops_views : views two_hops [1%nat; 2%nat] two_hops_view.
Proof. repeat constructor. Qed.

Lemma onion_append_hop_appends_witness :
  exists h',
    onion_append_hop (Some 1%nat) (relay 3) 3%nat two_hops
    = Some (h', Some 1%nat)
    /\ is_ring h' (Some 1%nat) [1%nat; 2%nat; 3%nat]
    /\ views h' [1%nat; 2%nat; 3%nat]
         (append_hop two_hops_view (relay 3))
    /\ (forall a, a ∉ [1%nat; 2%nat] -> a <> 3%nat
                  -> h' !! a = two_hops !! a).
Proof.
  apply (onion_append_hop_appends two_hops (Some 1%nat) [1%nat; 2%nat]
           two_hops_view (relay 3) 3%nat).
  - exact two_hops_ring.
  - exact two_hops_views.
  - vm_compute. reflexivity.
Defined.

Lemma onion_next_hop_in_cpath_first_witness :
  onion_next_hop_in_cpath 2 (Some 1%nat) two_hops = Some (Some 2%nat).
Proof.
  apply (onion_next_hop_in_cpath_first two_hops (Some 1%nat) [1%nat; 2%nat]
           two_hops_view 2).
  - exact two_hops_ring.
  - discriminate.
  - exact two_hops_views.
  - cbn. lia.
Defined.

Lemma onion_append_hop_then_next_witness :
  exists h' head',
    onion_append_hop (Some 1%nat) (relay 3) 3%nat two_hops = Some (h', head')
    /\ onion_next_hop_in_cpath 3 head' h' = Some (Some 2%nat).
Proof.
  apply (onion_append_hop_then_next two_hops (Some 1%nat) [1%nat; 2%nat]
           two_hops_view (relay 3) 3%nat 3).
  - exact two_hops_ring.
  - exact two_hops_views.
  - vm_compute. reflexivity.
  - cbn. lia.
Defined.

End CpathRingFacts.

(** ** Choice of the exit: what is never chosen *)

Module ExitChoiceFacts.
Import OrH ExitChoice.

Section Facts.
Variable options : exit_options_t.
Variable connections : list connection_t.
Variable the_nodes : list node_t.
Variable needed_ports : list Z.
Variable node_sl_choose_by_bandwidth : list node_t -> option node_t.

(** A node the exit chooser may use, for given needs of uptime and
    capacity. *)
Definition usable_exit (need_uptime need_capacity : bool) (node : node_t)
  : Prop :=
  router_digest_is_me node = false
  /\ node_has_descriptor node = true
  /\ is_running node = true
  /\ is_bad_exit node = false
  /\ purpose_is_general node = true
  /\ in_ExcludeExitNodesUnion node = false
  /\ (ExitNodes_set options = true -> in_ExitNodes node = true)
  /\ node_is_unreliable node need_uptime need_capacity = false
  /\ (is_valid node = true \/ allow_invalid_exit options = true)
  /\ (ExcludeSingleHopRelays options = true
      -> node_allows_single_hop_exits node = false)
  /\ node_exit_policy_rejects_all node = false.

Abbreviation supported := (count_supported connections).
Abbreviation skip := (skipped options).

Lemma skipped_usable u c node :
  skip u c node = false <-> usable_exit u c node.
Proof.
  unfold skipped, usable_exit. split.
  - intros H.
    destruct (router_digest_is_me node); [discriminate|].
    destruct (node_has_descriptor node); [|discriminate].
    destruct (is_running node); [|discriminate].
    destruct (is_bad_exit node); [discriminate|].
    destruct (purpose_is_general node); [|discriminate].
    destruct (in_ExcludeExitNodesUnion node); [discriminate|].
    cbn [negb orb] in H.
    assert (He : ExitNodes_set options = true -> in_ExitNodes node = true).
    { intros E. rewrite E in H. destruct (in_ExitNodes node);
        [reflexivity|discriminate]. }
    destruct (ExitNodes_set options && negb (in_ExitNodes node));
      [discriminate|].
    destruct (node_is_unreliable node u c); [discriminate|].
    assert (Hv : is_valid node = true \/ allow_invalid_exit options = true).
    { destruct (is_valid node); [left; reflexivity|].
      destruct (allow_invalid_exit options); [right; reflexivity|].
      discriminate. }
    destruct (negb (is_valid node || allow_invalid_exit options));
      [discriminate|].
    assert (Hs : ExcludeSingleHopRelays options = true
                 -> node_allows_single_hop_exits node = false).
    { intros E. rewrite E in H.
      destruct (node_allows_single_hop_exits node);
        [discriminate|reflexivity]. }
    destruct (ExcludeSingleHopRelays options
              && node_allows_single_hop_exits node); [discriminate|].
    destruct (node_exit_policy_rejects_all node); [discriminate|].
    repeat split; assumption || reflexivity.
  - intros (-> & -> & -> & -> & -> & -> & He & -> & Hv & Hs & ->).
    cbn [negb orb].
    replace (ExitNodes_set options && negb (in_ExitNodes node)) with false
      by (destruct (ExitNodes_set options); [rewrite He|]; reflexivity).
    replace (negb (is_valid node || allow_invalid_exit options)) with false
      by (destruct Hv as [-> | ->]; [|rewrite orb_true_r]; reflexivity).
    replace (ExcludeSingleHopRelays options
             && node_allows_single_hop_exits node) with false
      by (destruct (ExcludeSingleHopRelays options); [rewrite Hs|];
          reflexivity).
    reflexivity.
Qed.

Lemma count_supported_nonneg node : 0 <= supported node.
Proof.
  unfold count_supported.
  assert (H : forall conns n, 0 <= n ->
            0 <= fold_left
                   (fun n conn =>
                      if negb (ap_stream_wants_exit_attention conn) then n
                      else if can_exit node conn then n + 1 else n)
                   conns n).
  { induction conns as [|conn conns IH]; intros n Hn; [exact Hn|].
    cbn [fold_left]. apply IH.
    destruct (negb _); [lia|]. destruct (can_exit node conn); lia. }
  apply H. lia.
Qed.

(** The entry of [n_supported] the loop writes for a node. *)
Definition n_supported_of (u c : bool) (node : node_t) : Z :=
  if skip u c node then -1 else supported node.

Lemma n_supported_of_kept u c node :
  n_supported_of u c node <> -1 <-> skip u c node = false.
Proof.
  unfold n_supported_of. pose proof (count_supported_nonneg node).
  destruct (skip u c node); split; intros; try congruence; lia.
Qed.

Lemma node_turn_spec u c ns best nb node :
  exists best' nb',
    node_turn options connections u c (ns, best, nb) node
    = (ns ++ [n_supported_of u c node], best', nb')
    /\ best <= best'
    /\ (skip u c node = false -> 0 < supported node
        -> supported node <= best').
Proof.
  unfold node_turn, n_supported_of.
  destruct (skip u c node).
  { exists best, nb. split; [reflexivity|]. split; [lia|]. discriminate. }
  cbv zeta.
  destruct ((0 <? n_pending_connections connections)
            && (supported node =? 0)) eqn:Hzero.
  { exists best, nb. split; [reflexivity|]. split; [lia|].
    apply andb_true_iff in Hzero as [_ Hz]. lia. }
  destruct (best <? supported node) eqn:Hlt.
  { exists (supported node), 1. split; [reflexivity|]. lia. }
  destruct (supported node =? best) eqn:Heq.
  { exists best, (nb + 1). split; [reflexivity|]. lia. }
  exists best, nb. split; [reflexivity|]. lia.
Qed.

(** The loop over the nodes: [n_supported] is filled node by node, and
    [best_support] ends at least as large as every positive count of a
    node that was not skipped. *)
Lemma node_loop_spec u c : forall nodes ns best nb,
  exists best' nb',
    fold_left (node_turn options connections u c) nodes (ns, best, nb)
    = (ns ++ map (n_supported_of u c) nodes, best', nb')
    /\ best <= best'
    /\ (forall m, m ∈ nodes -> skip u c m = false -> 0 < supported m
                  -> supported m <= best').
Proof.
  induction nodes as [|node nodes IH]; intros ns best nb.
  - exists best, nb. cbn. rewrite app_nil_r.
    split; [reflexivity|]. split; [lia|]. intros m Hm. inversion Hm.
  - cbn [fold_left map].
    destruct (node_turn_spec u c ns best nb node)
      as (b1 & n1 & -> & Hle1 & Hmax1).
    destruct (IH (ns ++ [n_supported_of u c node]) b1 n1)
      as (b' & n' & -> & Hle & Hmax).
    exists b', n'. rewrite <- app_assoc.
    split; [reflexivity|]. split; [lia|].
    intros m Hm Hs Hpos. apply elem_of_cons in Hm as [->|Hm]; [|auto].
    specialize (Hmax1 Hs Hpos). lia.
Qed.

Lemma collect_sound keep (f : node_t -> Z) : forall nodes res,
  collect keep nodes (map f nodes) = Some res ->
  forall n, n ∈ res -> n ∈ nodes /\ keep n (f n) = Some true.
Proof.
  induction nodes as [|node nodes IH]; intros res Hres n Hn.
  - cbn in Hres. injection Hres as <-. inversion Hn.
  - cbn [map collect] in Hres.
    destruct (keep node (f node)) as [k|] eqn:Hk; [|discriminate].
    cbn [mbind option_bind] in Hres.
    destruct (collect keep nodes (map f nodes)) as [rest|] eqn:Hrest;
      [|discriminate].
    cbn [mbind option_bind] in Hres. injection Hres as <-.
    destruct k.
    + apply elem_of_cons in Hn as [->|Hn].
      * split; [left|exact Hk].
      * destruct (IH rest eq_refl n Hn) as [Hin Hkeep].
        split; [right; exact Hin|exact Hkeep].
    + destruct (IH rest eq_refl n Hn) as [Hin Hkeep].
      split; [right; exact Hin|exact Hkeep].
Qed.

Lemma collect_total keep (f : node_t -> Z) : forall nodes,
  (forall n, n ∈ nodes -> is_Some (keep n (f n))) ->
  is_Some (collect keep nodes (map f nodes)).
Proof.
  induction nodes as [|node nodes IH]; intros Hk; [cbn; eauto|].
  cbn [map collect].
  destruct (Hk node ltac:(left)) as [k ->]. cbn [mbind option_bind].
  destruct IH as [rest ->]; [intros n Hn; apply Hk; right; exact Hn|].
  cbn. eauto.
Qed.

Lemma node_handles_some_port_total node ports :
  Forall (fun port => port <> 0) ports ->
  is_Some (node_handles_some_port node ports).
Proof.
  induction 1 as [|port ports Hport _ IH]; [cbn; eauto|].
  cbn [node_handles_some_port].
  destruct (Z.eqb_spec port 0) as [E|_]; [contradiction|].
  destruct node as [nd|]; [|exact IH].
  destruct (exit_policy nd port); eauto.
Qed.

Abbreviation choose_general :=
  (choose_good_exit_server_general options connections the_nodes
     needed_ports node_sl_choose_by_bandwidth).

Hypothesis choice_of_list :
  forall sl n, node_sl_choose_by_bandwidth sl = Some n -> n ∈ sl.

Lemma fall_back_kept u c node k :
  fall_back the_nodes needed_ports node_sl_choose_by_bandwidth
    (map (n_supported_of u c) the_nodes) = Some (Some node, k) ->
  node ∈ the_nodes /\ skip u c node = false.
Proof.
  unfold fall_back. intros H.
  match type of H with mbind _ ?m = _ => destruct m as [s0|] eqn:Hs0 end;
    cbn [mbind option_bind] in H; [|discriminate].
  destruct (node_sl_choose_by_bandwidth s0) as [n0|] eqn:Hn0.
  - injection H as -> _.
    destruct (collect_sound _ _ _ _ Hs0 node (choice_of_list _ _ Hn0))
      as [Hin Hkeep].
    split; [exact Hin|]. apply n_supported_of_kept.
    intros E. rewrite E in Hkeep. cbn in Hkeep. discriminate.
  - match type of H with mbind _ ?m = _ => destruct m as [s1|] eqn:Hs1 end;
    cbn [mbind option_bind] in H; [|discriminate].
    destruct (node_sl_choose_by_bandwidth s1) as [n1|] eqn:Hn1;
      [|discriminate].
    injection H as -> _.
    destruct (collect_sound _ _ _ _ Hs1 node (choice_of_list _ _ Hn1))
      as [Hin Hkeep].
    split; [exact Hin|]. apply n_supported_of_kept.
    intros E. rewrite E in Hkeep. cbn in Hkeep. discriminate.
Qed.

Lemma choose_general_kept : forall fuel u c node k,
  choose_general fuel u c = Some (Some node, k) ->
  node ∈ the_nodes
  /\ exists u' c',
       ((u', c') = (u, c) \/ (u', c') = (false, false))
       /\ skip u' c' node = false
       /\ forall m, m ∈ the_nodes -> skip u' c' m = false
                    -> supported m <= supported node.
Proof.
  induction fuel as [|fuel IH]; intros u c node k H; [discriminate|].
  cbn [choose_good_exit_server_general] in H.
  destruct (node_loop_spec u c the_nodes [] (-1) 0)
    as (best & nb & Hrun & Hle & Hmax).
  rewrite Hrun in H. cbn [app] in H.
  destruct (0 <? best) eqn:Hbest.
  - match type of H with mbind _ ?m = _ => destruct m as [s|] eqn:Hs end;
    cbn [mbind option_bind] in H; [|discriminate].
    destruct (node_sl_choose_by_bandwidth s) as [n|] eqn:Hn;
      [|discriminate].
    injection H as -> _.
    destruct (collect_sound _ _ _ _ Hs node (choice_of_list _ _ Hn))
      as [Hin Hkeep].
    injection Hkeep as Hkeep. apply Z.eqb_eq in Hkeep.
    assert (Hskip : skip u c node = false).
    { apply n_supported_of_kept. lia. }
    split; [exact Hin|]. exists u, c. split; [left; reflexivity|].
    split; [exact Hskip|]. intros m Hm Hsm.
    unfold n_supported_of in Hkeep. rewrite Hskip in Hkeep.
    pose proof (count_supported_nonneg m).
    destruct (Z_lt_le_dec 0 (supported m)) as [Hpos|Hnp].
    + specialize (Hmax m Hm Hsm Hpos). lia.
    + lia.
  - assert (Hzero : forall m, m ∈ the_nodes -> skip u c m = false
                              -> supported m <= 0).
    { intros m Hm Hsm.
      destruct (Z_lt_le_dec 0 (supported m)) as [Hpos|Hnp]; [|exact Hnp].
      specialize (Hmax m Hm Hsm Hpos). lia. }
    destruct ((best =? -1) && (u || c)) eqn:Hretry.
    + destruct (IH false false node k H) as (Hin & u' & c' & Hflags & Hrest).
      split; [exact Hin|]. exists u', c'.
      split; [right; destruct Hflags; assumption|exact Hrest].
    + destruct (fall_back_kept u c node k H) as [Hin Hskip].
      split; [exact Hin|]. exists u, c. split; [left; reflexivity|].
      split; [exact Hskip|]. intros m Hm Hsm.
      pose proof (count_supported_nonneg node).
      specialize (Hzero m Hm Hsm). lia.
Qed.

(** X19.  Whatever [choose_good_exit_server_general] returns is a node of
    the node list that passed every exclusion test of the loop: it is not
    this router, has a descriptor, is running, is no bad exit and of
    general purpose, is not in ExcludeExitNodes, is in ExitNodes when that
    is set, is valid unless invalid exits are allowed, is no single-hop
    relay when those are excluded, and does not reject all exits.  It is
    reliable for the needs asked for, or, after the retry, for no needs at
    all; and among the nodes passing these tests none supports more of
    the pending connections. *)
Theorem choose_good_exit_server_general_usable fuel u c node k :
  choose_general fuel u c = Some (Some node, k) ->
  node ∈ the_nodes
  /\ exists u' c',
       ((u', c') = (u, c) \/ (u', c') = (false, false))
       /\ usable_exit u' c' node
       /\ forall m, m ∈ the_nodes -> usable_exit u' c' m
                    -> supported m <= supported node.
Proof.
  intros H.
  destruct (choose_general_kept fuel u c node k H)
    as (Hin & u' & c' & Hflags & Hskip & Hmax).
  split; [exact Hin|]. exists u', c'. split; [exact Hflags|].
  split; [apply skipped_usable, Hskip|].
  intros m Hm Hu. apply Hmax; [exact Hm|]. apply skipped_usable, Hu.
Qed.

End Facts.

Section Returns.
Variable options : exit_options_t.
Variable connections : list connection_t.
Variable the_nodes : list node_t.
Variable needed_ports : list Z.
Variable node_sl_choose_by_bandwidth : list node_t -> option node_t.

Hypothesis ports_nonzero : Forall (fun port => port <> 0) needed_ports.

Lemma fall_back_total ns :
  is_Some (fall_back the_nodes needed_ports node_sl_choose_by_bandwidth
             (map ns the_nodes)).
Proof.
  unfold fall_back.
  destruct (collect_total
              (fun node n =>
                 if negb (n =? -1)
                 then node_handles_some_port (Some node) needed_ports
                 else Some false) ns the_nodes) as [s0 ->].
  { intros n _. destruct (negb _); [|eauto].
    apply node_handles_some_port_total, ports_nonzero. }
  cbn [mbind option_bind].
  destruct (node_sl_choose_by_bandwidth s0); [eauto|].
  destruct (collect_total (fun _ n => Some (negb (n =? -1))) ns the_nodes)
    as [s1 ->]; [eauto|].
  cbn [mbind option_bind].
  destruct (node_sl_choose_by_bandwidth s1); eauto.
Qed.

Lemma choose_general_once fuel :
  is_Some (choose_good_exit_server_general options connections the_nodes
             needed_ports node_sl_choose_by_bandwidth (S fuel) false false).
Proof.
  cbn [choose_good_exit_server_general].
  destruct (node_loop_spec options connections false false the_nodes [] (-1) 0)
    as (best & nb & -> & _). cbn [app].
  destruct (0 <? best).
  - destruct (collect_total (fun _ n => Some (n =? best))
                (n_supported_of options connections false false) the_nodes)
      as [s ->]; [eauto|].
    cbn. eauto.
  - rewrite andb_false_r. apply fall_back_total.
Qed.

(** X20.  [choose_good_exit_server_general] calls itself at most once, and
    then with no needs: with room for one nested call it returns for every
    node list, connection list and choice by bandwidth, unless a needed
    port is 0, for which [node_handles_some_port] asserts. *)
Theorem choose_good_exit_server_general_returns fuel u c :
  (2 <= fuel)%nat ->
  is_Some (choose_good_exit_server_general options connections the_nodes
             needed_ports node_sl_choose_by_bandwidth fuel u c).
Proof.
  intros Hfuel. destruct fuel as [|[|fuel]]; [lia..|].
  cbn [choose_good_exit_server_general].
  destruct (node_loop_spec options connections u c the_nodes [] (-1) 0)
    as (best & nb & -> & _). cbn [app].
  destruct (0 <? best).
  - destruct (collect_total (fun _ n => Some (n =? best))
                (n_supported_of options connections u c) the_nodes)
      as [s ->]; [eauto|].
    cbn. eauto.
  - destruct ((best =? -1) && (u || c)).
    + apply (choose_general_once fuel).
    + apply fall_back_total.
Qed.

End Returns.


(** *** A node list with an excluded exit *)

Definition plain_exit : node_t :=
  mk_node false true true false true false false (fun _ _ => false)
    true false false (fun _ => ADDR_POLICY_ACCEPTED) (fun _ => true).

(** The same node, named in ExcludeExitNodes. *)
Definition excluded_exit : node_t :=
  mk_node false true true false true true false (fun _ _ => false)
    true false false (fun _ => ADDR_POLICY_ACCEPTED) (fun _ => true).

(** A stream waiting for a circuit. *)
Definition pending_stream : connection_t :=
  mk_connection true true 0 false false None false false.

Definition no_exit_options : exit_options_t :=
  mk_exit_options false false false.

(** A choice that takes the first node of the list. *)
Lemma head_of_list (sl : list node_t) n : head sl = Some n -> n ∈ sl.
Proof. destruct sl as [|x sl]; cbn; [discriminate|]. intros [= ->]. left. Qed.

Lemma choose_good_exit_server_general_usable_witness :
  let nodes := [excluded_exit; plain_exit] in
  plain_exit ∈ nodes
  /\ exists u' c',
       ((u', c') = (true, true) \/ (u', c') = (false, false))
       /\ usable_exit no_exit_options u' c' plain_exit
       /\ forall m, m ∈ nodes -> usable_exit no_exit_options u' c' m
                    -> count_supported [pending_stream] m
                       <= count_supported [pending_stream] plain_exit.
Proof.
  intros nodes.
  apply (choose_good_exit_server_general_usable no_exit_options
           [pending_stream] nodes [80] head head_of_list 2 true true
           plain_exit 0).
  vm_compute. reflexivity.
Defined.

Lemma choose_good_exit_server_general_returns_witness :
  is_Some (choose_good_exit_server_general no_exit_options [pending_stream]
             [excluded_exit] [80; 443] head 2 true true).
Proof.
  apply (choose_good_exit_server_general_returns no_exit_options
           [pending_stream] [excluded_exit] [80; 443] head).
  - repeat constructor; discriminate.
  - lia.
Defined.

End ExitChoiceFacts.

(** ** Building the path of a circuit: length and last hop *)

Module PathBuildFacts.
Import OrH PathBuild.

(** A node with an entry in the consensus and a descriptor. *)
Definition known (node : node_t) : Prop :=
  is_Some (rs node) /\ (has_ri node = true \/ has_md node = true).

Lemma known_extend_info node b :
  known node ->
  extend_info_from_node node b = Some (mk_extend_info (identity node)).
Proof.
  intros [[s Hs] Hd]. unfold extend_info_from_node. rewrite Hs. cbn.
  destruct (has_ri node); [reflexivity|].
  destruct Hd as [Hd|Hd]; [discriminate|]. rewrite Hd. reflexivity.
Qed.

Definition closed (hop : crypt_path_t) : Prop :=
  hop_state hop = CPATH_STATE_CLOSED.

Section Facts.
Variable nodelist : list RouteLen.node_t.
Variable server_mode : bool.
Variable choose_good_exit_server : Z -> bool -> bool -> bool -> option node_t.
Variable choose_good_entry_server : Z -> build_circuit_t -> option node_t.
Variable choose_good_middle_server :
  Z -> build_circuit_t -> Z -> option node_t.

Abbreviation extend_cpath :=
  (onion_extend_cpath server_mode choose_good_entry_server
     choose_good_middle_server).
Abbreviation populate_cpath :=
  (onion_populate_cpath server_mode choose_good_entry_server
     choose_good_middle_server).
Abbreviation pick_cpath_exit :=
  (onion_pick_cpath_exit nodelist choose_good_exit_server).

Abbreviation path_len c := (Z.of_nat (length (cpath (circ c)))).
Abbreviation wanted c := (desired_path_len (build_state (circ c))).

(** The choice that failed when the builder gave up on the path of [c]. *)
Definition no_choice (c : build_circuit_t) : Prop :=
  if path_len c =? 0
  then choose_good_entry_server (purpose (circ c)) c = None
  else choose_good_middle_server (purpose (circ c)) c (path_len c) = None.

Section Choices.
Hypothesis entry_known :
  forall p c node, choose_good_entry_server p c = Some node -> known node.
Hypothesis middle_known :
  forall p c n node, choose_good_middle_server p c n = Some node
                     -> known node.

(** One call of [onion_extend_cpath]. *)
Lemma onion_extend_cpath_step c e :
  chosen_exit c = Some e ->
  exists r c',
    extend_cpath c = Some (r, c')
    /\ build_state (circ c') = build_state (circ c)
    /\ purpose (circ c') = purpose (circ c)
    /\ chosen_exit c' = chosen_exit c
    /\ ((r = 1 /\ c' = c /\ wanted c <= path_len c)
        \/ (r = 0 /\ path_len c < wanted c
            /\ exists info,
                 cpath (circ c')
                 = cpath (circ c) ++ [mk_hop CPATH_STATE_CLOSED (Some info)]
                 /\ (path_len c = wanted c - 1 -> info = e))
        \/ (r = -1 /\ c' = c /\ path_len c < wanted c - 1 /\ no_choice c)).
Proof.
  intros He. unfold onion_extend_cpath.
  destruct (wanted c <=? path_len c) eqn:Hdone.
  { exists 1, c. do 4 (split; [first [reflexivity | cbn; congruence]|]).
    left. split; [reflexivity|]. split; [reflexivity|]. lia. }
  destruct (path_len c =? wanted c - 1) eqn:Hlast.
  { rewrite He. cbn [mbind option_bind].
    eexists 0, _. do 4 (split; [first [reflexivity | cbn; congruence]|]).
    right. left. split; [reflexivity|]. split; [lia|].
    exists e. split; [reflexivity|]. reflexivity. }
  destruct (path_len c =? 0) eqn:Hfirst.
  - destruct (choose_good_entry_server (purpose (circ c)) c) as [r|] eqn:Hr.
    + pose proof (entry_known _ _ _ Hr) as Hk.
      rewrite (known_extend_info r _ Hk). destruct Hk as [[s Hs] _].
      rewrite Hs. cbn [mbind option_bind].
      eexists 0, _. do 4 (split; [first [reflexivity | cbn; congruence]|]).
      right. left. split; [reflexivity|]. split; [lia|].
      eexists. split; [reflexivity|]. lia.
    + cbn [mbind option_bind].
      exists (-1), c. do 4 (split; [first [reflexivity | cbn; congruence]|]).
      right. right. split; [reflexivity|]. split; [reflexivity|].
      split; [lia|].
      unfold no_choice. rewrite Hfirst. exact Hr.
  - destruct (choose_good_middle_server (purpose (circ c)) c (path_len c))
      as [r|] eqn:Hr.
    + pose proof (middle_known _ _ _ _ Hr) as Hk.
      rewrite (known_extend_info r _ Hk). destruct Hk as [[s Hs] _].
      rewrite Hs. cbn [mbind option_bind].
      eexists 0, _. do 4 (split; [first [reflexivity | cbn; congruence]|]).
      right. left. split; [reflexivity|]. split; [lia|].
      eexists. split; [reflexivity|]. lia.
    + cbn [mbind option_bind].
      exists (-1), c. do 4 (split; [first [reflexivity | cbn; congruence]|]).
      right. right. split; [reflexivity|]. split; [reflexivity|].
      split; [lia|].
      unfold no_choice. rewrite Hfirst. exact Hr.
Qed.

(** The loop of [onion_populate_cpath], by the number of hops still to
    be chosen. *)
Lemma onion_populate_cpath_loop e : forall fuel c,
  chosen_exit c = Some e ->
  Z.max 0 (wanted c - path_len c) < Z.of_nat fuel ->
  exists r c' new,
    populate_cpath fuel c = Some (r, c')
    /\ cpath (circ c') = cpath (circ c) ++ new
    /\ Forall closed new
    /\ build_state (circ c') = build_state (circ c)
    /\ chosen_exit c' = chosen_exit c
    /\ ((r = 0
         /\ path_len c' = Z.max (path_len c) (wanted c)
         /\ (path_len c < wanted c
             -> extend_info <$> last (cpath (circ c')) = Some (Some e)))
        \/ (r = -1 /\ path_len c' < wanted c - 1 /\ no_choice c')).
Proof.
  induction fuel as [|fuel IH]; intros c He Hfuel.
  { cbn in Hfuel. lia. }
  cbn [onion_populate_cpath].
  destruct (onion_extend_cpath_step c e He)
    as (r & c1 & -> & Hb & Hp & Hx & Hcases).
  cbn [mbind option_bind].
  destruct Hcases as [(-> & -> & Hlen)|[(-> & Hlen & info & Hpath & Hinfo)
                                       |(-> & -> & Hlen & Hno)]].
  - cbn. exists 0, c, []. split; [reflexivity|].
    rewrite app_nil_r. split; [reflexivity|]. split; [constructor|].
    split; [reflexivity|]. split; [reflexivity|].
    left. split; [reflexivity|]. split; [lia|]. lia.
  - cbn [Z.ltb Z.eqb Z.compare].
    assert (Hlen1 : path_len c1 = path_len c + 1).
    { rewrite Hpath, length_app. cbn [length]. lia. }
    destruct (IH c1 ltac:(congruence)
                ltac:(rewrite Hb, Hlen1; lia))
      as (r & c' & new & Hrun & Hpath' & Hclosed & Hb' & Hx' & Hres).
    exists r, c', (mk_hop CPATH_STATE_CLOSED (Some info) :: new).
    split; [exact Hrun|].
    split; [rewrite Hpath', Hpath, <- app_assoc; reflexivity|].
    split; [constructor; [reflexivity|exact Hclosed]|].
    split; [congruence|]. split; [congruence|].
    rewrite Hb, Hlen1 in Hres.
    destruct Hres as [(-> & Hfin & Hlast)|(-> & Hfin & Hno)].
    + left. split; [reflexivity|]. split; [lia|]. intros _.
      destruct (Z.eq_dec (path_len c + 1) (wanted c)) as [Heq|Hne].
      * (* the hop just added was the last one *)
        assert (Hnew : new = []).
        { assert (Hl : path_len c' = path_len c1 + Z.of_nat (length new)).
          { rewrite Hpath', length_app. lia. }
          destruct new; [reflexivity|]. cbn [length] in Hl. lia. }
        subst new. rewrite app_nil_r in Hpath'.
        rewrite Hpath', Hpath, last_snoc. cbn.
        rewrite Hinfo by lia. reflexivity.
      * apply Hlast. lia.
    + right. split; [reflexivity|]. split; [lia|exact Hno].
  - cbn. exists (-1), c, []. split; [reflexivity|].
    rewrite app_nil_r. split; [reflexivity|]. split; [constructor|].
    split; [reflexivity|]. split; [reflexivity|].
    right. split; [reflexivity|]. split; [lia|exact Hno].
Qed.

(** X21.  [onion_populate_cpath], when every node the entry and middle
    choices return has a routerstatus and a descriptor and an exit is
    chosen, returns within one turn per missing hop plus one.  It only
    adds hops, all closed, at the end of the path and leaves the build
    state alone.  On 0 the path has [desired_path_len] hops (or as many
    as it had, if that was more) and, if any hop was added, the last one
    carries the chosen exit; on -1 a choice returned NULL before the last
    position was reached. *)
Theorem onion_populate_cpath_spec e fuel c :
  chosen_exit c = Some e ->
  Z.max 0 (wanted c - path_len c) < Z.of_nat fuel ->
  exists r c' new,
    populate_cpath fuel c = Some (r, c')
    /\ cpath (circ c') = cpath (circ c) ++ new
    /\ Forall closed new
    /\ build_state (circ c') = build_state (circ c)
    /\ chosen_exit c' = chosen_exit c
    /\ ((r = 0
         /\ path_len c' = Z.max (path_len c) (wanted c)
         /\ (path_len c < wanted c
             -> extend_info <$> last (cpath (circ c')) = Some (Some e)))
        \/ (r = -1 /\ path_len c' < wanted c - 1 /\ no_choice c')).
Proof. apply onion_populate_cpath_loop. Qed.

End Choices.

Lemma new_route_len_range p (exit : option extend_info_t) :
  let r := RouteLen.new_route_len p exit nodelist in
  r = -1 \/ 2 <= r <= 4.
Proof.
  unfold RouteLen.new_route_len, DEFAULT_ROUTE_LEN. cbv zeta.
  set (num := RouteLen.count_acceptable_nodes nodelist).
  destruct (_ && _); destruct (Z.ltb_spec num 2); try (left; reflexivity);
    match goal with
    | |- context [num <? ?k] => destruct (Z.ltb_spec num k)
    end; right; lia.
Qed.

(** What [onion_pick_cpath_exit] leaves behind when it returns 0. *)
Lemma onion_pick_cpath_exit_done c exit c' :
  pick_cpath_exit c exit = Some (0, c') ->
  cpath (circ c') = cpath (circ c)
  /\ onehop_tunnel (build_state (circ c'))
     = onehop_tunnel (build_state (circ c))
  /\ is_Some (chosen_exit c')
  /\ (forall e, exit = Some e -> chosen_exit c' = Some e)
  /\ (if onehop_tunnel (build_state (circ c)) then wanted c' = 1
      else 2 <= wanted c' <= 4).
Proof.
  unfold onion_pick_cpath_exit. intros H. cbv zeta in H.
  pose proof (new_route_len_range (purpose (circ c)) exit) as Hr.
  cbv zeta in Hr.
  set (r := RouteLen.new_route_len _ _ _) in *.
  assert (Hlen : exists len,
             (if onehop_tunnel (build_state (circ c)) then Some 1
              else if r <? 1 then None else Some r) = Some len
             /\ (if onehop_tunnel (build_state (circ c)) then len = 1
                 else 2 <= len <= 4)).
  { destruct (onehop_tunnel (build_state (circ c))); [eauto|].
    destruct (r <? 1) eqn:Hlt.
    - discriminate H.
    - exists r. split; [reflexivity|]. lia. }
  destruct Hlen as (len & Hlen & Hrange). rewrite Hlen in H.
  destruct exit as [e|].
  - injection H as <-. cbn.
    split; [reflexivity|]. split; [reflexivity|]. split; [eauto|].
    split; [intros ? [= <-]; reflexivity|exact Hrange].
  - destruct (choose_good_exit_server _ _ _ _) as [node|]; [|discriminate].
    destruct (extend_info_from_node node false) as [e|];
      cbn [mbind option_bind] in H; [|discriminate].
    destruct (rs node) as [s|]; cbn [mbind option_bind] in H;
      [|discriminate].
    injection H as <-. cbn.
    split; [reflexivity|]. split; [reflexivity|]. split; [eauto|].
    split; [discriminate|exact Hrange].
Qed.

(** X22.  The path of a new circuit, when every node the entry and middle
    choices return has a routerstatus and a descriptor (without a
    routerstatus the builder crashes, see X23).  After
    [onion_pick_cpath_exit] has returned 0 on a circuit without hops,
    [onion_populate_cpath] returns within five turns, 0 or -1; when it
    returns 0 the path has exactly [desired_path_len] hops, which is 1 for
    a one-hop tunnel and between 2 and 4 otherwise, all hops are closed,
    and the last hop carries the chosen exit, which is the requested one
    if one was given. *)
Theorem new_circuit_path c exit c1 fuel :
  (forall p c node, choose_good_entry_server p c = Some node
                    -> known node) ->
  (forall p c n node, choose_good_middle_server p c n = Some node
                      -> known node) ->
  cpath (circ c) = [] ->
  (5 <= fuel)%nat ->
  pick_cpath_exit c exit = Some (0, c1) ->
  exists r c2,
    populate_cpath fuel c1 = Some (r, c2)
    /\ (r = 0 \/ r = -1)
    /\ (r = 0 ->
        path_len c2 = wanted c2
        /\ (if onehop_tunnel (build_state (circ c)) then path_len c2 = 1
            else 2 <= path_len c2 <= 4)
        /\ Forall closed (cpath (circ c2))
        /\ extend_info <$> last (cpath (circ c2)) = Some (chosen_exit c2)
        /\ (forall e, exit = Some e
                      -> extend_info <$> last (cpath (circ c2))
                         = Some (Some e))).
Proof.
  intros Hentry Hmiddle Hempty Hfuel Hpick.
  destruct (onion_pick_cpath_exit_done c exit c1 Hpick)
    as (Hpath & Hone & [e He] & Hexit & Hrange).
  rewrite Hempty in Hpath.
  assert (Hlen1 : path_len c1 = 0) by (rewrite Hpath; reflexivity).
  assert (Hw : 1 <= wanted c1 <= 4).
  { destruct (onehop_tunnel (build_state (circ c))); lia. }
  destruct (onion_populate_cpath_loop Hentry Hmiddle e fuel c1 He
              ltac:(lia))
    as (r & c2 & new & Hrun & Hpath2 & Hclosed & Hb & Hx & Hres).
  exists r, c2. split; [exact Hrun|].
  split; [destruct Hres as [(-> & _)|(-> & _)]; auto|].
  intros ->. destruct Hres as [(_ & Hfin & Hlast)|(Hr & _)]; [|lia].
  rewrite Hlen1 in Hfin, Hlast. rewrite Hb.
  split; [lia|].
  split; [destruct (onehop_tunnel (build_state (circ c))); lia|].
  split; [rewrite Hpath2, Hpath; exact Hclosed|].
  specialize (Hlast ltac:(lia)).
  split; [rewrite Hlast, Hx, He; reflexivity|].
  intros e' He'. rewrite Hlast. specialize (Hexit e' He').
  congruence.
Qed.

(** X23.  A node without a routerstatus crashes the path builder, also
    when [extend_info_from_node] accepts it (it has a routerinfo): for the
    exit chosen by [onion_pick_cpath_exit], and for the entry and each
    middle node chosen by [onion_extend_cpath], [rs->bandwidth_kb] is read
    with no check of [rs]. *)
Theorem path_builder_needs_routerstatus node :
  rs node = None ->
  (forall c,
      choose_good_exit_server (purpose (circ c)) (need_uptime c)
        (need_capacity c) (is_internal c) = Some node ->
      onehop_tunnel (build_state (circ c)) = true
      \/ 1 <= RouteLen.new_route_len (purpose (circ c))
                (@None extend_info_t) nodelist ->
      pick_cpath_exit c None = None)
  /\ (forall c,
         choose_good_entry_server (purpose (circ c)) c = Some node ->
         path_len c = 0 -> 1 < wanted c ->
         extend_cpath c = None)
  /\ (forall c,
         choose_good_middle_server (purpose (circ c)) c (path_len c)
         = Some node ->
         0 < path_len c < wanted c - 1 ->
         extend_cpath c = None).
Proof.
  intros Hrs. split; [|split].
  - intros c Hnode Hlen. unfold onion_pick_cpath_exit. cbv zeta.
    assert (Hsome : exists len,
               (if onehop_tunnel (build_state (circ c)) then Some 1
                else if RouteLen.new_route_len (purpose (circ c))
                          (@None extend_info_t) nodelist <? 1
                     then None
                     else Some (RouteLen.new_route_len (purpose (circ c))
                                  (@None extend_info_t) nodelist))
               = Some len).
    { destruct (onehop_tunnel (build_state (circ c))); [eauto|].
      destruct Hlen as [Hlen|Hlen]; [discriminate|].
      destruct (Z.ltb_spec (RouteLen.new_route_len (purpose (circ c))
                              (@None extend_info_t) nodelist) 1);
        [lia|eauto]. }
    destruct Hsome as [len ->]. cbn. rewrite Hnode.
    destruct (extend_info_from_node node false); [|reflexivity].
    cbn. rewrite Hrs. reflexivity.
  - intros c Hnode Hlen Hw. unfold onion_extend_cpath.
    rewrite Hlen.
    destruct (Z.leb_spec (wanted c) 0); [lia|].
    destruct (Z.eqb_spec 0 (wanted c - 1)); [lia|].
    cbn [Z.eqb]. rewrite Hnode.
    destruct (extend_info_from_node node _); [|reflexivity].
    cbn. rewrite Hrs. reflexivity.
  - intros c Hnode Hlen. unfold onion_extend_cpath.
    destruct (Z.leb_spec (wanted c) (path_len c)); [lia|].
    destruct (Z.eqb_spec (path_len c) (wanted c - 1)); [lia|].
    destruct (Z.eqb_spec (path_len c) 0); [lia|].
    rewrite Hnode.
    destruct (extend_info_from_node node _); [|reflexivity].
    cbn. rewrite Hrs. reflexivity.
Qed.

End Facts.

(** *** A client that builds a three-hop path *)

Definition relay_node (n : Z) : node_t :=
  mk_node (repeat n 20) true (Some (mk_routerstatus 100)) true "10.0.0.1".

(** A bridge: known by its descriptor, not by the consensus. *)
Definition bridge_node : node_t :=
  mk_node (repeat 9 20) true None false "10.0.0.9".

Definition new_origin (onehop : bool) (len : Z) : origin_circuit_t :=
  mk_origin CIRCUIT_PURPOSE_C_GENERAL 0 None 0 0 []
    (mk_build_state onehop len) false PATH_STATE_NEW_CIRC
    PATHBIAS_SHOULDCOUNT_UNDECIDED 0 0 1.

Definition new_circuit (onehop : bool) (len : Z)
    (exit : option extend_info_t) : build_circuit_t :=
  mk_build (new_origin onehop len) true true false exit
    EmptyString 0 EmptyString 0 EmptyString 0.

Definition ten_nodes : list RouteLen.node_t :=
  repeat (RouteLen.mk_node true true true) 10.

Definition entry_1 : Z -> build_circuit_t -> option node_t :=
  fun _ _ => Some (relay_node 1).
Definition middle_2 : Z -> build_circuit_t -> Z -> option node_t :=
  fun _ _ _ => Some (relay_node 2).
Definition exit_3 : Z -> bool -> bool -> bool -> option node_t :=
  fun _ _ _ _ => Some (relay_node 3).

Lemma relay_node_known n : known (relay_node n).
Proof. split; [eexists; reflexivity|left; reflexivity]. Qed.

Lemma onion_populate_cpath_spec_witness :
  let c := new_circuit false 3 (Some (mk_extend_info (repeat 3 20))) in
  exists r c' new,
    onion_populate_cpath false entry_1 middle_2 4 c = Some (r, c')
    /\ cpath (circ c') = cpath (circ c) ++ new
    /\ Forall closed new
    /\ build_state (circ c') = build_state (circ c)
    /\ chosen_exit c' = chosen_exit c
    /\ ((r = 0
         /\ Z.of_nat (length (cpath (circ c')))
            = Z.max (Z.of_nat (length (cpath (circ c))))
                (desired_path_len (build_state (circ c)))
         /\ (Z.of_nat (length (cpath (circ c)))
             < desired_path_len (build_state (circ c))
             -> extend_info <$> last (cpath (circ c'))
                = Some (Some (mk_extend_info (repeat 3 20)))))
        \/ (r = -1
            /\ Z.of_nat (length (cpath (circ c')))
               < desired_path_len (build_state (circ c)) - 1
            /\ no_choice entry_1 middle_2 c')).
Proof.
  intros c.
  apply (onion_populate_cpath_spec false entry_1 middle_2).
  - intros p c0 node [= <-]. apply relay_node_known.
  - intros p c0 n node [= <-]. apply relay_node_known.
  - reflexivity.
  - cbn. lia.
Defined.

Lemma new_circuit_path_witness :
  exists r c2,
    onion_populate_cpath false entry_1 middle_2 5
      (set_chosen_exit
         (set_exit (set_desired_path_len (new_circuit false 0 None) 3)
            "10.0.0.1" 100)
         (Some (mk_extend_info (repeat 3 20))))
    = Some (r, c2)
    /\ (r = 0 \/ r = -1)
    /\ (r = 0 ->
        Z.of_nat (length (cpath (circ c2)))
        = desired_path_len (build_state (circ c2))
        /\ 2 <= Z.of_nat (length (cpath (circ c2))) <= 4
        /\ Forall closed (cpath (circ c2))
        /\ extend_info <$> last (cpath (circ c2)) = Some (chosen_exit c2)
        /\ (forall e, @None extend_info_t = Some e
                      -> extend_info <$> last (cpath (circ c2))
                         = Some (Some e))).
Proof.
  apply (new_circuit_path ten_nodes false exit_3 entry_1 middle_2
           (new_circuit false 0 None) None).
  - intros p c0 node [= <-]. apply relay_node_known.
  - intros p c0 n node [= <-]. apply relay_node_known.
  - reflexivity.
  - lia.
  - vm_compute. reflexivity.
Defined.

Lemma path_builder_needs_routerstatus_witness :
  extend_info_from_node bridge_node true
  = Some (mk_extend_info (repeat 9 20))
  /\ onion_extend_cpath false (fun _ _ => Some bridge_node) middle_2
       (new_circuit false 3 (Some (mk_extend_info (repeat 3 20))))
     = None.
Proof.
  split; [reflexivity|].
  destruct (path_builder_needs_routerstatus ten_nodes false exit_3
              (fun _ _ => Some bridge_node) middle_2 bridge_node eq_refl)
    as (_ & Hentry & _).
  apply Hentry.
  - reflexivity.
  - reflexivity.
  - cbn. lia.
Defined.

End PathBuildFacts.

(** ** The end of a handshake: which hop opens *)

Module HandshakeFacts.
Import OrH Handshake.

Definition open (hop : crypt_path_t) : Prop :=
  hop_state hop = CPATH_STATE_OPEN.

Lemma first_not_open_prefix opens hop rest :
  Forall open opens -> hop_state hop <> CPATH_STATE_OPEN ->
  PathBuild.first_not_open (opens ++ hop :: rest) = Some (length opens).
Proof.
  intros Hopen Hhop. induction Hopen as [|h opens Hh _ IH].
  - cbn. destruct (hop_state hop); [reflexivity..|congruence].
  - cbn [app PathBuild.first_not_open length]. rewrite Hh, IH. reflexivity.
Qed.

Lemma first_not_open_none hops :
  Forall open hops -> PathBuild.first_not_open hops = None.
Proof.
  induction 1 as [|h hops Hh _ IH]; [reflexivity|].
  cbn [PathBuild.first_not_open]. rewrite Hh, IH. reflexivity.
Qed.

Section Facts.
Variable cipher : Type.
Variable crypto_cipher_new : list Z -> option cipher.
Context {D : Type} {DO : DoubleOps D}.
Variable options : or_options_t D.
Variable get_param : string -> Z -> Z -> Z -> Z.
Variable ext : extern_t.

Abbreviation finish_handshake :=
  (circuit_finish_handshake cipher crypto_cipher_new options get_param ext).
Abbreviation origin_at := (@PathBiasFacts.origin_at D).

(** The keys [circuit_init_cpath_crypto] installs from [key_data] at the
    client: both ciphers could be made. *)
Definition keyed (key_data : list Z) (hop_keys : cpath_crypto cipher)
  : Prop :=
  exists fc bc,
    crypto_cipher_new (bytes_at key_data 40 16) = Some fc
    /\ crypto_cipher_new (bytes_at key_data 56 16) = Some bc
    /\ hop_keys = mk_crypto cipher (Some fc) (Some bc)
                    (Some (bytes_at key_data 0 20))
                    (Some (bytes_at key_data 20 20)).

Definition no_keys : cpath_crypto cipher := mk_crypto cipher None None None None.

(** The handling of a reply for the hop that awaits its keys. *)
Lemma circuit_finish_handshake_run w i c opens hop rest handshake keys :
  origin_at w i c ->
  cpath c = opens ++ hop :: rest ->
  Forall open opens ->
  hop_state hop = CPATH_STATE_AWAITING_KEYS ->
  keys !! length opens = Some no_keys ->
  exists r keys' w' c',
    finish_handshake i handshake keys w = Some ((r, keys'), w')
    /\ origin_at w' i c'
    /\ (r = 0 \/ r = - END_CIRC_REASON_TORPROTOCOL)
    /\ cpath c'
       = (if r =? 0
          then opens ++ set_hop_state hop CPATH_STATE_OPEN :: rest
          else cpath c)
    /\ (r = 0 ->
        exists key_data hop_keys,
          handshake = Some key_data /\ keyed key_data hop_keys
          /\ keys' = <[length opens := hop_keys]> keys)
    /\ (pathbias_is_new_circ_attempt c = false ->
        (exists key_data hop_keys,
            handshake = Some key_data /\ keyed key_data hop_keys) ->
        r = 0)
    /\ ext_calls w' = ext_calls w.
Proof.
  intros H Hc Hopen Hhop Hkeys.
  destruct (PathBiasFacts.pathbias_count_build_attempt_keeps options
              get_param ext w i c H)
    as (r0 & w1 & c1 & Hrun & H1 & Hc1 & Hr0 & Hnew & Hext).
  unfold circuit_finish_handshake.
  rewrite (PathBiasFacts.bind_run _ _ _ _ _ Hrun).
  destruct Hr0 as [-> | ->].
  2: { cbn. exists (-1), keys, w1, c1. split; [reflexivity|].
       split; [exact H1|]. split; [right; reflexivity|].
       split; [exact Hc1|]. split; [discriminate|].
       split; [|exact Hext].
       intros Hn. specialize (Hnew Hn). discriminate. }
  cbn [Z.ltb Z.compare].
  rewrite (PathBiasFacts.bind_run _ _ _ _ _
             (PathBiasFacts.run_get_origin _ _ _ H1)).
  rewrite <- Hc1 in Hc. rewrite Hc.
  rewrite (first_not_open_prefix opens hop rest Hopen)
    by (rewrite Hhop; discriminate).
  assert (Hk : match opens ++ hop :: rest with
               | [] => None
               | first :: _ =>
                   Some (if cpath_state_eqb (hop_state first)
                              CPATH_STATE_AWAITING_KEYS
                         then Some O else Some (length opens))
               end = Some (Some (length opens))).
  { destruct Hopen as [|o opens Ho _]; cbn [app length].
    - rewrite Hhop. reflexivity.
    - rewrite Ho. reflexivity. }
  destruct (opens ++ hop :: rest) as [|first path] eqn:Hpath;
    [discriminate|].
  injection Hk as ->.
  rewrite <- Hpath, list_lookup_middle by reflexivity.
  rewrite Hkeys, Hhop. cbn [cpath_state_eqb negb].
  destruct handshake as [key_data|].
  2: { exists (-1), keys, w1, c1. split; [reflexivity|].
       split; [exact H1|]. split; [right; reflexivity|].
       split; [exact Hc1|]. split; [discriminate|].
       split; [|exact Hext].
       intros _ (kd & hk & Hkd & _). discriminate. }
  unfold circuit_init_cpath_crypto, no_keys.
  cbn [f_crypto b_crypto f_digest b_digest non_null orb].
  change (bytes_at key_data (2 * DIGEST_LEN) CIPHER_KEY_LEN)
    with (bytes_at key_data 40 16).
  change (bytes_at key_data (2 * DIGEST_LEN + CIPHER_KEY_LEN) CIPHER_KEY_LEN)
    with (bytes_at key_data 56 16).
  change (bytes_at key_data DIGEST_LEN DIGEST_LEN)
    with (bytes_at key_data 20 20).
  change (bytes_at key_data 0 DIGEST_LEN) with (bytes_at key_data 0 20).
  destruct (crypto_cipher_new (bytes_at key_data 40 16)) as [fc|] eqn:Hfc.
  2: { cbn. eexists (-1), _, w1, c1. split; [reflexivity|].
       split; [exact H1|]. split; [right; reflexivity|].
       split; [exact Hc1|]. split; [discriminate|].
       split; [|exact Hext].
       intros _ (kd & hk & [= <-] & fc & bc & Hfc' & _). congruence. }
  cbn [non_null negb].
  destruct (crypto_cipher_new (bytes_at key_data 56 16)) as [bc|] eqn:Hbc.
  2: { cbn. eexists (-1), _, w1, c1. split; [reflexivity|].
       split; [exact H1|]. split; [right; reflexivity|].
       split; [exact Hc1|]. split; [discriminate|].
       split; [|exact Hext].
       intros _ (kd & hk & [= <-] & fc' & bc & _ & Hbc' & _). congruence. }
  cbn [non_null negb Z.ltb Z.compare].
  rewrite (PathBiasFacts.bind_run _ _ _ _ _
             (PathBiasFacts.run_put_origin _ _ _)).
  eexists 0, _, _, _. split; [reflexivity|].
  split; [eapply PathBiasFacts.origin_at_upd_circ, H1|].
  split; [left; reflexivity|].
  split.
  { cbn [cpath PathBuild.set_cpath Z.eqb].
    rewrite insert_app_r_alt, Nat.sub_diag by lia.
    reflexivity. }
  split.
  { intros _. eexists key_data, _. split; [reflexivity|].
    split; [exists fc, bc; eauto|reflexivity]. }
  split; [reflexivity|exact Hext].
Qed.

(** X24.  A reply for the hop that awaits its keys.  On a path whose
    first hop that is not open awaits its keys and has none yet,
    [circuit_finish_handshake] returns 0 or -END_CIRC_REASON_TORPROTOCOL;
    it sends no relay cell and marks no circuit for close.  On 0 exactly
    that hop has become open and
    holds the keys cut from the key material of the handshake (digests
    from bytes 0..19 and 20..39, ciphers from bytes 40..55 and 56..71);
    otherwise every hop keeps its state.  Unless the attempt counting of
    the second hop intervenes, 0 is returned whenever the handshake and
    both ciphers succeed. *)
Theorem circuit_finish_handshake_opens w i c opens hop rest handshake keys :
  origin_at w i c ->
  cpath c = opens ++ hop :: rest ->
  Forall open opens ->
  hop_state hop = CPATH_STATE_AWAITING_KEYS ->
  keys !! length opens = Some no_keys ->
  exists r keys' w' c',
    finish_handshake i handshake keys w = Some ((r, keys'), w')
    /\ origin_at w' i c'
    /\ (r = 0 \/ r = - END_CIRC_REASON_TORPROTOCOL)
    /\ cpath c'
       = (if r =? 0
          then opens ++ set_hop_state hop CPATH_STATE_OPEN :: rest
          else cpath c)
    /\ (r = 0 ->
        exists key_data hop_keys,
          handshake = Some key_data /\ keyed key_data hop_keys
          /\ keys' = <[length opens := hop_keys]> keys)
    /\ (pathbias_is_new_circ_attempt c = false ->
        (exists key_data hop_keys,
            handshake = Some key_data /\ keyed key_data hop_keys) ->
        r = 0)
    /\ ext_calls w' = ext_calls w.
Proof. apply circuit_finish_handshake_run. Qed.

(** X25.  A reply with no handshake pending.  When every hop is open,
    [circuit_finish_handshake] returns -END_CIRC_REASON_TORPROTOCOL and
    changes neither the path nor the keys.  When the first hop that is
    not open is closed (no create or extend cell was sent for it), the
    [tor_assert] on its state fails, unless the attempt counting of the
    second hop has returned an error before. *)
Theorem circuit_finish_handshake_not_pending w i c handshake keys :
  origin_at w i c ->
  (cpath c <> [] -> Forall open (cpath c) ->
   exists w' c',
     finish_handshake i handshake keys w
     = Some ((- END_CIRC_REASON_TORPROTOCOL, keys), w')
     /\ origin_at w' i c' /\ cpath c' = cpath c
     /\ ext_calls w' = ext_calls w)
  /\ (forall opens hop rest,
         cpath c = opens ++ hop :: rest -> Forall open opens ->
         hop_state hop = CPATH_STATE_CLOSED ->
         pathbias_is_new_circ_attempt c = false ->
         finish_handshake i handshake keys w = None).
Proof.
  intros H.
  destruct (PathBiasFacts.pathbias_count_build_attempt_keeps options
              get_param ext w i c H)
    as (r0 & w1 & c1 & Hrun & H1 & Hc1 & _ & Hnew & Hext).
  unfold circuit_finish_handshake.
  rewrite (PathBiasFacts.bind_run _ _ _ _ _ Hrun).
  split.
  - intros Hne Hopen.
    assert (Hn : pathbias_is_new_circ_attempt c = false).
    { unfold pathbias_is_new_circ_attempt.
      destruct Hopen as [|h1 path _ Hopen]; [reflexivity|].
      destruct Hopen as [|h2 path Hh2 _]; [reflexivity|].
      rewrite Hh2. reflexivity. }
    rewrite (Hnew Hn). cbn [Z.ltb Z.compare].
    rewrite (PathBiasFacts.bind_run _ _ _ _ _
               (PathBiasFacts.run_get_origin _ _ _ H1)).
    rewrite Hc1. rewrite (first_not_open_none _ Hopen).
    destruct Hopen as [|h1 path Hh1 _]; [congruence|].
    rewrite Hh1. cbn [cpath_state_eqb].
    exists w1, c1. split; [reflexivity|]. auto.
  - intros opens hop rest Hc Hopen Hhop Hn.
    rewrite (Hnew Hn). cbn [Z.ltb Z.compare].
    rewrite (PathBiasFacts.bind_run _ _ _ _ _
               (PathBiasFacts.run_get_origin _ _ _ H1)).
    rewrite Hc1, Hc.
    rewrite (first_not_open_prefix opens hop rest Hopen)
      by (rewrite Hhop; discriminate).
    assert (Hk : match opens ++ hop :: rest with
                 | [] => None
                 | first :: _ =>
                     Some (if cpath_state_eqb (hop_state first)
                                CPATH_STATE_AWAITING_KEYS
                           then Some O else Some (length opens))
                 end = Some (Some (length opens))).
    { destruct Hopen as [|o opens Ho _]; cbn [app length].
      - rewrite Hhop. reflexivity.
      - rewrite Ho. reflexivity. }
    destruct (opens ++ hop :: rest) as [|first path] eqn:Hpath;
      [discriminate|].
    injection Hk as ->.
    rewrite <- Hpath, list_lookup_middle by reflexivity.
    rewrite Hhop. cbn [cpath_state_eqb negb].
    destruct (keys !! length opens); reflexivity.
Qed.

End Facts.

(** *** The reply of the second hop *)

Import PathBiasScenarios.

(** Ciphers that keep their key; the key material of one handshake. *)
Definition plain_cipher_new (key : list Z) : option (list Z) := Some key.
Definition key_material : list Z := Z.of_nat <$> seq 0 72.

Lemma circuit_finish_handshake_opens_witness :
  exists r keys' w' c',
    circuit_finish_handshake (list Z) plain_cipher_new default_options
      no_params sample_extern 0 (Some key_material)
      (repeat (no_keys (list Z)) 3) (world_of building_circuit fresh_guard)
    = Some ((r, keys'), w')
    /\ PathBiasFacts.origin_at w' 0 c'
    /\ cpath c'
       = (if r =? 0
          then [open_hop guard_id; open_hop middle_id;
                mk_hop CPATH_STATE_CLOSED (Some (mk_extend_info exit_id))]
          else cpath building_circuit).
Proof.
  destruct (circuit_finish_handshake_opens (list Z) plain_cipher_new
              default_options no_params sample_extern
              (world_of building_circuit fresh_guard) 0%nat building_circuit
              [open_hop guard_id]
              (mk_hop CPATH_STATE_AWAITING_KEYS
                 (Some (mk_extend_info middle_id)))
              [mk_hop CPATH_STATE_CLOSED (Some (mk_extend_info exit_id))]
              (Some key_material) (repeat (no_keys (list Z)) 3))
    as (r & keys' & w' & c' & Hrun & Hat & _ & Hpath & _).
  - reflexivity.
  - reflexivity.
  - repeat constructor.
  - reflexivity.
  - reflexivity.
  - exists r, keys', w', c'. split; [exact Hrun|]. split; [exact Hat|].
    exact Hpath.
Defined.

Lemma circuit_finish_handshake_not_pending_witness :
  exists w' c',
    circuit_finish_handshake (list Z) plain_cipher_new default_options
      no_params sample_extern 0 (Some key_material)
      (repeat (no_keys (list Z)) 3)
      (world_of (built_circuit PATH_STATE_BUILD_SUCCEEDED) fresh_guard)
    = Some ((- END_CIRC_REASON_TORPROTOCOL, repeat (no_keys (list Z)) 3), w')
    /\ PathBiasFacts.origin_at w' 0 c'
    /\ cpath c' = cpath (built_circuit PATH_STATE_BUILD_SUCCEEDED)
    /\ ext_calls w' = [].
Proof.
  destruct (circuit_finish_handshake_not_pending (list Z) plain_cipher_new
              default_options no_params sample_extern
              (world_of (built_circuit PATH_STATE_BUILD_SUCCEEDED)
                 fresh_guard)
              0%nat (built_circuit PATH_STATE_BUILD_SUCCEEDED)
              (Some key_material) (repeat (no_keys (list Z)) 3) eq_refl)
    as [Hall _].
  apply Hall.
  - discriminate.
  - repeat constructor.
Defined.

End HandshakeFacts.

(** ** Reporting the links of a path: what is noted *)

Module RepHistFacts.
Import OrH PathBiasData RepHist.

Definition is_success (call : rep_hist_call) : Prop :=
  match call with
  | Call_rep_hist_note_extend_succeeded _ _ => True
  | Call_rep_hist_note_extend_failed _ _ => False
  end.

Definition succeeded (call : rep_hist_call) : bool :=
  match call with
  | Call_rep_hist_note_extend_succeeded _ _ => true
  | Call_rep_hist_note_extend_failed _ _ => false
  end.

(** Notes of success, followed by at most one note of failure. *)
Definition successes_then_failure (calls : list rep_hist_call) : Prop :=
  exists ok tail,
    calls = ok ++ tail /\ Forall is_success ok
    /\ (tail = [] \/ exists a b, tail = [Call_rep_hist_note_extend_failed a b]).

Definition count_open (hops : list crypt_path_t) : nat :=
  length (List.filter
            (fun hop => cpath_state_eqb (hop_state hop) CPATH_STATE_OPEN)
            hops).

Section Facts.
Variable server_mode : bool.
Variable router_get_my_routerinfo : option (list Z).
Variable node_get_by_id : list Z -> option (list Z).

Abbreviation loop := (note_loop node_get_by_id).

Lemma note_loop_shape : forall hops prev calls,
  loop hops prev = Some calls ->
  successes_then_failure calls
  /\ (length calls <= length hops)%nat
  /\ (prev = None -> hops <> [] -> (length calls < length hops)%nat)
  /\ (length (List.filter
                succeeded calls)
      <= count_open hops)%nat.
Proof.
  induction hops as [|hop rest IH]; intros prev calls H.
  { injection H as <-. split; [exists [], []; auto|].
    split; [reflexivity|]. split; [congruence|]. reflexivity. }
  cbn [note_loop] in H.
  destruct (extend_info hop) as [ei|]; cbn [mbind option_bind] in H;
    [|discriminate].
  unfold count_open. cbn [List.filter length succeeded].
  destruct (node_get_by_id (identity_digest ei)) as [node|].
  - destruct prev as [prev|].
    + destruct (cpath_state_eqb (hop_state hop) CPATH_STATE_OPEN).
      * destruct (loop rest (Some node)) as [calls'|] eqn:Hrest;
          cbn [mbind option_bind] in H; [|discriminate].
        injection H as <-.
        destruct (IH _ _ Hrest)
          as ((ok & tail & -> & Hok & Htail) & Hlen & _ & Hopen).
        split.
        { exists (Call_rep_hist_note_extend_succeeded prev node :: ok), tail.
          split; [reflexivity|]. split; [constructor; [exact I|exact Hok]|].
          exact Htail. }
        cbn [length List.filter succeeded]. unfold count_open in Hopen.
        split; [lia|]. split; [discriminate|]. lia.
      * injection H as <-. split.
        { exists [], [Call_rep_hist_note_extend_failed prev node].
          split; [reflexivity|]. split; [constructor|]. right. eauto. }
        cbn [length List.filter succeeded]. split; [lia|]. split; [discriminate|]. lia.
    + destruct (IH _ _ H) as (Hshape & Hlen & _ & Hopen).
      split; [exact Hshape|]. unfold count_open in Hopen.
      split; [lia|]. split; [intros _ _; lia|].
      destruct (cpath_state_eqb _ _); cbn [length]; lia.
  - destruct (IH _ _ H) as (Hshape & Hlen & _ & Hopen).
    split; [exact Hshape|]. unfold count_open in Hopen.
    split; [lia|]. split; [intros _ _; lia|].
    destruct (cpath_state_eqb _ _); cbn [length]; lia.
Qed.

(** X26.  What [circuit_rep_hist_note_result] reports: notes of
    successful extends followed by at most one note of a failed extend,
    after which it stops; never more notes than the path has hops, and
    never more notes of success than the path has open hops.  A client
    (not in server mode) notes nothing for the first hop, so it makes
    fewer notes than there are hops. *)
Theorem circuit_rep_hist_note_result_shape circ calls :
  circuit_rep_hist_note_result server_mode router_get_my_routerinfo
    node_get_by_id circ = Some calls ->
  successes_then_failure calls
  /\ (length calls <= length (cpath circ))%nat
  /\ (server_mode = false -> cpath circ <> []
      -> (length calls < length (cpath circ))%nat)
  /\ (length (List.filter
                succeeded calls)
      <= count_open (cpath circ))%nat.
Proof.
  unfold circuit_rep_hist_note_result. intros H.
  assert (Hnone : calls = [] ->
            successes_then_failure calls
            /\ (length calls <= length (cpath circ))%nat
            /\ (server_mode = false -> cpath circ <> []
                -> (length calls < length (cpath circ))%nat)
            /\ (length (List.filter
                          succeeded calls)
                <= count_open (cpath circ))%nat).
  { intros ->. split; [exists [], []; auto|]. cbn [length List.filter succeeded].
    split; [lia|]. split; [|lia].
    intros _ Hne. destruct (cpath circ); [congruence|cbn; lia]. }
  destruct (cpath circ) as [|hop rest] eqn:Hpath.
  { injection H as <-. apply Hnone. reflexivity. }
  destruct server_mode.
  - destruct router_get_my_routerinfo as [me|].
    + destruct (note_loop_shape _ _ _ H) as (Hs & Hl & _ & Ho).
      split; [exact Hs|]. split; [exact Hl|]. split; [discriminate|exact Ho].
    + injection H as <-. apply Hnone. reflexivity.
  - destruct (note_loop_shape _ _ _ H) as (Hs & Hl & Hlt & Ho).
    split; [exact Hs|]. split; [exact Hl|].
    split; [intros _ _; apply Hlt; [reflexivity|discriminate]|exact Ho].
Qed.

End Facts.

(** *** A client whose second hop did not answer *)

Definition known_nodes (id : list Z) : option (list Z) := Some id.

Lemma circuit_rep_hist_note_result_shape_witness :
  let calls :=
    [Call_rep_hist_note_extend_failed PathBiasScenarios.guard_id
       PathBiasScenarios.middle_id] in
  successes_then_failure calls
  /\ (length calls <= 3)%nat
  /\ (false = false -> cpath PathBiasScenarios.building_circuit <> []
      -> (length calls < 3)%nat)
  /\ (length (List.filter
                succeeded calls)
      <= count_open (cpath PathBiasScenarios.building_circuit))%nat.
Proof.
  intros calls.
  apply (circuit_rep_hist_note_result_shape false None known_nodes
           PathBiasScenarios.building_circuit calls).
  reflexivity.
Defined.

End RepHistFacts.

(** ** The next onion skin: the shape of a path under construction *)

Module BuildStepFacts.
Import OrH BuildStep.

Abbreviation open := HandshakeFacts.open.
Definition awaiting (hop : crypt_path_t) : Prop :=
  hop_state hop = CPATH_STATE_AWAITING_KEYS.
Definition closed (hop : crypt_path_t) : Prop :=
  hop_state hop = CPATH_STATE_CLOSED.

(** A path under construction: open hops, then at most one hop that
    awaits its keys, then closed hops. *)
Definition building_shape (path : list crypt_path_t) : Prop :=
  exists opens waiting closeds,
    path = opens ++ waiting ++ closeds
    /\ Forall open opens /\ Forall awaiting waiting /\ Forall closed closeds
    /\ (length waiting <= 1)%nat.

Definition count_open (path : list crypt_path_t) : nat :=
  length (List.filter
            (fun hop => cpath_state_eqb (hop_state hop) CPATH_STATE_OPEN)
            path).

Abbreviation first_not_open := PathBuild.first_not_open.

(** The first hop that is not open splits the path. *)
Lemma first_not_open_split path k :
  first_not_open path = Some k ->
  exists opens hop rest,
    path = opens ++ hop :: rest /\ Forall open opens
    /\ hop_state hop <> CPATH_STATE_OPEN /\ k = length opens.
Proof.
  revert k. induction path as [|h path IH]; intros k; [discriminate|].
  cbn [PathBuild.first_not_open].
  destruct (cpath_state_eqb (hop_state h) CPATH_STATE_OPEN) eqn:Hh;
    cbn [negb].
  - destruct (first_not_open path) as [j|]; [|discriminate].
    intros [= <-]. destruct (IH j eq_refl) as (opens & hop & rest & -> & Ho
                                                & Hhop & ->).
    exists (h :: opens), hop, rest. repeat split; try assumption.
    constructor; [|exact Ho]. unfold HandshakeFacts.open.
    destruct (hop_state h); try discriminate. reflexivity.
  - intros [= <-]. exists [], h, path. repeat split; [constructor|].
    intros E. rewrite E in Hh. discriminate.
Qed.

Lemma count_open_app p q : count_open (p ++ q) = (count_open p + count_open q)%nat.
Proof. unfold count_open. rewrite List.filter_app, length_app. reflexivity. Qed.

Lemma count_open_all path : Forall open path -> count_open path = length path.
Proof.
  induction 1 as [|h path Hh _ IH]; [reflexivity|].
  unfold count_open in *. cbn [List.filter]. rewrite Hh. cbn. lia.
Qed.

(** The hop a step works on, in a path of the building shape. *)
Lemma shape_split path opens hop rest :
  building_shape path -> path = opens ++ hop :: rest ->
  Forall open opens -> hop_state hop <> CPATH_STATE_OPEN ->
  Forall closed rest.
Proof.
  intros (os & ws & cs & -> & Hos & Hws & Hcs & Hlen) Hp Hopens Hhop.
  assert (Hk : first_not_open (os ++ ws ++ cs) = Some (length opens))
    by (rewrite Hp; apply HandshakeFacts.first_not_open_prefix; assumption).
  destruct ws as [|wt ws].
  - cbn [app] in *. destruct cs as [|c cs].
    + rewrite app_nil_r, HandshakeFacts.first_not_open_none in Hk by exact Hos.
      discriminate.
    + apply Forall_cons in Hcs as [Hc Hcs].
      rewrite HandshakeFacts.first_not_open_prefix in Hk
        by (try assumption; rewrite Hc; discriminate).
      injection Hk as Hk.
      apply app_inj_1 in Hp as [_ Hp]; [|exact Hk].
      injection Hp as _ <-. exact Hcs.
  - destruct ws; [|cbn in Hlen; lia].
    apply Forall_cons in Hws as [Hw _].
    cbn [app] in *.
    rewrite HandshakeFacts.first_not_open_prefix in Hk
      by (try assumption; rewrite Hw; discriminate).
    injection Hk as Hk.
    apply app_inj_1 in Hp as [_ Hp]; [|exact Hk].
    injection Hp as _ <-. exact Hcs.
Qed.

(** A step that leaves the first hop that is not open awaiting its keys
    keeps the shape. *)
Lemma shape_await path k hop :
  building_shape path -> first_not_open path = Some k ->
  path !! k = Some hop ->
  building_shape (<[k := set_hop_state hop CPATH_STATE_AWAITING_KEYS]> path)
  /\ count_open (<[k := set_hop_state hop CPATH_STATE_AWAITING_KEYS]> path)
     = count_open path.
Proof.
  intros Hshape Hk Hhop.
  destruct (first_not_open_split path k Hk)
    as (opens & h & rest & -> & Hopens & Hh & ->).
  rewrite list_lookup_middle in Hhop by reflexivity. injection Hhop as ->.
  pose proof (shape_split _ opens hop rest Hshape eq_refl Hopens Hh) as Hrest.
  rewrite insert_app_r_alt, Nat.sub_diag by lia. cbn [insert list_insert].
  split.
  - exists opens, [set_hop_state hop CPATH_STATE_AWAITING_KEYS], rest.
    split; [reflexivity|]. split; [exact Hopens|].
    split; [repeat constructor|]. split; [exact Hrest|]. cbn. lia.
  - rewrite !count_open_app. f_equal. unfold count_open.
    cbn [List.filter set_hop_state hop_state cpath_state_eqb].
    destruct (hop_state hop); try reflexivity. congruence.
Qed.

(** A step that opens the first hop that is not open, which awaited its
    keys, keeps the shape and adds one open hop. *)
Lemma shape_open path k hop :
  building_shape path -> first_not_open path = Some k ->
  path !! k = Some hop -> awaiting hop ->
  building_shape (<[k := set_hop_state hop CPATH_STATE_OPEN]> path)
  /\ count_open (<[k := set_hop_state hop CPATH_STATE_OPEN]> path)
     = S (count_open path).
Proof.
  intros Hshape Hk Hhop Hw.
  destruct (first_not_open_split path k Hk)
    as (opens & h & rest & -> & Hopens & Hh & ->).
  rewrite list_lookup_middle in Hhop by reflexivity. injection Hhop as ->.
  pose proof (shape_split _ opens hop rest Hshape eq_refl Hopens Hh) as Hrest.
  rewrite insert_app_r_alt, Nat.sub_diag by lia. cbn [insert list_insert].
  split.
  - exists (opens ++ [set_hop_state hop CPATH_STATE_OPEN]), [], rest.
    split; [rewrite <- app_assoc; reflexivity|].
    split; [apply Forall_app; split; [exact Hopens|repeat constructor]|].
    split; [constructor|]. split; [exact Hrest|]. cbn. lia.
  - rewrite !count_open_app. unfold count_open.
    cbn [List.filter set_hop_state hop_state cpath_state_eqb length].
    unfold awaiting in Hw. rewrite Hw. cbn. lia.
Qed.

Section Facts.
Context {D : Type} {DO : DoubleOps D}.
Variable options : or_options_t D.
Variable get_param : string -> Z -> Z -> Z -> Z.
Variable ext : extern_t.
Variable env : step_env D.

Abbreviation origin_at := (@PathBiasFacts.origin_at D).
Abbreviation send_next :=
  (circuit_send_next_onion_skin options get_param ext env).
Abbreviation done := (circuit_done options env).

Lemma bind_lift {A B : Type} (o : option A) (k : A -> M D B) (w : world D) :
  bind (lift o) k w = match o with Some a => k a w | None => None end.
Proof. destruct o; reflexivity. Qed.

Lemma bind_ret {A B : Type} (a : A) (k : A -> M D B) (w : world D) :
  bind (ret a) k w = k a w.
Proof. reflexivity. Qed.

Lemma record_build_time_state c st :
  state (record_build_time env c st) = state st
  /\ can_complete_circuit (record_build_time env c st)
     = can_complete_circuit st.
Proof.
  unfold record_build_time.
  repeat match goal with
         | |- context [if ?b then _ else _] => destruct b
         end; split; reflexivity.
Qed.

Lemma note_can_complete_state c st :
  state (note_can_complete env c st) = state st
  /\ (onehop_tunnel (build_state c) = false
      -> can_complete_circuit (note_can_complete env c st) = true)
  /\ (can_complete_circuit st = true
      -> can_complete_circuit (note_can_complete env c st) = true).
Proof.
  unfold note_can_complete, inform_testing_reachability.
  destruct (can_complete_circuit st) eqn:Hcan;
    destruct (onehop_tunnel (build_state c)); cbn [negb andb];
    repeat match goal with
           | |- context [if ?b then _ else _] => destruct b
           | |- context [match ?o with Some _ => _ | None => _ end] =>
               destruct o as [[? []]|]
           end; cbn; repeat split; intros;
      try reflexivity; try congruence; try discriminate.
Qed.

Lemma fold_notes_state notes : forall st,
  state (fold_left (fun st note => call st (Call_rep_hist note)) notes st)
  = state st
  /\ can_complete_circuit
       (fold_left (fun st note => call st (Call_rep_hist note)) notes st)
     = can_complete_circuit st.
Proof.
  induction notes as [|note notes IH]; intros st; [split; reflexivity|].
  cbn [fold_left]. destruct (IH (call st (Call_rep_hist note))) as [-> ->].
  split; reflexivity.
Qed.

(** The reputation notes depend on the path only. *)
Lemma rep_hist_path sm me nodes (c c' : origin_circuit_t) :
  cpath c' = cpath c ->
  RepHist.circuit_rep_hist_note_result sm me nodes c'
  = RepHist.circuit_rep_hist_note_result sm me nodes c.
Proof.
  intros E. unfold RepHist.circuit_rep_hist_note_result. rewrite E.
  reflexivity.
Qed.

(** The last branch: either the reputation notes crash on a hop without
    [extend_info], or the circuit is open and has opened, with its path
    as it was. *)
Lemma circuit_done_run w i c st :
  origin_at w i c ->
  match RepHist.circuit_rep_hist_note_result (server_mode env)
          (fst <$> my_routerinfo env)
          (fun id => identity <$> node_get_by_id env id) c with
  | None => done i st w = None
  | Some _ =>
      exists st' w' c',
        done i st w = Some ((Step_ok, st'), w')
        /\ origin_at w' i c'
        /\ cpath c' = cpath c
        /\ has_opened c' = true
        /\ state st' = Extend.CIRCUIT_STATE_OPEN
        /\ (onehop_tunnel (build_state c) = false
            -> can_complete_circuit st' = true)
        /\ ext_calls w'
           = ext_calls w
             ++ (if purpose c =? CIRCUIT_PURPOSE_C_MEASURE_TIMEOUT
                 then [Call_circuit_mark_for_close i END_CIRC_REASON_FINISHED]
                 else [])
  end.
Proof.
  intros H. unfold circuit_done.
  rewrite (PathBiasFacts.bind_run _ _ _ _ _
             (PathBiasFacts.run_get_origin _ _ _ H)).
  cbv zeta.
  destruct (PathBiasFacts.pathbias_count_build_success_keeps options w i c H)
    as (w1 & c1 & Hrun & H1 & Hc1 & Hop1 & Hp1 & Hb1 & Hext).
  rewrite (PathBiasFacts.bind_run _ _ _ _ _ Hrun).
  rewrite (PathBiasFacts.bind_run _ _ _ _ _
             (PathBiasFacts.run_get_origin _ _ _ H1)).
  rewrite bind_lift, (rep_hist_path _ _ _ c c1 Hc1).
  destruct (RepHist.circuit_rep_hist_note_result _ _ _ c) as [notes|];
    [|reflexivity].
  rewrite (PathBiasFacts.bind_run _ _ _ _ _
             (PathBiasFacts.run_put_origin _ _ _)).
  set (st1 := call (fold_left _ notes _) Call_circuit_has_opened).
  assert (Hst1 : state st1 = Extend.CIRCUIT_STATE_OPEN).
  { unfold st1. cbn [state call].
    rewrite (proj1 (fold_notes_state notes _)).
    destruct (_ || _); cbn [state call];
      rewrite (proj1 (record_build_time_state _ _)); reflexivity. }
  destruct (note_can_complete_state c1 st1) as (Hs & Hcan & _).
  set (w2 := PathBiasFacts.upd_circ w1 i (circuit_has_opened c1)).
  assert (H2 : origin_at w2 i (circuit_has_opened c1))
    by (eapply PathBiasFacts.origin_at_upd_circ, H1).
  rewrite Hp1.
  destruct (purpose c =? CIRCUIT_PURPOSE_C_MEASURE_TIMEOUT).
  - rewrite (PathBiasFacts.bind_run _ _ _ _ _ (PathBiasFacts.run_emit _ _)).
    eexists _, _, _. split; [reflexivity|]. split; [exact H2|].
    split; [exact Hc1|]. split; [reflexivity|].
    split; [rewrite Hs; exact Hst1|].
    split; [rewrite <- Hb1; exact Hcan|].
    cbn. rewrite Hext. reflexivity.
  - rewrite bind_ret.
    eexists _, _, _. split; [reflexivity|]. split; [exact H2|].
    split; [exact Hc1|]. split; [reflexivity|].
    split; [rewrite Hs; exact Hst1|].
    split; [rewrite <- Hb1; exact Hcan|].
    cbn. rewrite Hext, app_nil_r. reflexivity.
Qed.

(** [circuit_deliver_create_cell] on an origin circuit, branch by
    branch. *)
Lemma circuit_deliver_create_cell_run w i c st cell_type handshake_type :
  origin_at w i c ->
  circuit_deliver_create_cell ext env i st cell_type handshake_type w =
    match n_chan c, CircId.get_unique_circ_id_by_chan (n_chan_ids st) with
    | Some n_chan, Some (id, chan, _) =>
        if id =? 0 then Some ((-1, set_n_chan_ids st chan), w)
        else
          let bound := circuit_set_n_circid_chan (set_n_chan_ids st chan) id in
          if create_cell_format env <? 0 then Some ((-1, bound), w)
          else
            let queued :=
              call bound (Call_append_cell_to_circuit_queue id cell_type
                            handshake_type) in
            match cpath c with
            | [] => None
            | first :: _ =>
                if cpath_state_eqb (hop_state first) CPATH_STATE_CLOSED
                then
                  if negb (channel_is_open n_chan)
                     && tor_fragile_assert_aborts env
                  then None
                  else Some ((0, call (set_no_extended queued 0)
                                   Call_channel_timestamp_client),
                             PathBiasFacts.upd_circ w i
                               (set_timestamp_began c
                                  (tor_gettimeofday ext)))
                else Some ((0, call queued Call_channel_timestamp_client), w)
            end
    | _, _ => None
    end.
Proof.
  intros H. unfold circuit_deliver_create_cell.
  rewrite (PathBiasFacts.bind_run _ _ _ _ _
             (PathBiasFacts.run_get_origin _ _ _ H)).
  rewrite bind_lift. destruct (n_chan c) as [chan0|]; [|reflexivity].
  rewrite bind_lift.
  destruct (CircId.get_unique_circ_id_by_chan (n_chan_ids st))
    as [[[id chan] probes]|]; [|reflexivity].
  destruct (id =? 0); [reflexivity|].
  cbv zeta. destruct (create_cell_format env <? 0); [reflexivity|].
  destruct (cpath c) as [|first rest]; [reflexivity|].
  destruct (cpath_state_eqb (hop_state first) CPATH_STATE_CLOSED);
    [|reflexivity].
  destruct (negb (channel_is_open chan0) && tor_fragile_assert_aborts env);
    reflexivity.
Qed.

(** Whether the first hop is sent a CREATE_FAST cell. *)
Definition fast_first_hop : bool :=
  negb (hop_has_onion_key env 0)
  || (FastFirstHopPK env && negb (public_server_mode env)).

(** The cell the first hop is sent. *)
Definition first_cell : cell_type_t * handshake_type_t :=
  if fast_first_hop
  then (CELL_CREATE_FAST, ONION_HANDSHAKE_TYPE_FAST)
  else if CURVE25519_ENABLED env
          && negb (hop_curve25519_key_is_zero env 0)
          && negb (circuits_can_use_ntor get_param env =? 0)
  then (CELL_CREATE2, ONION_HANDSHAKE_TYPE_NTOR)
  else (CELL_CREATE, ONION_HANDSHAKE_TYPE_TAP).

(** The calls of the first step up to the one to
    [circuit_deliver_create_cell]. *)
Definition first_calls (c : origin_circuit_t) : list step_call :=
  [Call_control_event_bootstrap
     (if onehop_tunnel (build_state c) then BOOTSTRAP_STATUS_ONEHOP_CREATE
      else BOOTSTRAP_STATUS_CIRCUIT_CREATE);
   Call_note_request
     (if fast_first_hop then "cell: create fast" else "cell: create")%string;
   Call_onion_skin_create first_cell.2 0].

(** X30.  The first onion skin.  On a path whose first hop is closed,
    with an [extend_info] for that hop and a channel whose cursor is a
    [uint32_t] value and which is open (or in a build whose
    [tor_fragile_assert] does not abort), [circuit_send_next_onion_skin]
    returns; it sends no relay cell and marks no circuit for close.  It
    asks for a CREATE_FAST cell when the hop has no onion key or when
    FastFirstHopPK is set and this is no public server; otherwise for a
    CREATE2 cell with the ntor handshake when curve25519 is compiled in,
    the hop has a curve25519 key and ntor is switched on, and else for a
    CREATE cell with TAP.  When
    [onion_skin_create] fails it returns -END_CIRC_REASON_INTERNAL and
    nothing has changed but the call log.  Otherwise
    [get_unique_circ_id_by_chan] moves the channel's cursor; when it finds
    no identifier, -END_CIRC_REASON_RESOURCELIMIT is returned.  An
    identifier found was free; it becomes [n_circ_id] and is in use on the
    channel from then on, also when [create_cell_format] fails, in which
    case -END_CIRC_REASON_RESOURCELIMIT is returned and no cell is queued.
    In the three failing cases the origin circuit's own fields and the
    circuit state are as before.  Otherwise the cell is queued under the
    identifier, [no_extended] is 0, [timestamp_began] is now, the first
    hop awaits its keys and the circuit is building. *)
Theorem circuit_send_next_onion_skin_first_hop w i c st first rest chan :
  origin_at w i c -> cpath c = first :: rest -> closed first ->
  n_chan c = Some chan ->
  chan_state chan = CHANNEL_STATE_OPEN
  \/ tor_fragile_assert_aborts env = false ->
  is_Some (extend_info first) ->
  0 <= CircId.next_circ_id (n_chan_ids st) < 2 ^ 32 ->
  exists res st' w' c' id chan1 probes,
    send_next i st w = Some ((res, st'), w')
    /\ origin_at w' i c'
    /\ ext_calls w' = ext_calls w
    /\ CircId.get_unique_circ_id_by_chan (n_chan_ids st)
       = Some (id, chan1, probes)
    /\ can_complete_circuit st' = can_complete_circuit st
    /\ if onion_skin_create env first_cell.2 0 <? 0
       then res = Step_close END_CIRC_REASON_INTERNAL
            /\ c' = c /\ state st' = state st
            /\ n_circ_id st' = n_circ_id st
            /\ n_chan_ids st' = n_chan_ids st
            /\ no_extended st' = no_extended st
            /\ calls st' = calls st ++ first_calls c
       else if id =? 0
       then res = Step_close END_CIRC_REASON_RESOURCELIMIT
            /\ c' = c /\ state st' = state st
            /\ n_circ_id st' = n_circ_id st
            /\ n_chan_ids st' = chan1
            /\ no_extended st' = no_extended st
            /\ calls st' = calls st ++ first_calls c
       else n_circ_id st' = id
            /\ CircId.id_in_use (n_chan_ids st) id = false
            /\ n_chan_ids st' = CircId.bind_circ_id chan1 id
            /\ CircId.id_in_use (n_chan_ids st') id = true
            /\ if create_cell_format env <? 0
               then res = Step_close END_CIRC_REASON_RESOURCELIMIT
                    /\ c' = c /\ state st' = state st
                    /\ no_extended st' = no_extended st
                    /\ calls st' = calls st ++ first_calls c
               else res = Step_ok
                    /\ cpath c'
                       = set_hop_state first CPATH_STATE_AWAITING_KEYS :: rest
                    /\ timestamp_began c' = tor_gettimeofday ext
                    /\ state st' = Extend.CIRCUIT_STATE_BUILDING
                    /\ no_extended st' = 0
                    /\ calls st'
                       = calls st ++ first_calls c
                         ++ [Call_append_cell_to_circuit_queue id
                               first_cell.1 first_cell.2;
                             Call_channel_timestamp_client].
Proof.
  intros H Hpath Hfirst Hchan Hopen [ei Hei] Hnext.
  assert (Hfragile : negb (channel_is_open chan)
                     && tor_fragile_assert_aborts env = false).
  { unfold channel_is_open.
    destruct Hopen as [-> | ->]; [reflexivity|apply andb_false_r]. }
  destruct (ExtendDelivery.get_unique_circ_id_run (n_chan_ids st) Hnext)
    as (id & chan1 & probes & Hid & Huse & _ & Hfree).
  unfold circuit_send_next_onion_skin.
  rewrite (PathBiasFacts.bind_run _ _ _ _ _
             (PathBiasFacts.run_get_origin _ _ _ H)).
  rewrite Hpath. unfold closed in Hfirst. rewrite Hfirst.
  cbn [cpath_state_eqb]. cbv zeta.
  rewrite bind_lift, Hchan, bind_lift.
  unfold should_use_create_fast_for_circuit. rewrite Hpath, Hei.
  assert (Hfast : (if negb (hop_has_onion_key env 0) then Some true
                   else if negb (FastFirstHopPK env) then Some false
                   else if public_server_mode env then Some false
                   else Some true) = Some fast_first_hop).
  { unfold fast_first_hop.
    destruct (hop_has_onion_key env 0), (FastFirstHopPK env),
      (public_server_mode env); reflexivity. }
  rewrite Hfast.
  assert (Hcell : (if negb fast_first_hop
                   then circuit_pick_create_handshake get_param env 0
                   else (CELL_CREATE_FAST, ONION_HANDSHAKE_TYPE_FAST))
                  = first_cell).
  { unfold first_cell, circuit_pick_create_handshake.
    destruct fast_first_hop; reflexivity. }
  rewrite Hcell.
  assert (Hnote : (if negb fast_first_hop then "cell: create"
                   else "cell: create fast")%string
                  = (if fast_first_hop then "cell: create fast"
                     else "cell: create")%string)
    by (destruct fast_first_hop; reflexivity).
  rewrite Hnote. unfold first_calls.
  destruct first_cell as [cell_type handshake_type]. cbn [fst snd].
  set (st0 := call (call (call st _) _) _).
  assert (Hcalls0 : calls st0 = calls st ++ [
            Call_control_event_bootstrap
              (if onehop_tunnel (build_state c)
               then BOOTSTRAP_STATUS_ONEHOP_CREATE
               else BOOTSTRAP_STATUS_CIRCUIT_CREATE);
            Call_note_request
              (if fast_first_hop then "cell: create fast"
               else "cell: create")%string;
            Call_onion_skin_create handshake_type 0]).
  { unfold st0. cbn [calls call]. rewrite <- !app_assoc. reflexivity. }
  destruct (onion_skin_create env handshake_type 0 <? 0).
  { exists (Step_close END_CIRC_REASON_INTERNAL), st0, w, c, id, chan1, probes.
    split; [reflexivity|]. split; [exact H|]. split; [reflexivity|].
    split; [exact Hid|]. split; [reflexivity|].
    do 6 (split; [reflexivity|]). exact Hcalls0. }
  unfold bind at 1.
  rewrite (circuit_deliver_create_cell_run w i c st0 cell_type handshake_type
             H).
  rewrite Hchan. change (n_chan_ids st0) with (n_chan_ids st). rewrite Hid.
  destruct (id =? 0) eqn:E0.
  { exists (Step_close END_CIRC_REASON_RESOURCELIMIT),
      (set_n_chan_ids st0 chan1), w, c, id, chan1, probes.
    split; [reflexivity|]. split; [exact H|]. split; [reflexivity|].
    split; [reflexivity|]. split; [reflexivity|]. rewrite E0.
    do 6 (split; [reflexivity|]). exact Hcalls0. }
  cbv zeta.
  assert (Hbound : CircId.id_in_use (n_chan_ids st) id = false
                   /\ CircId.id_in_use (CircId.bind_circ_id chan1 id) id
                      = true).
  { split; [apply Hfree; lia|]. cbn. rewrite Z.eqb_refl. reflexivity. }
  destruct Hbound as [Hb1 Hb2].
  destruct (create_cell_format env <? 0).
  { exists (Step_close END_CIRC_REASON_RESOURCELIMIT),
      (circuit_set_n_circid_chan (set_n_chan_ids st0 chan1) id), w, c, id,
      chan1, probes.
    split; [reflexivity|]. split; [exact H|]. split; [reflexivity|].
    split; [reflexivity|]. split; [reflexivity|]. rewrite E0.
    split; [reflexivity|]. split; [exact Hb1|]. split; [reflexivity|].
    split; [exact Hb2|].
    do 4 (split; [reflexivity|]). exact Hcalls0. }
  rewrite Hpath, Hfirst, Hfragile. cbn [cpath_state_eqb].
  set (c1 := set_timestamp_began c (tor_gettimeofday ext)).
  assert (H1 : origin_at (PathBiasFacts.upd_circ w i c1) i c1)
    by (eapply PathBiasFacts.origin_at_upd_circ, H).
  cbn [Z.ltb Z.compare].
  rewrite (PathBiasFacts.bind_run _ _ _ _ _
             (PathBiasFacts.run_get_origin _ _ _ H1)).
  rewrite (PathBiasFacts.bind_run _ _ _ _ _
             (PathBiasFacts.run_put_origin _ _ _)).
  eexists Step_ok, _, _, _, id, chan1, probes.
  split; [reflexivity|].
  split; [eapply PathBiasFacts.origin_at_upd_circ, H1|].
  split; [reflexivity|]. split; [reflexivity|]. split; [reflexivity|].
  rewrite E0.
  split; [reflexivity|]. split; [exact Hb1|]. split; [reflexivity|].
  split; [exact Hb2|]. split; [reflexivity|].
  split; [cbn; rewrite Hpath; reflexivity|].
  split; [reflexivity|]. split; [reflexivity|]. split; [reflexivity|].
  cbn [calls call set_state set_no_extended circuit_set_n_circid_chan
       set_n_chan_ids].
  rewrite Hcalls0, <- !app_assoc. reflexivity.
Qed.

(** What the hop at position [k] is sent through the hop before it. *)
Definition extend_cell (c : origin_circuit_t) (k : nat)
  : relay_command_t * cell_type_t * handshake_type_t :=
  circuit_pick_extend_handshake get_param env
    (prev ← cpath c !! (k - 1)%nat;
     prev_ei ← extend_info prev;
     node_get_by_id env (identity_digest prev_ei)) k.

(** The step on a path whose first hop is open and that has a hop left
    that is not. *)
Lemma send_next_extend_run w i c st opens hop rest ei prev_ei :
  origin_at w i c -> cpath c = opens ++ hop :: rest ->
  opens <> [] -> Forall open opens ->
  hop_state hop <> CPATH_STATE_OPEN ->
  state st = Extend.CIRCUIT_STATE_BUILDING ->
  extend_info hop = Some ei ->
  (extend_info <$> last opens) = Some (Some prev_ei) ->
  exists res st' w' c',
    send_next i st w = Some ((res, st'), w')
    /\ origin_at w' i c'
    /\ ext_calls w' = ext_calls w
    /\ state st' = state st
    /\ res = (if negb (hop_addr_is_ipv4 env (length opens))
                 || (onion_skin_create env (extend_cell c (length opens)).2
                       (length opens) <? 0)
                 || (extend_cell_format env <? 0)
              then Step_close END_CIRC_REASON_INTERNAL
              else Step_ok)
    /\ cpath c'
       = (if negb (hop_addr_is_ipv4 env (length opens))
             || (onion_skin_create env (extend_cell c (length opens)).2
                   (length opens) <? 0)
             || (extend_cell_format env <? 0)
             || (relay_send_command_from_edge env <? 0)
          then cpath c
          else opens ++ set_hop_state hop CPATH_STATE_AWAITING_KEYS :: rest).
Proof.
  intros H Hpath Hne Hopens Hhop Hst Hei Hprev.
  unfold circuit_send_next_onion_skin.
  rewrite (PathBiasFacts.bind_run _ _ _ _ _
             (PathBiasFacts.run_get_origin _ _ _ H)).
  assert (Hk : first_not_open (cpath c) = Some (length opens))
    by (rewrite Hpath; apply HandshakeFacts.first_not_open_prefix; assumption).
  assert (Hlook : cpath c !! length opens = Some hop)
    by (rewrite Hpath; apply list_lookup_middle; reflexivity).
  assert (Hlast : cpath c !! (length opens - 1)%nat = last opens).
  { rewrite Hpath, lookup_app_l
      by (destruct opens; [congruence|cbn; lia]).
    rewrite last_lookup. f_equal. lia. }
  unfold extend_cell. rewrite Hlast.
  destruct (last opens) as [prev|] eqn:Hl; [|discriminate].
  injection Hprev as Hprev. cbn [mbind option_bind]. rewrite Hprev.
  cbn [mbind option_bind].
  destruct (cpath c) as [|first path] eqn:Hc.
  { destruct opens; discriminate. }
  assert (Hfirst : hop_state first = CPATH_STATE_OPEN).
  { destruct opens as [|o opens]; [congruence|].
    injection Hpath as -> _. apply Forall_cons in Hopens as [Ho _].
    exact Ho. }
  rewrite Hfirst. cbn [cpath_state_eqb negb]. rewrite Hst, Hk.
  rewrite bind_lift, Hlook, bind_lift, Hei.
  destruct (hop_addr_is_ipv4 env (length opens)); cbn [negb orb].
  2: { eexists _, _, _, _. split; [reflexivity|]. split; [exact H|].
       split; [reflexivity|]. split; [exact Hst|].
       split; [reflexivity|]. exact Hc. }
  rewrite bind_lift, Hlast, bind_lift, Hprev.
  destruct (circuit_pick_extend_handshake get_param env
              (node_get_by_id env (identity_digest prev_ei)) (length opens))
    as [[command create_cell_type] handshake_type].
  cbv zeta. cbn [fst snd].
  destruct (onion_skin_create env handshake_type (length opens) <? 0);
    cbn [orb].
  { eexists _, _, _, _. split; [reflexivity|]. split; [exact H|].
    split; [reflexivity|]. split; [exact Hst|].
    split; [reflexivity|]. exact Hc. }
  destruct (extend_cell_format env <? 0); cbn [orb].
  { eexists _, _, _, _. split; [reflexivity|]. split; [exact H|].
    split; [reflexivity|]. split; [exact Hst|].
    split; [reflexivity|]. exact Hc. }
  destruct (relay_send_command_from_edge env <? 0).
  { eexists _, _, _, _. split; [reflexivity|]. split; [exact H|].
    split; [reflexivity|]. split; [exact Hst|].
    split; [reflexivity|]. exact Hc. }
  rewrite (PathBiasFacts.bind_run _ _ _ _ _
             (PathBiasFacts.run_put_origin _ _ _)).
  eexists _, _, _, _. split; [reflexivity|].
  split; [eapply PathBiasFacts.origin_at_upd_circ, H|].
  split; [reflexivity|]. split; [exact Hst|]. split; [reflexivity|].
  cbn [cpath PathBuild.set_cpath]. rewrite Hpath.
  rewrite insert_app_r_alt, Nat.sub_diag by lia. reflexivity.
Qed.

(** What a step can do to the path, if it returns at all: nothing, or
    leave the first hop that is not open awaiting its keys. *)
Lemma send_next_effect w i c st res w' :
  origin_at w i c ->
  send_next i st w = Some (res, w') ->
  exists c',
    origin_at w' i c'
    /\ (cpath c' = cpath c
        \/ exists k hop,
             first_not_open (cpath c) = Some k /\ cpath c !! k = Some hop
             /\ cpath c'
                = <[k := set_hop_state hop CPATH_STATE_AWAITING_KEYS]>
                    (cpath c)).
Proof.
  intros H. unfold circuit_send_next_onion_skin.
  rewrite (PathBiasFacts.bind_run _ _ _ _ _
             (PathBiasFacts.run_get_origin _ _ _ H)).
  destruct (cpath c) as [|first path] eqn:Hc; [discriminate|].
  destruct (hop_state first) eqn:Hfirst; cbn [cpath_state_eqb negb].
  - (* closed *)
    cbv zeta. rewrite bind_lift.
    destruct (n_chan c) eqn:Hn; [|discriminate]. rewrite bind_lift.
    destruct (should_use_create_fast_for_circuit env c) as [fast|];
      [|discriminate].
    destruct (if negb fast then _ else _) as [cell_type handshake_type].
    destruct (onion_skin_create env handshake_type 0 <? 0).
    { intros [= <- <-]. exists c. split; [exact H|]. left. exact Hc. }
    unfold bind at 1.
    rewrite (circuit_deliver_create_cell_run w i c _ cell_type
               handshake_type H).
    rewrite Hn.
    destruct (CircId.get_unique_circ_id_by_chan _)
      as [[[id chan] probes]|]; [|discriminate].
    destruct (id =? 0).
    { intros [= <- <-]. exists c. split; [exact H|]. left. exact Hc. }
    cbv zeta. destruct (create_cell_format env <? 0).
    { intros [= <- <-]. exists c. split; [exact H|]. left. exact Hc. }
    rewrite Hc, Hfirst. cbn [cpath_state_eqb].
    destruct (negb (channel_is_open _) && tor_fragile_assert_aborts env);
      [discriminate|].
    cbn [Z.ltb Z.compare].
    set (c1 := set_timestamp_began c (tor_gettimeofday ext)).
    assert (H1 : origin_at (PathBiasFacts.upd_circ w i c1) i c1)
      by (eapply PathBiasFacts.origin_at_upd_circ, H).
    rewrite (PathBiasFacts.bind_run _ _ _ _ _
               (PathBiasFacts.run_get_origin _ _ _ H1)).
    rewrite (PathBiasFacts.bind_run _ _ _ _ _
               (PathBiasFacts.run_put_origin _ _ _)).
    intros [= <- <-]. eexists.
    split; [eapply PathBiasFacts.origin_at_upd_circ, H1|].
    right. exists O, first. cbn [PathBuild.first_not_open].
    rewrite Hfirst. cbn [cpath_state_eqb negb].
    split; [reflexivity|]. split; [reflexivity|].
    cbn. rewrite Hc. reflexivity.
  - discriminate.
  - (* open *)
    destruct (state st); try discriminate.
    destruct (first_not_open (first :: path)) as [k|] eqn:Hk.
    + rewrite bind_lift.
      destruct ((first :: path) !! k) as [hop|] eqn:Hhop; [|discriminate].
      rewrite bind_lift. destruct (extend_info hop); [|discriminate].
      destruct (negb (hop_addr_is_ipv4 env k)).
      { intros [= <- <-]. exists c. split; [exact H|]. left. exact Hc. }
      rewrite bind_lift.
      destruct ((first :: path) !! (k - 1)%nat) as [prev|]; [|discriminate].
      rewrite bind_lift. destruct (extend_info prev); [|discriminate].
      destruct (circuit_pick_extend_handshake _ _ _ _)
        as [[command create_cell_type] handshake_type].
      cbv zeta.
      destruct (onion_skin_create env handshake_type k <? 0).
      { intros [= <- <-]. exists c. split; [exact H|]. left. exact Hc. }
      destruct (extend_cell_format env <? 0).
      { intros [= <- <-]. exists c. split; [exact H|]. left. exact Hc. }
      destruct (relay_send_command_from_edge env <? 0).
      { intros [= <- <-]. exists c. split; [exact H|]. left. exact Hc. }
      rewrite (PathBiasFacts.bind_run _ _ _ _ _
                 (PathBiasFacts.run_put_origin _ _ _)).
      intros [= <- <-]. eexists.
      split; [eapply PathBiasFacts.origin_at_upd_circ, H|].
      right. exists k, hop. split; [reflexivity|]. split; [exact Hhop|].
      reflexivity.
    + pose proof (circuit_done_run w i c st H) as Hdone.
      destruct (RepHist.circuit_rep_hist_note_result _ _ _ c).
      * destruct Hdone as (st' & w1 & c' & -> & Hat & Hpath & _).
        intros [= <- <-]. exists c'. split; [exact Hat|]. left.
        rewrite Hpath. exact Hc.
      * rewrite Hdone. discriminate.
Qed.

Lemma note_loop_total nodes : forall hops prev,
  Forall (fun hop => is_Some (extend_info hop)) hops ->
  is_Some (RepHist.note_loop nodes hops prev).
Proof.
  induction hops as [|hop hops IH]; intros prev Hei; [cbn; eauto|].
  apply Forall_cons in Hei as [[ei Hei] Hrest].
  cbn [RepHist.note_loop]. rewrite Hei. cbn [mbind option_bind].
  destruct (nodes (identity_digest ei)) as [node|]; [|apply IH, Hrest].
  destruct prev as [prev|]; [|apply IH, Hrest].
  destruct (cpath_state_eqb _ _); [|eauto].
  destruct (IH (Some node) Hrest) as [calls ->]. cbn. eauto.
Qed.

(** X29.  The last step and the two assertions.  When every hop is open
    and has an [extend_info] and the circuit is building,
    [circuit_send_next_onion_skin] returns 0 with the circuit open and
    marked as having opened, its path unchanged; the only call through
    the accountant is [circuit_mark_for_close] with reason FINISHED, made
    exactly for a circuit that measures timeouts; and
    [can_complete_circuit] is set unless the circuit is a one-hop tunnel.
    The step crashes on an assertion when the first hop awaits its keys,
    and when the first hop is open while the circuit is not building. *)
Theorem circuit_send_next_onion_skin_last w i c st :
  origin_at w i c ->
  (cpath c <> [] -> Forall open (cpath c) ->
   Forall (fun hop => is_Some (extend_info hop)) (cpath c) ->
   state st = Extend.CIRCUIT_STATE_BUILDING ->
   exists st' w' c',
     send_next i st w = Some ((Step_ok, st'), w')
     /\ origin_at w' i c'
     /\ cpath c' = cpath c
     /\ has_opened c' = true
     /\ state st' = Extend.CIRCUIT_STATE_OPEN
     /\ (onehop_tunnel (build_state c) = false
         -> can_complete_circuit st' = true)
     /\ ext_calls w'
        = ext_calls w
          ++ (if purpose c =? CIRCUIT_PURPOSE_C_MEASURE_TIMEOUT
              then [Call_circuit_mark_for_close i END_CIRC_REASON_FINISHED]
              else []))
  /\ (forall first rest,
         cpath c = first :: rest -> awaiting first ->
         send_next i st w = None)
  /\ (forall first rest,
         cpath c = first :: rest -> open first ->
         state st <> Extend.CIRCUIT_STATE_BUILDING ->
         send_next i st w = None).
Proof.
  intros H. unfold circuit_send_next_onion_skin.
  rewrite (PathBiasFacts.bind_run _ _ _ _ _
             (PathBiasFacts.run_get_origin _ _ _ H)).
  split; [|split].
  - intros Hne Hopen Hei Hst.
    rewrite (HandshakeFacts.first_not_open_none _ Hopen), Hst.
    pose proof (circuit_done_run w i c st H) as Hdone.
    assert (Hnotes : is_Some
              (RepHist.circuit_rep_hist_note_result (server_mode env)
                 (fst <$> my_routerinfo env)
                 (fun id => identity <$> node_get_by_id env id) c)).
    { unfold RepHist.circuit_rep_hist_note_result.
      destruct (cpath c) eqn:Hc; [eauto|]. rewrite <- Hc in *.
      destruct (server_mode env); [|apply note_loop_total, Hei].
      destruct (fst <$> my_routerinfo env); [|eauto].
      apply note_loop_total, Hei. }
    destruct Hnotes as [notes Hnotes]. rewrite Hnotes in Hdone.
    destruct (cpath c) as [|first rest] eqn:Hc; [congruence|].
    apply Forall_cons in Hopen as [Hfirst _]. rewrite Hfirst.
    cbn [cpath_state_eqb negb]. exact Hdone.
  - intros first rest -> Hfirst. unfold awaiting in Hfirst.
    rewrite Hfirst. reflexivity.
  - intros first rest -> Hfirst Hst. unfold HandshakeFacts.open in Hfirst.
    rewrite Hfirst. cbn [cpath_state_eqb negb].
    destruct (state st);
      first [reflexivity | exfalso; apply Hst; reflexivity].
Qed.

Section Replies.
Variable cipher : Type.
Variable crypto_cipher_new : list Z -> option cipher.

Abbreviation finish_handshake :=
  (Handshake.circuit_finish_handshake cipher crypto_cipher_new options
     get_param ext).

(** What a reply can do to the path, if its handling returns at all:
    nothing, or open the first hop that is not open, which awaited its
    keys; the latter exactly when 0 is returned. *)
Lemma finish_handshake_effect w i c handshake keys r keys' w' :
  origin_at w i c ->
  finish_handshake i handshake keys w = Some ((r, keys'), w') ->
  exists c',
    origin_at w' i c'
    /\ ((r <> 0 /\ cpath c' = cpath c)
        \/ (r = 0
            /\ exists k hop,
                 first_not_open (cpath c) = Some k
                 /\ cpath c !! k = Some hop /\ awaiting hop
                 /\ cpath c'
                    = <[k := set_hop_state hop CPATH_STATE_OPEN]>
                        (cpath c))).
Proof.
  intros H.
  destruct (PathBiasFacts.pathbias_count_build_attempt_keeps options
              get_param ext w i c H)
    as (r0 & w1 & c1 & Hrun & H1 & Hc1 & Hr0 & _ & _).
  unfold Handshake.circuit_finish_handshake.
  rewrite (PathBiasFacts.bind_run _ _ _ _ _ Hrun).
  destruct Hr0 as [-> | ->].
  2: { cbn. intros [= <- <- <-]. exists c1. split; [exact H1|].
       left. split; [discriminate|exact Hc1]. }
  cbn [Z.ltb Z.compare].
  rewrite (PathBiasFacts.bind_run _ _ _ _ _
             (PathBiasFacts.run_get_origin _ _ _ H1)).
  rewrite Hc1.
  destruct (cpath c) as [|first path] eqn:Hc; [discriminate|].
  assert (Hk : forall k,
             (if cpath_state_eqb (hop_state first) CPATH_STATE_AWAITING_KEYS
              then Some O else first_not_open (first :: path)) = Some k ->
             first_not_open (first :: path) = Some k).
  { intros k. cbn [PathBuild.first_not_open].
    destruct (hop_state first); cbn [cpath_state_eqb negb]; auto. }
  destruct (if cpath_state_eqb (hop_state first) CPATH_STATE_AWAITING_KEYS
            then Some O else first_not_open (first :: path)) as [k|].
  2: { intros [= <- <- <-]. exists c1. split; [exact H1|].
       left. split; [discriminate|congruence]. }
  specialize (Hk k eq_refl).
  destruct ((first :: path) !! k) as [hop|] eqn:Hhop; [|discriminate].
  destruct (keys !! k) as [hop_keys|]; [|discriminate].
  destruct (hop_state hop) eqn:Hstate; cbn [cpath_state_eqb negb];
    try discriminate.
  destruct handshake as [key_data|].
  2: { intros [= <- <- <-]. exists c1. split; [exact H1|].
       left. split; [discriminate|congruence]. }
  destruct (Handshake.circuit_init_cpath_crypto _ _ _ _ _)
    as [[r1 hk]|]; [|discriminate].
  destruct (r1 <? 0).
  { intros [= <- <- <-]. exists c1. split; [exact H1|].
    left. split; [discriminate|congruence]. }
  rewrite (PathBiasFacts.bind_run _ _ _ _ _
             (PathBiasFacts.run_put_origin _ _ _)).
  intros [= <- <- <-]. eexists.
  split; [eapply PathBiasFacts.origin_at_upd_circ, H1|].
  right. split; [reflexivity|]. exists k, hop.
  split; [exact Hk|]. split; [exact Hhop|]. split; [exact Hstate|].
  reflexivity.
Qed.

(** X27.  Both steps of the construction keep the shape of the path:
    open hops, then at most one hop awaiting its keys, then closed hops.
    [circuit_send_next_onion_skin] neither opens nor closes a hop;
    [circuit_finish_handshake] opens exactly one hop when it returns 0
    and none otherwise; neither changes the number of hops. *)
Theorem build_steps_keep_shape w i c :
  origin_at w i c -> building_shape (cpath c) ->
  (forall st res w',
      send_next i st w = Some (res, w') ->
      exists c',
        origin_at w' i c' /\ building_shape (cpath c')
        /\ count_open (cpath c') = count_open (cpath c)
        /\ length (cpath c') = length (cpath c))
  /\ (forall handshake keys r keys' w',
         finish_handshake i handshake keys w = Some ((r, keys'), w') ->
         exists c',
           origin_at w' i c' /\ building_shape (cpath c')
           /\ count_open (cpath c')
              = (if r =? 0 then S (count_open (cpath c))
                 else count_open (cpath c))
           /\ length (cpath c') = length (cpath c)).
Proof.
  intros H Hshape. split.
  - intros st res w' Hrun.
    destruct (send_next_effect w i c st res w' H Hrun)
      as (c' & Hat & [Hsame | (k & hop & Hk & Hhop & Hnew)]).
    + exists c'. rewrite Hsame. auto.
    + exists c'. rewrite Hnew.
      destruct (shape_await _ k hop Hshape Hk Hhop) as [Hs Hc].
      split; [exact Hat|]. split; [exact Hs|]. split; [exact Hc|].
      apply length_insert.
  - intros handshake keys r keys' w' Hrun.
    destruct (finish_handshake_effect w i c handshake keys r keys' w' H Hrun)
      as (c' & Hat & [[Hr Hsame] | (-> & k & hop & Hk & Hhop & Hw & Hnew)]).
    + exists c'. rewrite Hsame.
      destruct (Z.eqb_spec r 0); [contradiction|]. auto.
    + exists c'. rewrite Hnew.
      destruct (shape_open _ k hop Hshape Hk Hhop Hw) as [Hs Hc].
      split; [exact Hat|]. split; [exact Hs|]. split; [exact Hc|].
      apply length_insert.
Qed.

(** X28.  One round of the construction.  On a building circuit whose
    open hops are followed by a closed hop, with the collaborators
    succeeding, [circuit_send_next_onion_skin] returns 0 and leaves the
    circuit building; [circuit_finish_handshake] for the reply then opens
    that hop and no other.  The one exception is the second hop, where
    the attempt counting may return -END_CIRC_REASON_TORPROTOCOL and the
    hop stays awaiting its keys. *)
Theorem build_round w i c st opens hop rest ei prev_ei key_data keys :
  origin_at w i c ->
  cpath c = opens ++ hop :: rest ->
  opens <> [] -> Forall open opens -> closed hop ->
  state st = Extend.CIRCUIT_STATE_BUILDING ->
  extend_info hop = Some ei ->
  (extend_info <$> last opens) = Some (Some prev_ei) ->
  hop_addr_is_ipv4 env (length opens) = true ->
  (forall t, 0 <= onion_skin_create env t (length opens)) ->
  0 <= extend_cell_format env ->
  0 <= relay_send_command_from_edge env ->
  keys !! length opens = Some (HandshakeFacts.no_keys cipher) ->
  is_Some (crypto_cipher_new (Handshake.bytes_at key_data 40 16)) ->
  is_Some (crypto_cipher_new (Handshake.bytes_at key_data 56 16)) ->
  exists st1 w1 r keys' w2 c2,
    send_next i st w = Some ((Step_ok, st1), w1)
    /\ state st1 = Extend.CIRCUIT_STATE_BUILDING
    /\ finish_handshake i (Some key_data) keys w1 = Some ((r, keys'), w2)
    /\ origin_at w2 i c2
    /\ ((r = 0
         /\ cpath c2 = opens ++ set_hop_state hop CPATH_STATE_OPEN :: rest)
        \/ (r = - END_CIRC_REASON_TORPROTOCOL /\ length opens = 1%nat
            /\ cpath c2
               = opens ++ set_hop_state hop CPATH_STATE_AWAITING_KEYS
                            :: rest)).
Proof.
  intros H Hpath Hne Hopens Hhop Hst Hei Hprev Hv4 Hskin Hfmt Hsend Hkeys
    [fc Hfc] [bc Hbc].
  destruct (send_next_extend_run w i c st opens hop rest ei prev_ei H Hpath
              Hne Hopens ltac:(rewrite Hhop; discriminate) Hst Hei Hprev)
    as (res & st1 & w1 & c1 & Hrun & H1 & _ & Hst1 & Hres & Hc1).
  rewrite Hv4 in Hres, Hc1. cbn [negb orb] in Hres, Hc1.
  destruct (Z.ltb_spec (onion_skin_create env
                          (extend_cell c (length opens)).2 (length opens)) 0)
    as [Hneg|_];
    [specialize (Hskin (extend_cell c (length opens)).2); lia|].
  destruct (Z.ltb_spec (extend_cell_format env) 0) as [Hneg|_]; [lia|].
  destruct (Z.ltb_spec (relay_send_command_from_edge env) 0) as [Hneg|_];
    [lia|].
  cbn [orb] in Hres, Hc1. subst res.
  destruct (HandshakeFacts.circuit_finish_handshake_run cipher
              crypto_cipher_new options get_param ext w1 i c1 opens
              (set_hop_state hop CPATH_STATE_AWAITING_KEYS) rest
              (Some key_data) keys H1 Hc1 Hopens eq_refl Hkeys)
    as (r & keys' & w2 & c2 & Hrun2 & H2 & Hr & Hc2 & _ & Hok & _).
  exists st1, w1, r, keys', w2, c2.
  split; [exact Hrun|]. split; [rewrite Hst1; exact Hst|].
  split; [exact Hrun2|]. split; [exact H2|].
  destruct Hr as [-> | ->].
  - left. split; [reflexivity|]. exact Hc2.
  - right. split; [reflexivity|].
    cbn in Hc2. rewrite Hc2, Hc1.
    split; [|reflexivity].
    destruct opens as [|o1 [|o2 opens]]; [congruence|reflexivity|].
    exfalso.
    assert (Hnew : pathbias_is_new_circ_attempt c1 = false).
    { unfold pathbias_is_new_circ_attempt. rewrite Hc1. cbn [app].
      apply Forall_cons in Hopens as [_ Hopens].
      apply Forall_cons in Hopens as [Ho2 _]. rewrite Ho2. reflexivity. }
    assert (Hzero : - END_CIRC_REASON_TORPROTOCOL = 0).
    { apply Hok; [exact Hnew|].
      eexists key_data, _. split; [reflexivity|].
      exists fc, bc. split; [exact Hfc|]. split; [exact Hbc|reflexivity]. }
    discriminate Hzero.
Qed.

End Replies.

End Facts.

(** *** A client building a three-hop circuit *)

Import PathBiasScenarios.

(** Every collaborator succeeds; this Tor is a client with ntor left to
    the consensus. *)
Definition client_env : step_env PrimFloat.float :=
  mk_step_env true (-1) true false false
    (fun _ => true) (fun _ => false) (fun _ => true)
    (fun id => Some (mk_node id true true))
    (fun _ _ => 186) 0 true 0 0 1500 60000%float false true None true.

Definition closed_hop (id : list Z) : crypt_path_t :=
  mk_hop CPATH_STATE_CLOSED (Some (mk_extend_info id)).

(** The circuit with its path chosen and the channel to the guard open. *)
Definition chosen_circuit : origin_circuit_t :=
  mk_origin CIRCUIT_PURPOSE_C_GENERAL 0 (Some open_channel) 0 0
    [closed_hop guard_id; closed_hop middle_id; closed_hop exit_id]
    (mk_build_state false 3) false PATH_STATE_NEW_CIRC
    PATHBIAS_SHOULDCOUNT_UNDECIDED 0 0 1.

(** The circuit after the guard has answered. *)
Definition one_hop_open : origin_circuit_t :=
  mk_origin CIRCUIT_PURPOSE_C_GENERAL 0 (Some open_channel) 0 0
    [open_hop guard_id; closed_hop middle_id; closed_hop exit_id]
    (mk_build_state false 3) false PATH_STATE_NEW_CIRC
    PATHBIAS_SHOULDCOUNT_UNDECIDED 0 0 1.

(** The allocator side of the channel to the guard: this Tor holds the
    lower identifiers, 1 and 2 are taken and the cursor stands at 1. *)
Definition guard_channel_ids : CircId.channel_t :=
  CircId.mk_channel CircId.CIRC_ID_TYPE_LOWER false 1 (fun id => id <? 3).

Definition waiting_state : step_state :=
  mk_step_state Extend.CIRCUIT_STATE_CHAN_WAIT false [] 0 guard_channel_ids 1.
Definition building_state : step_state :=
  mk_step_state Extend.CIRCUIT_STATE_BUILDING false [] 3
    (CircId.bind_circ_id guard_channel_ids 3) 0.

(** The first step of that circuit: a CREATE_FAST cell goes out under
    identifier 3, the first one free on the channel. *)
Lemma circuit_send_next_onion_skin_first_hop_witness :
  exists st' w' c',
    circuit_send_next_onion_skin default_options no_params sample_extern
      client_env 0 waiting_state (world_of chosen_circuit fresh_guard)
    = Some ((Step_ok, st'), w')
    /\ PathBiasFacts.origin_at w' 0 c'
    /\ cpath c'
       = [mk_hop CPATH_STATE_AWAITING_KEYS (Some (mk_extend_info guard_id));
          closed_hop middle_id; closed_hop exit_id]
    /\ state st' = Extend.CIRCUIT_STATE_BUILDING
    /\ n_circ_id st' = 3
    /\ CircId.id_in_use (n_chan_ids st') 3 = true
    /\ In (Call_append_cell_to_circuit_queue 3 CELL_CREATE_FAST
             ONION_HANDSHAKE_TYPE_FAST) (calls st').
Proof.
  destruct (circuit_send_next_onion_skin_first_hop default_options no_params
              sample_extern client_env
              (world_of chosen_circuit fresh_guard) 0%nat chosen_circuit
              waiting_state (closed_hop guard_id)
              [closed_hop middle_id; closed_hop exit_id]
              open_channel eq_refl eq_refl eq_refl eq_refl
              ltac:(left; reflexivity)
              ltac:(eexists; reflexivity) ltac:(cbn; lia))
    as (res & st' & w' & c' & id & chan1 & probes & Hrun & Hat & _ & Hid & _
        & Hpost).
  assert (Eid : id = 3) by (vm_compute in Hid; congruence). subst id.
  change (onion_skin_create client_env (first_cell no_params client_env).2 0
          <? 0) with false in Hpost.
  cbn [Z.eqb] in Hpost.
  destruct Hpost as (Hcid & _ & _ & Huse & Hpost).
  change (create_cell_format client_env <? 0) with false in Hpost.
  destruct Hpost as (-> & Hpath & _ & Hst & _ & Hcalls).
  exists st', w', c'. split; [exact Hrun|]. split; [exact Hat|].
  split; [exact Hpath|]. split; [exact Hst|]. split; [exact Hcid|].
  split; [exact Huse|]. rewrite Hcalls. apply in_or_app. right.
  apply in_or_app. right. left. reflexivity.
Defined.

Lemma building_circuit_shape : building_shape (cpath building_circuit).
Proof.
  exists [open_hop guard_id],
    [mk_hop CPATH_STATE_AWAITING_KEYS (Some (mk_extend_info middle_id))],
    [mk_hop CPATH_STATE_CLOSED (Some (mk_extend_info exit_id))].
  split; [reflexivity|]. repeat split; repeat constructor.
Qed.

Lemma build_steps_keep_shape_witness :
  let w := world_of building_circuit fresh_guard in
  (forall st res w',
      circuit_send_next_onion_skin default_options no_params sample_extern
        client_env 0 st w = Some (res, w') ->
      exists c',
        PathBiasFacts.origin_at w' 0 c' /\ building_shape (cpath c')
        /\ count_open (cpath c') = count_open (cpath building_circuit)
        /\ length (cpath c') = length (cpath building_circuit))
  /\ (forall handshake keys r keys' w',
         Handshake.circuit_finish_handshake (list Z)
           HandshakeFacts.plain_cipher_new default_options no_params
           sample_extern 0 handshake keys w = Some ((r, keys'), w') ->
         exists c',
           PathBiasFacts.origin_at w' 0 c' /\ building_shape (cpath c')
           /\ count_open (cpath c')
              = (if r =? 0 then S (count_open (cpath building_circuit))
                 else count_open (cpath building_circuit))
           /\ length (cpath c') = length (cpath building_circuit)).
Proof.
  intros w.
  apply (build_steps_keep_shape default_options no_params sample_extern
           client_env (list Z) HandshakeFacts.plain_cipher_new w 0%nat
           building_circuit).
  - reflexivity.
  - exact building_circuit_shape.
Defined.

Lemma build_round_witness :
  exists st1 w1 r keys' w2 c2,
    circuit_send_next_onion_skin default_options no_params sample_extern
      client_env 0 building_state (world_of one_hop_open fresh_guard)
    = Some ((Step_ok, st1), w1)
    /\ state st1 = Extend.CIRCUIT_STATE_BUILDING
    /\ Handshake.circuit_finish_handshake (list Z)
         HandshakeFacts.plain_cipher_new default_options no_params
         sample_extern 0 (Some HandshakeFacts.key_material)
         (repeat (HandshakeFacts.no_keys (list Z)) 3) w1
       = Some ((r, keys'), w2)
    /\ PathBiasFacts.origin_at w2 0 c2
    /\ ((r = 0
         /\ cpath c2
            = [open_hop guard_id] ++
              set_hop_state (closed_hop middle_id) CPATH_STATE_OPEN
              :: [closed_hop exit_id])
        \/ (r = - END_CIRC_REASON_TORPROTOCOL
            /\ length [open_hop guard_id] = 1%nat
            /\ cpath c2
               = [open_hop guard_id] ++
                 set_hop_state (closed_hop middle_id)
                   CPATH_STATE_AWAITING_KEYS
                 :: [closed_hop exit_id])).
Proof.
  apply (build_round default_options no_params sample_extern client_env
           (list Z) HandshakeFacts.plain_cipher_new
           (world_of one_hop_open fresh_guard) 0%nat one_hop_open
           building_state [open_hop guard_id] (closed_hop middle_id)
           [closed_hop exit_id] (mk_extend_info middle_id)
           (mk_extend_info guard_id)).
  - reflexivity.
  - reflexivity.
  - discriminate.
  - repeat constructor.
  - reflexivity.
  - reflexivity.
  - reflexivity.
  - reflexivity.
  - reflexivity.
  - intros t. cbn. lia.
  - cbn. lia.
  - cbn. lia.
  - reflexivity.
  - eexists. reflexivity.
  - eexists. reflexivity.
Defined.

Lemma circuit_send_next_onion_skin_last_witness :
  exists st' w' c',
    circuit_send_next_onion_skin default_options no_params sample_extern
      client_env 0 building_state
      (world_of (built_circuit PATH_STATE_BUILD_ATTEMPTED) fresh_guard)
    = Some ((Step_ok, st'), w')
    /\ PathBiasFacts.origin_at w' 0 c'
    /\ cpath c' = cpath (built_circuit PATH_STATE_BUILD_ATTEMPTED)
    /\ has_opened c' = true
    /\ state st' = Extend.CIRCUIT_STATE_OPEN
    /\ can_complete_circuit st' = true
    /\ ext_calls w' = [].
Proof.
  destruct (circuit_send_next_onion_skin_last default_options no_params
              sample_extern client_env
              (world_of (built_circuit PATH_STATE_BUILD_ATTEMPTED)
                 fresh_guard)
              0%nat (built_circuit PATH_STATE_BUILD_ATTEMPTED)
              building_state eq_refl)
    as [Hlast _].
  destruct Hlast as (st' & w' & c' & Hrun & Hat & Hpath & Hop & Hst & Hcan
                     & Hext).
  - discriminate.
  - repeat constructor.
  - repeat constructor; eexists; reflexivity.
  - reflexivity.
  - exists st', w', c'. repeat split; try assumption.
    apply Hcan. reflexivity.
Defined.

End BuildStepFacts.
